(** * sdlwork.c: the SDL OSD work-queue engine

    A shallow embedding of [src/osd/sdl/sdlwork.c] (scalable lock, work
    queue, work items, drain loop) and the properties of its specification.

    - integers are [Z] with the C type's wrap-around written out;
    - the C heap is a finite map from addresses to typed objects;
    - every C function is a function of an explicit machine state in a
      small state-and-fault monad; loops whose trip count is not fixed by
      their arguments take fuel;
    - the scalable lock is additionally given an interleaving semantics
      ([Module LockProtocol]) with one atomic instruction per step. *)

From Stdlib Require Import ZArith Lia Ascii String.
From stdpp Require Import base tactics option list gmap strings.

Local Open Scope Z_scope.

(** ** C scalars *)

Definition TRUE : Z := 1.
Definition FALSE : Z := 0.
Definition NULL : Z := 0.

(** #define MAX_THREADS (16) *)
Definition MAX_THREADS : Z := 16.

(** Conversion of a mathematical integer to INT32 / UINT32 / UINT8. *)
Definition wrap32 (z : Z) : Z := (z + 2 ^ 31) mod 2 ^ 32 - 2 ^ 31.
Definition to_u32 (z : Z) : Z := z mod 2 ^ 32.
Definition to_u8 (z : Z) : Z := z mod 2 ^ 8.

Definition INT32_MAX : Z := 2 ^ 31 - 1.

(** C truth value of a comparison. *)
Definition b2z (b : bool) : Z := if b then TRUE else FALSE.

(** ** Atomic primitives

    Modelled from the spec: [osinline.h] is not part of the sources; the
    platform abstraction lists [atomic_cas_i32] and [atomic_add_i32].  A
    primitive is given as a function of the current content of the cell: it
    yields the value returned to the caller and the new content.  The add
    returns the updated value: [scalable_lock_acquire] subtracts one from it
    to obtain the ticket, and the first ticket is slot 0. *)

Definition osd_compare_exchange32 (cur compare exchange : Z) : Z * Z :=
  (cur, if cur =? compare then exchange else cur).

Definition osd_sync_add (cur delta : Z) : Z * Z :=
  let v := wrap32 (cur + delta) in (v, v).

(** INLINE INT32 osd_interlocked_increment(INT32 volatile *ptr) *)
Definition osd_interlocked_increment (cur : Z) : Z * Z := osd_sync_add cur 1.

(** INLINE INT32 osd_interlocked_decrement(INT32 volatile *ptr) *)
Definition osd_interlocked_decrement (cur : Z) : Z * Z := osd_sync_add cur (-1).

(** INLINE INT32 osd_interlocked_add(INT32 volatile *ptr, INT32 add) *)
Definition osd_interlocked_add (cur add : Z) : Z * Z := osd_sync_add cur add.

(** INLINE INT32 osd_exchange32(INT32 volatile *ptr, INT32 exchange)

    [do { origvalue = *ptr; } while (cas(ptr, origvalue, exchange) != origvalue)]
    run by one thread with nobody in between: the compare-exchange sees the
    value just read, so the body runs once.  [LockProtocol] below splits the
    read and the compare-exchange into two steps and keeps the retry. *)
Definition osd_exchange32 (cur exchange : Z) : Z * Z :=
  let origvalue := cur in
  let '(_, new) := osd_compare_exchange32 cur origvalue exchange in
  (origvalue, new).

(** ** The scalable lock *)

(** struct _scalable_lock: the [haslock] word of each of the 16 slots (the
    60 filler bytes carry no data) and [nextindex]. *)
Record scalable_lock := mkLock {
  slot : list Z;
  nextindex : Z
}.

Definition slot_get (l : scalable_lock) (i : Z) : Z :=
  default FALSE (slot l !! Z.to_nat i).

Definition slot_set (l : scalable_lock) (i : Z) (v : Z) : scalable_lock :=
  {| slot := <[Z.to_nat i := v]> (slot l); nextindex := nextindex l |}.

(** INLINE void scalable_lock_init(scalable_lock *lock) *)
Definition scalable_lock_init : scalable_lock :=
  slot_set {| slot := replicate (Z.to_nat MAX_THREADS) 0; nextindex := 0 |} 0 TRUE.

(** Line 193 of [scalable_lock_acquire]: take a ticket. *)
Definition acquire_ticket (l : scalable_lock) : Z * scalable_lock :=
  let '(v, n') := osd_interlocked_increment (nextindex l) in
  (Z.land (wrap32 (v - 1)) (MAX_THREADS - 1), {| slot := slot l; nextindex := n' |}).

(** Line 196: one evaluation of the compare-exchange of the spin loop.  The
    first component is the value the loop condition negates. *)
Definition acquire_try (myslot : Z) (l : scalable_lock) : Z * scalable_lock :=
  let '(old, new) := osd_compare_exchange32 (slot_get l myslot) TRUE FALSE in
  (old, slot_set l myslot new).

(** The slot a release hands the baton to. *)
Definition release_target (myslot : Z) : Z :=
  Z.land (myslot + 1) (MAX_THREADS - 1).

(** Line 208, the body of [scalable_lock_release]. *)
Definition release_exchange (l : scalable_lock) (myslot : Z) : scalable_lock :=
  let '(_, new) := osd_exchange32 (slot_get l (release_target myslot)) TRUE in
  slot_set l (release_target myslot) new.

(** The ticket handed to the [k]-th caller of [scalable_lock_acquire]
    (counting from 0) and the lock after [k] tickets were taken. *)
Definition after_tickets (k : nat) (l : scalable_lock) : scalable_lock :=
  Nat.iter k (λ l', snd (acquire_ticket l')) l.

Definition nth_ticket (k : nat) (l : scalable_lock) : Z :=
  fst (acquire_ticket (after_tickets k l)).

(** Number of elements of a list that satisfy a test. *)
Fixpoint count_if {A} (f : A → bool) (l : list A) : nat :=
  match l with
  | [] => O
  | x :: l' => (Nat.b2n (f x) + count_if f l')%nat
  end.

(** Number of slots whose [haslock] is true. *)
Definition batons (l : scalable_lock) : nat :=
  count_if (λ v, negb (v =? FALSE)) (slot l).

(** *** Interleaving semantics of the lock

    Each thread runs [for (;;) { s = scalable_lock_acquire(l); ...;
    scalable_lock_release(l, s); }], the only way the file uses the lock
    (lines 489-492 and 684-696).  A step is one atomic instruction of one
    thread; a schedule is the list of the threads that move. *)
Module LockProtocol.

Inductive pc :=
| Idle                                  (* outside the lock *)
| Spinning (myslot : Z) (backoff : Z)   (* ticket taken, about to run line 196 *)
| Critical (myslot : Z)                 (* acquire returned; release about to read *)
| Exchanging (myslot : Z) (origvalue : Z). (* release read origvalue, cas pending *)

Record sys := mkSys { lk : scalable_lock; pcs : list pc }.

Definition set_pc (s : sys) (t : nat) (p : pc) (l : scalable_lock) : sys :=
  {| lk := l; pcs := <[t := p]> (pcs s) |}.

Definition step (t : nat) (s : sys) : sys :=
  match pcs s !! t with
  | None => s
  | Some Idle =>
      let '(myslot, l') := acquire_ticket (lk s) in
      set_pc s t (Spinning myslot 1) l'
  | Some (Spinning myslot backoff) =>
      let '(old, l') := acquire_try myslot (lk s) in
      if old =? 0
      then set_pc s t (Spinning myslot (wrap32 (Z.shiftl backoff 1))) l'
      else set_pc s t (Critical myslot) l'
  | Some (Critical myslot) =>
      set_pc s t (Exchanging myslot (slot_get (lk s) (release_target myslot))) (lk s)
  | Some (Exchanging myslot origvalue) =>
      let '(old, new) :=
        osd_compare_exchange32 (slot_get (lk s) (release_target myslot)) origvalue TRUE in
      if old =? origvalue
      then set_pc s t Idle (slot_set (lk s) (release_target myslot) new)
      else set_pc s t (Critical myslot) (slot_set (lk s) (release_target myslot) new)
  end.

Definition init (nthreads : nat) : sys :=
  {| lk := scalable_lock_init; pcs := replicate nthreads Idle |}.

Definition run (sched : list nat) (s : sys) : sys :=
  foldl (λ s' t, step t s') s sched.

(** A thread holds the baton from the successful compare-exchange of its
    acquire to the successful compare-exchange of its release. *)
Definition holding (p : pc) : bool :=
  match p with
  | Critical _ | Exchanging _ _ => true
  | _ => false
  end.

Definition holders (s : sys) : nat := count_if holding (pcs s).

(** The slot a thread is about to release into, if it is releasing. *)
Definition releasing_into (p : pc) : option Z :=
  match p with
  | Critical myslot | Exchanging myslot _ => Some (release_target myslot)
  | _ => None
  end.

(** The baton is in exactly one place: in a slot, or with the thread
    between its acquire and its release.  Slots only hold 0 or 1. *)
Definition baton_inv (s : sys) : Prop :=
  length (slot (lk s)) = Z.to_nat MAX_THREADS ∧
  Forall (λ v, v = FALSE ∨ v = TRUE) (slot (lk s)) ∧
  (batons (lk s) + holders s = 1)%nat.

End LockProtocol.

(** ** Objects of the C heap *)

(** A value of type [osd_work_item **]: where a link to an item is stored. *)
Inductive link_loc :=
| LocNull                  (* the null pointer *)
| LocList (queue : Z)      (* &queue->list *)
| LocNext (item : Z)       (* &item->next *)
| LocItemlist.             (* &itemlist, the local of osd_work_item_queue_multiple *)

(** struct _osd_work_item.  A callback is a function of its parameter. *)
Record osd_work_item := mkItem {
  it_next : Z;
  it_queue : Z;
  it_callback : Z → Z;
  it_param : Z;
  it_result : Z;
  it_event : Z;
  it_flags : Z;
  it_done : Z
}.

(** struct _mame_thread_info (KEEP_STATISTICS is 0). *)
Record mame_thread_info := mkThread {
  th_queue : Z;
  th_handle : Z;
  th_wakeevent : Z;
  th_active : Z
}.

(** struct _osd_work_queue (KEEP_STATISTICS is 0). *)
Record osd_work_queue := mkQueue {
  q_lock : scalable_lock;
  q_list : Z;
  q_tailptr : link_loc;
  q_free : Z;
  q_items : Z;
  q_livethreads : Z;
  q_waiting : Z;
  q_exiting : Z;
  q_threads : Z;
  q_flags : Z;
  q_thread : Z;
  q_doneevent : Z
}.

(** Modelled from the spec: [osd_event] of [sdlsync.h], which is not part of
    the sources: an event is manual-reset or auto-reset, and signalled or
    not. *)
Record osd_event := mkEvent {
  ev_manualreset : Z;
  ev_signalled : Z
}.

Inductive object :=
| OQueue (q : osd_work_queue)
| OItem (it : osd_work_item)
| OThreads (arr : list mame_thread_info)   (* the array queue->thread *)
| OEvent (ev : osd_event)
| OThread (param : Z * Z).                 (* an osd_thread running
                                              worker_thread_entry(&array[index]) *)

(** What the calling thread does that another thread can observe, in
    program order. *)
Inductive effect :=
| EvCallback (item param : Z)       (* item->callback is called on item->param *)
| EvResult (item v : Z)             (* item->result = v *)
| EvItems (queue delta : Z)         (* osd_sync_add(&queue->items, delta) *)
| EvDone (item v : Z)               (* item->done = v *)
| EvWaiting (queue v : Z)           (* queue->waiting = v *)
| EvEventSet (event : Z)
| EvEventReset (event : Z)
| EvEventWait (event timeout : Z).

(** The machine: the heap, the allocator (the next fresh address, and
    whether each of the coming allocation requests succeeds: when the list
    is exhausted, memory is), the tick counter and the effects so far. *)
Record machine := mkMachine {
  heap : gmap Z object;
  brk : Z;
  supply : list bool;
  clock : Z;
  trace : list effect
}.

(** The host of the work queue: the constants of [osdcore.h], the process
    environment, the C library and the platform layer, none of which is
    part of the sources, and the rest of the program. *)
Class Platform := {
  WORK_QUEUE_FLAG_IO : Z;
  WORK_QUEUE_FLAG_MULTI : Z;
  WORK_ITEM_FLAG_AUTO_RELEASE : Z;
  (* osd_num_processors() *)
  osd_num_processors : Z;
  (* getenv(name) *)
  getenv : string → option string;
  (* sscanf(s, "%d", &n): [Some n] when it returns 1 *)
  sscanf_d : string → option Z;
  (* osd_ticks_per_second() *)
  osd_ticks_per_second : Z;
  (* what the other threads do to the heap while this one yields or blocks *)
  others : gmap Z object → gmap Z object
}.

(** ** The monad of C functions *)

Inductive outcome (A : Type) :=
| Ret (a : A) (m : machine)   (* the function returns [a] *)
| Fault                       (* access to a null, freed or out-of-scope object *)
| OutOfFuel.                  (* a loop ran longer than the fuel *)
Arguments Ret {A} a m.
Arguments Fault {A}.
Arguments OutOfFuel {A}.

Definition M (A : Type) : Type := machine → outcome A.

Definition ret {A} (a : A) : M A := λ m, Ret a m.

Definition bind {A B} (c : M A) (k : A → M B) : M B :=
  λ m, match c m with
       | Ret a m' => k a m'
       | Fault => Fault
       | OutOfFuel => OutOfFuel
       end.

Notation "x <- c ; k" := (bind c (λ x, k))
  (at level 20, c at level 100, k at level 200,
   format "'[v' x  <-  c ; '/' k ']'").

Definition fault {A} : M A := λ _, Fault.
Definition out_of_fuel {A} : M A := λ _, OutOfFuel.

(** A loop: the body yields [inl s'] to go round again and [inr a] to
    leave with [a]. *)
Fixpoint loop {S A} (fuel : nat) (body : S → M (S + A)) (s : S) : M A :=
  match fuel with
  | O => out_of_fuel
  | S fuel' =>
      r <- body s;
      match r with
      | inl s' => loop fuel' body s'
      | inr a => ret a
      end
  end.

(** [for (i = from; i < from + count; i++) body(i)]; the body yields
    [Some a] to leave the enclosing function with [a]. *)
Fixpoint for_loop {A} (count : nat) (from : Z) (body : Z → M (option A)) : M (option A) :=
  match count with
  | O => ret None
  | S count' =>
      r <- body from;
      match r with
      | Some a => ret (Some a)
      | None => for_loop count' (from + 1) body
      end
  end.

(** *** Memory accesses *)

Definition set_heap (h : gmap Z object) (m : machine) : machine :=
  {| heap := h; brk := brk m; supply := supply m; clock := clock m; trace := trace m |}.

Definition emit (e : effect) : M unit :=
  λ m, Ret tt {| heap := heap m; brk := brk m; supply := supply m; clock := clock m;
                 trace := trace m ++ [e] |}.

Definition load_queue (p : Z) : M osd_work_queue :=
  λ m, match heap m !! p with Some (OQueue q) => Ret q m | _ => Fault end.

Definition load_item (p : Z) : M osd_work_item :=
  λ m, match heap m !! p with Some (OItem it) => Ret it m | _ => Fault end.

Definition load_threads (p : Z) : M (list mame_thread_info) :=
  λ m, match heap m !! p with Some (OThreads arr) => Ret arr m | _ => Fault end.

Definition load_event (p : Z) : M osd_event :=
  λ m, match heap m !! p with Some (OEvent ev) => Ret ev m | _ => Fault end.

Definition store (p : Z) (o : object) : M unit :=
  λ m, Ret tt (set_heap (<[p := o]> (heap m)) m).

Definition modify_queue (p : Z) (f : osd_work_queue → osd_work_queue) : M unit :=
  q <- load_queue p; store p (OQueue (f q)).

Definition modify_item (p : Z) (f : osd_work_item → osd_work_item) : M unit :=
  it <- load_item p; store p (OItem (f it)).

Definition modify_event (p : Z) (f : osd_event → osd_event) : M unit :=
  ev <- load_event p; store p (OEvent (f ev)).

(** [&array[index]]: a pointer to a thread record is the array and the index. *)
Definition load_thread (p : Z * Z) : M mame_thread_info :=
  arr <- load_threads (fst p);
  match arr !! Z.to_nat (snd p) with
  | Some th => if 0 <=? snd p then ret th else fault
  | None => fault
  end.

Definition modify_thread (p : Z * Z) (f : mame_thread_info → mame_thread_info) : M unit :=
  arr <- load_threads (fst p);
  th <- load_thread p;
  store (fst p) (OThreads (<[Z.to_nat (snd p) := f th]> arr)).

(** An allocation request ([malloc], [osd_event_alloc], [osd_thread_create]):
    a fresh object, or NULL. *)
Definition alloc (o : object) : M Z :=
  λ m, match supply m with
       | true :: rest =>
           Ret (brk m) {| heap := <[brk m := o]> (heap m); brk := brk m + 1;
                          supply := rest; clock := clock m; trace := trace m |}
       | false :: rest =>
           Ret NULL {| heap := heap m; brk := brk m; supply := rest;
                       clock := clock m; trace := trace m |}
       | [] => Ret NULL m
       end.

(** [free(p)] of an allocated object. *)
Definition dealloc (p : Z) : M unit :=
  λ m, match heap m !! p with
       | Some _ => Ret tt (set_heap (delete p (heap m)) m)
       | None => Fault
       end.

(** *** Field updates *)

Definition set_q_lock (v : scalable_lock) (q : osd_work_queue) : osd_work_queue :=
  mkQueue v (q_list q) (q_tailptr q) (q_free q) (q_items q) (q_livethreads q)
    (q_waiting q) (q_exiting q) (q_threads q) (q_flags q) (q_thread q) (q_doneevent q).
Definition set_q_list (v : Z) (q : osd_work_queue) : osd_work_queue :=
  mkQueue (q_lock q) v (q_tailptr q) (q_free q) (q_items q) (q_livethreads q)
    (q_waiting q) (q_exiting q) (q_threads q) (q_flags q) (q_thread q) (q_doneevent q).
Definition set_q_tailptr (v : link_loc) (q : osd_work_queue) : osd_work_queue :=
  mkQueue (q_lock q) (q_list q) v (q_free q) (q_items q) (q_livethreads q)
    (q_waiting q) (q_exiting q) (q_threads q) (q_flags q) (q_thread q) (q_doneevent q).
Definition set_q_free (v : Z) (q : osd_work_queue) : osd_work_queue :=
  mkQueue (q_lock q) (q_list q) (q_tailptr q) v (q_items q) (q_livethreads q)
    (q_waiting q) (q_exiting q) (q_threads q) (q_flags q) (q_thread q) (q_doneevent q).
Definition set_q_items (v : Z) (q : osd_work_queue) : osd_work_queue :=
  mkQueue (q_lock q) (q_list q) (q_tailptr q) (q_free q) v (q_livethreads q)
    (q_waiting q) (q_exiting q) (q_threads q) (q_flags q) (q_thread q) (q_doneevent q).
Definition set_q_waiting (v : Z) (q : osd_work_queue) : osd_work_queue :=
  mkQueue (q_lock q) (q_list q) (q_tailptr q) (q_free q) (q_items q) (q_livethreads q)
    v (q_exiting q) (q_threads q) (q_flags q) (q_thread q) (q_doneevent q).
Definition set_q_exiting (v : Z) (q : osd_work_queue) : osd_work_queue :=
  mkQueue (q_lock q) (q_list q) (q_tailptr q) (q_free q) (q_items q) (q_livethreads q)
    (q_waiting q) v (q_threads q) (q_flags q) (q_thread q) (q_doneevent q).
Definition set_q_threads (v : Z) (q : osd_work_queue) : osd_work_queue :=
  mkQueue (q_lock q) (q_list q) (q_tailptr q) (q_free q) (q_items q) (q_livethreads q)
    (q_waiting q) (q_exiting q) v (q_flags q) (q_thread q) (q_doneevent q).
Definition set_q_flags (v : Z) (q : osd_work_queue) : osd_work_queue :=
  mkQueue (q_lock q) (q_list q) (q_tailptr q) (q_free q) (q_items q) (q_livethreads q)
    (q_waiting q) (q_exiting q) (q_threads q) v (q_thread q) (q_doneevent q).
Definition set_q_thread (v : Z) (q : osd_work_queue) : osd_work_queue :=
  mkQueue (q_lock q) (q_list q) (q_tailptr q) (q_free q) (q_items q) (q_livethreads q)
    (q_waiting q) (q_exiting q) (q_threads q) (q_flags q) v (q_doneevent q).
Definition set_q_doneevent (v : Z) (q : osd_work_queue) : osd_work_queue :=
  mkQueue (q_lock q) (q_list q) (q_tailptr q) (q_free q) (q_items q) (q_livethreads q)
    (q_waiting q) (q_exiting q) (q_threads q) (q_flags q) (q_thread q) v.

Definition set_it_next (v : Z) (it : osd_work_item) : osd_work_item :=
  mkItem v (it_queue it) (it_callback it) (it_param it) (it_result it) (it_event it)
    (it_flags it) (it_done it).
Definition set_it_queue (v : Z) (it : osd_work_item) : osd_work_item :=
  mkItem (it_next it) v (it_callback it) (it_param it) (it_result it) (it_event it)
    (it_flags it) (it_done it).
Definition set_it_callback (v : Z → Z) (it : osd_work_item) : osd_work_item :=
  mkItem (it_next it) (it_queue it) v (it_param it) (it_result it) (it_event it)
    (it_flags it) (it_done it).
Definition set_it_param (v : Z) (it : osd_work_item) : osd_work_item :=
  mkItem (it_next it) (it_queue it) (it_callback it) v (it_result it) (it_event it)
    (it_flags it) (it_done it).
Definition set_it_result (v : Z) (it : osd_work_item) : osd_work_item :=
  mkItem (it_next it) (it_queue it) (it_callback it) (it_param it) v (it_event it)
    (it_flags it) (it_done it).
Definition set_it_event (v : Z) (it : osd_work_item) : osd_work_item :=
  mkItem (it_next it) (it_queue it) (it_callback it) (it_param it) (it_result it) v
    (it_flags it) (it_done it).
Definition set_it_flags (v : Z) (it : osd_work_item) : osd_work_item :=
  mkItem (it_next it) (it_queue it) (it_callback it) (it_param it) (it_result it) (it_event it)
    v (it_done it).
Definition set_it_done (v : Z) (it : osd_work_item) : osd_work_item :=
  mkItem (it_next it) (it_queue it) (it_callback it) (it_param it) (it_result it) (it_event it)
    (it_flags it) v.

Definition set_th_queue (v : Z) (th : mame_thread_info) : mame_thread_info :=
  mkThread v (th_handle th) (th_wakeevent th) (th_active th).
Definition set_th_handle (v : Z) (th : mame_thread_info) : mame_thread_info :=
  mkThread (th_queue th) v (th_wakeevent th) (th_active th).
Definition set_th_wakeevent (v : Z) (th : mame_thread_info) : mame_thread_info :=
  mkThread (th_queue th) (th_handle th) v (th_active th).

(** [memset(p, 0, sizeof *p)] of a queue, an item and a thread record. *)
Definition queue_zero : osd_work_queue :=
  mkQueue (mkLock (replicate (Z.to_nat MAX_THREADS) 0) 0) NULL LocNull NULL 0 0 0 0 0 0 NULL NULL.
Definition thread_zero : mame_thread_info := mkThread NULL NULL NULL 0.

(** The content of a block that [malloc] returns is indeterminate; the
    sources write every field of an item before reading it. *)
Definition item_fresh : osd_work_item := mkItem NULL NULL (λ _, 0) 0 0 NULL 0 0.

(** ** The program *)

Section Program.
Context {host : Platform}.

(** *** The platform layer

    Modelled from the spec: the events, threads and clock of the platform
    abstraction ([sdlsync.h], [osdcore.h]), which are not part of the
    sources.  [event_alloc(manual_reset, initially_signalled)] yields a
    handle or null; a wait on an event that is not signalled lets the other
    threads run; an auto-reset event is reset by the wait it satisfies. *)

Definition osd_event_alloc (manualreset initialstate : Z) : M Z :=
  alloc (OEvent (mkEvent manualreset initialstate)).

Definition osd_event_set (event : Z) : M unit :=
  _ <- modify_event event (λ ev, mkEvent (ev_manualreset ev) TRUE);
  emit (EvEventSet event).

Definition osd_event_reset (event : Z) : M unit :=
  _ <- modify_event event (λ ev, mkEvent (ev_manualreset ev) FALSE);
  emit (EvEventReset event).

Definition osd_event_free (event : Z) : M unit :=
  _ <- load_event event;
  dealloc event.

(** The other threads run. *)
Definition interfere : M unit :=
  λ m, Ret tt (set_heap (others (heap m)) m).

Definition osd_event_wait (event timeout : Z) : M Z :=
  ev <- load_event event;
  _ <- emit (EvEventWait event timeout);
  _ <- (if ev_signalled ev =? 0 then interfere else ret tt);
  ev <- load_event event;
  if ev_signalled ev =? 0 then ret FALSE
  else
    _ <- (if ev_manualreset ev =? 0
          then modify_event event (λ ev, mkEvent (ev_manualreset ev) FALSE)
          else ret tt);
    ret TRUE.

Definition osd_ticks : M Z := λ m, Ret (clock m) m.

(** A yield lets the other threads run, and time passes. *)
Definition osd_yield_processor : M unit :=
  _ <- interfere;
  λ m, Ret tt {| heap := heap m; brk := brk m; supply := supply m;
                 clock := clock m + 1; trace := trace m |}.

(** [osd_thread_create(worker_thread_entry, thread)] *)
Definition osd_thread_create (param : Z * Z) : M Z :=
  alloc (OThread param).

Definition osd_thread_adjust_priority (thread : Z) (adjust : Z) : M Z :=
  ret TRUE.

(** Joins the thread and frees its handle. *)
Definition osd_thread_wait_free (thread : Z) : M unit :=
  _ <- interfere;
  dealloc thread.

(** [for (i = from; i < from + count; i++) body(i)] without an early exit. *)
Fixpoint for_each (count : nat) (from : Z) (body : Z → M unit) : M unit :=
  match count with
  | O => ret tt
  | S count' => _ <- body from; for_each count' (from + 1) body
  end.

(** *** The scalable lock inside a queue

    [lock] is the first member of [struct _osd_work_queue]: the address of
    a queue is the address of its lock. *)

(** INT32 scalable_lock_acquire(scalable_lock *lock) *)
Definition scalable_lock_acquire (fuel : nat) (lock : Z) : M Z :=
  q <- load_queue lock;
  let '(myslot, l') := acquire_ticket (q_lock q) in
  _ <- modify_queue lock (set_q_lock l');
  loop fuel (λ backoff,
    q <- load_queue lock;
    let '(old, l') := acquire_try myslot (q_lock q) in
    _ <- modify_queue lock (set_q_lock l');
    if old =? 0
    then
      _ <- for_each (Z.to_nat backoff) 0 (λ _, osd_yield_processor);
      ret (inl (wrap32 (Z.shiftl backoff 1)))
    else ret (inr myslot)) 1.

(** void scalable_lock_release(scalable_lock *lock, INT32 myslot) *)
Definition scalable_lock_release (lock : Z) (myslot : Z) : M unit :=
  q <- load_queue lock;
  modify_queue lock (set_q_lock (release_exchange (q_lock q) myslot)).

(** [k] critical sections one after the other on the calling thread; the
    result is the list of the tickets that the acquires returned. *)
Fixpoint lock_rounds (fuel : nat) (k : nat) (lock : Z) : M (list Z) :=
  match k with
  | O => ret []
  | S k' =>
      myslot <- scalable_lock_acquire fuel lock;
      _ <- scalable_lock_release lock myslot;
      rest <- lock_rounds fuel k' lock;
      ret (myslot :: rest)
  end.

(** *** Stores that other threads wait for *)

(** [item->result = v] *)
Definition store_result (item v : Z) : M unit :=
  _ <- modify_item item (set_it_result v);
  emit (EvResult item v).

(** [item->done = v] *)
Definition store_done (item v : Z) : M unit :=
  _ <- modify_item item (set_it_done (to_u8 v));
  emit (EvDone item v).

(** [queue->waiting = v] *)
Definition store_waiting (queue v : Z) : M unit :=
  _ <- modify_queue queue (set_q_waiting (to_u8 v));
  emit (EvWaiting queue v).

(** [osd_sync_add(&queue->items, delta)] *)
Definition sync_add_items (queue delta : Z) : M Z :=
  q <- load_queue queue;
  let '(v, new) := osd_sync_add (q_items q) delta in
  _ <- modify_queue queue (set_q_items new);
  _ <- emit (EvItems queue delta);
  ret v.

(** [osd_compare_exchange_ptr(&queue->free, compare, exchange)].
    Modelled from the spec: [atomic_cas_ptr] of the platform abstraction. *)
Definition compare_exchange_free (queue compare exchange : Z) : M Z :=
  q <- load_queue queue;
  let '(old, new) := osd_compare_exchange32 (q_free q) compare exchange in
  _ <- modify_queue queue (set_q_free new);
  ret old.

(** *** osd_work_item_wait *)

Definition osd_work_item_wait (fuel : nat) (item : Z) (timeout : Z) : M Z :=
  it <- load_item item;
  (* if we're done already, just return *)
  if negb (it_done it =? 0) then ret TRUE else
  (* if we don't have an event, create one *)
  _ <- (if it_event it =? NULL
        then
          event <- osd_event_alloc TRUE FALSE;
          modify_item item (set_it_event event)
        else osd_event_reset (it_event it));
  it <- load_item item;
  _ <- (if it_event it =? NULL
        then
          (* if we don't have an event, we need to spin *)
          now <- osd_ticks;
          let stopspin := now + timeout in
          loop fuel (λ _ : unit,
            it <- load_item item;
            now <- osd_ticks;
            if (it_done it =? 0) && (now <? stopspin)
            then _ <- osd_yield_processor; ret (inl tt)
            else ret (inr tt)) tt
        else if it_done it =? 0
        then
          (* otherwise, block on the event until done *)
          _ <- osd_event_wait (it_event it) timeout; ret tt
        else ret tt);
  it <- load_item item;
  ret (it_done it).

(** *** osd_work_item_result *)

Definition osd_work_item_result (item : Z) : M Z :=
  it <- load_item item;
  ret (it_result it).

(** *** osd_work_item_release *)

Definition osd_work_item_release (fuel : nat) (item : Z) : M unit :=
  (* make sure we're done first *)
  _ <- osd_work_item_wait fuel item (100 * osd_ticks_per_second);
  (* add us to the free list on our queue *)
  loop fuel (λ _ : unit,
    it <- load_item item;
    q <- load_queue (it_queue it);
    let next := q_free q in
    _ <- modify_item item (set_it_next next);
    old <- compare_exchange_free (it_queue it) next item;
    if old =? next then ret (inr tt) else ret (inl tt)) tt.

(** *** worker_thread_process *)

(** The critical section of lines 686-694: pull the item from the queue. *)
Definition pull_item (queue : Z) : M Z :=
  q <- load_queue queue;
  let item := q_list q in
  _ <- (if item =? NULL then ret tt
        else
          it <- load_item item;
          _ <- modify_queue queue (set_q_list (it_next it));
          q <- load_queue queue;
          if q_list q =? NULL
          then modify_queue queue (set_q_tailptr (LocList queue))
          else ret tt);
  ret item.

(** Lines 701-715: call the callback and publish the completion. *)
Definition complete_item (fuel : nat) (queue item : Z) : M unit :=
  it <- load_item item;
  (* call the callback and stash the result *)
  _ <- emit (EvCallback item (it_param it));
  _ <- store_result item (it_callback it (it_param it));
  _ <- sync_add_items queue (-1);
  _ <- store_done item TRUE;
  it <- load_item item;
  (* if it's an auto-release item, release it *)
  if negb (Z.land (it_flags it) WORK_ITEM_FLAG_AUTO_RELEASE =? 0)
  then osd_work_item_release fuel item
  (* set the result and signal the event *)
  else if negb (it_event it =? NULL)
  then osd_event_set (it_event it)
  else ret tt.

(** Lines 678-721: the test and the body of [while (queue->items != 0)]. *)
Definition drain_round (fuel : nat) (queue : Z) (_ : unit) : M (unit + unit) :=
  q <- load_queue queue;
  if q_items q =? 0 then ret (inr tt) else
  (* use a critical section to synchronize the removal of items *)
  lockslot <- scalable_lock_acquire fuel queue;
  item <- pull_item queue;
  _ <- scalable_lock_release queue lockslot;
  (* process non-NULL items *)
  _ <- (if item =? NULL then ret tt else complete_item fuel queue item);
  ret (inl tt).

Definition worker_thread_process (fuel : nat) (queue : Z) (thread : Z * Z) : M unit :=
  (* loop until everything is processed *)
  _ <- loop fuel (drain_round fuel queue) tt;
  (* we don't need to set the doneevent for multi queues because they spin *)
  q <- load_queue queue;
  if negb (q_waiting q =? 0) then osd_event_set (q_doneevent q) else ret tt.

(** *** osd_work_queue_items *)

Definition osd_work_queue_items (queue : Z) : M Z :=
  q <- load_queue queue;
  ret (q_items q).

(** *** osd_work_queue_wait *)

(** Lines 333-343, the end of [osd_work_queue_wait]: the wait for the done
    event. *)
Definition wait_for_done (queue : Z) (timeout : Z) : M Z :=
  (* reset our done event and double-check the items before waiting *)
  q <- load_queue queue;
  _ <- osd_event_reset (q_doneevent q);
  _ <- store_waiting queue TRUE;
  q <- load_queue queue;
  _ <- (if q_items q =? 0 then ret tt
        else _ <- osd_event_wait (q_doneevent q) timeout; ret tt);
  _ <- store_waiting queue FALSE;
  (* return TRUE if we actually hit 0 *)
  q <- load_queue queue;
  ret (b2z (q_items q =? 0)).

Definition osd_work_queue_wait (fuel : nat) (queue : Z) (timeout : Z) : M Z :=
  q <- load_queue queue;
  (* if no threads, no waiting *)
  if q_threads q =? 0 then ret TRUE else
  (* if no items, we're done *)
  if q_items q =? 0 then ret TRUE else
  (* if this is a multi queue, help out rather than doing nothing *)
  if negb (Z.land (q_flags q) WORK_QUEUE_FLAG_MULTI =? 0)
  then
    (* process what we can as a worker thread *)
    _ <- worker_thread_process fuel queue (q_thread q, q_threads q);
    ret TRUE
  else wait_for_done queue timeout.

(** *** osd_work_queue_free *)

(** [while (head != NULL) { item = head; head = item->next; ...free... }]
    for [head] one of [queue->free] and [queue->list] (lines 410-427). *)
Definition free_items (fuel : nat) (queue : Z)
    (head : osd_work_queue → Z) (set_head : Z → osd_work_queue → osd_work_queue) : M unit :=
  loop fuel (λ _ : unit,
    q <- load_queue queue;
    if head q =? NULL then ret (inr tt) else
    let item := head q in
    it <- load_item item;
    _ <- modify_queue queue (set_head (it_next it));
    _ <- (if negb (it_event it =? NULL) then osd_event_free (it_event it) else ret tt);
    _ <- dealloc item;
    ret (inl tt)) tt.

Definition osd_work_queue_free (fuel : nat) (queue : Z) : M unit :=
  q <- load_queue queue;
  (* if we have threads, clean them up *)
  _ <- (if (0 <? q_threads q) && negb (q_thread q =? NULL)
        then
          (* signal all the threads to exit *)
          _ <- modify_queue queue (set_q_exiting TRUE);
          _ <- for_each (Z.to_nat (q_threads q)) 0 (λ threadnum,
                 th <- load_thread (q_thread q, threadnum);
                 if negb (th_wakeevent th =? NULL)
                 then osd_event_set (th_wakeevent th)
                 else ret tt);
          (* wait for all the threads to go away *)
          _ <- for_each (Z.to_nat (q_threads q)) 0 (λ threadnum,
                 th <- load_thread (q_thread q, threadnum);
                 (* block on the thread going away, then close the handle *)
                 _ <- (if negb (th_handle th =? NULL)
                       then osd_thread_wait_free (th_handle th)
                       else ret tt);
                 (* clean up the wake event *)
                 if negb (th_wakeevent th =? NULL)
                 then osd_event_free (th_wakeevent th)
                 else ret tt);
          (* free the list *)
          dealloc (q_thread q)
        else ret tt);
  (* free all the events *)
  q <- load_queue queue;
  _ <- (if negb (q_doneevent q =? NULL) then osd_event_free (q_doneevent q) else ret tt);
  (* free all items in the free list *)
  _ <- free_items fuel queue q_free set_q_free;
  (* free all items in the active list *)
  _ <- free_items fuel queue q_list set_q_list;
  (* free the queue itself *)
  dealloc queue.

(** *** osd_work_item_queue_multiple *)

(** The locals of the function that the item loop updates. *)
Record submit_locals := mkLocals {
  itemlist : Z;
  item_tailptr : link_loc;
  parambase : Z
}.

(** Lines 458-461: try the free list first. *)
Definition pop_free (fuel : nat) (queue : Z) : M Z :=
  loop fuel (λ _ : unit,
    q <- load_queue queue;
    let item := q_free q in
    if item =? NULL then ret (inr item) else
    it <- load_item item;
    old <- compare_exchange_free queue item (it_next it);
    if old =? item then ret (inr item) else ret (inl tt)) tt.

(** [*item_tailptr = item] (line 483); yields the new value of [itemlist]. *)
Definition store_link_local (p : link_loc) (v : Z) (itemlist : Z) : M Z :=
  match p with
  | LocNull => fault
  | LocList queue => _ <- modify_queue queue (set_q_list v); ret itemlist
  | LocNext item => _ <- modify_item item (set_it_next v); ret itemlist
  | LocItemlist => ret v
  end.

(** [*queue->tailptr = itemlist] (line 490).  A [queue->tailptr] that is
    [&itemlist] was stored by an earlier call and points into a frame that
    is gone. *)
Definition store_link (p : link_loc) (v : Z) : M unit :=
  match p with
  | LocNull => fault
  | LocList queue => modify_queue queue (set_q_list v)
  | LocNext item => modify_item item (set_it_next v)
  | LocItemlist => fault
  end.

(** Lines 457-472: an item from the free list, or a new one, or NULL. *)
Definition obtain_item (fuel : nat) (queue : Z) : M Z :=
  (* first allocate a new work item; try the free list first *)
  item <- pop_free fuel queue;
  (* if nothing, allocate something new *)
  if item =? NULL
  then
    item <- alloc (OItem item_fresh);
    if item =? NULL then ret NULL
    else
      _ <- modify_item item (set_it_event NULL);
      _ <- modify_item item (set_it_queue queue);
      ret item
  else ret item.

(** Lines 455-485: the body of the loop over the items; [None] when the
    function returns NULL from inside the loop. *)
Definition build_item (fuel : nat) (queue : Z) (callback : Z → Z)
    (paramstep flags : Z) (loc : submit_locals) : M (option submit_locals) :=
  item <- obtain_item fuel queue;
  if item =? NULL then ret None else
  (* fill in the basics *)
  _ <- modify_item item (set_it_next NULL);
  _ <- modify_item item (set_it_callback callback);
  _ <- modify_item item (set_it_param (parambase loc));
  _ <- modify_item item (set_it_result NULL);
  _ <- modify_item item (set_it_flags flags);
  _ <- store_done item FALSE;
  (* advance to the next *)
  il <- store_link_local (item_tailptr loc) item (itemlist loc);
  ret (Some {| itemlist := il; item_tailptr := LocNext item;
               parambase := parambase loc + paramstep |}).

(** Lines 453-486: the loop over the items. *)
Fixpoint build_items (fuel : nat) (count : nat) (queue : Z) (callback : Z → Z)
    (paramstep flags : Z) (loc : submit_locals) : M (option submit_locals) :=
  match count with
  | O => ret (Some loc)
  | S count' =>
      r <- build_item fuel queue callback paramstep flags loc;
      match r with
      | None => ret None
      | Some loc' => build_items fuel count' queue callback paramstep flags loc'
      end
  end.

(** Lines 504-518: wake the threads that are not active. *)
Fixpoint wake_threads (count : nat) (threadnum : Z) (queue : Z) (numitems : Z) : M unit :=
  match count with
  | O => ret tt
  | S count' =>
      q <- load_queue queue;
      th <- load_thread (q_thread q, threadnum);
      (* if this thread is not active, wake him up *)
      if th_active th =? 0
      then
        _ <- osd_event_set (th_wakeevent th);
        (* for non-shared, the first one we find is good enough *)
        let numitems := wrap32 (numitems - 1) in
        if numitems =? 0 then ret tt
        else wake_threads count' (threadnum + 1) queue numitems
      else wake_threads count' (threadnum + 1) queue numitems
  end.

(** Lines 488-496: enqueue the whole thing within the critical section,
    and increment the number of items in the queue. *)
Definition enqueue_items (fuel : nat) (queue : Z) (loc : submit_locals)
    (numitems : Z) : M unit :=
  lockslot <- scalable_lock_acquire fuel queue;
  q <- load_queue queue;
  _ <- store_link (q_tailptr q) (itemlist loc);
  _ <- modify_queue queue (set_q_tailptr (item_tailptr loc));
  _ <- scalable_lock_release queue lockslot;
  _ <- sync_add_items queue numitems;
  ret tt.

(** Lines 498-519: look for free threads to do the work. *)
Definition wake_idle_threads (queue numitems : Z) : M unit :=
  q <- load_queue queue;
  if to_u32 (q_livethreads q) <? q_threads q
  then wake_threads (Z.to_nat (q_threads q)) 0 queue numitems
  else ret tt.

Definition osd_work_item_queue_multiple (fuel : nat) (queue : Z) (callback : Z → Z)
    (numitems parambase paramstep flags : Z) : M Z :=
  (* loop over items, building up a local list of work *)
  r <- build_items fuel (Z.to_nat numitems) queue callback paramstep flags
         {| itemlist := NULL; item_tailptr := LocItemlist; parambase := parambase |};
  match r with
  | None => ret NULL
  | Some loc =>
      _ <- enqueue_items fuel queue loc numitems;
      _ <- wake_idle_threads queue numitems;
      (* if no threads, run the queue now on this thread *)
      q <- load_queue queue;
      _ <- (if q_threads q =? 0
            then worker_thread_process fuel queue (q_thread q, 0)
            else ret tt);
      (* only return the item if it won't get released automatically *)
      ret (if negb (Z.land flags WORK_ITEM_FLAG_AUTO_RELEASE =? 0) then NULL
           else itemlist loc)
  end.

(** *** effective_num_processors *)

Definition effective_num_processors : Z :=
  (* if the OSDPROCESSORS environment variable is set, use that value if valid *)
  match getenv "OSDPROCESSORS" with
  | Some procsoverride =>
      match sscanf_d procsoverride with
      | Some numprocs => if 0 <? numprocs then numprocs else osd_num_processors
      | None => osd_num_processors
      end
  (* otherwise, fetch the info from the system *)
  | None => osd_num_processors
  end.

(** *** osd_work_queue_alloc *)

(** Lines 242-250: how many threads to create. *)
Definition choose_threads (numprocs flags : Z) : Z :=
  let threads :=
    (* on a single-CPU system, create 1 thread for I/O queues, and 0
       threads for everything else *)
    if numprocs =? 1
    then (if negb (Z.land flags WORK_QUEUE_FLAG_IO =? 0) then 1 else 0)
    (* on an n-CPU system, create (n-1) threads for multi queues, and 1
       thread for everything else *)
    else (if negb (Z.land flags WORK_QUEUE_FLAG_MULTI =? 0)
          then to_u32 (wrap32 (numprocs - 1)) else 1) in
  (* clamp to the maximum *)
  Z.min threads MAX_THREADS.

(** Lines 261-281: the body of the loop over the threads; [false] stands
    for [goto error]. *)
Definition start_thread (queue flags : Z) (thread : Z * Z) : M bool :=
  (* set a pointer back to the queue *)
  _ <- modify_thread thread (set_th_queue queue);
  (* create the per-thread wake event *)
  wakeevent <- osd_event_alloc FALSE FALSE;
  _ <- modify_thread thread (set_th_wakeevent wakeevent);
  if wakeevent =? NULL then ret false else
  (* create the thread *)
  handle <- osd_thread_create thread;
  _ <- modify_thread thread (set_th_handle handle);
  if handle =? NULL then ret false else
  _ <- osd_thread_adjust_priority handle 0;
  ret true.

Definition osd_work_queue_alloc (fuel : nat) (flags : Z) : M Z :=
  let numprocs := effective_num_processors in
  let error (queue : Z) : M Z := (_ <- osd_work_queue_free fuel queue; ret NULL) in
  (* allocate a new queue *)
  queue <- alloc (OQueue queue_zero);
  if queue =? NULL then error queue else
  _ <- store queue (OQueue queue_zero);
  (* initialize basic queue members *)
  _ <- modify_queue queue (set_q_tailptr (LocList queue));
  _ <- modify_queue queue (set_q_flags (to_u32 flags));
  (* allocate events for the queue *)
  doneevent <- osd_event_alloc TRUE TRUE;
  _ <- modify_queue queue (set_q_doneevent doneevent);
  if doneevent =? NULL then error queue else
  (* initialize the critical section *)
  _ <- modify_queue queue (set_q_lock scalable_lock_init);
  (* determine how many threads to create... *)
  _ <- modify_queue queue (set_q_threads (choose_threads numprocs flags));
  (* allocate memory for thread array (+1 to count the calling thread) *)
  q <- load_queue queue;
  let zeroed := OThreads (replicate (Z.to_nat (q_threads q + 1)) thread_zero) in
  thread <- alloc zeroed;
  _ <- modify_queue queue (set_q_thread thread);
  if thread =? NULL then error queue else
  _ <- store thread zeroed;
  (* iterate over threads *)
  r <- for_loop (Z.to_nat (q_threads q)) 0 (λ threadnum,
         ok <- start_thread queue flags (thread, threadnum);
         ret (if ok : bool then None else Some tt));
  match r with
  | Some _ => error queue
  | None => ret queue
  end.

End Program.

(** ** The specification's wording of the worker count *)

Section Wording.
Context {host : Platform}.

Definition io_queue (flags : Z) : bool := negb (Z.land flags WORK_QUEUE_FLAG_IO =? 0).
Definition multi_queue (flags : Z) : bool := negb (Z.land flags WORK_QUEUE_FLAG_MULTI =? 0).
Definition auto_release (flags : Z) : bool :=
  negb (Z.land flags WORK_ITEM_FLAG_AUTO_RELEASE =? 0).

(** "1 processor: IO ? 1 : 0 threads.  N > 1 processors: MULTI ? (N - 1) : 1
    thread.  Clamp to 16." *)
Definition spec_worker_count (numprocs flags : Z) : Z :=
  Z.min (if numprocs =? 1
         then (if io_queue flags then 1 else 0)
         else (if multi_queue flags then numprocs - 1 else 1)) 16.

End Wording.

(** The queue that [osd_work_queue_alloc] builds at address [queue]. *)
Definition new_queue {host : Platform} (queue flags : Z) : osd_work_queue :=
  mkQueue scalable_lock_init NULL (LocList queue) NULL 0 0 0 0
    (choose_threads effective_num_processors flags) (to_u32 flags) (queue + 2) (queue + 1).

(** ** A host for the scenarios

    The flag values are those of MAME's [osdcore.h]; [OSDPROCESSORS] is
    [override]; no other thread runs.  The conversion reads an optional
    sign and decimal digits. *)

Definition digit_of (c : ascii) : option Z :=
  let n := Z.of_nat (nat_of_ascii c) in
  if (48 <=? n) && (n <=? 57) then Some (n - 48) else None.

Fixpoint scan_digits (s : string) (acc : option Z) : option Z :=
  match s with
  | EmptyString => acc
  | String c s' =>
      match digit_of c with
      | Some d => scan_digits s' (Some (default 0 acc * 10 + d))
      | None => acc
      end
  end.

Definition scan_int (s : string) : option Z :=
  match s with
  | String "-" s' => Z.opp <$> scan_digits s' None
  | String "+" s' => scan_digits s' None
  | _ => scan_digits s None
  end.

Definition example_host (numprocs : Z) (override : option string) : Platform :=
  {| WORK_QUEUE_FLAG_IO := 1;
     WORK_QUEUE_FLAG_MULTI := 2;
     WORK_ITEM_FLAG_AUTO_RELEASE := 1;
     osd_num_processors := numprocs;
     getenv := λ name, if decide (name = "OSDPROCESSORS") then override else None;
     sscanf_d := scan_int;
     osd_ticks_per_second := 1000;
     others := λ h, h |}.

(** A machine with an empty heap in which the next [n] allocation
    requests succeed. *)
Definition boot (n : nat) : machine :=
  {| heap := ∅; brk := 1; supply := replicate n true; clock := 0; trace := [] |}.

(** ** Invariants of the queue *)

(** The items [l] are linked from [p] through [next], in order, and the
    [next] of the last one is [r] ([p] itself is [r] when [l] is empty). *)
Fixpoint seg (h : gmap Z object) (p : Z) (l : list Z) (r : Z) : Prop :=
  match l with
  | [] => p = r
  | a :: l' =>
      p = a ∧ a ≠ NULL ∧ ∃ it, h !! a = Some (OItem it) ∧ seg h (it_next it) l' r
  end.

(** A list of items that ends with NULL. *)
Definition chain (h : gmap Z object) (p : Z) (l : list Z) : Prop := seg h p l NULL.

(** Where [tailptr] has to point for the pending list [l]. *)
Definition tail_of (queue : Z) (l : list Z) : link_loc :=
  match last l with
  | None => LocList queue
  | Some a => LocNext a
  end.

(** The tail-pointer invariant. *)
Definition tail_ok (m : machine) (queue : Z) : Prop :=
  ∃ q l, heap m !! queue = Some (OQueue q) ∧
         chain (heap m) (q_list q) l ∧
         q_tailptr q = tail_of queue l.

(** The lock is free: the baton is in the slot of the next ticket. *)
Definition lock_ready (l : scalable_lock) : Prop :=
  length (slot l) = Z.to_nat MAX_THREADS ∧ slot_get l (nextindex l mod 16) = TRUE.

(** The lock between a successful acquire and the release, and after the
    release. *)
Definition lock_held (l : scalable_lock) : scalable_lock :=
  slot_set {| slot := slot l; nextindex := wrap32 (nextindex l + 1) |}
    (nextindex l mod 16) FALSE.

Definition lock_next (l : scalable_lock) : scalable_lock :=
  release_exchange (lock_held l) (nextindex l mod 16).

Definition is_event (h : gmap Z object) (p : Z) : Prop :=
  ∃ ev, h !! p = Some (OEvent ev).

(** The allocator hands out addresses that are not null and not in use. *)
Definition heap_fresh (m : machine) : Prop :=
  0 < brk m ∧ ∀ a, brk m ≤ a → heap m !! a = None.

(** A queue between two calls: [pending] is the pending list and [free_]
    the free list. *)
Record queue_wf (m : machine) (queue : Z) (q : osd_work_queue)
    (pending free_ : list Z) : Prop := mkWf {
  wf_queue : heap m !! queue = Some (OQueue q);
  wf_lock : lock_ready (q_lock q);
  wf_pending : chain (heap m) (q_list q) pending;
  wf_tail : q_tailptr q = tail_of queue pending;
  wf_free : chain (heap m) (q_free q) free_;
  wf_nodup : NoDup (pending ++ free_);
  wf_items : q_items q = Z.of_nat (length pending);
  wf_bound : Z.of_nat (length pending) ≤ INT32_MAX;
  wf_owner : ∀ a it, a ∈ pending ++ free_ → heap m !! a = Some (OItem it) →
             it_queue it = queue ∧ (it_event it = NULL ∨ is_event (heap m) (it_event it));
  wf_fresh : heap_fresh m;
  wf_done : is_event (heap m) (q_doneevent q)
}.

(** What a call leaves alone when it only works on the queue, on [items]
    and on events: the other items, the kind of every event, the free
    addresses and the allocator. *)
Definition touches (items : list Z) (m m' : machine) : Prop :=
  (∀ b itb, b ∉ items → heap m !! b = Some (OItem itb) → heap m' !! b = Some (OItem itb)) ∧
  (∀ e, is_event (heap m) e → is_event (heap m') e) ∧
  (∀ b, heap m !! b = None → heap m' !! b = None) ∧
  brk m' = brk m ∧ supply m' = supply m.

(** The content of an item before and after its completion. *)
Definition completed (it it' : osd_work_item) : Prop :=
  it_result it' = it_callback it (it_param it) ∧ it_done it' = TRUE ∧
  it_param it' = it_param it ∧ it_callback it' = it_callback it ∧
  it_flags it' = it_flags it ∧ it_event it' = it_event it ∧
  it_queue it' = it_queue it.

(** The fields of a queue that a submission and the drain leave alone. *)
Definition same_config (q q' : osd_work_queue) : Prop :=
  q_threads q' = q_threads q ∧ q_flags q' = q_flags q ∧ q_thread q' = q_thread q ∧
  q_doneevent q' = q_doneevent q ∧ q_waiting q' = q_waiting q ∧
  q_livethreads q' = q_livethreads q ∧ q_exiting q' = q_exiting q.

(** Where [item_tailptr] points after the items [built] were linked. *)
Definition tail_local (built : list Z) : link_loc :=
  match last built with
  | None => LocItemlist
  | Some a => LocNext a
  end.

(** The content of the [i]-th item of a submission before it runs. *)
Definition submitted (h : gmap Z object) (queue : Z) (callback : Z → Z)
    (base step flags : Z) (i : nat) (a : Z) : Prop :=
  ∃ it, h !! a = Some (OItem it) ∧
        it_queue it = queue ∧ it_callback it = callback ∧
        it_param it = base + Z.of_nat i * step ∧
        it_result it = NULL ∧ it_flags it = flags ∧ it_done it = FALSE ∧
        (it_event it = NULL ∨ is_event h (it_event it)).

(** Every object that is neither an item nor the queue is left as it is. *)
Definition frame (queue : Z) (m m' : machine) : Prop :=
  ∀ b o, heap m !! b = Some o → b ≠ queue → (∀ it, o ≠ OItem it) → heap m' !! b = Some o.

(** The item loop of a submission after it has linked the items [built]. *)
Record building (m : machine) (queue : Z) (q : osd_work_queue)
    (pl fl built : list Z) (loc : submit_locals)
    (callback : Z → Z) (base step flags : Z) : Prop := mkBuilding {
  bd_wf : queue_wf m queue q pl fl;
  bd_chain : chain (heap m) (itemlist loc) built;
  bd_tail : item_tailptr loc = tail_local built;
  bd_nodup : NoDup built;
  bd_disjoint : ∀ a, a ∈ built → a ∉ pl ++ fl;
  bd_items : ∀ i a, built !! i = Some a →
             submitted (heap m) queue callback base step flags i a;
  bd_param : parambase loc = base + Z.of_nat (length built) * step
}.

(** The thread records of the workers are allocated and hold the wake
    events of the workers. *)
Definition threads_wf (m : machine) (q : osd_work_queue) : Prop :=
  ∃ arr, heap m !! q_thread q = Some (OThreads arr) ∧
         (Z.to_nat (q_threads q) ≤ length arr)%nat ∧
         ∀ i th, arr !! i = Some th → (i < Z.to_nat (q_threads q))%nat →
                 is_event (heap m) (th_wakeevent th).

(** The content of an item, if [p] points to one. *)
Definition item_at (m : machine) (p : Z) : option osd_work_item :=
  match heap m !! p with
  | Some (OItem it) => Some it
  | _ => None
  end.

Definition queue_at (m : machine) (p : Z) : option osd_work_queue :=
  match heap m !! p with
  | Some (OQueue q) => Some q
  | _ => None
  end.

(** ** Scenarios *)

(** The callback of scenario S1. *)
Definition square (x : Z) : Z := x * x.

(** A queue on one processor whose free list holds one item; then a
    submission of two items for which [malloc] fails; then the queue is
    freed.  Yields the recycled item and what the second submission
    returned. *)
Definition failed_submit_scenario : M (Z * Z) :=
  let host := example_host 1 None in
  queue <- osd_work_queue_alloc 8 0;
  item <- osd_work_item_queue_multiple 8 queue square 1 7 0 0;
  _ <- osd_work_item_release 8 item;
  r <- osd_work_item_queue_multiple 8 queue square 2 1 1 0;
  _ <- osd_work_queue_free 8 queue;
  ret (item, r).

(** A fresh queue on [numprocs] processors, then a submission of no item. *)
Definition empty_submit_scenario (numprocs flags : Z) : M Z :=
  let host := example_host numprocs None in
  queue <- osd_work_queue_alloc 8 flags;
  _ <- osd_work_item_queue_multiple 8 queue square 0 0 0 0;
  ret queue.

(** ** Relations between the state before and after a call *)

(** Whenever [c] returns, the states before and after are related by [R]. *)
Definition preserves {A} (R : relation machine) (c : M A) : Prop :=
  ∀ m a m', c m = Ret a m' → R m m'.

(** The call added nothing to the trace. *)
Definition same_trace : relation machine := λ m m', trace m' = trace m.

(** ** The specification's wording of the completion order *)

Section Completion.
Context {host : Platform}.

(** "write result, decrement items, set done, signal event": the effects
    of the completion of [item], whose content is [it] when it is pulled. *)
Definition completion_effects (queue item : Z) (it : osd_work_item) : list effect :=
  [EvCallback item (it_param it);
   EvResult item (it_callback it (it_param it));
   EvItems queue (-1);
   EvDone item TRUE] ++
  (if auto_release (it_flags it) then []
   else if it_event it =? NULL then []
   else [EvEventSet (it_event it)]).

End Completion.

(** A queue on four processors with three pending items: the workers of
    the model only run as [others], which the example host leaves empty. *)
Definition pending_scenario (queueflags flags : Z) : M Z :=
  let host := example_host 4 None in
  queue <- osd_work_queue_alloc 8 queueflags;
  _ <- osd_work_item_queue_multiple 8 queue square 3 1 1 flags;
  ret queue.

(** An effect that blocks the calling thread. *)
Definition is_wait (e : effect) : bool :=
  match e with
  | EvEventWait _ _ => true
  | _ => false
  end.

(** The state in which a run ends ([boot 0] if it does not return). *)
Definition final_state {A} (o : outcome A) : machine :=
  match o with
  | Ret _ m => m
  | _ => boot 0
  end.

Section DrainWording.
Context {host : Platform}.

(** The completion effects of the pending items [l], in list order, with
    the content the items have in [m]. *)
Definition completions (queue : Z) (m : machine) (l : list Z) : list effect :=
  flat_map (λ a, match item_at m a with
                 | Some it => completion_effects queue a it
                 | None => []
                 end) l.

End DrainWording.

(** Reads the results of [k] items along their [next] links. *)
Fixpoint collect_results {host : Platform} (k : nat) (item : Z) : M (list Z) :=
  match k with
  | O => ret []
  | S k' =>
      r <- osd_work_item_result item;
      it <- load_item item;
      rs <- collect_results k' (it_next it);
      ret (r :: rs)
  end.

(** Scenario S1: a queue with [flags = 0] on one processor; five items
    with callback [x -> x*x] and parameters 1..5.  Yields [queue->items]
    on return from the submission and the results of the items. *)
Definition s1_scenario : M (Z * list Z) :=
  let host := example_host 1 None in
  queue <- osd_work_queue_alloc 8 0;
  first <- osd_work_item_queue_multiple 8 queue square 5 1 1 0;
  n <- osd_work_queue_items queue;
  rs <- collect_results 5 first;
  ret (n, rs).

(** ** The worker threads

    [worker_thread_entry] (lines 617-666), which [osd_thread_create] starts
    on a thread record of the queue.  The model runs it as the calling
    thread; the submitting thread is then among the [others]. *)

Definition set_q_livethreads (v : Z) (q : osd_work_queue) : osd_work_queue :=
  mkQueue (q_lock q) (q_list q) (q_tailptr q) (q_free q) (q_items q) v
    (q_waiting q) (q_exiting q) (q_threads q) (q_flags q) (q_thread q) (q_doneevent q).

Definition set_th_active (v : Z) (th : mame_thread_info) : mame_thread_info :=
  mkThread (th_queue th) (th_handle th) (th_wakeevent th) v.

Section Worker.
Context {host : Platform}.

(** #define INFINITE (osd_ticks_per_second()*10000) *)
Definition INFINITE : Z := osd_ticks_per_second * 10000.

(** #define SPIN_LOOP_TIME (osd_ticks_per_second() / 1000) *)
Definition SPIN_LOOP_TIME : Z := osd_ticks_per_second ÷ 1000.

(** [osd_interlocked_increment(&queue->livethreads)] *)
Definition increment_livethreads (queue : Z) : M Z :=
  q <- load_queue queue;
  let '(v, new) := osd_interlocked_increment (q_livethreads q) in
  _ <- modify_queue queue (set_q_livethreads new);
  ret v.

(** [osd_interlocked_decrement(&queue->livethreads)] *)
Definition decrement_livethreads (queue : Z) : M Z :=
  q <- load_queue queue;
  let '(v, new) := osd_interlocked_decrement (q_livethreads q) in
  _ <- modify_queue queue (set_q_livethreads new);
  ret v.

(** Lines 650-652: spin for a while looking for more work. *)
Definition spin_for_work (fuel : nat) (queue : Z) : M unit :=
  now <- osd_ticks;
  let stopspin := now + SPIN_LOOP_TIME in
  loop fuel (λ _ : unit,
    q <- load_queue queue;
    if q_items q =? 0
    then
      now <- osd_ticks;
      if now <? stopspin
      then _ <- osd_yield_processor; ret (inl tt)
      else ret (inr tt)
    else ret (inr tt)) tt.

(** Lines 641-659: process work items until the spin finds no more. *)
Definition process_until_idle (fuel : nat) (queue : Z) (thread : Z * Z) : M unit :=
  loop fuel (λ _ : unit,
    (* process as much as we can *)
    _ <- worker_thread_process fuel queue thread;
    (* spin for a while looking for more work *)
    _ <- spin_for_work fuel queue;
    (* if nothing more, release the processor *)
    q <- load_queue queue;
    if q_items q =? 0 then ret (inr tt) else ret (inl tt)) tt.

(** Lines 625-663: the body of the outer [for ( ;; )]; [inr] is the
    [break] that leads to [return NULL]. *)
Definition worker_round (fuel : nat) (queue : Z) (thread : Z * Z) (_ : unit)
    : M (unit + Z) :=
  (* block waiting for work or exit *)
  q <- load_queue queue;
  _ <- (if (q_exiting q =? 0) && (q_items q =? 0)
        then
          th <- load_thread thread;
          _ <- osd_event_wait (th_wakeevent th) INFINITE;
          ret tt
        else ret tt);
  q <- load_queue queue;
  if negb (q_exiting q =? 0) then ret (inr NULL) else
  (* indicate that we are live *)
  _ <- modify_thread thread (set_th_active (to_u8 TRUE));
  _ <- increment_livethreads queue;
  (* process work items *)
  _ <- process_until_idle fuel queue thread;
  (* decrement the live thread count *)
  _ <- modify_thread thread (set_th_active (to_u8 FALSE));
  _ <- decrement_livethreads queue;
  ret (inl tt).

Definition worker_thread_entry (fuel : nat) (param : Z * Z) : M Z :=
  let thread := param in
  th <- load_thread thread;
  let queue := th_queue th in
  (* loop until we exit *)
  loop fuel (worker_round fuel queue thread) tt.

End Worker.

(** The content of a thread record, if [p] points to one. *)
Definition thread_at (m : machine) (p : Z * Z) : option mame_thread_info :=
  match heap m !! fst p with
  | Some (OThreads arr) => if 0 <=? snd p then arr !! Z.to_nat (snd p) else None
  | _ => None
  end.

(** A queue with one worker on two processors that was told to exit, as
    [osd_work_queue_free] does on line 363. *)
Definition exiting_scenario : M Z :=
  let host := example_host 2 None in
  queue <- osd_work_queue_alloc 8 0;
  _ <- osd_work_item_queue_multiple 8 queue square 2 1 1 0;
  _ <- modify_queue queue (set_q_exiting TRUE);
  ret queue.

(** The thread array at [t] is left as it is, and the allocator only moves
    forward. *)
Definition keeps_threads (t : Z) : relation machine := λ m m',
  brk m ≤ brk m' ∧
  ∀ arr, t < brk m → heap m !! t = Some (OThreads arr) → heap m' !! t = Some (OThreads arr).

(** ** What a queue owns

    The objects that [osd_work_queue_free] frees: the items of both lists
    with their events, the thread array with the wake events and the
    handles of the workers, the done event and the queue. *)

(** A pointer as a list: nothing for NULL. *)
Definition nonnull (p : Z) : list Z := if p =? NULL then [] else [p].

(** The events of the items [l]. *)
Definition item_events (h : gmap Z object) (l : list Z) : list Z :=
  flat_map (λ a, match h !! a with
                 | Some (OItem it) => nonnull (it_event it)
                 | _ => []
                 end) l.

(** The wake events and the handles of the thread records [ths]. *)
Definition thread_events (ths : list mame_thread_info) : list Z :=
  flat_map (λ th, nonnull (th_wakeevent th)) ths.

Definition thread_handles (ths : list mame_thread_info) : list Z :=
  flat_map (λ th, nonnull (th_handle th)) ths.

Definition is_thread (h : gmap Z object) (p : Z) : Prop :=
  ∃ param, h !! p = Some (OThread param).

(** The thread records that [osd_work_queue_free] visits: none unless
    [queue->threads > 0 && queue->thread != NULL] (line 354). *)
Definition visits_threads (q : osd_work_queue) : bool :=
  (0 <? q_threads q) && negb (q_thread q =? NULL).

(** [queue] owns what its fields point to: the lists own their items and
    the events of the items, [ths] are the records of the workers, whose
    wake events and handles are allocated, and no event and no handle occurs
    twice. *)
Record queue_owns (m : machine) (queue : Z) (q : osd_work_queue)
    (pl fl : list Z) (ths : list mame_thread_info) : Prop := mkOwns {
  own_wf : queue_wf m queue q pl fl;
  own_done : q_doneevent q ≠ NULL;
  own_threads :
    if visits_threads q
    then ∃ arr, heap m !! q_thread q = Some (OThreads arr) ∧
                ths = take (Z.to_nat (q_threads q)) arr ∧
                (Z.to_nat (q_threads q) ≤ length arr)%nat
    else ths = [];
  own_events : ∀ e, e ∈ thread_events ths → is_event (heap m) e;
  own_handles : ∀ x, x ∈ thread_handles ths → is_thread (heap m) x;
  own_sep_events :
    NoDup (q_doneevent q :: item_events (heap m) (pl ++ fl) ++ thread_events ths);
  own_sep_handles : NoDup (thread_handles ths)
}.

(** The objects that [osd_work_queue_free] frees.  The thread array is
    freed inside the test of line 354 only. *)
Definition freed_objects (m : machine) (queue : Z) (q : osd_work_queue)
    (pl fl : list Z) (ths : list mame_thread_info) : list Z :=
  queue :: q_doneevent q :: (pl ++ fl) ++ item_events (heap m) (pl ++ fl) ++
  thread_events ths ++ thread_handles ths ++
  (if visits_threads q then [q_thread q] else []).

(** The kind of the object at an address: two addresses that hold objects
    of different kinds differ. *)
Definition obj_kind (o : object) : nat :=
  match o with
  | OQueue _ => 0
  | OItem _ => 1
  | OThreads _ => 2
  | OEvent _ => 3
  | OThread _ => 4
  end.

Definition kind_at (h : gmap Z object) (p : Z) : option nat := obj_kind <$> h !! p.

(** The record of worker [i] once [osd_work_queue_alloc] has started it,
    when its wake event and its handle are the allocations [b + 2 i] and
    [b + 2 i + 1]; and the records of the first [k] workers. *)
Definition started_thread (queue b : Z) (i : nat) : mame_thread_info :=
  mkThread queue (b + 2 * Z.of_nat i + 1) (b + 2 * Z.of_nat i) 0.

Definition started_threads (queue b : Z) (k : nat) : list mame_thread_info :=
  map (started_thread queue b) (seq 0 k).

(** A queue without workers on one processor and one completed item, which
    the scenario yields. *)
Definition completed_item_scenario : M Z :=
  let host := example_host 1 None in
  queue <- osd_work_queue_alloc 8 0;
  osd_work_item_queue_multiple 8 queue square 1 7 0 0.

(** The wake events of the threads of [ths] that are not active, in index
    order. *)
Definition idle_events (ths : list mame_thread_info) : list Z :=
  map th_wakeevent (filter (λ th, th_active th = 0) ths).

(** A queue whose lock was acquired and not released. *)
Definition held_lock_scenario : M Z :=
  let host := example_host 1 None in
  queue <- osd_work_queue_alloc 8 0;
  _ <- scalable_lock_acquire 8 queue;
  ret queue.

(** The item at [a] is released by the worker that completes it. *)
Definition auto_item {host : Platform} (h : gmap Z object) (a : Z) : bool :=
  match h !! a with
  | Some (OItem it) => auto_release (it_flags it)
  | _ => false
  end.

(** The items of [l] that the drain pushes on the free list, in the order
    in which they are on the list afterwards: the last one completed
    first. *)
Definition recycled {host : Platform} (h : gmap Z object) (l : list Z) : list Z :=
  rev (filter (λ a, auto_item h a = true) l).

(** What another thread may do to a wake event while the caller joins a
    worker: nothing, or change the state of the event, as a worker does
    that wakes up and consumes the signal. *)
Definition event_step (o o' : option object) : Prop :=
  o' = o ∨ ∃ ev ev', o = Some (OEvent ev) ∧ o' = Some (OEvent ev').

(** A worker that waits on its wake event consumes the signal: the event is
    auto-reset. *)
Definition consume_signal (o : object) : object :=
  match o with
  | OEvent ev =>
      if ev_manualreset ev =? 0 then OEvent (mkEvent (ev_manualreset ev) FALSE) else o
  | _ => o
  end.

(** The host of the scenarios with workers that wake up: whenever the
    calling thread yields, waits or joins, the workers consume the signals
    of the events at [wakeevents]. *)
Definition waking_host (numprocs : Z) (wakeevents : list Z) : Platform :=
  {| WORK_QUEUE_FLAG_IO := 1;
     WORK_QUEUE_FLAG_MULTI := 2;
     WORK_ITEM_FLAG_AUTO_RELEASE := 1;
     osd_num_processors := numprocs;
     getenv := λ _, None;
     sscanf_d := scan_int;
     osd_ticks_per_second := 1000;
     others := λ h, foldr (alter consume_signal) h wakeevents |}.

(** No item loses or changes its event between [m] and [m']: every item of
    [m] is still an item in [m'], with the same event unless it had
    none. *)
Definition events_retained (m m' : machine) : Prop :=
  ∀ a it, item_at m a = Some it →
    ∃ it', item_at m' a = Some it' ∧ (it_event it ≠ NULL → it_event it' = it_event it).
(** ** Lemmas on counting and on the lock *)

Lemma count_if_insert {A} (f : A → bool) (l : list A) (i : nat) (x y : A) :
  l !! i = Some x →
  (count_if f (<[i:=y]> l) + Nat.b2n (f x) = count_if f l + Nat.b2n (f y))%nat.
Proof.
  revert i. induction l as [|a l IH]; intros [|i] Hl; simplify_eq/=; try lia.
  specialize (IH _ Hl). lia.
Qed.

Lemma count_if_zero {A} (f : A → bool) (l : list A) (i : nat) (x : A) :
  count_if f l = O → l !! i = Some x → f x = false.
Proof.
  revert i. induction l as [|a l IH]; intros [|i] Hc Hl; simplify_eq/=.
  - destruct (f x); simpl in Hc; [lia|done].
  - apply (IH i); [lia|done].
Qed.

Lemma count_if_replicate {A} (f : A → bool) (n : nat) (x : A) :
  f x = false → count_if f (replicate n x) = O.
Proof. intros Hx. induction n as [|n IH]; simpl; [done|]. by rewrite Hx, IH. Qed.

Lemma wrap32_mod (z : Z) : wrap32 z mod 2 ^ 32 = z mod 2 ^ 32.
Proof.
  unfold wrap32. rewrite (Z.mod_eq (z + 2 ^ 31)) by lia.
  replace (z + 2 ^ 31 - 2 ^ 32 * ((z + 2 ^ 31) `div` 2 ^ 32) - 2 ^ 31)
    with (z + (- ((z + 2 ^ 31) `div` 2 ^ 32)) * 2 ^ 32) by lia.
  apply Z.mod_add. lia.
Qed.

Lemma wrap32_range (z : Z) : - 2 ^ 31 ≤ wrap32 z ≤ INT32_MAX.
Proof.
  unfold wrap32, INT32_MAX.
  pose proof (Z.mod_pos_bound (z + 2 ^ 31) (2 ^ 32)). lia.
Qed.

Lemma wrap32_id (z : Z) : - 2 ^ 31 ≤ z ≤ INT32_MAX → wrap32 z = z.
Proof.
  unfold wrap32, INT32_MAX. intros Hz.
  rewrite Z.mod_small by lia. lia.
Qed.

Lemma land15_mod (z : Z) : Z.land z (MAX_THREADS - 1) = z mod 16.
Proof. change (MAX_THREADS - 1) with (Z.ones 4). by rewrite Z.land_ones. Qed.

Lemma mod16_of_mod32 (a b : Z) : a mod 2 ^ 32 = b mod 2 ^ 32 → a mod 16 = b mod 16.
Proof.
  intros H.
  assert (16 | 2 ^ 32) as Hd by (by exists (2 ^ 28)).
  rewrite <- (Z.mod_mod_divide a _ _ Hd), <- (Z.mod_mod_divide b _ _ Hd).
  by rewrite H.
Qed.

Lemma acquire_ticket_eq (l : scalable_lock) :
  acquire_ticket l =
    (nextindex l mod 16, {| slot := slot l; nextindex := wrap32 (nextindex l + 1) |}).
Proof.
  unfold acquire_ticket, osd_interlocked_increment, osd_sync_add.
  f_equal. rewrite land15_mod. apply mod16_of_mod32.
  rewrite wrap32_mod, <- Zminus_mod_idemp_l, wrap32_mod, Zminus_mod_idemp_l.
  f_equal. lia.
Qed.

Lemma after_tickets_slot (k : nat) (l : scalable_lock) :
  slot (after_tickets k l) = slot l.
Proof.
  induction k as [|k IH]; [done|].
  unfold after_tickets in *. rewrite Nat.iter_succ.
  by rewrite acquire_ticket_eq.
Qed.

Lemma after_tickets_nextindex (k : nat) (l : scalable_lock) :
  nextindex (after_tickets k l) mod 2 ^ 32 = (nextindex l + Z.of_nat k) mod 2 ^ 32.
Proof.
  induction k as [|k IH].
  - simpl. f_equal. lia.
  - unfold after_tickets in *. rewrite Nat.iter_succ, acquire_ticket_eq.
    cbn [snd nextindex].
    rewrite wrap32_mod, <- Zplus_mod_idemp_l, IH, Zplus_mod_idemp_l.
    f_equal. lia.
Qed.

Lemma release_target_range (myslot : Z) : 0 ≤ release_target myslot < 16.
Proof. unfold release_target. rewrite land15_mod. by apply Z.mod_pos_bound. Qed.

Lemma release_target_ne (myslot : Z) : release_target myslot ≠ myslot.
Proof.
  unfold release_target. rewrite land15_mod. intros H.
  assert (0 ≤ myslot < 16) as Hr by (rewrite <- H; by apply Z.mod_pos_bound).
  destruct (decide (myslot = 15)) as [->|]; [done|].
  rewrite Z.mod_small in H; lia.
Qed.

Lemma release_exchange_eq (l : scalable_lock) (myslot : Z) :
  release_exchange l myslot = slot_set l (release_target myslot) TRUE.
Proof.
  unfold release_exchange, osd_exchange32, osd_compare_exchange32.
  by rewrite Z.eqb_refl.
Qed.

Lemma slot_get_set_eq (l : scalable_lock) (i v : Z) :
  (Z.to_nat i < length (slot l))%nat → slot_get (slot_set l i v) i = v.
Proof. intros H. unfold slot_get, slot_set; simpl. by rewrite list_lookup_insert_eq. Qed.

Lemma slot_get_set_ne (l : scalable_lock) (i j v : Z) :
  0 ≤ i → 0 ≤ j → i ≠ j → slot_get (slot_set l i v) j = slot_get l j.
Proof.
  intros Hi Hj Hne. unfold slot_get, slot_set; simpl.
  rewrite list_lookup_insert_ne; [done|lia].
Qed.

Lemma slot_set_get (l : scalable_lock) (i : Z) : slot_set l i (slot_get l i) = l.
Proof.
  unfold slot_set, slot_get. destruct l as [sl ni]; simpl. f_equal.
  destruct (sl !! Z.to_nat i) as [v|] eqn:E; simpl.
  - by apply list_insert_id.
  - apply list_insert_ge. by apply lookup_ge_None.
Qed.

Lemma batons_slot_set (l : scalable_lock) (i old v : Z) :
  slot l !! Z.to_nat i = Some old →
  (batons (slot_set l i v) + Nat.b2n (negb (Z.eqb old FALSE))
   = batons l + Nat.b2n (negb (Z.eqb v FALSE)))%nat.
Proof.
  intros H. unfold batons, slot_set; simpl.
  by apply (count_if_insert (λ v, negb (Z.eqb v FALSE))).
Qed.

Lemma count_if_pos {A} (f : A → bool) (l : list A) (i : nat) (x : A) :
  l !! i = Some x → f x = true → (1 ≤ count_if f l)%nat.
Proof.
  intros Hl Hx. destruct (count_if f l) eqn:E; [|lia].
  rewrite (count_if_zero f l i x E Hl) in Hx. done.
Qed.

Lemma batons_zero_get (l : scalable_lock) (i : Z) :
  batons l = O → slot_get l i = FALSE.
Proof.
  intros Hb. unfold slot_get.
  destruct (slot l !! Z.to_nat i) as [v|] eqn:E; [|done]. simpl.
  pose proof (count_if_zero _ _ _ _ Hb E) as Hv. simpl in Hv.
  apply negb_false_iff, Z.eqb_eq in Hv. done.
Qed.

(** ** The baton invariant of the interleaving semantics *)

Lemma baton_inv_init (nthreads : nat) :
  LockProtocol.baton_inv (LockProtocol.init nthreads).
Proof.
  split; [done|]. split.
  - simpl. repeat (apply Forall_cons_2; [first [by left | by right]|]).
    apply Forall_nil_2.
  - unfold LockProtocol.holders. simpl.
    by rewrite count_if_replicate.
Qed.

Lemma baton_inv_step (t : nat) (s : LockProtocol.sys) :
  LockProtocol.baton_inv s → LockProtocol.baton_inv (LockProtocol.step t s).
Proof.
  intros (Hlen & Hbool & Hcount). unfold LockProtocol.step.
  destruct (LockProtocol.pcs s !! t) as [p|] eqn:Ht; [|done].
  pose proof (λ q, count_if_insert LockProtocol.holding _ t p q Ht) as Hpc.
  destruct p as [|myslot backoff|myslot|myslot origvalue].
  - (* ticket *)
    rewrite acquire_ticket_eq. specialize (Hpc (LockProtocol.Spinning (nextindex (LockProtocol.lk s) `mod` 16) 1)).
    unfold LockProtocol.baton_inv, LockProtocol.holders, batons in *. simpl in *.
    split_and!; [done|done|lia].
  - (* compare-exchange of the acquire *)
    unfold acquire_try, osd_compare_exchange32.
    destruct (slot (LockProtocol.lk s) !! Z.to_nat myslot) as [v|] eqn:Ev.
    + assert (slot_get (LockProtocol.lk s) myslot = v) as Hg
        by (unfold slot_get; by rewrite Ev).
      rewrite Hg.
      assert (v = FALSE ∨ v = TRUE) as [-> | ->]
        by (eapply Forall_lookup_1 in Hbool; eauto).
      * simpl. rewrite <- Hg at 1. rewrite slot_set_get.
        specialize (Hpc (LockProtocol.Spinning myslot (wrap32 (Z.shiftl backoff 1)))).
        unfold LockProtocol.baton_inv, LockProtocol.holders in *. simpl in *.
        split_and!; [done|done|lia].
      * simpl.
        pose proof (batons_slot_set _ _ _ FALSE Ev) as Hb.
        specialize (Hpc (LockProtocol.Critical myslot)).
        unfold LockProtocol.baton_inv, LockProtocol.holders in *. simpl in *.
        split_and!.
        -- by rewrite length_insert.
        -- apply Forall_insert; [done|by left].
        -- lia.
    + assert (slot_get (LockProtocol.lk s) myslot = FALSE) as Hg
        by (unfold slot_get; by rewrite Ev).
      rewrite Hg. simpl. rewrite <- Hg at 1. rewrite slot_set_get.
      specialize (Hpc (LockProtocol.Spinning myslot (wrap32 (Z.shiftl backoff 1)))).
      unfold LockProtocol.baton_inv, LockProtocol.holders in *. simpl in *.
      split_and!; [done|done|lia].
  - (* the read of the release *)
    specialize (Hpc (LockProtocol.Exchanging myslot
                       (slot_get (LockProtocol.lk s) (release_target myslot)))).
    unfold LockProtocol.baton_inv, LockProtocol.holders in *. simpl in *.
    split_and!; [done|done|lia].
  - (* compare-exchange of the release *)
    pose proof (count_if_pos LockProtocol.holding _ _ _ Ht eq_refl) as Hpos.
    unfold LockProtocol.holders in Hcount.
    assert (batons (LockProtocol.lk s) = O) as Hb0 by lia.
    rewrite (batons_zero_get _ (release_target myslot) Hb0).
    unfold osd_compare_exchange32.
    pose proof (release_target_range myslot) as Hr.
    destruct (slot (LockProtocol.lk s) !! Z.to_nat (release_target myslot)) as [v|] eqn:Ev;
      [|apply lookup_ge_None in Ev; rewrite Hlen in Ev; unfold MAX_THREADS in Ev; lia].
    assert (v = FALSE) as ->.
    { pose proof (batons_zero_get _ (release_target myslot) Hb0) as Hg.
      unfold slot_get in Hg. by rewrite Ev in Hg. }
    destruct (FALSE =? origvalue) eqn:Eo.
    + pose proof (batons_slot_set _ _ _ TRUE Ev) as Hb.
      specialize (Hpc LockProtocol.Idle).
      unfold LockProtocol.baton_inv, LockProtocol.holders in *. simpl in *.
      split_and!.
      * by rewrite length_insert.
      * apply Forall_insert; [done|by right].
      * lia.
    + pose proof (batons_slot_set _ _ _ FALSE Ev) as Hb.
      specialize (Hpc (LockProtocol.Critical myslot)).
      unfold LockProtocol.baton_inv, LockProtocol.holders in *. simpl in *.
      split_and!.
      * by rewrite length_insert.
      * apply Forall_insert; [done|by left].
      * lia.
Qed.

Lemma baton_inv_run (sched : list nat) (s : LockProtocol.sys) :
  LockProtocol.baton_inv s → LockProtocol.baton_inv (LockProtocol.run sched s).
Proof.
  revert s. induction sched as [|t sched IH]; intros s Hs; [done|].
  simpl. apply IH. by apply baton_inv_step.
Qed.

(** C2. Mutual exclusion of the scalable lock.  From the initial state,
    whatever the number of threads and whatever the interleaving of their
    atomic steps through [scalable_lock_acquire] and
    [scalable_lock_release], at most one slot has [haslock] true, and a
    thread that is inside [scalable_lock_release] finds the slot it is
    about to set holding false. *)
Theorem scalable_lock_mutual_exclusion (nthreads : nat) (sched : list nat) :
  let s := LockProtocol.run sched (LockProtocol.init nthreads) in
  (batons (LockProtocol.lk s) ≤ 1)%nat ∧
  ∀ (t : nat) (p : LockProtocol.pc) (target : Z),
    LockProtocol.pcs s !! t = Some p →
    LockProtocol.releasing_into p = Some target →
    slot_get (LockProtocol.lk s) target = FALSE.
Proof.
  intros s.
  destruct (baton_inv_run sched _ (baton_inv_init nthreads)) as (Hlen & Hbool & Hcount).
  fold s in Hlen, Hbool, Hcount. split; [lia|].
  intros t p target Ht Hp.
  apply batons_zero_get.
  assert (LockProtocol.holding p = true) as Hh by (destruct p; naive_solver).
  pose proof (count_if_pos LockProtocol.holding _ _ _ Ht Hh) as Hpos.
  unfold LockProtocol.holders in Hcount. lia.
Qed.

Lemma scalable_lock_mutual_exclusion_witness :
  let s := LockProtocol.run [0; 0; 1; 1; 0]%nat (LockProtocol.init 2) in
  (batons (LockProtocol.lk s) ≤ 1)%nat ∧ slot_get (LockProtocol.lk s) 1 = FALSE.
Proof.
  intros s.
  destruct (scalable_lock_mutual_exclusion 2 [0; 0; 1; 1; 0]%nat) as [H1 H2].
  split; [exact H1|].
  apply (H2 0%nat (LockProtocol.Exchanging 0 0)); reflexivity.
Defined.

(** ** Running the monad *)

Arguments wrap32 : simpl never.
Arguments to_u32 : simpl never.
Arguments to_u8 : simpl never.

Lemma bind_inv {A B} (c : M A) (k : A → M B) (m : machine) (b : B) (m' : machine) :
  bind c k m = Ret b m' → ∃ a m1, c m = Ret a m1 ∧ k a m1 = Ret b m'.
Proof. unfold bind. destruct (c m) as [a m1| |]; [eauto|done|done]. Qed.

Lemma bind_ret_l {A B} (c : M A) (k : A → M B) (m : machine) (a : A) (m1 : machine) :
  c m = Ret a m1 → bind c k m = k a m1.
Proof. unfold bind. by intros ->. Qed.

Lemma bind_bind {A B C} (c : M A) (k : A → M B) (k' : B → M C) (m : machine) :
  bind (bind c k) k' m = bind c (λ a, bind (k a) k') m.
Proof. unfold bind. by destruct (c m). Qed.

Lemma bind_fault {A B} (c : M A) (k : A → M B) (m : machine) :
  c m = Fault → bind c k m = Fault.
Proof. unfold bind. by intros ->. Qed.

Lemma load_queue_ok (p : Z) (q : osd_work_queue) (m : machine) :
  heap m !! p = Some (OQueue q) → load_queue p m = Ret q m.
Proof. unfold load_queue. by intros ->. Qed.

Lemma load_item_ok (p : Z) (it : osd_work_item) (m : machine) :
  heap m !! p = Some (OItem it) → load_item p m = Ret it m.
Proof. unfold load_item. by intros ->. Qed.

Lemma load_event_ok (p : Z) (ev : osd_event) (m : machine) :
  heap m !! p = Some (OEvent ev) → load_event p m = Ret ev m.
Proof. unfold load_event. by intros ->. Qed.

Lemma load_threads_ok (p : Z) (arr : list mame_thread_info) (m : machine) :
  heap m !! p = Some (OThreads arr) → load_threads p m = Ret arr m.
Proof. unfold load_threads. by intros ->. Qed.

Lemma modify_queue_ok (p : Z) (f : osd_work_queue → osd_work_queue)
    (q : osd_work_queue) (m : machine) :
  heap m !! p = Some (OQueue q) →
  modify_queue p f m = Ret tt (set_heap (<[p := OQueue (f q)]> (heap m)) m).
Proof. intros Hq. unfold modify_queue. by rewrite (bind_ret_l _ _ _ _ _ (load_queue_ok _ _ _ Hq)). Qed.

Lemma modify_item_ok (p : Z) (f : osd_work_item → osd_work_item)
    (it : osd_work_item) (m : machine) :
  heap m !! p = Some (OItem it) →
  modify_item p f m = Ret tt (set_heap (<[p := OItem (f it)]> (heap m)) m).
Proof. intros Hq. unfold modify_item. by rewrite (bind_ret_l _ _ _ _ _ (load_item_ok _ _ _ Hq)). Qed.

Lemma modify_event_ok (p : Z) (f : osd_event → osd_event) (ev : osd_event) (m : machine) :
  heap m !! p = Some (OEvent ev) →
  modify_event p f m = Ret tt (set_heap (<[p := OEvent (f ev)]> (heap m)) m).
Proof. intros Hq. unfold modify_event. by rewrite (bind_ret_l _ _ _ _ _ (load_event_ok _ _ _ Hq)). Qed.

Lemma load_queue_inv (p : Z) (m : machine) (q : osd_work_queue) (m' : machine) :
  load_queue p m = Ret q m' → m' = m ∧ heap m !! p = Some (OQueue q).
Proof. unfold load_queue. destruct (heap m !! p) as [[]|]; naive_solver. Qed.

Lemma load_item_inv (p : Z) (m : machine) (it : osd_work_item) (m' : machine) :
  load_item p m = Ret it m' → m' = m ∧ heap m !! p = Some (OItem it).
Proof. unfold load_item. destruct (heap m !! p) as [[]|]; naive_solver. Qed.

Lemma load_event_inv (p : Z) (m : machine) (ev : osd_event) (m' : machine) :
  load_event p m = Ret ev m' → m' = m ∧ heap m !! p = Some (OEvent ev).
Proof. unfold load_event. destruct (heap m !! p) as [[]|]; naive_solver. Qed.

Lemma load_threads_inv (p : Z) (m : machine) (arr : list mame_thread_info) (m' : machine) :
  load_threads p m = Ret arr m' → m' = m ∧ heap m !! p = Some (OThreads arr).
Proof. unfold load_threads. destruct (heap m !! p) as [[]|]; naive_solver. Qed.

Lemma modify_queue_inv (p : Z) (f : osd_work_queue → osd_work_queue) (m : machine)
    (u : unit) (m' : machine) :
  modify_queue p f m = Ret u m' →
  ∃ q, heap m !! p = Some (OQueue q) ∧ m' = set_heap (<[p := OQueue (f q)]> (heap m)) m.
Proof.
  intros Hc. apply bind_inv in Hc as (q & m1 & Hl & Hs).
  apply load_queue_inv in Hl as [-> Hl]. exists q. split; [done|].
  unfold store in Hs. by simplify_eq.
Qed.

Lemma modify_item_inv (p : Z) (f : osd_work_item → osd_work_item) (m : machine)
    (u : unit) (m' : machine) :
  modify_item p f m = Ret u m' →
  ∃ it, heap m !! p = Some (OItem it) ∧ m' = set_heap (<[p := OItem (f it)]> (heap m)) m.
Proof.
  intros Hc. apply bind_inv in Hc as (q & m1 & Hl & Hs).
  apply load_item_inv in Hl as [-> Hl]. exists q. split; [done|].
  unfold store in Hs. by simplify_eq.
Qed.

Lemma modify_event_inv (p : Z) (f : osd_event → osd_event) (m : machine)
    (u : unit) (m' : machine) :
  modify_event p f m = Ret u m' →
  ∃ ev, heap m !! p = Some (OEvent ev) ∧ m' = set_heap (<[p := OEvent (f ev)]> (heap m)) m.
Proof.
  intros Hc. apply bind_inv in Hc as (q & m1 & Hl & Hs).
  apply load_event_inv in Hl as [-> Hl]. exists q. split; [done|].
  unfold store in Hs. by simplify_eq.
Qed.

Lemma alloc_ok (o : object) (m : machine) (rest : list bool) :
  supply m = true :: rest →
  alloc o m = Ret (brk m) {| heap := <[brk m := o]> (heap m); brk := brk m + 1;
                             supply := rest; clock := clock m; trace := trace m |}.
Proof. unfold alloc. by intros ->. Qed.

Lemma load_thread_ok (t i : Z) (arr : list mame_thread_info) (th : mame_thread_info)
    (m : machine) :
  heap m !! t = Some (OThreads arr) → arr !! Z.to_nat i = Some th → 0 ≤ i →
  load_thread (t, i) m = Ret th m.
Proof.
  intros Ht Hi Hpos. unfold load_thread. cbn [fst snd].
  rewrite (bind_ret_l _ _ _ _ _ (load_threads_ok _ _ _ Ht)), Hi.
  destruct (Z.leb_spec 0 i); [done|lia].
Qed.

Lemma modify_thread_ok (t i : Z) (f : mame_thread_info → mame_thread_info)
    (arr : list mame_thread_info) (th : mame_thread_info) (m : machine) :
  heap m !! t = Some (OThreads arr) → arr !! Z.to_nat i = Some th → 0 ≤ i →
  modify_thread (t, i) f m =
    Ret tt (set_heap (<[t := OThreads (<[Z.to_nat i := f th]> arr)]> (heap m)) m).
Proof.
  intros Ht Hi Hpos. unfold modify_thread. cbn [fst snd].
  rewrite (bind_ret_l _ _ _ _ _ (load_threads_ok _ _ _ Ht)).
  by rewrite (bind_ret_l _ _ _ _ _ (load_thread_ok _ _ _ _ _ Ht Hi Hpos)).
Qed.

Ltac norm := unfold set_heap; cbn [heap brk supply clock trace].

Tactic Notation "norm" "in" hyp(H) :=
  unfold set_heap in H; cbn [heap brk supply clock trace] in H.

Tactic Notation "norm" "in" "*" :=
  unfold set_heap in *; cbn [heap brk supply clock trace] in *.

Ltac heap_lookup :=
  repeat first [rewrite lookup_insert_eq | rewrite lookup_insert_ne by lia].

Section QueueAlloc.
Context {host : Platform}.

(** ** osd_work_queue_alloc when the allocations succeed *)

(** What one successful round of the thread loop does. *)
Lemma start_thread_ok (queue flags t i : Z) (arr : list mame_thread_info)
    (th : mame_thread_info) (m : machine) (rest : list bool) :
  heap m !! t = Some (OThreads arr) → arr !! Z.to_nat i = Some th → 0 ≤ i →
  supply m = true :: true :: rest → t < brk m → 0 < brk m →
  ∃ m' arr',
    start_thread queue flags (t, i) m = Ret true m' ∧
    heap m' !! t = Some (OThreads arr') ∧ length arr' = length arr ∧
    brk m' = brk m + 2 ∧ supply m' = rest ∧
    clock m' = clock m ∧ trace m' = trace m ∧
    (∀ a, a ≠ t → a < brk m ∨ brk m' ≤ a → heap m' !! a = heap m !! a).
Proof.
  intros Ht Hi Hpos Hs Hlt Hbrk. destruct m as [h b s c tr]; simpl in *. subst s.
  unfold start_thread.
  erewrite bind_ret_l; [|by eapply modify_thread_ok].
  unfold osd_event_alloc.
  erewrite bind_ret_l; [|by eapply alloc_ok]. simpl.
  erewrite bind_ret_l; [|eapply modify_thread_ok; simpl;
    [rewrite lookup_insert_ne by lia; apply lookup_insert_eq
    |apply list_lookup_insert_eq; by eapply lookup_lt_Some|done]].
  destruct (Z.eqb_spec b NULL) as [Hb|_]; [unfold NULL in Hb; lia|].
  unfold osd_thread_create.
  erewrite bind_ret_l; [|by eapply alloc_ok]. simpl.
  erewrite bind_ret_l; [|eapply modify_thread_ok; simpl;
    [rewrite lookup_insert_ne by lia; apply lookup_insert_eq
    |apply list_lookup_insert_eq; rewrite length_insert; by eapply lookup_lt_Some|done]].
  destruct (Z.eqb_spec (b + 1) NULL) as [Hb|_]; [unfold NULL in Hb; lia|].
  unfold osd_thread_adjust_priority. simpl.
  eexists _, _. split; [reflexivity|]. simpl.
  split; [apply lookup_insert_eq|].
  split_and!; try done.
  - by rewrite !length_insert.
  - lia.
  - intros a Ha Hr.
    rewrite !lookup_insert_ne by lia. done.
Qed.

Lemma start_threads_ok (queue flags t : Z) (count : nat) :
  ∀ (from : Z) (arr : list mame_thread_info) (m : machine) (rest : list bool),
    heap m !! t = Some (OThreads arr) → 0 ≤ from →
    (Z.to_nat from + count ≤ length arr)%nat →
    supply m = replicate (2 * count) true ++ rest → t < brk m → 0 < brk m →
    ∃ m' arr',
      for_loop count from (λ threadnum,
        ok <- start_thread queue flags (t, threadnum);
        ret (if ok : bool then None else Some tt)) m = Ret None m' ∧
      heap m' !! t = Some (OThreads arr') ∧ length arr' = length arr ∧
      brk m' = brk m + 2 * Z.of_nat count ∧ supply m' = rest ∧
      clock m' = clock m ∧ trace m' = trace m ∧
      (∀ a, a ≠ t → a < brk m ∨ brk m' ≤ a → heap m' !! a = heap m !! a).
Proof.
  induction count as [|count IH]; intros from arr m rest Ht Hfrom Hlen Hs Hlt Hbrk.
  - simpl in *. exists m, arr. subst rest. split_and!; try done. lia.
  - replace (2 * S count)%nat with (S (S (2 * count))) in Hs by lia. simpl in Hs.
    destruct (lookup_lt_is_Some_2 arr (Z.to_nat from)) as [th Hth]; [lia|].
    destruct (start_thread_ok queue flags t from arr th m _ Ht Hth Hfrom Hs Hlt Hbrk)
      as (m1 & arr1 & Hrun & Ht1 & Hlen1 & Hbrk1 & Hs1 & Hc1 & Htr1 & Hframe1).
    destruct (IH (from + 1) arr1 m1 rest Ht1) as
      (m2 & arr2 & Hrun2 & Ht2 & Hlen2 & Hbrk2 & Hs2 & Hc2 & Htr2 & Hframe2);
      [lia|lia|done|lia|lia|].
    exists m2, arr2. split_and!; try congruence; try lia.
    + cbn [for_loop].
      erewrite bind_ret_l; [|erewrite bind_ret_l; [|exact Hrun]; reflexivity].
      exact Hrun2.
    + intros a Ha Hr. rewrite Hframe2, Hframe1; [done|done|lia|done|lia].
Qed.

Lemma choose_threads_range (numprocs flags : Z) :
  Z.min 0 (choose_threads numprocs flags) = 0 ∧ choose_threads numprocs flags ≤ MAX_THREADS.
Proof.
  unfold choose_threads, MAX_THREADS, to_u32.
  pose proof (Z.mod_pos_bound (wrap32 (numprocs - 1)) (2 ^ 32)).
  repeat case_match; lia.
Qed.

Lemma osd_work_queue_alloc_ok (fuel : nat) (flags : Z) (m : machine) (rest : list bool) :
  0 < brk m →
  supply m =
    replicate (3 + 2 * Z.to_nat (choose_threads effective_num_processors flags)) true ++ rest →
  ∃ m' arr,
    osd_work_queue_alloc fuel flags m = Ret (brk m) m' ∧
    heap m' !! brk m = Some (OQueue (new_queue (brk m) flags)) ∧
    heap m' !! (brk m + 1) = Some (OEvent (mkEvent TRUE TRUE)) ∧
    heap m' !! (brk m + 2) = Some (OThreads arr) ∧
    brk m' = brk m + 3 + 2 * choose_threads effective_num_processors flags ∧
    supply m' = rest ∧ clock m' = clock m ∧ trace m' = trace m ∧
    (∀ a, a < brk m ∨ brk m' ≤ a → heap m' !! a = heap m !! a).
Proof.
  intros Hbrk Hs. destruct m as [h b s c tr]; simpl in *. subst s.
  pose proof (choose_threads_range effective_num_processors flags) as [Hn0 Hn16].
  set (n := choose_threads effective_num_processors flags) in *.
  unfold osd_work_queue_alloc.
  erewrite bind_ret_l; [|by eapply alloc_ok]. norm.
  destruct (Z.eqb_spec b NULL) as [Hb|_]; [unfold NULL in Hb; lia|].
  unfold store at 1. unfold bind at 1. norm. rewrite insert_insert_eq.
  erewrite bind_ret_l; [|eapply modify_queue_ok; norm; apply lookup_insert_eq].
  norm. rewrite insert_insert_eq.
  erewrite bind_ret_l; [|eapply modify_queue_ok; norm; apply lookup_insert_eq].
  norm. rewrite insert_insert_eq.
  unfold osd_event_alloc.
  erewrite bind_ret_l; [|by eapply alloc_ok]. norm.
  erewrite bind_ret_l; [|eapply modify_queue_ok; norm;
    rewrite lookup_insert_ne by lia; apply lookup_insert_eq]. norm.
  destruct (Z.eqb_spec (b + 1) NULL) as [Hb|_]; [unfold NULL in Hb; lia|].
  erewrite bind_ret_l; [|eapply modify_queue_ok; norm; apply lookup_insert_eq].
  norm. rewrite insert_insert_eq.
  erewrite bind_ret_l; [|eapply modify_queue_ok; norm; apply lookup_insert_eq].
  norm. rewrite insert_insert_eq.
  erewrite bind_ret_l; [|eapply load_queue_ok; norm; apply lookup_insert_eq].
  cbn [q_threads set_q_threads]. fold n.
  erewrite bind_ret_l; [|by eapply alloc_ok]. norm.
  erewrite bind_ret_l; [|eapply modify_queue_ok; norm;
    rewrite lookup_insert_ne by lia; apply lookup_insert_eq]. norm.
  destruct (Z.eqb_spec (b + 1 + 1) NULL) as [Hb|_]; [unfold NULL in Hb; lia|].
  unfold store at 1. unfold bind at 1. norm.
  match goal with |- context [bind (for_loop _ _ _) _ ?m0] =>
    destruct (start_threads_ok (b) flags (b + 1 + 1) (Z.to_nat n) 0
                (replicate (Z.to_nat (n + 1)) thread_zero) m0 rest)
      as (m2 & arr2 & Hrun2 & Ht2 & Hlen2 & Hbrk2 & Hs2 & Hc2 & Htr2 & Hframe2)
  end; norm.
  { apply lookup_insert_eq. }
  { done. }
  { rewrite length_replicate. lia. }
  { done. }
  { lia. }
  { lia. }
  erewrite bind_ret_l; [|exact Hrun2]. norm. simpl in Hbrk2, Hs2, Hc2, Htr2, Hframe2.
  exists m2, arr2. split; [done|].
  replace (b + 2) with (b + 1 + 1) by lia.
  split_and!; try done; try lia.
  - rewrite Hframe2 by lia.
    rewrite lookup_insert_ne by lia. rewrite lookup_insert_eq.
    unfold new_queue. replace (b + 2) with (b + 1 + 1) by lia. reflexivity.
  - rewrite Hframe2 by lia. by heap_lookup.
  - intros a Ha. rewrite Hframe2 by lia. by heap_lookup.
Qed.

Lemma choose_threads_spec (numprocs flags : Z) :
  1 ≤ numprocs ≤ INT32_MAX → choose_threads numprocs flags = spec_worker_count numprocs flags.
Proof.
  unfold choose_threads, spec_worker_count, io_queue, multi_queue, MAX_THREADS, INT32_MAX.
  intros Hn. rewrite (wrap32_id (numprocs - 1)) by (unfold INT32_MAX; lia).
  unfold to_u32. rewrite (Z.mod_small (numprocs - 1)) by lia. done.
Qed.

(** C7. The effective processor count is the value of [OSDPROCESSORS] when
    the variable is set and converts to a positive integer, and the probed
    count otherwise; for [N] processors [osd_work_queue_alloc] creates, when
    its allocations succeed, a queue whose worker count is: for [N = 1], 1
    for an IO queue and 0 otherwise; for [N > 1], [N - 1] for a MULTI queue
    and 1 otherwise; at most 16. *)
Theorem queue_alloc_worker_count :
  (∀ s n, getenv "OSDPROCESSORS" = Some s → sscanf_d s = Some n → 0 < n →
          effective_num_processors = n) ∧
  (getenv "OSDPROCESSORS" = None → effective_num_processors = osd_num_processors) ∧
  (∀ s, getenv "OSDPROCESSORS" = Some s → sscanf_d s = None →
        effective_num_processors = osd_num_processors) ∧
  (∀ s n, getenv "OSDPROCESSORS" = Some s → sscanf_d s = Some n → n ≤ 0 →
          effective_num_processors = osd_num_processors) ∧
  (∀ (fuel : nat) (flags : Z) (m : machine) (rest : list bool),
     let N := effective_num_processors in
     1 ≤ N ≤ INT32_MAX → 0 < brk m →
     supply m = replicate (3 + 2 * Z.to_nat (spec_worker_count N flags)) true ++ rest →
     ∃ m' q,
       osd_work_queue_alloc fuel flags m = Ret (brk m) m' ∧
       queue_at m' (brk m) = Some q ∧
       q_threads q = spec_worker_count N flags ∧
       (N = 1 → q_threads q = if io_queue flags then 1 else 0) ∧
       (1 < N → q_threads q = Z.min (if multi_queue flags then N - 1 else 1) 16)).
Proof.
  split_and!.
  - intros s n Hs Hn Hpos. unfold effective_num_processors. rewrite Hs, Hn.
    destruct (Z.ltb_spec 0 n); [done|lia].
  - intros Hs. unfold effective_num_processors. by rewrite Hs.
  - intros s Hs Hn. unfold effective_num_processors. by rewrite Hs, Hn.
  - intros s n Hs Hn Hpos. unfold effective_num_processors. rewrite Hs, Hn.
    destruct (Z.ltb_spec 0 n); [lia|done].
  - intros fuel flags m rest N HN Hbrk Hsup.
    rewrite <- (choose_threads_spec N flags HN) in Hsup.
    destruct (osd_work_queue_alloc_ok fuel flags m rest Hbrk Hsup)
      as (m' & arr & Hrun & Hq & _).
    exists m', (new_queue (brk m) flags). split; [done|].
    unfold queue_at. rewrite Hq. split; [done|].
    cbn [q_threads new_queue]. fold N. rewrite (choose_threads_spec N flags HN).
    split; [done|]. unfold spec_worker_count. split.
    + intros ->. simpl. destruct (io_queue flags); done.
    + intros H1. destruct (Z.eqb_spec N 1); [lia|done].
Qed.

End QueueAlloc.

Lemma queue_alloc_worker_count_witness :
  let host := example_host 2 (Some "4") in
  ∃ m' q,
    osd_work_queue_alloc 0 2 (boot 9) = Ret 1 m' ∧
    queue_at m' 1 = Some q ∧ q_threads q = 3.
Proof.
  intros host.
  destruct (@queue_alloc_worker_count host) as (_ & _ & _ & _ & H).
  destruct (H O 2 (boot 9) []) as (m' & q & Hrun & Hq & Hn & _); [done|done|done|].
  exists m', q. split_and!; [exact Hrun|exact Hq|exact Hn].
Defined.

(** ** Allocation failures *)

(** C8 (the code departs from it).  When the first [malloc] of
    [osd_work_queue_alloc] fails, the error path hands the null pointer to
    [osd_work_queue_free], which reads [queue->threads]: a fault, not a
    null handle.  When [malloc] fails inside the item loop of
    [osd_work_item_queue_multiple], the function returns NULL at once: the
    item it had taken from the free list is on no list any more, and
    survives [osd_work_queue_free]. *)
Theorem allocation_failure_paths :
  (∀ (host : Platform) (fuel : nat) (flags : Z),
     osd_work_queue_alloc fuel flags (boot 0) = Fault) ∧
  (∃ m', failed_submit_scenario (boot 4) = Ret (4, NULL) m' ∧
         is_Some (item_at m' 4) ∧ queue_at m' 1 = None).
Proof.
  split.
  - intros host fuel flags. reflexivity.
  - eexists. split; [vm_compute; reflexivity|]. split; [|reflexivity].
    vm_compute. eauto.
Qed.

(** ** The tail pointer after a submission of no item *)

Lemma tail_of_not_local (queue : Z) (l : list Z) : tail_of queue l ≠ LocItemlist.
Proof. unfold tail_of. by destruct (last l). Qed.

(** C9 (the code departs from it).  A submission of zero items stores
    [&itemlist], the address of a local of the call, into [queue->tailptr]:
    after the call the pending list is empty and [tailptr] is not
    [&queue->list], on a queue without workers and on one with workers; the
    next submission stores through the stale pointer. *)
Theorem submit_zero_items_breaks_tail_invariant :
  (∃ m', empty_submit_scenario 1 0 (boot 4) = Ret 1 m' ∧
         (∃ q, queue_at m' 1 = Some q ∧ q_list q = NULL ∧ q_tailptr q = LocItemlist) ∧
         ¬ tail_ok m' 1 ∧
         @osd_work_item_queue_multiple (example_host 1 None) 8 1 square 1 1 0 0 m' = Fault) ∧
  (∃ m', empty_submit_scenario 4 2 (boot 9) = Ret 1 m' ∧
         (∃ q, queue_at m' 1 = Some q ∧ q_list q = NULL ∧ q_tailptr q = LocItemlist) ∧
         ¬ tail_ok m' 1).
Proof.
  split.
  - eexists. split; [vm_compute; reflexivity|]. split_and!.
    + eexists. split; [vm_compute; reflexivity|]. done.
    + intros (q & l & Hq & _ & Ht). vm_compute in Hq. simplify_eq.
      simpl in Ht. symmetry in Ht. by apply tail_of_not_local in Ht.
    + vm_compute. reflexivity.
  - eexists. split; [vm_compute; reflexivity|]. split.
    + eexists. split; [vm_compute; reflexivity|]. done.
    + intros (q & l & Hq & _ & Ht). vm_compute in Hq. simplify_eq.
      simpl in Ht. symmetry in Ht. by apply tail_of_not_local in Ht.
Qed.

(** ** Relations preserved by the calls *)

Create HintDb pres discriminated.

Section Preserves.
Context (R : relation machine) `{!PreOrder R}.

Lemma preserves_ret {A} (a : A) : preserves R (ret a).
Proof. intros m a' m' Hr. unfold ret in Hr. by simplify_eq. Qed.

Lemma preserves_fault {A} : preserves R (@fault A).
Proof. by intros m a' m' Hr. Qed.

Lemma preserves_bind {A B} (c : M A) (k : A → M B) :
  preserves R c → (∀ a, preserves R (k a)) → preserves R (bind c k).
Proof.
  intros Hc Hk m b m' Hr. apply bind_inv in Hr as (a & m1 & H1 & H2).
  transitivity m1; [by eapply Hc|by eapply Hk].
Qed.

Lemma preserves_loop {S A} (fuel : nat) (body : S → M (S + A)) (s : S) :
  (∀ s', preserves R (body s')) → preserves R (loop fuel body s).
Proof.
  intros Hb. revert s. induction fuel as [|fuel IH]; intros s; [done|].
  cbn [loop]. apply preserves_bind; [done|].
  intros [s'|a]; [apply IH|apply preserves_ret].
Qed.

Lemma preserves_for_each (count : nat) (from : Z) (body : Z → M unit) :
  (∀ i, preserves R (body i)) → preserves R (for_each count from body).
Proof.
  intros Hb. revert from. induction count as [|count IH]; intros from.
  - apply preserves_ret.
  - cbn [for_each]. apply preserves_bind; [done|]. intros _. apply IH.
Qed.

Lemma preserves_for_loop {A} (count : nat) (from : Z) (body : Z → M (option A)) :
  (∀ i, preserves R (body i)) → preserves R (for_loop count from body).
Proof.
  intros Hb. revert from. induction count as [|count IH]; intros from.
  - apply preserves_ret.
  - cbn [for_loop]. apply preserves_bind; [done|].
    intros [a|]; [apply preserves_ret|apply IH].
Qed.

End Preserves.

(** Breaks a call into its primitive steps. *)
Ltac pres_step :=
  lazymatch goal with
  | |- PreOrder _ => typeclasses eauto
  | |- ∀ _, _ => intros ?
  | |- preserves _ (ret _) => apply preserves_ret
  | |- preserves _ fault => apply preserves_fault
  | |- preserves _ (bind _ _) => apply preserves_bind
  | |- preserves _ (loop _ _ _) => apply preserves_loop
  | |- preserves _ (for_each _ _ _) => apply preserves_for_each
  | |- preserves _ (for_loop _ _ _) => apply preserves_for_loop
  | |- preserves _ (match _ with _ => _ end) => case_match
  | |- preserves _ _ => solve [eauto with pres]
  end.

Ltac pres := repeat pres_step.

Lemma same_trace_preorder : PreOrder same_trace.
Proof. split; [done|]. intros m1 m2 m3 H1 H2. unfold same_trace in *. congruence. Qed.

Global Existing Instance same_trace_preorder.

Lemma same_trace_load_queue (p : Z) : preserves same_trace (load_queue p).
Proof. intros m q m' Hr. by apply load_queue_inv in Hr as [-> _]. Qed.

Lemma same_trace_load_item (p : Z) : preserves same_trace (load_item p).
Proof. intros m q m' Hr. by apply load_item_inv in Hr as [-> _]. Qed.

Lemma same_trace_load_event (p : Z) : preserves same_trace (load_event p).
Proof. intros m q m' Hr. by apply load_event_inv in Hr as [-> _]. Qed.

Lemma same_trace_load_threads (p : Z) : preserves same_trace (load_threads p).
Proof. intros m q m' Hr. by apply load_threads_inv in Hr as [-> _]. Qed.

Lemma same_trace_store (p : Z) (o : object) : preserves same_trace (store p o).
Proof. intros m q m' Hr. unfold store in Hr. by simplify_eq. Qed.

Lemma same_trace_alloc (o : object) : preserves same_trace (alloc o).
Proof.
  intros m q m' Hr. unfold alloc in Hr.
  destruct (supply m) as [|[] ?]; by simplify_eq.
Qed.

Lemma same_trace_dealloc (p : Z) : preserves same_trace (dealloc p).
Proof.
  intros m q m' Hr. unfold dealloc in Hr.
  destruct (heap m !! p); by simplify_eq.
Qed.

Global Hint Resolve same_trace_load_queue same_trace_load_item same_trace_load_event
  same_trace_load_threads same_trace_store same_trace_alloc same_trace_dealloc : pres.

Lemma same_trace_modify_queue (p : Z) (f : osd_work_queue → osd_work_queue) :
  preserves same_trace (modify_queue p f).
Proof. unfold modify_queue. pres. Qed.

Lemma same_trace_modify_item (p : Z) (f : osd_work_item → osd_work_item) :
  preserves same_trace (modify_item p f).
Proof. unfold modify_item. pres. Qed.

Lemma same_trace_modify_event (p : Z) (f : osd_event → osd_event) :
  preserves same_trace (modify_event p f).
Proof. unfold modify_event. pres. Qed.

Global Hint Resolve same_trace_modify_queue same_trace_modify_item
  same_trace_modify_event : pres.

Section Traces.
Context {host : Platform}.

Lemma same_trace_interfere : preserves same_trace interfere.
Proof. intros m q m' Hr. unfold interfere in Hr. by simplify_eq. Qed.

Lemma same_trace_osd_ticks : preserves same_trace osd_ticks.
Proof. intros m q m' Hr. unfold osd_ticks in Hr. by simplify_eq. Qed.

Hint Resolve same_trace_interfere same_trace_osd_ticks : pres.

Lemma same_trace_yield : preserves same_trace osd_yield_processor.
Proof.
  unfold osd_yield_processor. apply preserves_bind; [typeclasses eauto|eauto with pres|].
  intros _ m q m' Hr. by simplify_eq.
Qed.

Hint Resolve same_trace_yield : pres.

Lemma same_trace_acquire (fuel : nat) (lock : Z) :
  preserves same_trace (scalable_lock_acquire fuel lock).
Proof. unfold scalable_lock_acquire. pres. Qed.

Lemma same_trace_release (lock myslot : Z) :
  preserves same_trace (scalable_lock_release lock myslot).
Proof. unfold scalable_lock_release. pres. Qed.

Lemma same_trace_pull_item (queue : Z) : preserves same_trace (pull_item queue).
Proof. unfold pull_item. pres. Qed.

Lemma same_trace_compare_exchange_free (queue compare exchange : Z) :
  preserves same_trace (compare_exchange_free queue compare exchange).
Proof. unfold compare_exchange_free. pres. Qed.

Hint Resolve same_trace_acquire same_trace_release same_trace_pull_item
  same_trace_compare_exchange_free : pres.

End Traces.

Global Hint Resolve same_trace_interfere same_trace_osd_ticks same_trace_yield
  same_trace_acquire same_trace_release same_trace_pull_item
  same_trace_compare_exchange_free : pres.

Lemma emit_inv (e : effect) (m : machine) (u : unit) (m' : machine) :
  emit e m = Ret u m' →
  m' = {| heap := heap m; brk := brk m; supply := supply m; clock := clock m;
          trace := trace m ++ [e] |}.
Proof. unfold emit. intros Hr. by simplify_eq. Qed.

Lemma ret_inv {A} (a : A) (m : machine) (b : A) (m' : machine) :
  ret a m = Ret b m' → b = a ∧ m' = m.
Proof. unfold ret. intros Hr. by simplify_eq. Qed.

Lemma loop_inv_last {S A} (fuel : nat) (body : S → M (S + A)) :
  ∀ (s : S) (m : machine) (a : A) (m' : machine),
    loop fuel body s m = Ret a m' →
    ∃ s' m1, body s' m1 = Ret (inr a) m'.
Proof.
  induction fuel as [|fuel IH]; intros s m a m' Hrun; [done|].
  cbn [loop] in Hrun. apply bind_inv in Hrun as ([s1|a1] & m1 & Hbody & Hrest).
  - by eapply IH.
  - apply ret_inv in Hrest as [-> ->]. by exists s, m.
Qed.

(** Inverts a run of primitive steps in hypothesis [H]. *)
Ltac inv_run H :=
  let a := fresh "a" in
  let m := fresh "m" in
  let H1 := fresh "Hstep" in
  lazymatch type of H with
  | bind _ _ _ = Ret _ _ =>
      apply bind_inv in H as (a & m & H1 & H); inv_prim H1
  | _ => inv_prim H
  end
with inv_prim H :=
  let x := fresh "x" in
  let Hx := fresh "Hx" in
  lazymatch type of H with
  | load_queue _ _ = Ret _ _ => apply load_queue_inv in H as [-> H]
  | load_item _ _ = Ret _ _ => apply load_item_inv in H as [-> H]
  | load_event _ _ = Ret _ _ => apply load_event_inv in H as [-> H]
  | load_threads _ _ = Ret _ _ => apply load_threads_inv in H as [-> H]
  | modify_queue _ _ _ = Ret _ _ => apply modify_queue_inv in H as (x & Hx & ->)
  | modify_item _ _ _ = Ret _ _ => apply modify_item_inv in H as (x & Hx & ->)
  | modify_event _ _ _ = Ret _ _ => apply modify_event_inv in H as (x & Hx & ->)
  | emit _ _ = Ret _ _ => apply emit_inv in H as ->
  | ret _ _ = Ret _ _ => apply ret_inv in H as [-> ->]
  | _ => idtac
  end.

Section CompletionOrder.
Context {host : Platform}.

Lemma item_release_done_trace (fuel : nat) (item : Z) (it : osd_work_item)
    (m : machine) (u : unit) (m' : machine) :
  heap m !! item = Some (OItem it) → it_done it ≠ 0 →
  osd_work_item_release fuel item m = Ret u m' → trace m' = trace m.
Proof.
  intros Hit Hdone Hrun. unfold osd_work_item_release in Hrun.
  apply bind_inv in Hrun as (r & m1 & Hwait & Hpush).
  unfold osd_work_item_wait in Hwait.
  rewrite (bind_ret_l _ _ _ _ _ (load_item_ok _ _ _ Hit)) in Hwait.
  destruct (Z.eqb_spec (it_done it) 0) as [|_]; [done|].
  simpl in Hwait. apply ret_inv in Hwait as [-> ->].
  revert Hpush. apply (preserves_loop same_trace). intros _. pres.
Qed.

Lemma complete_item_trace (fuel : nat) (queue item : Z) (m : machine)
    (u : unit) (m' : machine) :
  complete_item fuel queue item m = Ret u m' →
  ∃ it, heap m !! item = Some (OItem it) ∧
        trace m' = trace m ++ completion_effects queue item it.
Proof.
  intros Hrun. unfold complete_item in Hrun.
  inv_run Hrun. rename Hstep into Hit, a into it. exists it. split; [done|].
  inv_run Hrun.
  apply bind_inv in Hrun as (? & ? & Hres & Hrun). unfold store_result in Hres.
  inv_run Hres. inv_run Hres.
  apply bind_inv in Hrun as (? & ? & Hadd & Hrun).
  unfold sync_add_items, osd_sync_add in Hadd.
  inv_run Hadd. inv_run Hadd. inv_run Hadd. inv_run Hadd.
  apply bind_inv in Hrun as (? & ? & Hdone & Hrun). unfold store_done in Hdone.
  inv_run Hdone. inv_run Hdone.
  inv_run Hrun. norm in *.
  assert (queue ≠ item) as Hne.
  { intros ->. rewrite lookup_insert_eq in Hstep. done. }
  rewrite lookup_insert_eq in Hstep0.
  rewrite lookup_insert_ne, lookup_insert_eq in Hx1 by done. simplify_eq.
  unfold completion_effects, auto_release.
  cbn [it_flags it_event set_it_done set_it_result] in *.
  destruct (negb (Z.land (it_flags it) WORK_ITEM_FLAG_AUTO_RELEASE =? 0)).
  - eapply item_release_done_trace in Hrun; [| apply lookup_insert_eq | done ].
    rewrite Hrun. norm. by rewrite <- !app_assoc.
  - destruct (it_event it =? NULL); simpl in Hrun.
    + apply ret_inv in Hrun as [_ ->]. norm. by rewrite <- !app_assoc.
    + unfold osd_event_set in Hrun. inv_run Hrun. inv_run Hrun.
      norm. by rewrite <- !app_assoc.
Qed.

Lemma drain_loop_trace (queue : Z) (fuel fuel' : nat) :
  ∀ (m : machine) (u : unit) (m' : machine),
    loop fuel (drain_round fuel' queue) tt m = Ret u m' →
    ∃ completed : list (Z * osd_work_item),
      trace m' = trace m ++ flat_map (λ p, completion_effects queue p.1 p.2) completed.
Proof.
  induction fuel as [|fuel IH]; intros m u m' Hrun; [done|].
  cbn [loop] in Hrun.
  apply bind_inv in Hrun as ([[]|[]] & m1 & Hbody & Hrest); unfold drain_round in Hbody.
  - inv_run Hbody.
    destruct (q_items a =? 0); [by apply ret_inv in Hbody as [? _]|].
    apply bind_inv in Hbody as (lockslot & m2 & Hacq & Hbody).
    apply same_trace_acquire in Hacq.
    apply bind_inv in Hbody as (item & m3 & Hpull & Hbody).
    apply same_trace_pull_item in Hpull.
    apply bind_inv in Hbody as (? & m4 & Hrel & Hbody).
    apply same_trace_release in Hrel.
    apply bind_inv in Hbody as (? & m5 & Hcomp & Hbody).
    apply ret_inv in Hbody as [_ ->].
    apply IH in Hrest as (completed & Htr).
    unfold same_trace in *.
    destruct (item =? NULL).
    + apply ret_inv in Hcomp as [_ ->]. exists completed. congruence.
    + apply complete_item_trace in Hcomp as (it & Hit & Htr5).
      exists ((item, it) :: completed). cbn [flat_map fst snd].
      rewrite Htr, Htr5, <- app_assoc. congruence.
  - apply ret_inv in Hrest as [_ ->]. inv_run Hbody.
    destruct (q_items a =? 0).
    + apply ret_inv in Hbody as [_ ->]. exists []. simpl. by rewrite app_nil_r.
    + repeat (apply bind_inv in Hbody as (? & ? & _ & Hbody)).
      by apply ret_inv in Hbody as [? _].
Qed.


Lemma worker_thread_process_trace (fuel : nat) (queue : Z) (thread : Z * Z)
    (m m' : machine) :
  worker_thread_process fuel queue thread m = Ret tt m' →
  ∃ (completed : list (Z * osd_work_item)) (final : list effect),
    trace m' = trace m ++ flat_map (λ p, completion_effects queue p.1 p.2) completed ++ final ∧
    (final = [] ∨ ∃ e, final = [EvEventSet e]).
Proof.
  intros Hrun. unfold worker_thread_process in Hrun.
  apply bind_inv in Hrun as (u & m1 & Hloop & Hrun).
  apply drain_loop_trace in Hloop as (completed & Htr).
  inv_run Hrun.
  assert (∃ final, trace m' = trace m1 ++ final ∧
                   (final = [] ∨ ∃ e, final = [EvEventSet e])) as (final & Hf & Hfinal).
  { destruct (negb (q_waiting a =? 0)).
    - unfold osd_event_set in Hrun. inv_run Hrun. inv_run Hrun. norm. eauto.
    - apply ret_inv in Hrun as [_ ->]. exists []. rewrite app_nil_r. eauto. }
  exists completed, final. split; [|done].
  by rewrite Hf, Htr, <- app_assoc.
Qed.


End CompletionOrder.


(** ** Linked lists in the heap *)

Lemma seg_agree (h h' : gmap Z object) (l : list Z) :
  ∀ p r, seg h p l r → (∀ a, a ∈ l → h' !! a = h !! a) → seg h' p l r.
Proof.
  induction l as [|a l IH]; intros p r Hs Hag; [done|].
  destruct Hs as (-> & Hnz & it & Hit & Hs). split; [done|]. split; [done|].
  exists it. split; [rewrite Hag; [done|set_solver]|].
  apply IH; [done|]. intros b Hb. apply Hag. set_solver.
Qed.

Lemma seg_elem (h : gmap Z object) (l : list Z) :
  ∀ p r a, seg h p l r → a ∈ l → a ≠ NULL ∧ ∃ it, h !! a = Some (OItem it).
Proof.
  induction l as [|b l IH]; intros p r a Hs Ha; [set_solver|].
  destruct Hs as (-> & Hnz & it & Hit & Hs).
  apply elem_of_cons in Ha as [->|Ha]; [eauto|]. by eapply IH.
Qed.

Lemma seg_app (h : gmap Z object) (l1 l2 : list Z) :
  ∀ p r, seg h p (l1 ++ l2) r ↔ ∃ mid, seg h p l1 mid ∧ seg h mid l2 r.
Proof.
  induction l1 as [|a l1 IH]; intros p r; simpl.
  - split; [intros Hs; by exists p|]. by intros (mid & -> & Hs).
  - split.
    + intros (-> & Hnz & it & Hit & Hs). apply IH in Hs as (mid & H1 & H2).
      exists mid. split; [|done]. split_and!; [done|done|]. by exists it.
    + intros (mid & (-> & Hnz & it & Hit & H1) & H2).
      split_and!; [done|done|]. exists it. split; [done|]. apply IH. by exists mid.
Qed.

(** Storing [r'] into the [next] of the last item of a segment. *)
Lemma seg_set_last (h : gmap Z object) (l : list Z) (b : Z) (itb : osd_work_item)
    (p r r' : Z) :
  seg h p (l ++ [b]) r → b ∉ l → h !! b = Some (OItem itb) →
  seg (<[b := OItem (set_it_next r' itb)]> h) p (l ++ [b]) r'.
Proof.
  intros Hs Hb Hitb. apply seg_app in Hs as (mid & H1 & H2).
  apply seg_app. exists mid. split.
  - eapply seg_agree; [done|]. intros a Ha. rewrite lookup_insert_ne; [done|by intros ->].
  - destruct H2 as (-> & Hnz & it & Hit & H2). split_and!; [done|done|].
    eexists. rewrite lookup_insert_eq. split; [done|]. done.
Qed.

Lemma tail_of_app_ne (queue : Z) (l1 l2 : list Z) :
  l2 ≠ [] → tail_of queue (l1 ++ l2) = tail_of queue l2.
Proof.
  intros Hne. unfold tail_of.
  destruct l2 as [|a l2 _] using rev_ind; [done|].
  by rewrite app_assoc, !last_snoc.
Qed.

Lemma tail_of_cons_ne (queue a : Z) (l : list Z) :
  l ≠ [] → tail_of queue (a :: l) = tail_of queue l.
Proof. intros Hne. by apply (tail_of_app_ne queue [a] l). Qed.

(** ** The lock when nobody else holds it *)

Lemma lock_held_next (l : scalable_lock) :
  lock_ready l → lock_ready (lock_next l).
Proof.
  intros [Hlen Hslot]. unfold lock_next, lock_held. rewrite release_exchange_eq.
  pose proof (Z.mod_pos_bound (nextindex l) 16 ltac:(lia)) as Hr.
  pose proof (release_target_range (nextindex l mod 16)) as Ht.
  split.
  - simpl. by rewrite !length_insert.
  - cbn [nextindex slot_set].
    assert (wrap32 (nextindex l + 1) mod 16 = release_target (nextindex l mod 16)) as ->.
    { unfold release_target. rewrite land15_mod.
      rewrite (mod16_of_mod32 _ _ (wrap32_mod (nextindex l + 1))).
      by rewrite Zplus_mod_idemp_l. }
    apply slot_get_set_eq. simpl. rewrite length_insert, Hlen.
    unfold MAX_THREADS. lia.
Qed.

Section Lock.
Context {host : Platform}.

Lemma scalable_lock_acquire_ok (fuel : nat) (queue : Z) (q : osd_work_queue) (m : machine) :
  heap m !! queue = Some (OQueue q) → lock_ready (q_lock q) →
  scalable_lock_acquire (S fuel) queue m =
    Ret (nextindex (q_lock q) mod 16)
        (set_heap (<[queue := OQueue (set_q_lock (lock_held (q_lock q)) q)]> (heap m)) m).
Proof.
  intros Hq [Hlen Hslot]. unfold scalable_lock_acquire.
  rewrite (bind_ret_l _ _ _ _ _ (load_queue_ok _ _ _ Hq)).
  rewrite acquire_ticket_eq.
  erewrite bind_ret_l; [|by eapply modify_queue_ok]. norm.
  cbn [loop]. rewrite bind_bind.
  erewrite bind_ret_l; [|eapply load_queue_ok; norm; apply lookup_insert_eq].
  unfold acquire_try, osd_compare_exchange32. cbn [q_lock set_q_lock].
  assert (slot_get {| slot := slot (q_lock q); nextindex := wrap32 (nextindex (q_lock q) + 1) |}
            (nextindex (q_lock q) mod 16) = TRUE) as -> by exact Hslot.
  simpl (TRUE =? TRUE). cbn iota. rewrite bind_bind.
  erewrite bind_ret_l; [|eapply modify_queue_ok; norm; apply lookup_insert_eq]. norm.
  simpl (TRUE =? 0). cbn iota. unfold bind, ret. rewrite insert_insert_eq.
  reflexivity.
Qed.

Lemma scalable_lock_release_ok (queue myslot : Z) (q : osd_work_queue) (m : machine) :
  heap m !! queue = Some (OQueue q) →
  scalable_lock_release queue myslot m =
    Ret tt (set_heap (<[queue := OQueue (set_q_lock (release_exchange (q_lock q) myslot) q)]>
                        (heap m)) m).
Proof.
  intros Hq. unfold scalable_lock_release.
  rewrite (bind_ret_l _ _ _ _ _ (load_queue_ok _ _ _ Hq)).
  by erewrite modify_queue_ok.
Qed.

End Lock.

(** ** The calls of the lock *)

Section LockCalls.
Context {host : Platform}.

(** What every round of a loop keeps, the loop keeps. *)
Lemma loop_keeps {S A} (I : machine → Prop) (fuel : nat) (body : S → M (S + A)) :
  (∀ s m x m', I m → body s m = Ret x m' → I m') →
  ∀ (s : S) (m : machine) (a : A) (m' : machine),
    I m → loop fuel body s m = Ret a m' → I m'.
Proof.
  intros Hbody. induction fuel as [|fuel IH]; intros s m a m' Hm Hrun; [done|].
  cbn [loop] in Hrun. apply bind_inv in Hrun as ([s1|a1] & m1 & Hb & Hrest).
  - eapply IH; [|exact Hrest]. by eapply Hbody.
  - apply ret_inv in Hrest as [-> ->]. by eapply Hbody.
Qed.

Lemma for_each_keeps (I : machine → Prop) (body : Z → M unit) :
  (∀ i m x m', I m → body i m = Ret x m' → I m') →
  ∀ (count : nat) (from : Z) (m : machine) (x : unit) (m' : machine),
    I m → for_each count from body m = Ret x m' → I m'.
Proof.
  intros Hbody. induction count as [|count IH]; intros from m x m' Hm Hrun.
  - apply ret_inv in Hrun as [_ ->]. done.
  - cbn [for_each] in Hrun. apply bind_inv in Hrun as (u & m1 & Hb & Hrest).
    eapply IH; [|exact Hrest]. by eapply Hbody.
Qed.

(** A call of [scalable_lock_acquire] that returns has incremented
    [nextindex] once, when no other thread took a ticket meanwhile. *)
Lemma scalable_lock_acquire_ticket (fuel : nat) (lock : Z) (q : osd_work_queue)
    (m : machine) (r : Z) (m' : machine) :
  heap m !! lock = Some (OQueue q) →
  (∀ h q0, h !! lock = Some (OQueue q0) →
           ∃ q1, others h !! lock = Some (OQueue q1) ∧
                 nextindex (q_lock q1) = nextindex (q_lock q0)) →
  scalable_lock_acquire fuel lock m = Ret r m' →
  ∃ q', heap m' !! lock = Some (OQueue q') ∧
        nextindex (q_lock q') = wrap32 (nextindex (q_lock q) + 1).
Proof.
  intros Hq Hkeep Hrun. unfold scalable_lock_acquire in Hrun.
  rewrite (bind_ret_l _ _ _ _ _ (load_queue_ok _ _ _ Hq)) in Hrun.
  rewrite acquire_ticket_eq in Hrun.
  apply bind_inv in Hrun as (u & m1 & Hmod & Hrun).
  apply modify_queue_inv in Hmod as (q0 & Hq0 & ->).
  rewrite Hq in Hq0. injection Hq0 as <-.
  set (I := λ m0 : machine,
         ∃ q', heap m0 !! lock = Some (OQueue q') ∧
               nextindex (q_lock q') = wrap32 (nextindex (q_lock q) + 1)).
  apply (loop_keeps I) in Hrun; [exact Hrun| |].
  - clear Hrun. intros backoff m0 x m2 (q1 & Hq1 & Hn1) Hbody.
    rewrite (bind_ret_l _ _ _ _ _ (load_queue_ok _ _ _ Hq1)) in Hbody.
    unfold acquire_try in Hbody.
    destruct (osd_compare_exchange32 (slot_get (q_lock q1) (nextindex (q_lock q) mod 16))
                TRUE FALSE) as [old new].
    apply bind_inv in Hbody as (u' & m3 & Hmod & Hbody).
    apply modify_queue_inv in Hmod as (q2 & Hq2 & ->).
    rewrite Hq1 in Hq2. injection Hq2 as <-.
    assert (I (set_heap (<[lock := OQueue (set_q_lock
                 (slot_set (q_lock q1) (nextindex (q_lock q) mod 16) new) q1)]> (heap m0)) m0))
      as Hafter.
    { eexists. norm. split; [apply lookup_insert_eq|]. done. }
    destruct (old =? 0).
    + apply bind_inv in Hbody as (u'' & m4 & Hyield & Hbody).
      apply ret_inv in Hbody as [_ ->].
      apply (for_each_keeps I) in Hyield; [exact Hyield| |exact Hafter].
      intros i m5 x' m6 (q5 & Hq5 & Hn5) Hy. unfold osd_yield_processor in Hy.
      apply bind_inv in Hy as (u5 & m7 & Hint & Hy).
      unfold interfere in Hint. injection Hint as _ <-. injection Hy as _ <-.
      destruct (Hkeep _ _ Hq5) as (q6 & Hq6 & Hn6).
      exists q6. norm. split; [done|congruence].
    + apply ret_inv in Hbody as [_ ->]. exact Hafter.
  - eexists. norm. split; [apply lookup_insert_eq|]. done.
Qed.

(** Critical sections one after the other: the tickets rotate. *)
Lemma lock_rounds_ok (fuel : nat) (lock : Z) (k : nat) :
  ∀ (q : osd_work_queue) (m : machine),
    heap m !! lock = Some (OQueue q) → lock_ready (q_lock q) →
    ∃ m' q' tickets,
      lock_rounds (S fuel) k lock m = Ret tickets m' ∧
      length tickets = k ∧
      (∀ i r, tickets !! i = Some r → r = (nextindex (q_lock q) + Z.of_nat i) mod 16) ∧
      heap m' !! lock = Some (OQueue q') ∧ lock_ready (q_lock q') ∧
      nextindex (q_lock q') mod 2 ^ 32 = (nextindex (q_lock q) + Z.of_nat k) mod 2 ^ 32.
Proof.
  induction k as [|k IH]; intros q m Hq Hready.
  - exists m, q, []. split; [done|]. split; [done|]. split; [by intros i r ?|].
    split; [done|]. split; [done|]. f_equal. lia.
  - cbn [lock_rounds].
    rewrite (bind_ret_l _ _ _ _ _ (scalable_lock_acquire_ok _ _ _ _ Hq Hready)).
    erewrite bind_ret_l; [|eapply scalable_lock_release_ok; norm; apply lookup_insert_eq].
    norm. rewrite insert_insert_eq. cbn [q_lock set_q_lock].
    fold (lock_next (q_lock q)).
    match goal with |- context [bind (lock_rounds _ _ _) _ ?m0] =>
      destruct (IH (set_q_lock (lock_next (q_lock q)) (set_q_lock (lock_held (q_lock q)) q)) m0)
        as (m' & q' & tickets & Hrun & Hlen & Hticks & Hq' & Hready' & Hnext)
    end.
    { norm. apply lookup_insert_eq. }
    { cbn [q_lock set_q_lock]. by apply lock_held_next. }
    rewrite (bind_ret_l _ _ _ _ _ Hrun).
    cbn [q_lock set_q_lock] in Hticks, Hnext.
    assert (nextindex (lock_next (q_lock q)) = wrap32 (nextindex (q_lock q) + 1)) as Hn.
    { unfold lock_next, lock_held. by rewrite release_exchange_eq. }
    exists m', q', (nextindex (q_lock q) mod 16 :: tickets).
    split; [done|]. split; [by rewrite length_cons, Hlen|]. split.
    + intros [|i] r Hi.
      * injection Hi as <-. f_equal. lia.
      * cbn [lookup list_lookup] in Hi. rewrite (Hticks i r Hi), Hn.
        apply mod16_of_mod32.
        rewrite <- Zplus_mod_idemp_l, wrap32_mod, Zplus_mod_idemp_l. f_equal. lia.
    + split; [done|]. split; [done|].
      rewrite Hnext, Hn, <- Zplus_mod_idemp_l, wrap32_mod, Zplus_mod_idemp_l.
      f_equal. lia.
Qed.

(** C3. The protocol of the scalable lock, for a lock [l] inside the queue
    at [lock].  Every call of [scalable_lock_acquire] that returns, returns
    the ticket [nextindex l mod 16], and has incremented [nextindex] (as an
    INT32) when no other thread took a ticket meanwhile.  When slot [nextindex l mod 16] holds
    the baton, the call returns at once, [nextindex] is incremented (as an
    INT32), the baton is taken from that slot and the other slots are left
    as they are; on the initial lock the ticket is slot 0.  Critical
    sections one after the other get the tickets [nextindex l],
    [nextindex l + 1], ... modulo 16.  [scalable_lock_release] stores true
    into slot [(myslot + 1) mod 16], which is never [myslot], and leaves
    [nextindex] and [myslot] as they were. *)
Theorem scalable_lock_protocol (fuel : nat) (lock : Z) (q : osd_work_queue) (m : machine) :
  heap m !! lock = Some (OQueue q) →
  (∀ r m', scalable_lock_acquire fuel lock m = Ret r m' →
           r = nextindex (q_lock q) mod 16 ∧ 0 ≤ r < MAX_THREADS ∧
           ((∀ h q0, h !! lock = Some (OQueue q0) →
                     ∃ q1, others h !! lock = Some (OQueue q1) ∧
                           nextindex (q_lock q1) = nextindex (q_lock q0)) →
            ∃ q', queue_at m' lock = Some q' ∧
                  nextindex (q_lock q') = wrap32 (nextindex (q_lock q) + 1))) ∧
  (lock_ready (q_lock q) →
   ∃ m' q',
     scalable_lock_acquire (S fuel) lock m = Ret (nextindex (q_lock q) mod 16) m' ∧
     queue_at m' lock = Some q' ∧
     nextindex (q_lock q') = wrap32 (nextindex (q_lock q) + 1) ∧
     length (slot (q_lock q')) = length (slot (q_lock q)) ∧
     slot_get (q_lock q') (nextindex (q_lock q) mod 16) = FALSE ∧
     (∀ j, 0 ≤ j → j ≠ nextindex (q_lock q) mod 16 →
           slot_get (q_lock q') j = slot_get (q_lock q) j) ∧
     trace m' = trace m ∧ clock m' = clock m) ∧
  (q_lock q = scalable_lock_init →
   ∃ m', scalable_lock_acquire (S fuel) lock m = Ret 0 m') ∧
  (lock_ready (q_lock q) →
   ∀ k : nat,
     ∃ m' tickets,
       lock_rounds (S fuel) k lock m = Ret tickets m' ∧ length tickets = k ∧
       ∀ i r, tickets !! i = Some r → r = (nextindex (q_lock q) + Z.of_nat i) mod 16) ∧
  (∀ myslot : Z,
     ∃ m' q',
       scalable_lock_release lock myslot m = Ret tt m' ∧
       queue_at m' lock = Some q' ∧
       q_lock q' = slot_set (q_lock q) ((myslot + 1) mod 16) TRUE ∧
       (myslot + 1) mod 16 ≠ myslot ∧
       nextindex (q_lock q') = nextindex (q_lock q) ∧
       (length (slot (q_lock q)) = Z.to_nat MAX_THREADS → 0 ≤ myslot < MAX_THREADS →
        slot_get (q_lock q') ((myslot + 1) mod 16) = TRUE ∧
        slot_get (q_lock q') myslot = slot_get (q_lock q) myslot)).
Proof.
  intros Hq. split_and!.
  - intros r m' Hrun.
    assert (∀ P : Prop, P → P ∧
              ((∀ h q0, h !! lock = Some (OQueue q0) →
                        ∃ q1, others h !! lock = Some (OQueue q1) ∧
                              nextindex (q_lock q1) = nextindex (q_lock q0)) →
               ∃ q', queue_at m' lock = Some q' ∧
                     nextindex (q_lock q') = wrap32 (nextindex (q_lock q) + 1))) as Hadd.
    { intros P HP. split; [exact HP|]. intros Hkeep.
      destruct (scalable_lock_acquire_ticket fuel lock q m r m' Hq Hkeep Hrun)
        as (q' & Hq' & Hn').
      exists q'. unfold queue_at. by rewrite Hq'. }
    unfold scalable_lock_acquire in Hrun.
    rewrite (bind_ret_l _ _ _ _ _ (load_queue_ok _ _ _ Hq)) in Hrun.
    rewrite acquire_ticket_eq in Hrun.
    apply bind_inv in Hrun as (u & m1 & _ & Hrun).
    apply loop_inv_last in Hrun as (backoff & m2 & Hbody).
    apply bind_inv in Hbody as (q2 & m3 & _ & Hbody).
    destruct (acquire_try (nextindex (q_lock q) mod 16) (q_lock q2)) as [old l'].
    apply bind_inv in Hbody as (u' & m4 & _ & Hbody).
    destruct (old =? 0).
    + apply bind_inv in Hbody as (u'' & m5 & _ & Hbody).
      apply ret_inv in Hbody as [Hr _]. discriminate Hr.
    + apply ret_inv in Hbody as [Hr _]. injection Hr as ->.
      split; [done|]. apply Hadd. unfold MAX_THREADS. by apply Z.mod_pos_bound.
  - intros Hready.
    eexists _, _. split; [exact (scalable_lock_acquire_ok fuel lock q m Hq Hready)|].
    unfold queue_at. norm. rewrite lookup_insert_eq. split; [done|].
    cbn [q_lock set_q_lock]. destruct Hready as [Hlen Hslot].
    pose proof (Z.mod_pos_bound (nextindex (q_lock q)) 16 ltac:(lia)) as Hr.
    split; [done|]. split; [unfold lock_held; cbn [slot slot_set]; by rewrite length_insert|].
    split.
    + unfold lock_held. apply slot_get_set_eq. cbn [slot]. rewrite Hlen.
      unfold MAX_THREADS. lia.
    + split; [|done]. intros j Hj Hne. unfold lock_held.
      rewrite slot_get_set_ne by lia. done.
  - intros Hinit.
    assert (lock_ready (q_lock q)) as Hready by (rewrite Hinit; by split).
    eexists. pose proof (scalable_lock_acquire_ok fuel lock q m Hq Hready) as Hrun.
    rewrite Hinit in Hrun at 1. exact Hrun.
  - intros Hready k.
    destruct (lock_rounds_ok fuel lock k q m Hq Hready)
      as (m' & q' & tickets & Hrun & Hlen & Hticks & _).
    by exists m', tickets.
  - intros myslot.
    eexists _, _. split; [exact (scalable_lock_release_ok lock myslot q m Hq)|].
    unfold queue_at. norm. rewrite lookup_insert_eq. split; [done|].
    cbn [q_lock set_q_lock]. rewrite release_exchange_eq.
    pose proof (release_target_ne myslot) as Hne.
    pose proof (release_target_range myslot) as Hrt.
    unfold release_target in *. rewrite land15_mod in *.
    split; [done|]. split; [done|]. split; [done|].
    intros Hlen Hr. split.
    + apply slot_get_set_eq. rewrite Hlen. unfold MAX_THREADS. lia.
    + apply slot_get_set_ne; lia.
Qed.

End LockCalls.

Lemma scalable_lock_protocol_witness :
  let host := example_host 1 None in
  let m := final_state (osd_work_queue_alloc 8 0 (boot 3)) in
  ∃ m1 q1 m2 q2,
    scalable_lock_acquire 1 1 m = Ret 0 m1 ∧
    queue_at m1 1 = Some q1 ∧
    nextindex (q_lock q1) = 1 ∧ slot_get (q_lock q1) 0 = FALSE ∧
    slot_get (q_lock q1) 1 = FALSE ∧
    scalable_lock_release 1 0 m1 = Ret tt m2 ∧
    queue_at m2 1 = Some q2 ∧
    slot_get (q_lock q2) 1 = TRUE ∧ slot_get (q_lock q2) 0 = FALSE ∧
    nextindex (q_lock q2) = 1.
Proof.
  intros host m.
  assert (∃ q, heap m !! 1 = Some (OQueue q) ∧ q_lock q = scalable_lock_init)
    as (q & Hq & Hinit).
  { eexists. split; [vm_compute; reflexivity|]. reflexivity. }
  destruct (@scalable_lock_protocol host 0 1 q m Hq) as (_ & Hacq & _ & _ & _).
  destruct Hacq as (m1 & q1 & Hrun1 & Hq1 & Hn1 & Hlen & Hs0 & Hothers & _).
  { rewrite Hinit. split; reflexivity. }
  rewrite Hinit in Hrun1, Hn1, Hlen, Hs0, Hothers.
  assert (heap m1 !! 1 = Some (OQueue q1)) as Hq1'.
  { unfold queue_at in Hq1. destruct (heap m1 !! 1) as [[]|]; try discriminate Hq1.
    by injection Hq1 as ->. }
  destruct (@scalable_lock_protocol host 0 1 q1 m1 Hq1') as (_ & _ & _ & _ & Hrel).
  destruct (Hrel 0) as (m2 & q2 & Hrun2 & Hq2 & _ & _ & Hn2 & Hslots).
  destruct Hslots as [Ht Hk]; [exact Hlen|unfold MAX_THREADS; lia|].
  assert (slot_get (q_lock q1) 1 = FALSE) as Hs1.
  { rewrite Hothers; [reflexivity|lia|discriminate]. }
  exists m1, q1, m2, q2.
  split; [exact Hrun1|]. split; [exact Hq1|]. split; [exact Hn1|]. split; [exact Hs0|].
  split; [exact Hs1|]. split; [exact Hrun2|]. split; [exact Hq2|].
  split; [exact Ht|]. split; [rewrite Hk; exact Hs0|].
  rewrite Hn2. exact Hn1.
Defined.

(** ** One round of the drain loop *)

Section Drain.
Context {host : Platform}.

Lemma pull_item_ok (queue a : Z) (q : osd_work_queue) (it : osd_work_item) (m : machine) :
  heap m !! queue = Some (OQueue q) → q_list q = a → a ≠ NULL →
  heap m !! a = Some (OItem it) →
  pull_item queue m =
    Ret a (set_heap
             (<[queue := OQueue
                  (if it_next it =? NULL
                   then set_q_tailptr (LocList queue) (set_q_list (it_next it) q)
                   else set_q_list (it_next it) q)]> (heap m)) m).
Proof.
  intros Hq Hl Hnz Hit. unfold pull_item.
  assert (queue ≠ a) as Hne by (intros ->; congruence).
  rewrite (bind_ret_l _ _ _ _ _ (load_queue_ok _ _ _ Hq)). rewrite Hl.
  destruct (Z.eqb_spec a NULL) as [|_]; [done|].
  rewrite !bind_bind.
  rewrite (bind_ret_l _ _ _ _ _ (load_item_ok _ _ _ Hit)). rewrite !bind_bind.
  erewrite bind_ret_l; [|by eapply modify_queue_ok]. norm. rewrite !bind_bind.
  erewrite bind_ret_l; [|eapply load_queue_ok; norm; apply lookup_insert_eq].
  cbn [q_list set_q_list].
  destruct (it_next it =? NULL).
  - erewrite bind_ret_l; [|eapply modify_queue_ok; norm; apply lookup_insert_eq].
    norm. by rewrite insert_insert_eq.
  - done.
Qed.

Lemma item_release_ok (fuel : nat) (queue item : Z) (q : osd_work_queue)
    (it : osd_work_item) (m : machine) :
  heap m !! queue = Some (OQueue q) → heap m !! item = Some (OItem it) →
  it_done it ≠ 0 → it_queue it = queue →
  osd_work_item_release (S fuel) item m =
    Ret tt (set_heap (<[queue := OQueue (set_q_free item q)]>
                        (<[item := OItem (set_it_next (q_free q) it)]> (heap m))) m).
Proof.
  intros Hq Hit Hdone Hown. unfold osd_work_item_release.
  assert (queue ≠ item) as Hne by (intros ->; congruence).
  unfold osd_work_item_wait. rewrite !bind_bind.
  rewrite (bind_ret_l _ _ _ _ _ (load_item_ok _ _ _ Hit)).
  destruct (Z.eqb_spec (it_done it) 0) as [|_]; [done|]. cbn [negb].
  unfold ret at 1. unfold bind at 1. cbn [loop]. rewrite !bind_bind.
  rewrite (bind_ret_l _ _ _ _ _ (load_item_ok _ _ _ Hit)). rewrite !bind_bind, Hown.
  rewrite (bind_ret_l _ _ _ _ _ (load_queue_ok _ _ _ Hq)). rewrite !bind_bind.
  erewrite bind_ret_l; [|by eapply modify_item_ok]. norm.
  unfold compare_exchange_free, osd_compare_exchange32. rewrite !bind_bind.
  erewrite bind_ret_l; [|eapply load_queue_ok; norm; by rewrite lookup_insert_ne].
  rewrite Z.eqb_refl. rewrite !bind_bind.
  erewrite bind_ret_l; [|eapply modify_queue_ok; norm; by rewrite lookup_insert_ne].
  norm. unfold ret at 1. unfold bind at 1. rewrite Z.eqb_refl.
  reflexivity.
Qed.

Lemma to_u8_TRUE : to_u8 TRUE = TRUE.
Proof. reflexivity. Qed.

Lemma complete_item_ok (fuel : nat) (queue item : Z) (q : osd_work_queue)
    (it : osd_work_item) (m : machine) :
  heap m !! queue = Some (OQueue q) → heap m !! item = Some (OItem it) →
  it_queue it = queue → (it_event it = NULL ∨ is_event (heap m) (it_event it)) →
  ∃ m',
    complete_item (S fuel) queue item m = Ret tt m' ∧
    heap m' !! queue =
      Some (OQueue ((if auto_release (it_flags it) then set_q_free item else id)
                      (set_q_items (wrap32 (q_items q + -1)) q))) ∧
    heap m' !! item =
      Some (OItem ((if auto_release (it_flags it) then set_it_next (q_free q) else id)
                     (set_it_done TRUE (set_it_result (it_callback it (it_param it)) it)))) ∧
    touches [item] m m' ∧
    trace m' = trace m ++ completion_effects queue item it ∧
    clock m' = clock m.
Proof.
  intros Hq Hit Hown Hev.
  assert (queue ≠ item) as Hne by (intros ->; congruence).
  unfold complete_item.
  rewrite (bind_ret_l _ _ _ _ _ (load_item_ok _ _ _ Hit)).
  unfold emit at 1. unfold bind at 1. norm.
  unfold store_result. rewrite !bind_bind.
  erewrite bind_ret_l; [|by eapply modify_item_ok]. norm.
  unfold emit at 1. unfold bind at 1. norm.
  unfold sync_add_items, osd_sync_add. rewrite !bind_bind.
  erewrite bind_ret_l; [|eapply load_queue_ok; norm; by rewrite lookup_insert_ne].
  rewrite !bind_bind.
  erewrite bind_ret_l; [|eapply modify_queue_ok; norm; by rewrite lookup_insert_ne]. norm.
  unfold emit at 1. unfold bind at 1. norm.
  unfold ret at 1. unfold bind at 1.
  unfold store_done. rewrite !bind_bind.
  erewrite bind_ret_l; [|eapply modify_item_ok; norm;
                         rewrite lookup_insert_ne by done; apply lookup_insert_eq]. norm.
  unfold emit at 1. unfold bind at 1. norm.
  erewrite bind_ret_l; [|eapply load_item_ok; norm; apply lookup_insert_eq].
  cbn [it_flags it_event set_it_done set_it_result]. rewrite to_u8_TRUE.
  unfold completion_effects, auto_release.
  destruct (negb (Z.land (it_flags it) WORK_ITEM_FLAG_AUTO_RELEASE =? 0)).
  - erewrite item_release_ok; cycle 1.
    { norm. rewrite lookup_insert_ne by done. apply lookup_insert_eq. }
    { norm. apply lookup_insert_eq. }
    { done. }
    { done. }
    norm. eexists. split; [reflexivity|]. norm.
    split; [by rewrite lookup_insert_eq|].
    split; [rewrite lookup_insert_ne by done; by rewrite lookup_insert_eq|].
    split; [|by rewrite <- !app_assoc].
    unfold touches; norm. split_and!; try done.
    + intros b itb Hb Hbit. assert (b ≠ queue) by (intros ->; congruence).
      assert (b ≠ item) by (intros ->; by apply Hb, list_elem_of_singleton). by heap_lookup.
    + intros e [ev He]. assert (e ≠ queue) by (intros ->; congruence).
      assert (e ≠ item) by (intros ->; congruence). exists ev. by heap_lookup.
    + intros b Hb. assert (b ≠ queue) by (intros ->; congruence).
      assert (b ≠ item) by (intros ->; congruence). by heap_lookup.
  - destruct (Z.eqb_spec (it_event it) NULL) as [Hnull|Hnn]; cbn [negb].
    + eexists. split; [reflexivity|]. norm.
      split; [rewrite lookup_insert_ne by done; by rewrite lookup_insert_eq|].
      split; [by rewrite lookup_insert_eq|].
      split; [|by rewrite <- !app_assoc].
      unfold touches; norm. split_and!; try done.
      * intros b itb Hb Hbit. assert (b ≠ queue) by (intros ->; congruence).
        assert (b ≠ item) by (intros ->; by apply Hb, list_elem_of_singleton). by heap_lookup.
      * intros e [ev He]. assert (e ≠ queue) by (intros ->; congruence).
        assert (e ≠ item) by (intros ->; congruence). exists ev. by heap_lookup.
      * intros b Hb. assert (b ≠ queue) by (intros ->; congruence).
        assert (b ≠ item) by (intros ->; congruence). by heap_lookup.
    + destruct Hev as [|[ev0 Hev0]]; [done|].
      assert (it_event it ≠ queue) by (intros Heq; rewrite Heq in Hev0; congruence).
      assert (it_event it ≠ item) by (intros Heq; rewrite Heq in Hev0; congruence).
      unfold osd_event_set.
      erewrite bind_ret_l; [|eapply modify_event_ok; norm; by heap_lookup]. norm.
      unfold emit. eexists. split; [reflexivity|]. norm.
      split; [by heap_lookup|].
      split; [by heap_lookup|].
      split; [|by rewrite <- !app_assoc].
      unfold touches; norm. split_and!; try done.
      * intros b itb Hb Hbit. assert (b ≠ queue) by (intros ->; congruence).
        assert (b ≠ item) by (intros ->; by apply Hb, list_elem_of_singleton).
        assert (b ≠ it_event it) by (intros ->; congruence). by heap_lookup.
      * intros e [ev He]. assert (e ≠ queue) by (intros ->; congruence).
        assert (e ≠ item) by (intros ->; congruence).
        destruct (decide (e = it_event it)) as [->|]; [eexists; by heap_lookup|].
        exists ev. by heap_lookup.
      * intros b Hb. assert (b ≠ queue) by (intros ->; congruence).
        assert (b ≠ item) by (intros ->; congruence).
        assert (b ≠ it_event it) by (intros ->; congruence). by heap_lookup.
Qed.

Lemma drain_round_ok (fuel : nat) (queue a : Z) (q : osd_work_queue)
    (pl fl : list Z) (m : machine) :
  queue_wf m queue q (a :: pl) fl →
  ∃ m' q' it it',
    heap m !! a = Some (OItem it) ∧
    drain_round (S fuel) queue tt m = Ret (inl tt) m' ∧
    queue_wf m' queue q' pl (if auto_release (it_flags it) then a :: fl else fl) ∧
    heap m' !! a = Some (OItem it') ∧ completed it it' ∧
    touches [a] m m' ∧
    trace m' = trace m ++ completion_effects queue a it ∧
    clock m' = clock m ∧
    same_config q q'.
Proof.
  intros [Hq Hlock Hpend Htail Hfree Hnd Hitems Hbound Hown Hfresh Hdone].
  destruct Hpend as (Hl & Hnz & it & Hit & Hseg).
  assert (queue ≠ a) as Hne by (intros ->; congruence).
  destruct (Hown a it) as [Howner Hev]; [by left|done|].
  unfold drain_round.
  rewrite (bind_ret_l _ _ _ _ _ (load_queue_ok _ _ _ Hq)).
  destruct (Z.eqb_spec (q_items q) 0) as [Hz|_].
  { rewrite Hitems in Hz. simpl in Hz. lia. }
  rewrite (bind_ret_l _ _ _ _ _ (scalable_lock_acquire_ok _ _ _ _ Hq Hlock)).
  erewrite bind_ret_l; cycle 1.
  { eapply (pull_item_ok queue a _ it); norm.
    - apply lookup_insert_eq.
    - done.
    - done.
    - by rewrite lookup_insert_ne. }
  norm. rewrite insert_insert_eq.
  erewrite bind_ret_l; cycle 1.
  { eapply scalable_lock_release_ok. norm. apply lookup_insert_eq. }
  norm. rewrite insert_insert_eq.
  destruct (Z.eqb_spec a NULL) as [|_]; [done|].
  match goal with |- context [<[queue := OQueue ?qq]> (heap m)] => set (q3 := qq) end.
  assert (q_lock q3 = lock_next (q_lock q) ∧ q_list q3 = it_next it ∧
          q_tailptr q3 = (if it_next it =? NULL then LocList queue else q_tailptr q) ∧
          q_free q3 = q_free q ∧ q_items q3 = q_items q ∧ same_config q q3)
    as (Hlock3 & Hlist3 & Htail3 & Hfree3 & Hitems3 & Hcfg3).
  { unfold q3. by destruct (it_next it =? NULL). }
  clearbody q3.
  match goal with |- context [bind (complete_item _ _ _) _ ?m0] =>
    destruct (complete_item_ok fuel queue a q3 it m0)
      as (m' & Hrun & Hq' & Hit' & Htouch & Htr & Hclk)
  end; norm.
  { apply lookup_insert_eq. }
  { by rewrite lookup_insert_ne. }
  { done. }
  { destruct Hev as [|[ev Hev]]; [by left|]. right. exists ev.
    rewrite lookup_insert_ne; [done|]. intros ->. congruence. }
  rewrite (bind_ret_l _ _ _ _ _ Hrun).
  norm in Htr. norm in Hclk. destruct Htouch as (Hkeep & Hevs & Hnone & Hbrk & Hsup).
  norm in Hkeep. norm in Hevs. norm in Hnone. norm in Hbrk. norm in Hsup.
  eexists m', _, it, _. split; [done|]. split; [reflexivity|].
  assert (∀ b itb, b ≠ a → heap m !! b = Some (OItem itb) →
                   heap m' !! b = Some (OItem itb)) as Hkeep'.
  { intros b itb Hb Hbit. apply Hkeep; [by rewrite list_elem_of_singleton|].
    rewrite lookup_insert_ne; [done|]. intros ->. congruence. }
  assert (∀ e, is_event (heap m) e → is_event (heap m') e) as Hevs'.
  { intros e [ev He]. apply Hevs. exists ev.
    rewrite lookup_insert_ne; [done|]. intros ->. congruence. }
  assert (∀ b, heap m !! b = None → heap m' !! b = None) as Hnone'.
  { intros b Hb. apply Hnone. rewrite lookup_insert_ne; [done|]. intros ->. congruence. }
  rewrite <- app_comm_cons in Hnd.
  apply NoDup_cons in Hnd as [Ha Hnd].
  apply not_elem_of_app in Ha as [Hapl Hafl].
  assert (∀ l p, seg (heap m) p l NULL → a ∉ l → seg (heap m') p l NULL) as Hsegs.
  { intros l p Hs Hal. eapply seg_agree; [exact Hs|]. intros b Hb.
    destruct (seg_elem _ _ _ _ _ Hs Hb) as [_ [itb Hitb]].
    rewrite Hitb. apply Hkeep'; [|done]. by intros ->. }
  split; [|split; [exact Hit'|]; split; [|split; [|split; [done|split; [done|]]]]].
  - (* the invariant *)
    split.
    + exact Hq'.
    + destruct (auto_release (it_flags it)); simpl; rewrite Hlock3;
        by apply lock_held_next.
    + assert (q_list ((if auto_release (it_flags it) then set_q_free a else id)
                        (set_q_items (wrap32 (q_items q3 + -1)) q3)) = it_next it) as ->
        by (by destruct (auto_release (it_flags it))).
      by apply Hsegs.
    + assert (q_tailptr ((if auto_release (it_flags it) then set_q_free a else id)
                        (set_q_items (wrap32 (q_items q3 + -1)) q3)) = q_tailptr q3) as ->
        by (by destruct (auto_release (it_flags it))).
      rewrite Htail3.
      destruct pl as [|b pl].
      * simpl in Hseg. by rewrite Hseg.
      * destruct Hseg as (Hb & Hbnz & _).
        destruct (Z.eqb_spec (it_next it) NULL) as [|_]; [congruence|].
        by rewrite tail_of_cons_ne in Htail.
    + apply Hsegs in Hfree; [|done].
      destruct (auto_release (it_flags it)).
      * split; [done|]. split; [done|].
        eexists. split; [exact Hit'|]. simpl. by rewrite Hfree3.
      * simpl. by rewrite Hfree3.
    + destruct (auto_release (it_flags it)); [|done].
      apply NoDup_app in Hnd as (Hnd1 & Hdisj & Hnd2).
      apply NoDup_app. split; [done|]. split.
      * intros x Hx [->|Hx2]%elem_of_cons; [done|by eapply Hdisj].
      * by apply NoDup_cons.
    + assert (wrap32 (q_items q3 + -1) = Z.of_nat (length pl)) as Hcount.
      { rewrite Hitems3, Hitems. simpl length in *.
        rewrite wrap32_id; unfold INT32_MAX in *; lia. }
      by destruct (auto_release (it_flags it)).
    + simpl length in Hbound. lia.
    + intros b itb Hb Hbit.
      destruct (decide (b = a)) as [->|Hba].
      * rewrite Hit' in Hbit. simplify_eq.
        split; [by destruct (auto_release (it_flags it))|].
        destruct Hev as [Hnull|Hev].
        -- left. by destruct (auto_release (it_flags it)).
        -- right. apply Hevs' in Hev. by destruct (auto_release (it_flags it)).
      * assert (b ∈ pl ++ fl) as Hb'.
        { destruct (auto_release (it_flags it)); [|done].
          apply elem_of_app in Hb as [Hb|[->|Hb]%elem_of_cons];
            [apply elem_of_app; by left|done|apply elem_of_app; by right]. }
        assert (∃ itb0, heap m !! b = Some (OItem itb0)) as [itb0 Hitb0].
        { apply elem_of_app in Hb' as [Hb'|Hb'].
          - by destruct (seg_elem _ _ _ _ _ Hseg Hb') as [_ ?].
          - by destruct (seg_elem _ _ _ _ _ Hfree Hb') as [_ ?]. }
        pose proof (Hkeep' _ _ Hba Hitb0) as Hsame. rewrite Hsame in Hbit. simplify_eq.
        destruct (Hown b itb) as [Hown1 Hown2]; [by right|done|].
        split; [done|]. destruct Hown2 as [|Hown2]; [by left|right; by apply Hevs'].
    + destruct Hfresh as [Hpos Hfr]. split; [by rewrite Hbrk|].
      intros b Hb. rewrite Hbrk in Hb. by apply Hnone', Hfr.
    + destruct Hcfg3 as (? & ? & ? & Hde & ?). apply Hevs' in Hdone.
      destruct (auto_release (it_flags it)); simpl; by rewrite Hde.
  - unfold completed. by destruct (auto_release (it_flags it)).
  - unfold touches. split_and!; [|done|done|done|done].
    intros b itb Hb Hbit. apply Hkeep'; [|done]. intros ->.
    by apply Hb, list_elem_of_singleton.
  - destruct Hcfg3 as (? & ? & ? & ? & ? & ? & ?).
    unfold same_config. by destruct (auto_release (it_flags it)).
Qed.

End Drain.

(** ** The drain loop on a well-formed queue *)

Lemma touches_refl (l : list Z) (m : machine) : touches l m m.
Proof. by unfold touches. Qed.

Lemma touches_trans (l1 l2 : list Z) (m1 m2 m3 : machine) :
  touches l1 m1 m2 → touches l2 m2 m3 → touches (l1 ++ l2) m1 m3.
Proof.
  intros (K1 & E1 & N1 & B1 & S1) (K2 & E2 & N2 & B2 & S2).
  split_and!; [|by eauto|by eauto|congruence|congruence].
  intros b itb Hb Hbit. apply not_elem_of_app in Hb as [Hb1 Hb2]. eauto.
Qed.

Lemma queue_wf_touches (m m' : machine) (queue : Z) (q : osd_work_queue)
    (pl fl : list Z) :
  queue_wf m queue q pl fl → touches [] m m' →
  heap m' !! queue = Some (OQueue q) → queue_wf m' queue q pl fl.
Proof.
  intros [Hq Hlock Hpend Htail Hfree Hnd Hitems Hbound Hown Hfresh Hdone]
    (Hkeep & Hevs & Hnone & Hbrk & Hsup) Hq'.
  assert (∀ l p, seg (heap m) p l NULL → seg (heap m') p l NULL) as Hsegs.
  { intros l p Hs. eapply seg_agree; [exact Hs|]. intros b Hb.
    destruct (seg_elem _ _ _ _ _ Hs Hb) as [_ [itb Hitb]].
    rewrite Hitb. apply Hkeep; [|done]. apply not_elem_of_nil. }
  split; try done.
  - by apply Hsegs.
  - by apply Hsegs.
  - intros b itb Hb Hbit.
    assert (∃ itb0, heap m !! b = Some (OItem itb0)) as [itb0 Hitb0].
    { apply elem_of_app in Hb as [Hb|Hb].
      - by destruct (seg_elem _ _ _ _ _ Hpend Hb) as [_ ?].
      - by destruct (seg_elem _ _ _ _ _ Hfree Hb) as [_ ?]. }
    pose proof (Hkeep b itb0 (not_elem_of_nil _) Hitb0) as Hsame.
    rewrite Hsame in Hbit. simplify_eq.
    destruct (Hown b itb Hb Hitb0) as [? [?|?]]; eauto.
  - destruct Hfresh as [Hpos Hfr]. split; [by rewrite Hbrk|].
    intros b Hb. rewrite Hbrk in Hb. by apply Hnone, Hfr.
  - by apply Hevs.
Qed.

Section DrainLoop.
Context {host : Platform}.

Lemma osd_event_set_ok (e : Z) (ev : osd_event) (m : machine) :
  heap m !! e = Some (OEvent ev) →
  osd_event_set e m =
    Ret tt {| heap := <[e := OEvent (mkEvent (ev_manualreset ev) TRUE)]> (heap m);
              brk := brk m; supply := supply m; clock := clock m;
              trace := trace m ++ [EvEventSet e] |}.
Proof.
  intros He. unfold osd_event_set.
  erewrite bind_ret_l; [|by eapply modify_event_ok]. done.
Qed.

Lemma touches_event_update (e : Z) (ev ev' : osd_event) (m m' : machine) :
  heap m !! e = Some (OEvent ev) →
  heap m' = <[e := OEvent ev']> (heap m) → brk m' = brk m → supply m' = supply m →
  touches [] m m'.
Proof.
  intros He Hh Hbrk Hs. unfold touches. rewrite Hh. split_and!; [| | |done|done].
  - intros b itb _ Hbit. rewrite lookup_insert_ne; [done|]. intros ->. congruence.
  - intros e' [ev0 He']. destruct (decide (e' = e)) as [->|].
    + eexists. apply lookup_insert_eq.
    + exists ev0. by rewrite lookup_insert_ne.
  - intros b Hb. rewrite lookup_insert_ne; [done|]. intros ->. congruence.
Qed.

Lemma completions_agree (queue : Z) (m m' : machine) (l : list Z) :
  (∀ a, a ∈ l → item_at m' a = item_at m a) →
  completions queue m' l = completions queue m l.
Proof.
  intros Hag. unfold completions. induction l as [|a l IH]; [done|].
  cbn [flat_map]. rewrite Hag by (by left). f_equal. apply IH.
  intros b Hb. apply Hag. by right.
Qed.

Lemma drain_loop_ok (fuel' : nat) (queue : Z) (pl : list Z) :
  ∀ (fuel : nat) (m : machine) (q : osd_work_queue) (fl : list Z),
    queue_wf m queue q pl fl → (length pl < fuel)%nat →
    ∃ m' q' fl',
      loop fuel (drain_round (S fuel') queue) tt m = Ret tt m' ∧
      queue_wf m' queue q' [] fl' ∧
      (∀ a it, a ∈ pl → heap m !! a = Some (OItem it) →
               ∃ it', heap m' !! a = Some (OItem it') ∧ completed it it') ∧
      touches pl m m' ∧
      trace m' = trace m ++ completions queue m pl ∧
      clock m' = clock m ∧ same_config q q'.
Proof.
  induction pl as [|a pl IH]; intros fuel m q fl Hwf Hfuel.
  - destruct fuel as [|fuel]; [simpl in Hfuel; lia|].
    exists m, q, fl. split.
    + cbn [loop]. unfold drain_round at 1. rewrite bind_bind.
      rewrite (bind_ret_l _ _ _ _ _ (load_queue_ok _ _ _ (wf_queue _ _ _ _ _ Hwf))).
      rewrite (wf_items _ _ _ _ _ Hwf). done.
    + split; [done|]. split; [intros ? ? []%elem_of_nil|].
      split; [apply touches_refl|]. split; [by rewrite app_nil_r|]. done.
  - destruct fuel as [|fuel]; [simpl in Hfuel; lia|]. simpl in Hfuel.
    pose proof (wf_nodup _ _ _ _ _ Hwf) as Hnd.
    rewrite <- app_comm_cons in Hnd. apply NoDup_cons in Hnd as [Ha _].
    apply not_elem_of_app in Ha as [Hapl _].
    destruct (drain_round_ok fuel' queue a q pl fl m Hwf)
      as (m1 & q1 & it & it1 & Hit & Hrun1 & Hwf1 & Hit1 & Hcomp & Htouch1 & Htr1 & Hclk1 & Hcfg1).
    destruct (IH fuel m1 q1 _ Hwf1) as
      (m' & q' & fl' & Hrun & Hwf' & Hitems & Htouch & Htr & Hclk & Hcfg); [lia|].
    exists m', q', fl'. split.
    { cbn [loop]. by rewrite (bind_ret_l _ _ _ _ _ Hrun1). }
    split; [done|].
    pose proof Htouch1 as (Hkeep1 & _). pose proof Htouch as (Hkeep & _).
    split; [|split; [|split; [|split]]].
    + intros b itb [->|Hb]%elem_of_cons Hbit.
      * simplify_eq. exists it1. split; [|done]. by apply Hkeep.
      * apply (Hitems b itb Hb). apply Hkeep1; [|done].
        rewrite list_elem_of_singleton. by intros ->.
    + by apply (touches_trans [a] pl m m1 m').
    + rewrite Htr, Htr1, <- app_assoc. f_equal.
      unfold completions at 2. cbn [flat_map]. unfold item_at at 1. rewrite Hit.
      f_equal. apply completions_agree. intros b Hb.
      destruct (seg_elem _ _ _ _ b (wf_pending _ _ _ _ _ Hwf)) as [_ [itb Hitb]];
        [by right|].
      unfold item_at. rewrite Hitb.
      rewrite (Hkeep1 b itb); [done| |done].
      rewrite list_elem_of_singleton. by intros ->.
    + congruence.
    + destruct Hcfg1 as (? & ? & ? & ? & ? & ? & ?), Hcfg as (? & ? & ? & ? & ? & ? & ?).
      unfold same_config. split_and!; congruence.
Qed.

Lemma worker_thread_process_ok (fuel : nat) (queue : Z) (thread : Z * Z)
    (m : machine) (q : osd_work_queue) (pl fl : list Z) :
  queue_wf m queue q pl fl → (length pl < fuel)%nat →
  ∃ m' q' fl',
    worker_thread_process fuel queue thread m = Ret tt m' ∧
    queue_wf m' queue q' [] fl' ∧
    (∀ a it, a ∈ pl → heap m !! a = Some (OItem it) →
             ∃ it', heap m' !! a = Some (OItem it') ∧ completed it it') ∧
    touches pl m m' ∧
    trace m' = trace m ++ completions queue m pl ++
               (if q_waiting q =? 0 then [] else [EvEventSet (q_doneevent q)]) ∧
    clock m' = clock m ∧ same_config q q'.
Proof.
  intros Hwf Hfuel. destruct fuel as [|fuel]; [lia|].
  destruct (drain_loop_ok fuel queue pl (S fuel) m q fl Hwf Hfuel)
    as (m1 & q1 & fl1 & Hrun & Hwf1 & Hitems & Htouch & Htr & Hclk & Hcfg).
  unfold worker_thread_process.
  rewrite (bind_ret_l _ _ _ _ _ Hrun).
  rewrite (bind_ret_l _ _ _ _ _ (load_queue_ok _ _ _ (wf_queue _ _ _ _ _ Hwf1))).
  pose proof Hcfg as (_ & _ & _ & Hde & Hw & _).
  rewrite Hw. destruct (q_waiting q =? 0); cbn [negb].
  - exists m1, q1, fl1. rewrite app_nil_r. done.
  - destruct (wf_done _ _ _ _ _ Hwf1) as [ev Hev].
    rewrite (osd_event_set_ok _ _ _ Hev).
    assert (touches [] m1 {| heap := <[q_doneevent q1 := OEvent (mkEvent (ev_manualreset ev) TRUE)]> (heap m1);
              brk := brk m1; supply := supply m1; clock := clock m1;
              trace := trace m1 ++ [EvEventSet (q_doneevent q1)] |}) as Htouch2
      by (by eapply touches_event_update).
    eexists _, q1, fl1. split; [reflexivity|]. split.
    { eapply queue_wf_touches; [done|done|]. norm.
      rewrite lookup_insert_ne; [apply (wf_queue _ _ _ _ _ Hwf1)|].
      intros Heq. pose proof (wf_queue _ _ _ _ _ Hwf1) as Hq1. rewrite <- Heq in Hq1.
      congruence. }
    split.
    { intros a it Ha Hit. destruct (Hitems a it Ha Hit) as (it' & Hit' & Hc).
      exists it'. split; [|done]. destruct Htouch2 as (K & _). apply K; [|done].
      apply not_elem_of_nil. }
    split.
    { rewrite <- (app_nil_r pl). by eapply touches_trans. }
    norm. rewrite Htr, Hde, <- app_assoc. done.
Qed.

End DrainLoop.

(** ** The item loop of a submission *)

(** Two addresses differ when the heap holds objects of different kinds
    (or nothing) there. *)
Ltac ne_kind :=
  let H := fresh in
  intros H;
  first [ subst; congruence
        | rewrite H in *; congruence
        | rewrite <- H in *; congruence ].

Section Build.
Context {host : Platform}.

Lemma pop_free_cons (fuel : nat) (queue a : Z) (q : osd_work_queue)
    (it : osd_work_item) (m : machine) :
  heap m !! queue = Some (OQueue q) → q_free q = a → a ≠ NULL →
  heap m !! a = Some (OItem it) →
  pop_free (S fuel) queue m =
    Ret a (set_heap (<[queue := OQueue (set_q_free (it_next it) q)]> (heap m)) m).
Proof.
  intros Hq Hf Hnz Hit. unfold pop_free. cbn [loop]. rewrite !bind_bind.
  rewrite (bind_ret_l _ _ _ _ _ (load_queue_ok _ _ _ Hq)). rewrite Hf.
  destruct (Z.eqb_spec a NULL) as [|_]; [done|]. rewrite !bind_bind.
  rewrite (bind_ret_l _ _ _ _ _ (load_item_ok _ _ _ Hit)).
  unfold compare_exchange_free, osd_compare_exchange32. rewrite !bind_bind.
  rewrite (bind_ret_l _ _ _ _ _ (load_queue_ok _ _ _ Hq)). rewrite Hf, Z.eqb_refl.
  rewrite !bind_bind.
  erewrite bind_ret_l; [|by eapply modify_queue_ok]. norm.
  unfold ret at 1. unfold bind at 1. rewrite Z.eqb_refl. done.
Qed.

Lemma pop_free_nil (fuel : nat) (queue : Z) (q : osd_work_queue) (m : machine) :
  heap m !! queue = Some (OQueue q) → q_free q = NULL →
  pop_free (S fuel) queue m = Ret NULL m.
Proof.
  intros Hq Hf. unfold pop_free. cbn [loop]. rewrite !bind_bind.
  rewrite (bind_ret_l _ _ _ _ _ (load_queue_ok _ _ _ Hq)). by rewrite Hf.
Qed.

Lemma obtain_item_ok (fuel : nat) (queue : Z) (q : osd_work_queue) (pl fl : list Z)
    (m : machine) (rest : list bool) :
  queue_wf m queue q pl fl →
  supply m = replicate (1 - length fl) true ++ rest →
  ∃ m1 q1 a it0,
    obtain_item (S fuel) queue m = Ret a m1 ∧
    a ≠ NULL ∧ a ≠ queue ∧
    heap m1 !! a = Some (OItem it0) ∧ it_queue it0 = queue ∧
    (it_event it0 = NULL ∨ is_event (heap m1) (it_event it0)) ∧
    (a ∉ pl ++ tail fl) ∧ (heap m !! a = None ∨ a ∈ fl) ∧
    queue_wf m1 queue q1 pl (tail fl) ∧
    (∃ f, q1 = set_q_free f q) ∧
    (∀ b, b ≠ queue → b ≠ a → heap m1 !! b = heap m !! b) ∧
    (∀ it, heap m !! a = Some (OItem it) → it_event it0 = it_event it) ∧
    supply m1 = rest ∧ trace m1 = trace m ∧ clock m1 = clock m.
Proof.
  intros [Hq Hlock Hpend Htail Hfree Hnd Hitems Hbound Hown Hfresh Hdone] Hsup.
  unfold obtain_item. destruct fl as [|a fl].
  - (* a new item *)
    simpl in Hfree. simpl in Hsup.
    rewrite (bind_ret_l _ _ _ _ _ (pop_free_nil _ _ _ _ Hq Hfree)).
    rewrite Z.eqb_refl. destruct Hfresh as [Hpos Hfr].
    erewrite bind_ret_l; [|by eapply alloc_ok].
    destruct (Z.eqb_spec (brk m) NULL) as [Hb|Hnz]; [unfold NULL in Hb; lia|].
    erewrite bind_ret_l; [|eapply modify_item_ok; norm; apply lookup_insert_eq]. norm.
    erewrite bind_ret_l; [|eapply modify_item_ok; norm; apply lookup_insert_eq]. norm.
    rewrite !insert_insert_eq.
    assert (heap m !! brk m = None) as Hnew by (apply Hfr; lia).
    assert (brk m ≠ queue) as Hne by (intros Heq; rewrite Heq in Hnew; congruence).
    assert (∀ l p, seg (heap m) p l NULL →
              seg (<[brk m := OItem (set_it_queue queue (set_it_event NULL item_fresh))]>
                     (heap m)) p l NULL ∧ brk m ∉ l) as Hsegs.
    { intros l p Hs.
      assert (brk m ∉ l) as Hnl.
      { intros Hin. destruct (seg_elem _ _ _ _ _ Hs Hin) as [_ [? ?]]. congruence. }
      split; [|done]. eapply seg_agree; [exact Hs|]. intros b Hb.
      rewrite lookup_insert_ne; [done|]. by intros <-. }
    eexists _, q, (brk m), _. split; [reflexivity|]. norm.
    split; [done|]. split; [done|]. split; [apply lookup_insert_eq|].
    split; [done|]. split; [by left|]. rewrite app_nil_r. simpl tail.
    split; [by apply Hsegs in Hpend as [_ ?]|]. split; [by left|].
    split; [|split; [by exists NULL; destruct q; rewrite <- Hfree|]].
    + split; norm.
      * by rewrite lookup_insert_ne.
      * done.
      * by apply Hsegs.
      * done.
      * simpl. by rewrite Hfree.
      * done.
      * done.
      * done.
      * intros b itb Hb Hbit. rewrite app_nil_r in Hb.
        destruct (seg_elem _ _ _ _ _ Hpend Hb) as [_ [itb0 Hitb0]].
        assert (b ≠ brk m) by (intros ->; congruence).
        rewrite lookup_insert_ne in Hbit by done.
        destruct (Hown b itb) as [? Hev]; [by rewrite app_nil_r|done|].
        split; [done|]. destruct Hev as [|[ev Hev]]; [by left|right].
        exists ev. rewrite lookup_insert_ne; [done|]. ne_kind.
      * split; norm; [lia|]. intros b Hb. rewrite lookup_insert_ne by lia.
        apply Hfr. lia.
      * destruct Hdone as [ev Hev]. exists ev. rewrite lookup_insert_ne; [done|].
        ne_kind.
    + split; [|split; [|done]].
      * intros b _ Hb. by rewrite lookup_insert_ne.
      * intros it Hit. congruence.
  - (* an item of the free list *)
    destruct Hfree as (Hf & Hnz & it & Hit & Hseg). simpl in Hsup.
    assert (queue ≠ a) as Hne by (intros ->; congruence).
    rewrite (bind_ret_l _ _ _ _ _ (pop_free_cons _ _ _ _ _ _ Hq Hf Hnz Hit)).
    destruct (Z.eqb_spec a NULL) as [|_]; [done|]. unfold ret.
    assert (∀ l p, seg (heap m) p l NULL →
              seg (<[queue := OQueue (set_q_free (it_next it) q)]> (heap m)) p l NULL)
      as Hsegs.
    { intros l p Hs. eapply seg_agree; [exact Hs|]. intros b Hb.
      destruct (seg_elem _ _ _ _ _ Hs Hb) as [_ [? ?]].
      rewrite lookup_insert_ne; [done|]. ne_kind. }
    apply NoDup_app in Hnd as (Hnd1 & Hdisj & Hnd2).
    apply NoDup_cons in Hnd2 as [Hafl Hnd2].
    destruct (Hown a it) as [Howner Hev]; [apply elem_of_app; right; by left|done|].
    eexists _, _, a, it. split; [reflexivity|]. norm.
    split; [done|]. split; [done|]. split; [by rewrite lookup_insert_ne|].
    split; [done|]. split.
    { destruct Hev as [|[ev Hev]]; [by left|right]. exists ev.
      rewrite lookup_insert_ne; [done|]. ne_kind. }
    simpl tail. split.
    { intros [Hin|Hin]%elem_of_app; [|done]. apply (Hdisj a Hin). by left. }
    split; [right; by left|].
    split; [|split; [by eexists|]].
    + split; norm.
      * apply lookup_insert_eq.
      * done.
      * by apply Hsegs.
      * done.
      * by apply Hsegs.
      * apply NoDup_app. split; [done|]. split; [|done].
        intros x Hx Hx2. apply (Hdisj x Hx). by right.
      * done.
      * done.
      * intros b itb Hb Hbit.
        assert (b ≠ queue) as Hbq.
        { intros ->. rewrite lookup_insert_eq in Hbit. done. }
        rewrite lookup_insert_ne in Hbit by done.
        destruct (Hown b itb) as [? Hevb]; [|done|].
        { apply elem_of_app in Hb as [Hb|Hb]; apply elem_of_app; [by left|right; by right]. }
        split; [done|]. destruct Hevb as [|[ev Hevb]]; [by left|right].
        exists ev. rewrite lookup_insert_ne; [done|]. ne_kind.
      * destruct Hfresh as [Hpos Hfr]. split; [done|]. norm. intros b Hb.
        rewrite lookup_insert_ne; [by apply Hfr|]. intros <-.
        rewrite Hfr in Hq; [done|lia].
      * destruct Hdone as [ev Hdone]. exists ev. rewrite lookup_insert_ne; [done|].
        simpl. ne_kind.
    + split; [|split; [|done]].
      * intros b Hb _. by rewrite lookup_insert_ne.
      * intros it' Hit'. congruence.
Qed.


End Build.

Lemma queue_wf_agree (m m' : machine) (queue : Z) (q : osd_work_queue) (pl fl : list Z) :
  queue_wf m queue q pl fl →
  heap m' !! queue = Some (OQueue q) →
  (∀ x, x ∈ pl ++ fl → heap m' !! x = heap m !! x) →
  (∀ e, is_event (heap m) e → is_event (heap m') e) →
  (∀ x, heap m !! x = None → heap m' !! x = None) →
  brk m' = brk m →
  queue_wf m' queue q pl fl.
Proof.
  intros [Hq Hlock Hpend Htail Hfree Hnd Hitems Hbound Hown Hfresh Hdone]
    Hq' Hag Hevs Hnone Hbrk.
  split; try done.
  - eapply seg_agree; [exact Hpend|]. intros b Hb. apply Hag, elem_of_app. by left.
  - eapply seg_agree; [exact Hfree|]. intros b Hb. apply Hag, elem_of_app. by right.
  - intros b itb Hb Hbit. rewrite Hag in Hbit by done.
    destruct (Hown b itb Hb Hbit) as [? [?|?]]; eauto.
  - destruct Hfresh as [Hpos Hfr]. split; [by rewrite Hbrk|].
    intros b Hb. rewrite Hbrk in Hb. by apply Hnone, Hfr.
  - by apply Hevs.
Qed.

Lemma tail_local_snoc (built : list Z) (a : Z) : tail_local (built ++ [a]) = LocNext a.
Proof. unfold tail_local. by rewrite last_snoc. Qed.

Lemma to_u8_FALSE : to_u8 FALSE = FALSE.
Proof. reflexivity. Qed.

Section BuildItem.
Context {host : Platform}.

Lemma store_link_local_ok (built : list Z) (a il : Z) (ita : osd_work_item) (m : machine) :
  chain (heap m) il built → NoDup built → a ∉ built → a ≠ NULL →
  heap m !! a = Some (OItem ita) → it_next ita = NULL →
  ∃ m' il',
    store_link_local (tail_local built) a il m = Ret il' m' ∧
    chain (heap m') il' (built ++ [a]) ∧
    (∀ x, x ∉ built → heap m' !! x = heap m !! x) ∧
    (∀ x it, x ∈ built → heap m !! x = Some (OItem it) →
             ∃ n, heap m' !! x = Some (OItem (set_it_next n it))) ∧
    brk m' = brk m ∧ supply m' = supply m ∧ trace m' = trace m ∧ clock m' = clock m.
Proof.
  intros Hchain Hnd Hab Hnz Hita Hnext. unfold tail_local.
  destruct (last built) as [b|] eqn:Hlast.
  - apply last_Some in Hlast as [built' ->].
    assert (b ∈ built' ++ [b]) as Hb by (apply elem_of_app; right; by left).
    destruct (seg_elem _ _ _ _ _ Hchain Hb) as [_ [itb Hitb]].
    assert (b ≠ a) as Hba by (by intros ->).
    cbn [store_link_local].
    erewrite bind_ret_l; [|by eapply modify_item_ok]. norm.
    eexists _, il. split; [reflexivity|]. norm.
    split; [|split; [|split; [|done]]].
    + apply seg_app. exists a. split.
      * eapply seg_set_last; [exact Hchain| |done].
        by apply NoDup_app in Hnd as (_ & Hd & _); intros Hin; apply (Hd b Hin); left.
      * split_and!; [done|done|]. exists ita.
        rewrite lookup_insert_ne by done. by rewrite Hnext.
    + intros x Hx. rewrite lookup_insert_ne; [done|]. by intros ->.
    + intros x it Hx Hit. destruct (decide (x = b)) as [->|Hxb].
      * exists a. rewrite lookup_insert_eq. congruence.
      * exists (it_next it). rewrite lookup_insert_ne by done.
        rewrite Hit. by destruct it.
  - apply last_None in Hlast as ->. cbn [store_link_local].
    exists m, a. split; [done|]. split; [|split; [done|split; [|done]]].
    + split_and!; [done|done|]. exists ita. by rewrite Hnext.
    + by intros x it Hx%elem_of_nil.
Qed.

Lemma build_item_ok (fuel : nat) (queue : Z) (q : osd_work_queue)
    (pl fl built : list Z) (loc : submit_locals) (cb : Z → Z) (base step flags : Z)
    (m : machine) (rest : list bool) :
  building m queue q pl fl built loc cb base step flags →
  supply m = replicate (1 - length fl) true ++ rest →
  ∃ m' q' a loc',
    build_item (S fuel) queue cb step flags loc m = Ret (Some loc') m' ∧
    building m' queue q' pl (tail fl) (built ++ [a]) loc' cb base step flags ∧
    (∃ f, q' = set_q_free f q) ∧
    frame queue m m' ∧
    (∀ b itb, heap m !! b = Some (OItem itb) →
              ∃ itb', heap m' !! b = Some (OItem itb') ∧ it_event itb' = it_event itb) ∧
    (∀ b itb, b ∈ pl → heap m !! b = Some (OItem itb) → heap m' !! b = Some (OItem itb)) ∧
    supply m' = rest ∧ trace m' = trace m ++ [EvDone a FALSE] ∧ clock m' = clock m.
Proof.
  intros [Hwf Hchain Htl Hnd Hdisj Hitems Hparam] Hsup.
  destruct (obtain_item_ok fuel queue q pl fl m rest Hwf Hsup)
    as (m1 & q1 & a & it0 & Hrun & Hnz & Haq & Hit0 & Hown0 & Hev0 & Hanew & Hafrom
        & Hwf1 & Hq1 & Hsame1 & Hevkeep & Hsup1 & Htr1 & Hclk1).
  pose proof (wf_queue _ _ _ _ _ Hwf) as Hq.
  pose proof (wf_queue _ _ _ _ _ Hwf1) as Hq1'.
  assert (a ∉ built) as Hab.
  { intros Hin. destruct Hafrom as [Hnone|Hfl].
    - destruct (seg_elem _ _ _ _ _ Hchain Hin) as [_ [? ?]]. congruence.
    - apply (Hdisj a Hin). apply elem_of_app. by right. }
  assert (∀ b, b ∈ built → heap m1 !! b = heap m !! b ∧ b ≠ a ∧ b ≠ queue ∧
                           ∃ itb, heap m !! b = Some (OItem itb)) as Hbuilt.
  { intros b Hb. destruct (seg_elem _ _ _ _ _ Hchain Hb) as [_ [itb Hitb]].
    assert (b ≠ a) by (by intros ->). assert (b ≠ queue) by ne_kind.
    split; [by apply Hsame1|]. eauto. }
  unfold build_item. rewrite (bind_ret_l _ _ _ _ _ Hrun).
  destruct (Z.eqb_spec a NULL) as [|_]; [done|].
  erewrite bind_ret_l; [|by eapply modify_item_ok]. norm.
  do 4 (erewrite bind_ret_l; [|eapply modify_item_ok; norm; apply lookup_insert_eq];
        norm; rewrite insert_insert_eq).
  unfold store_done. rewrite !bind_bind.
  erewrite bind_ret_l; [|eapply modify_item_ok; norm; apply lookup_insert_eq].
  norm. rewrite insert_insert_eq. unfold emit at 1. unfold bind at 1. norm.
  rewrite to_u8_FALSE.
  set (filled := set_it_done FALSE (set_it_flags flags (set_it_result NULL
                   (set_it_param (parambase loc) (set_it_callback cb
                      (set_it_next NULL it0)))))).
  rewrite Htl.
  match goal with |- context [bind (store_link_local _ _ _) _ ?m0] => set (m2 := m0) end.
  assert (chain (heap m2) (itemlist loc) built) as Hchain2.
  { eapply seg_agree; [exact Hchain|]. intros b Hb.
    destruct (Hbuilt b Hb) as (Hb1 & Hba & Hbq & _). unfold m2. norm.
    by rewrite lookup_insert_ne. }
  destruct (store_link_local_ok built a (itemlist loc) filled m2 Hchain2 Hnd Hab Hnz)
    as (m' & il' & Hlink & Hchain' & Hout & Hin & Hbrk' & Hsup' & Htr' & Hclk');
    [unfold m2; norm; apply lookup_insert_eq|done|].
  rewrite (bind_ret_l _ _ _ _ _ Hlink).
  unfold m2 in Hout, Hin, Hbrk', Hsup', Htr', Hclk'.
  norm in Hout. norm in Hin. norm in Hbrk'. norm in Hsup'. norm in Htr'. norm in Hclk'.
  clearbody m2.
  assert (heap m' !! a = Some (OItem filled)) as Ha'.
  { rewrite Hout by done. apply lookup_insert_eq. }
  assert (∀ x, x ∉ built → x ≠ a → heap m' !! x = heap m1 !! x) as Hout1.
  { intros x Hx Hxa. rewrite Hout by done. by rewrite lookup_insert_ne. }
  assert (∀ x it, x ∈ built → heap m !! x = Some (OItem it) →
                  ∃ n, heap m' !! x = Some (OItem (set_it_next n it))) as Hin1.
  { intros x it Hx Hit. destruct (Hbuilt x Hx) as (Hx1 & Hxa & Hxq & _).
    apply Hin; [done|]. rewrite lookup_insert_ne by done. by rewrite Hx1. }
  assert (∀ e, is_event (heap m1) e → is_event (heap m') e) as Hevs.
  { intros e [ev He]. exists ev. rewrite Hout1; [done| |ne_kind].
    intros Hine. destruct (Hbuilt e Hine) as (He1 & _ & _ & ite & Hite). congruence. }
  assert (∀ e, is_event (heap m) e → is_event (heap m1) e) as Hevs0.
  { intros e [ev He]. exists ev. rewrite Hsame1; [done|ne_kind|].
    intros ->. destruct Hafrom as [?|Hfl]; [congruence|].
    destruct (seg_elem _ _ _ _ _ (wf_free _ _ _ _ _ Hwf) Hfl) as [_ [? ?]]. congruence. }
  eexists m', q1, a, _. split; [reflexivity|].
  split; [|split; [done|split; [|split; [|split; [|split; [congruence|split]]]]]].
  - (* the invariant of the loop *)
    split.
    + eapply queue_wf_agree; [exact Hwf1| | |exact Hevs| |congruence].
      * rewrite Hout1; [done| |done]. intros Hinq.
        destruct (Hbuilt queue Hinq) as (_ & _ & ? & _). done.
      * intros x Hx. apply Hout1; [|by intros ->].
        intros Hxb. apply (Hdisj x Hxb).
        apply elem_of_app in Hx as [Hx|Hx]; apply elem_of_app; [by left|right].
        destruct fl; [done|by right].
      * intros x Hx. rewrite Hout1; [done| |ne_kind].
        intros Hxb. destruct (Hbuilt x Hxb) as (Hx1 & _ & _ & ? & ?). congruence.
    + exact Hchain'.
    + cbn [item_tailptr]. by rewrite tail_local_snoc.
    + apply NoDup_app. split; [done|]. split; [|apply NoDup_singleton].
      intros x Hx ->%list_elem_of_singleton. done.
    + intros x [Hx| ->%list_elem_of_singleton]%elem_of_app; [|done].
      intros Hx2. apply (Hdisj x Hx).
      apply elem_of_app in Hx2 as [Hx2|Hx2]; apply elem_of_app; [by left|right].
      destruct fl; [done|by right].
    + intros i x Hix.
      destruct (decide (i < length built)%nat) as [Hlt|Hge].
      * rewrite lookup_app_l in Hix by done.
        destruct (Hitems i x Hix) as (it & Hit & Hf1 & Hf2 & Hf3 & Hf4 & Hf5 & Hf6 & Hf7).
        destruct (Hin1 x it) as [n Hn]; [by eapply list_elem_of_lookup_2|done|].
        exists (set_it_next n it). split; [done|]. split_and!; try done.
        destruct Hf7 as [|Hf7]; [by left|right]. by apply Hevs, Hevs0.
      * rewrite lookup_app_r in Hix by lia.
        destruct (i - length built)%nat as [|k] eqn:Hk; [|by destruct k].
        simpl in Hix. simplify_eq. assert (i = length built) as -> by lia.
        exists filled. split; [done|]. unfold filled. cbn.
        split_and!; try done.
        destruct Hev0 as [|Hev0]; [by left|right]. by apply Hevs.
    + cbn [parambase]. rewrite Hparam, length_app. simpl. lia.
  - (* the frame *)
    intros x o Hx Hxq Hkind.
    assert (x ≠ a) as Hxa.
    { intros ->. destruct Hafrom as [?|Hfl]; [congruence|].
      destruct (seg_elem _ _ _ _ _ (wf_free _ _ _ _ _ Hwf) Hfl) as [_ [it Hit]].
      rewrite Hit in Hx. simplify_eq. by eapply Hkind. }
    rewrite Hout1; [by rewrite Hsame1| |done].
    intros Hxb. destruct (Hbuilt x Hxb) as (_ & _ & _ & it & Hit).
    rewrite Hit in Hx. simplify_eq. by eapply Hkind.
  - (* the events of the items *)
    intros x it Hit. destruct (decide (x = a)) as [->|Hxa].
    + exists filled. split; [done|]. unfold filled. cbn. by apply Hevkeep.
    + destruct (decide (x ∈ built)) as [Hxb|Hxb].
      * destruct (Hin1 x it Hxb Hit) as [n Hn]. by exists (set_it_next n it).
      * exists it. split; [|done]. rewrite Hout1 by done.
        rewrite Hsame1; [done|ne_kind|done].
  - (* the pending items *)
    intros x it Hx Hit.
    assert (x ∉ built) as Hxb.
    { intros Hxb. apply (Hdisj x Hxb). apply elem_of_app. by left. }
    assert (x ≠ a) as Hxa.
    { intros ->. apply Hanew. apply elem_of_app. by left. }
    rewrite Hout1 by done. rewrite Hsame1; [done|ne_kind|done].
  - rewrite Htr'. by rewrite Htr1.
  - congruence.
Qed.



End BuildItem.

Lemma set_q_free_twice (f f0 : Z) (q : osd_work_queue) :
  set_q_free f (set_q_free f0 q) = set_q_free f q.
Proof. done. Qed.

Lemma frame_trans (queue : Z) (m1 m2 m3 : machine) :
  frame queue m1 m2 → frame queue m2 m3 → frame queue m1 m3.
Proof. intros H1 H2 b o Hb Hq Hk. eauto. Qed.

Section BuildItems.
Context {host : Platform}.

Lemma build_items_ok (fuel : nat) (queue : Z) (cb : Z → Z) (base step flags : Z)
    (count : nat) :
  ∀ (m : machine) (q : osd_work_queue) (pl fl built : list Z) (loc : submit_locals)
    (rest : list bool),
    building m queue q pl fl built loc cb base step flags →
    supply m = replicate (count - length fl) true ++ rest →
    ∃ m' q' added loc',
      build_items (S fuel) count queue cb step flags loc m = Ret (Some loc') m' ∧
      length added = count ∧
      building m' queue q' pl (drop count fl) (built ++ added) loc' cb base step flags ∧
      (∃ f, q' = set_q_free f q) ∧
      frame queue m m' ∧
      (∀ b itb, heap m !! b = Some (OItem itb) →
                ∃ itb', heap m' !! b = Some (OItem itb') ∧ it_event itb' = it_event itb) ∧
      (∀ b itb, b ∈ pl → heap m !! b = Some (OItem itb) → heap m' !! b = Some (OItem itb)) ∧
      supply m' = rest ∧
      trace m' = trace m ++ map (λ a, EvDone a FALSE) added ∧
      clock m' = clock m.
Proof.
  induction count as [|count IH]; intros m q pl fl built loc rest Hb Hsup.
  - exists m, q, [], loc. rewrite drop_0, !app_nil_r. simpl in Hsup.
    split_and!; try done.
    + by exists (q_free q); destruct q.
    + intros b o Hbo _ _. done.
    + intros b itb Hbit. eauto.
  - assert (∃ rest1, supply m = replicate (1 - length fl) true ++ rest1 ∧
                     rest1 = replicate (count - length (tail fl)) true ++ rest)
      as (rest1 & Hsup1 & Hrest1).
    { destruct fl as [|x fl]; simpl in *; eauto. rewrite Nat.sub_0_r. eauto. }
    destruct (build_item_ok fuel queue q pl fl built loc cb base step flags m rest1 Hb Hsup1)
      as (m1 & q1 & a & loc1 & Hrun1 & Hb1 & [f1 Hq1] & Hfr1 & Hev1 & Hpl1 & Hs1 & Htr1 & Hclk1).
    destruct (IH m1 q1 pl (tail fl) (built ++ [a]) loc1 rest Hb1)
      as (m' & q' & added & loc' & Hrun & Hlen & Hb' & [f' Hq'] & Hfr & Hev & Hpl & Hs & Htr & Hclk);
      [congruence|].
    exists m', q', (a :: added), loc'.
    split; [cbn [build_items]; by rewrite (bind_ret_l _ _ _ _ _ Hrun1)|].
    split; [simpl; lia|].
    split.
    { rewrite <- app_assoc in Hb'. simpl in Hb'.
      replace (drop (S count) fl) with (drop count (tail fl)); [done|].
      destruct fl; simpl; [by rewrite drop_nil|done]. }
    split; [exists f'; by rewrite Hq', Hq1|].
    split; [by eapply frame_trans|].
    split.
    { intros b itb Hbit. destruct (Hev1 b itb Hbit) as (itb1 & Hbit1 & He1).
      destruct (Hev b itb1 Hbit1) as (itb' & Hbit' & He'). exists itb'. split; congruence. }
    split; [by eauto|].
    split; [done|].
    split; [|congruence].
    rewrite Htr, Htr1, <- app_assoc. done.
Qed.


End BuildItems.

(** ** The splice of a submission *)

Lemma tail_of_nil (queue : Z) : tail_of queue [] = LocList queue.
Proof. done. Qed.

Lemma tail_of_snoc (queue : Z) (l : list Z) (b : Z) : tail_of queue (l ++ [b]) = LocNext b.
Proof. unfold tail_of. by rewrite last_snoc. Qed.

Lemma store_link_ok (queue : Z) (q : osd_work_queue) (pl : list Z) (v : Z) (m : machine) :
  heap m !! queue = Some (OQueue q) → chain (heap m) (q_list q) pl → NoDup pl →
  ∃ m',
    store_link (tail_of queue pl) v m = Ret tt m' ∧
    heap m' !! queue = Some (OQueue (if decide (pl = []) then set_q_list v q else q)) ∧
    seg (heap m') (if decide (pl = []) then v else q_list q) pl v ∧
    (∀ x, x ∉ pl → x ≠ queue → heap m' !! x = heap m !! x) ∧
    (∀ x it, x ∈ pl → heap m !! x = Some (OItem it) →
             ∃ n, heap m' !! x = Some (OItem (set_it_next n it))) ∧
    brk m' = brk m ∧ supply m' = supply m ∧ trace m' = trace m ∧ clock m' = clock m.
Proof.
  intros Hq Hchain Hnd.
  destruct pl as [|b0 pl0 _] using rev_ind.
  - rewrite tail_of_nil. cbn [store_link]. erewrite modify_queue_ok by done.
    eexists. split; [reflexivity|]. norm.
    destruct (decide (@nil Z = [])) as [_|]; [|done].
    split; [apply lookup_insert_eq|]. split; [done|].
    split; [intros x _ Hx; by rewrite lookup_insert_ne|].
    split; [by intros x it Hx%elem_of_nil|done].
  - rewrite tail_of_snoc. cbn [store_link].
    assert (b0 ∈ pl0 ++ [b0]) as Hb by (apply elem_of_app; right; by left).
    destruct (seg_elem _ _ _ _ _ Hchain Hb) as [_ [itb Hitb]].
    assert (b0 ≠ queue) as Hbq by ne_kind.
    erewrite modify_item_ok by done.
    eexists. split; [reflexivity|]. norm.
    destruct (decide (pl0 ++ [b0] = [])) as [Hnil|_]; [by destruct pl0|].
    split; [by rewrite lookup_insert_ne|].
    split.
    { eapply seg_set_last; [exact Hchain| |done].
      apply NoDup_app in Hnd as (_ & Hd & _). intros Hin. apply (Hd b0 Hin). by left. }
    split; [intros x Hx _; rewrite lookup_insert_ne; [done|]; by intros ->|].
    split; [|done].
    intros x it Hx Hit. destruct (decide (x = b0)) as [->|Hxb].
    + exists v. rewrite lookup_insert_eq. congruence.
    + exists (it_next it). rewrite lookup_insert_ne by done. rewrite Hit. by destruct it.
Qed.

Section Enqueue.
Context {host : Platform}.

Lemma enqueue_items_ok (fuel : nat) (queue : Z) (q : osd_work_queue)
    (pl fl built : list Z) (loc : submit_locals) (cb : Z → Z) (base step flags n : Z)
    (m : machine) :
  building m queue q pl fl built loc cb base step flags →
  ∃ m' q',
    enqueue_items (S fuel) queue loc n m = Ret tt m' ∧
    heap m' !! queue = Some (OQueue q') ∧
    chain (heap m') (q_list q') (pl ++ built) ∧
    chain (heap m') (q_free q') fl ∧
    q_tailptr q' = tail_local built ∧
    q_items q' = wrap32 (q_items q + n) ∧
    lock_ready (q_lock q') ∧ same_config q q' ∧
    (∀ i a, built !! i = Some a → submitted (heap m') queue cb base step flags i a) ∧
    (∀ x it, x ∈ pl ++ fl → heap m' !! x = Some (OItem it) →
             it_queue it = queue ∧ (it_event it = NULL ∨ is_event (heap m') (it_event it))) ∧
    frame queue m m' ∧
    (∀ b itb, heap m !! b = Some (OItem itb) →
              ∃ n, heap m' !! b = Some (OItem (set_it_next n itb))) ∧
    (∀ e, is_event (heap m) e → is_event (heap m') e) ∧
    (∀ x, heap m !! x = None → heap m' !! x = None) ∧
    brk m' = brk m ∧ supply m' = supply m ∧
    trace m' = trace m ++ [EvItems queue n] ∧ clock m' = clock m.
Proof.
  intros [Hwf Hchain Htl Hnd Hdisj Hitems Hparam].
  pose proof Hwf as [Hq Hlock Hpend Htail Hfree Hndl Hcount Hbound Hown Hfresh Hdone].
  unfold enqueue_items.
  rewrite (bind_ret_l _ _ _ _ _ (scalable_lock_acquire_ok _ _ _ _ Hq Hlock)).
  erewrite bind_ret_l; [|eapply load_queue_ok; norm; apply lookup_insert_eq].
  cbn [q_tailptr set_q_lock]. rewrite Htail.
  set (q1 := set_q_lock (lock_held (q_lock q)) q).
  match goal with |- context [bind (store_link _ _) _ ?m0] => set (m1 := m0) end.
  assert (NoDup pl) as Hndpl by (by apply NoDup_app in Hndl as (? & _)).
  assert (chain (heap m1) (q_list q1) pl) as Hpend1.
  { eapply seg_agree; [exact Hpend|]. intros x Hx. unfold m1. norm.
    destruct (seg_elem _ _ _ _ _ Hpend Hx) as [_ [? ?]].
    rewrite lookup_insert_ne; [done|ne_kind]. }
  destruct (store_link_ok queue q1 pl (itemlist loc) m1)
    as (m2 & Hlink & Hq2 & Hseg2 & Hout2 & Hin2 & Hbrk2 & Hsup2 & Htr2 & Hclk2);
    [unfold m1; norm; apply lookup_insert_eq|done|done|].
  rewrite (bind_ret_l _ _ _ _ _ Hlink).
  erewrite bind_ret_l; [|by eapply modify_queue_ok]. norm.
  erewrite bind_ret_l; [|eapply scalable_lock_release_ok; norm; apply lookup_insert_eq].
  norm. rewrite insert_insert_eq.
  unfold sync_add_items, osd_sync_add. rewrite !bind_bind.
  erewrite bind_ret_l; [|eapply load_queue_ok; norm; apply lookup_insert_eq].
  rewrite !bind_bind.
  erewrite bind_ret_l; [|eapply modify_queue_ok; norm; apply lookup_insert_eq].
  norm. rewrite insert_insert_eq.
  unfold emit at 1. unfold bind at 1. norm. unfold ret, bind.
  unfold m1 in Hout2, Hin2, Hbrk2, Hsup2, Htr2, Hclk2.
  norm in Hout2. norm in Hin2. norm in Hbrk2. norm in Hsup2. norm in Htr2. norm in Hclk2.
  match goal with |- context [<[queue := OQueue ?qq]> (heap m2)] => set (q' := qq) end.
  assert (q_lock q' = lock_next (q_lock q) ∧
          q_list q' = (if decide (pl = []) then itemlist loc else q_list q) ∧
          q_tailptr q' = item_tailptr loc ∧ q_free q' = q_free q ∧
          q_items q' = wrap32 (q_items q + n) ∧ same_config q q')
    as (Hlock' & Hlist' & Htail' & Hfree' & Hitems' & Hcfg').
  { unfold q', q1. by destruct (decide (pl = [])). }
  clearbody q'.
  assert (∀ x, x ∉ pl → x ≠ queue → heap m2 !! x = heap m !! x) as Hout.
  { intros x Hx Hxq. rewrite Hout2 by done. by rewrite lookup_insert_ne. }
  assert (∀ x it, x ∈ pl → heap m !! x = Some (OItem it) →
                  ∃ n, heap m2 !! x = Some (OItem (set_it_next n it))) as Hin.
  { intros x it Hx Hit. apply Hin2; [done|]. rewrite lookup_insert_ne; [done|ne_kind]. }
  assert (∀ x it, heap m !! x = Some (OItem it) →
                  ∃ n, heap m2 !! x = Some (OItem (set_it_next n it))) as Hitem.
  { intros x it Hit. destruct (decide (x ∈ pl)) as [Hx|Hx]; [by apply Hin|].
    exists (it_next it). rewrite Hout; [|done|ne_kind]. rewrite Hit. by destruct it. }
  assert (∀ e, is_event (heap m) e → is_event (heap m2) e) as Hevs.
  { intros e [ev He]. exists ev. rewrite Hout; [done| |ne_kind].
    intros Hx. destruct (seg_elem _ _ _ _ _ Hpend Hx) as [_ [? ?]]. congruence. }
  assert (∀ l p r, seg (heap m2) p l r →
                   seg (<[queue := OQueue q']> (heap m2)) p l r) as Hsegq.
  { intros l p r Hs. eapply seg_agree; [exact Hs|]. intros x Hx.
    destruct (seg_elem _ _ _ _ _ Hs Hx) as [_ [? ?]].
    rewrite lookup_insert_ne; [done|ne_kind]. }
  assert (∀ l p, seg (heap m) p l NULL → (∀ x, x ∈ l → x ∉ pl) →
                 seg (heap m2) p l NULL) as Hsegs.
  { intros l p Hs Hl. eapply seg_agree; [exact Hs|]. intros x Hx.
    destruct (seg_elem _ _ _ _ _ Hs Hx) as [_ [? ?]].
    apply Hout; [by apply Hl|ne_kind]. }
  eexists _, q'. split; [reflexivity|]. norm.
  split; [apply lookup_insert_eq|].
  split.
  { apply Hsegq. rewrite Hlist'. apply seg_app. exists (itemlist loc). split; [done|].
    apply Hsegs; [done|]. intros x Hx Hx2. apply (Hdisj x Hx). apply elem_of_app. by left. }
  split.
  { apply Hsegq. rewrite Hfree'. apply Hsegs; [done|]. intros x Hx Hx2.
    apply NoDup_app in Hndl as (_ & Hd & _). by apply (Hd x Hx2). }
  split; [congruence|]. split; [done|].
  split; [rewrite Hlock'; by apply lock_held_next|]. split; [done|].
  assert (∀ e, is_event (heap m) e → is_event (<[queue := OQueue q']> (heap m2)) e) as Hevs'.
  { intros e He. destruct (Hevs e He) as [ev Hev]. exists ev.
    rewrite lookup_insert_ne; [done|]. destruct He. ne_kind. }
  split.
  { intros i a Hia.
    destruct (Hitems i a Hia) as (it & Hit & Hf1 & Hf2 & Hf3 & Hf4 & Hf5 & Hf6 & Hf7).
    destruct (Hitem a it Hit) as [k Hk]. exists (set_it_next k it).
    split; [rewrite lookup_insert_ne; [done|ne_kind]|]. split_and!; try done.
    destruct Hf7 as [|Hf7]; [by left|right]. by apply Hevs'. }
  split.
  { intros x it Hx Hit.
    assert (∃ it0, heap m !! x = Some (OItem it0)) as [it0 Hit0].
    { apply elem_of_app in Hx as [Hx|Hx].
      - by destruct (seg_elem _ _ _ _ _ Hpend Hx) as [_ ?].
      - by destruct (seg_elem _ _ _ _ _ Hfree Hx) as [_ ?]. }
    destruct (Hitem x it0 Hit0) as [k Hk].
    rewrite lookup_insert_ne in Hit by ne_kind. rewrite Hk in Hit. simplify_eq.
    destruct (Hown x it0 Hx Hit0) as [Ho [Hn|He]]; cbn; [by split; [|left]|].
    split; [done|]. right. by apply Hevs'. }
  split.
  { unfold frame. norm. intros x o Hx Hxq Hkind. rewrite lookup_insert_ne by done.
    rewrite Hout; [done| |done]. intros Hin'.
    destruct (seg_elem _ _ _ _ _ Hpend Hin') as [_ [it Hit]].
    rewrite Hit in Hx. simplify_eq. by eapply Hkind. }
  split.
  { intros x it Hit. destruct (Hitem x it Hit) as [k Hk]. exists k.
    rewrite lookup_insert_ne; [done|ne_kind]. }
  split; [done|].
  split.
  { intros x Hx. rewrite lookup_insert_ne by ne_kind. rewrite Hout; [done| |ne_kind].
    intros Hin'. destruct (seg_elem _ _ _ _ _ Hpend Hin') as [_ [? ?]]. congruence. }
  split; [done|]. split; [done|]. split; [by rewrite Htr2|done].
Qed.


End Enqueue.

Lemma tail_local_of (queue : Z) (pl built : list Z) :
  built ≠ [] → tail_local built = tail_of queue (pl ++ built).
Proof.
  intros Hne. rewrite tail_of_app_ne by done. unfold tail_local, tail_of.
  destruct built as [|b built _] using rev_ind; [done|]. by rewrite last_snoc.
Qed.

Section Wake.
Context {host : Platform}.

Lemma enqueue_items_wf (fuel : nat) (queue : Z) (q : osd_work_queue)
    (pl fl built : list Z) (loc : submit_locals) (cb : Z → Z) (base step flags n : Z)
    (m : machine) :
  building m queue q pl fl built loc cb base step flags →
  built ≠ [] → n = Z.of_nat (length built) →
  Z.of_nat (length pl) + n ≤ INT32_MAX →
  ∃ m' q',
    enqueue_items (S fuel) queue loc n m = Ret tt m' ∧
    queue_wf m' queue q' (pl ++ built) fl ∧ same_config q q' ∧
    (∀ i a, built !! i = Some a → submitted (heap m') queue cb base step flags i a) ∧
    frame queue m m' ∧
    (∀ b itb, heap m !! b = Some (OItem itb) →
              ∃ n, heap m' !! b = Some (OItem (set_it_next n itb))) ∧
    supply m' = supply m ∧
    trace m' = trace m ++ [EvItems queue n] ∧ clock m' = clock m.
Proof.
  intros Hb Hne Hn Hbound.
  destruct (enqueue_items_ok fuel queue q pl fl built loc cb base step flags n m Hb)
    as (m' & q' & Hrun & Hq' & Hpend' & Hfree' & Htail' & Hitems' & Hlock' & Hcfg' & Hsub
        & Hown' & Hframe & Hitem & Hevs & Hnone & Hbrk & Hsup & Htr & Hclk).
  destruct Hb as [Hwf Hchain Htl Hnd Hdisj Hitems Hparam].
  destruct Hwf as [Hq Hlock Hpend Htail Hfree Hndl Hcount Hbnd Hown Hfresh Hdone].
  exists m', q'. split; [done|]. split; [|done].
  split; try done.
  - rewrite Htail'. by apply tail_local_of.
  - apply NoDup_app in Hndl as (Hn1 & Hd & Hn2).
    rewrite <- app_assoc. apply NoDup_app. split; [done|]. split.
    + intros x Hx [Hx2|Hx2]%elem_of_app; [|by apply (Hd x Hx)].
      apply (Hdisj x Hx2). apply elem_of_app. by left.
    + apply NoDup_app. split; [done|]. split; [|done].
      intros x Hx Hx2. apply (Hdisj x Hx). apply elem_of_app. by right.
  - rewrite Hitems', Hcount, length_app, Hn.
    rewrite wrap32_id; unfold INT32_MAX in *; lia.
  - rewrite length_app. lia.
  - intros x it Hx Hit.
    rewrite <- app_assoc in Hx.
    apply elem_of_app in Hx as [Hx|[Hx|Hx]%elem_of_app].
    + apply (Hown' x it); [apply elem_of_app; by left|done].
    + apply list_elem_of_lookup in Hx as [i Hi].
      destruct (Hsub i x Hi) as (it' & Hit' & Hf1 & _ & _ & _ & _ & _ & Hf7).
      rewrite Hit' in Hit. by simplify_eq.
    + apply (Hown' x it); [apply elem_of_app; by right|done].
  - destruct Hfresh as [Hpos Hfr]. split; [by rewrite Hbrk|].
    intros x Hx. rewrite Hbrk in Hx. by apply Hnone, Hfr.
  - destruct Hcfg' as (_ & _ & _ & Hde & _). rewrite Hde. by apply Hevs.
Qed.

Lemma wake_threads_ok (queue : Z) (q : osd_work_queue) (arr : list mame_thread_info)
    (count : nat) :
  ∀ (from numitems : Z) (m : machine),
    heap m !! queue = Some (OQueue q) →
    heap m !! q_thread q = Some (OThreads arr) →
    0 ≤ from →
    (∀ i th, arr !! i = Some th → (i < Z.to_nat from + count)%nat →
             is_event (heap m) (th_wakeevent th)) →
    (Z.to_nat from + count ≤ length arr)%nat →
    ∃ m' woken,
      wake_threads count from queue numitems m = Ret tt m' ∧
      touches [] m m' ∧
      heap m' !! queue = Some (OQueue q) ∧
      heap m' !! q_thread q = Some (OThreads arr) ∧
      trace m' = trace m ++ map EvEventSet woken ∧ clock m' = clock m.
Proof.
  induction count as [|count IH]; intros from numitems m Hq Harr Hfrom Hevs Hlen.
  - exists m, []. simpl. rewrite app_nil_r. split_and!; first [done|apply touches_refl].
  - cbn [wake_threads].
    rewrite (bind_ret_l _ _ _ _ _ (load_queue_ok _ _ _ Hq)).
    destruct (lookup_lt_is_Some_2 arr (Z.to_nat from)) as [th Hth]; [lia|].
    rewrite (bind_ret_l _ _ _ _ _ (load_thread_ok _ _ _ _ _ Harr Hth Hfrom)).
    destruct (th_active th =? 0).
    + destruct (Hevs _ _ Hth) as [ev Hev]; [lia|].
      rewrite (bind_ret_l _ _ _ _ _ (osd_event_set_ok _ _ _ Hev)).
      cbn zeta.
      lazymatch goal with |- context [mkMachine ?h ?b ?s ?c ?t] =>
        set (m1 := mkMachine h b s c t) end.
      assert (touches [] m m1) as Ht1 by (by eapply touches_event_update).
      assert (heap m1 !! queue = Some (OQueue q)) as Hq1.
      { unfold m1. norm. rewrite lookup_insert_ne; [done|ne_kind]. }
      assert (heap m1 !! q_thread q = Some (OThreads arr)) as Harr1.
      { unfold m1. norm. rewrite lookup_insert_ne; [done|ne_kind]. }
      destruct (wrap32 (numitems - 1) =? 0).
      * exists m1, [th_wakeevent th]. split; [done|]. split_and!; try done.
      * destruct (IH (from + 1) (wrap32 (numitems - 1)) m1 Hq1 Harr1) as
          (m' & woken & Hrun & Ht & Hq' & Harr' & Htr & Hclk); [lia| |lia|].
        { intros i th' Hi Hlt. destruct Ht1 as (_ & E & _). apply E.
          apply (Hevs i th' Hi). lia. }
        exists m', (th_wakeevent th :: woken). split; [done|].
        split; [rewrite <- (app_nil_r []); by eapply touches_trans|].
        split; [done|]. split; [done|]. split; [|by rewrite Hclk].
        rewrite Htr. unfold m1. norm. by rewrite <- app_assoc.
    + destruct (IH (from + 1) numitems m Hq Harr) as
        (m' & woken & Hrun & Ht & Hq' & Harr' & Htr & Hclk); [lia| |lia|].
      { intros i th' Hi Hlt. apply (Hevs i th' Hi). lia. }
      exists m', woken. done.
Qed.


End Wake.

(** ** A whole submission *)

Lemma chain_hd (h : gmap Z object) (p : Z) (l : list Z) : chain h p l → p = hd NULL l.
Proof. destruct l; [done|]. by intros (-> & _). Qed.

Section Submit.
Context {host : Platform}.

Lemma building_start (m : machine) (queue : Z) (q : osd_work_queue) (pl fl : list Z)
    (cb : Z → Z) (base step flags : Z) :
  queue_wf m queue q pl fl →
  building m queue q pl fl []
    {| itemlist := NULL; item_tailptr := LocItemlist; parambase := base |}
    cb base step flags.
Proof.
  intros Hwf. split; try done.
  - apply NoDup_nil_2.
  - by intros a Ha%elem_of_nil.
  - simpl. lia.
Qed.

(** The submission up to the wake-up of the workers. *)
Lemma submit_prefix_ok (fuel : nat) (queue : Z) (q : osd_work_queue) (pl fl : list Z)
    (cb : Z → Z) (n base step flags : Z) (m : machine) (rest : list bool) :
  queue_wf m queue q pl fl → 0 ≤ n →
  supply m = replicate (Z.to_nat n - length fl) true ++ rest →
  ∃ m1 q1 added loc m2 q2,
    build_items (S fuel) (Z.to_nat n) queue cb step flags
      {| itemlist := NULL; item_tailptr := LocItemlist; parambase := base |} m
      = Ret (Some loc) m1 ∧
    building m1 queue q1 pl (drop (Z.to_nat n) fl) added loc cb base step flags ∧
    length added = Z.to_nat n ∧ itemlist loc = hd NULL added ∧
    enqueue_items (S fuel) queue loc n m1 = Ret tt m2 ∧
    heap m2 !! queue = Some (OQueue q2) ∧
    chain (heap m2) (q_list q2) (pl ++ added) ∧
    q_items q2 = wrap32 (q_items q + n) ∧
    q_tailptr q2 = tail_local added ∧
    same_config q q2 ∧
    (∀ i a, added !! i = Some a → submitted (heap m2) queue cb base step flags i a) ∧
    frame queue m m2 ∧
    (∀ b itb, heap m !! b = Some (OItem itb) →
              ∃ itb', heap m2 !! b = Some (OItem itb') ∧ it_event itb' = it_event itb) ∧
    supply m2 = rest ∧
    trace m2 = trace m ++ map (λ a, EvDone a FALSE) added ++ [EvItems queue n] ∧
    clock m2 = clock m.
Proof.
  intros Hwf Hn Hsup.
  destruct (build_items_ok fuel queue cb base step flags (Z.to_nat n) m q pl fl []
              _ rest (building_start m queue q pl fl cb base step flags Hwf) Hsup)
    as (m1 & q1 & added & loc & Hrun1 & Hlen & Hb1 & [f Hq1] & Hfr1 & Hev1 & Hpl1
        & Hs1 & Htr1 & Hclk1).
  rewrite app_nil_l in Hb1.
  destruct (enqueue_items_ok fuel queue q1 pl _ added loc cb base step flags n m1 Hb1)
    as (m2 & q2 & Hrun2 & Hq2 & Hpend2 & Hfree2 & Htail2 & Hitems2 & Hlock2 & Hcfg2 & Hsub2
        & Hown2 & Hframe2 & Hitem2 & Hevs2 & Hnone2 & Hbrk2 & Hsup2 & Htr2 & Hclk2).
  exists m1, q1, added, loc, m2, q2.
  split; [done|]. split; [done|]. split; [done|].
  split; [by apply (chain_hd (heap m1)), (bd_chain _ _ _ _ _ _ _ _ _ _ _ Hb1)|].
  split; [done|]. split; [done|]. split; [done|].
  split; [by rewrite Hitems2, Hq1|]. split; [done|].
  split.
  { rewrite Hq1 in Hcfg2. by destruct q. }
  split; [done|]. split; [by eapply frame_trans|].
  split.
  { intros b itb Hbit. destruct (Hev1 b itb Hbit) as (itb1 & Hbit1 & He1).
    destruct (Hitem2 b itb1 Hbit1) as [k Hk]. exists (set_it_next k itb1). by split. }
  split; [congruence|]. split; [|congruence].
  rewrite Htr2, Htr1, <- app_assoc. done.
Qed.

Lemma wake_idle_threads_ok (queue numitems : Z) (q : osd_work_queue) (m : machine) :
  heap m !! queue = Some (OQueue q) →
  (q_threads q = 0 ∨ threads_wf m q) →
  ∃ m' woken,
    wake_idle_threads queue numitems m = Ret tt m' ∧
    touches [] m m' ∧ heap m' !! queue = Some (OQueue q) ∧
    trace m' = trace m ++ map EvEventSet woken ∧ clock m' = clock m.
Proof.
  intros Hq Hth. unfold wake_idle_threads.
  rewrite (bind_ret_l _ _ _ _ _ (load_queue_ok _ _ _ Hq)).
  destruct (Z.ltb_spec (to_u32 (q_livethreads q)) (q_threads q)) as [Hlt|Hge].
  - destruct Hth as [Hz|(arr & Harr & Hlen & Hevs)].
    { unfold to_u32 in Hlt.
      pose proof (Z.mod_pos_bound (q_livethreads q) (2 ^ 32) ltac:(lia)). lia. }
    destruct (wake_threads_ok queue q arr (Z.to_nat (q_threads q)) 0 numitems m Hq Harr)
      as (m' & woken & Hrun & Ht & Hq' & _ & Htr & Hclk); [done| |simpl; lia|].
    { intros i th Hi Hlt'. apply (Hevs i th Hi). simpl in Hlt'. lia. }
    by exists m', woken.
  - exists m, []. simpl. rewrite app_nil_r. split_and!; first [done|apply touches_refl].
Qed.


End Submit.

Section SubmitThreads.
Context {host : Platform}.

Lemma submit_threads_ok (fuel : nat) (queue : Z) (q : osd_work_queue) (pl fl : list Z)
    (cb : Z → Z) (n base step flags : Z) (m : machine) (rest : list bool) :
  queue_wf m queue q pl fl → threads_wf m q → q_threads q ≠ 0 → 0 ≤ n →
  supply m = replicate (Z.to_nat n - length fl) true ++ rest →
  ∃ m' q' added,
    osd_work_item_queue_multiple (S fuel) queue cb n base step flags m
      = Ret (if auto_release flags then NULL else hd NULL added) m' ∧
    length added = Z.to_nat n ∧ NoDup added ∧
    (∀ a, a ∈ added → a ∉ pl) ∧
    heap m' !! queue = Some (OQueue q') ∧
    chain (heap m') (q_list q') (pl ++ added) ∧
    q_items q' = wrap32 (q_items q + n) ∧
    (∀ i a, added !! i = Some a → submitted (heap m') queue cb base step flags i a) ∧
    (∀ b itb, heap m !! b = Some (OItem itb) →
              ∃ itb', heap m' !! b = Some (OItem itb') ∧ it_event itb' = it_event itb) ∧
    supply m' = rest.
Proof.
  intros Hwf Hth Hnz Hn Hsup.
  destruct (submit_prefix_ok fuel queue q pl fl cb n base step flags m rest Hwf Hn Hsup)
    as (m1 & q1 & added & loc & m2 & q2 & Hrun1 & Hb1 & Hlen & Hil & Hrun2 & Hq2 & Hpend2
        & Hitems2 & Htail2 & Hcfg2 & Hsub2 & Hframe2 & Hev2 & Hsup2 & Htr2 & Hclk2).
  pose proof Hcfg2 as (Hthreads & _ & Hthread & _).
  pose proof (wf_queue _ _ _ _ _ Hwf) as Hq.
  assert (threads_wf m2 q2) as Hth2.
  { destruct Hth as (arr & Harr & Hlen' & Hevs). exists arr.
    rewrite Hthread, Hthreads. split; [|split; [done|]].
    - apply (Hframe2 _ _ Harr); [ne_kind|done].
    - intros i th Hi Hlt. destruct (Hevs i th Hi Hlt) as [ev Hev]. exists ev.
      apply (Hframe2 _ _ Hev); [ne_kind|done]. }
  destruct (wake_idle_threads_ok queue n q2 m2 Hq2 (or_intror Hth2))
    as (m3 & woken & Hrun3 & (Hkeep3 & Hevs3 & Hnone3 & Hbrk3 & Hsup3) & Hq3 & Htr3 & Hclk3).
  unfold osd_work_item_queue_multiple.
  rewrite (bind_ret_l _ _ _ _ _ Hrun1), (bind_ret_l _ _ _ _ _ Hrun2),
    (bind_ret_l _ _ _ _ _ Hrun3), (bind_ret_l _ _ _ _ _ (load_queue_ok _ _ _ Hq3)).
  destruct (Z.eqb_spec (q_threads q2) 0) as [|_]; [congruence|].
  unfold ret at 1. unfold bind at 1. rewrite Hil.
  exists m3, q2, added. split; [done|]. split; [done|].
  split; [apply (bd_nodup _ _ _ _ _ _ _ _ _ _ _ Hb1)|].
  split.
  { intros a Ha Hpl. apply (bd_disjoint _ _ _ _ _ _ _ _ _ _ _ Hb1 a Ha).
    apply elem_of_app. by left. }
  split; [done|].
  split.
  { eapply seg_agree; [exact Hpend2|]. intros x Hx.
    destruct (seg_elem _ _ _ _ _ Hpend2 Hx) as [_ [it Hit]].
    rewrite Hit. apply Hkeep3; [apply not_elem_of_nil|done]. }
  split; [done|].
  split.
  { intros i a Hia.
    destruct (Hsub2 i a Hia) as (it & Hit & Hf1 & Hf2 & Hf3 & Hf4 & Hf5 & Hf6 & Hf7).
    exists it. split; [apply Hkeep3; [apply not_elem_of_nil|done]|].
    split_and!; try done. destruct Hf7 as [|Hf7]; [by left|right; by apply Hevs3]. }
  split; [|congruence].
  intros b itb Hbit. destruct (Hev2 b itb Hbit) as (itb' & Hbit' & He).
  exists itb'. split; [|done]. apply Hkeep3; [apply not_elem_of_nil|done].
Qed.

Lemma worker_thread_process_idle (fuel : nat) (queue : Z) (thread : Z * Z)
    (q : osd_work_queue) (m : machine) :
  heap m !! queue = Some (OQueue q) → q_items q = 0 →
  is_event (heap m) (q_doneevent q) →
  ∃ m',
    worker_thread_process (S fuel) queue thread m = Ret tt m' ∧
    touches [] m m' ∧ heap m' !! queue = Some (OQueue q) ∧
    trace m' = trace m ++ (if q_waiting q =? 0 then [] else [EvEventSet (q_doneevent q)]) ∧
    clock m' = clock m.
Proof.
  intros Hq Hitems [ev Hev]. unfold worker_thread_process. cbn [loop].
  unfold drain_round at 1. rewrite !bind_bind.
  rewrite (bind_ret_l _ _ _ _ _ (load_queue_ok _ _ _ Hq)). rewrite Hitems.
  simpl (0 =? 0). cbn iota. unfold ret at 1. unfold bind at 1.
  unfold ret at 1. unfold bind at 1.
  rewrite (bind_ret_l _ _ _ _ _ (load_queue_ok _ _ _ Hq)).
  destruct (q_waiting q =? 0); cbn [negb].
  - exists m. rewrite app_nil_r. split_and!; first [done|apply touches_refl].
  - rewrite (osd_event_set_ok _ _ _ Hev). eexists. split; [reflexivity|]. norm.
    split; [by eapply touches_event_update|].
    split; [rewrite lookup_insert_ne; [done|ne_kind]|done].
Qed.


End SubmitThreads.

Section SubmitInline.
Context {host : Platform}.

Lemma completion_effects_completed (queue a : Z) (it it' : osd_work_item) :
  completed it it' → completion_effects queue a it' = completion_effects queue a it.
Proof.
  intros (_ & _ & Hp & Hc & Hf & He & _). unfold completion_effects.
  by rewrite Hp, Hc, Hf, He.
Qed.

Lemma completions_completed (queue : Z) (m m' : machine) (l : list Z) :
  (∀ a, a ∈ l → ∃ it it', heap m !! a = Some (OItem it) ∧
                          heap m' !! a = Some (OItem it') ∧ completed it it') →
  completions queue m' l = completions queue m l.
Proof.
  intros Hl. unfold completions. induction l as [|a l IH]; [done|].
  cbn [flat_map]. rewrite IH by (intros b Hb; apply Hl; by right). f_equal.
  destruct (Hl a) as (it & it' & Hit & Hit' & Hc); [by left|].
  unfold item_at. rewrite Hit, Hit'. by apply completion_effects_completed.
Qed.

Lemma submit_inline_ok (fuel : nat) (queue : Z) (q : osd_work_queue) (fl : list Z)
    (cb : Z → Z) (n base step flags : Z) (m : machine) (rest : list bool) :
  queue_wf m queue q [] fl → q_threads q = 0 → 0 ≤ n ≤ INT32_MAX →
  (Z.to_nat n ≤ fuel)%nat →
  supply m = replicate (Z.to_nat n - length fl) true ++ rest →
  ∃ m' q' added,
    osd_work_item_queue_multiple (S fuel) queue cb n base step flags m
      = Ret (if auto_release flags then NULL else hd NULL added) m' ∧
    length added = Z.to_nat n ∧ NoDup added ∧
    heap m' !! queue = Some (OQueue q') ∧ q_items q' = 0 ∧ same_config q q' ∧
    (∀ i a, added !! i = Some a →
            ∃ it, heap m' !! a = Some (OItem it) ∧
                  it_done it = TRUE ∧ it_param it = base + Z.of_nat i * step ∧
                  it_result it = cb (it_param it) ∧
                  it_callback it = cb ∧ it_flags it = flags ∧ it_queue it = queue) ∧
    (0 < n → ∃ fl', queue_wf m' queue q' [] fl') ∧
    (∀ b itb, heap m !! b = Some (OItem itb) →
              ∃ itb', heap m' !! b = Some (OItem itb') ∧ it_event itb' = it_event itb) ∧
    supply m' = rest ∧
    trace m' = trace m ++ map (λ a, EvDone a FALSE) added ++ [EvItems queue n] ++
               completions queue m' added ++
               (if q_waiting q =? 0 then [] else [EvEventSet (q_doneevent q)]).
Proof.
  intros Hwf Hth Hn Hfuel Hsup.
  destruct (submit_prefix_ok fuel queue q [] fl cb n base step flags m rest Hwf
              ltac:(lia) Hsup)
    as (m1 & q1 & added & loc & m2 & q2 & Hrun1 & Hb1 & Hlen & Hil & Hrun2 & Hq2 & Hpend2
        & Hitems2 & Htail2 & Hcfg2 & Hsub2 & Hframe2 & Hev2 & Hsup2 & Htr2 & Hclk2).
  pose proof Hcfg2 as (Hthreads & _ & _ & Hde & Hw & _).
  pose proof (wf_queue _ _ _ _ _ Hwf) as Hq.
  unfold osd_work_item_queue_multiple.
  rewrite (bind_ret_l _ _ _ _ _ Hrun1), (bind_ret_l _ _ _ _ _ Hrun2).
  unfold wake_idle_threads. rewrite !bind_bind.
  rewrite (bind_ret_l _ _ _ _ _ (load_queue_ok _ _ _ Hq2)).
  rewrite Hthreads, Hth.
  destruct (Z.ltb_spec (to_u32 (q_livethreads q2)) 0) as [Hlt|_].
  { unfold to_u32 in Hlt.
    pose proof (Z.mod_pos_bound (q_livethreads q2) (2 ^ 32) ltac:(lia)). lia. }
  unfold ret at 1. unfold bind at 1.
  rewrite (bind_ret_l _ _ _ _ _ (load_queue_ok _ _ _ Hq2)).
  rewrite Hthreads, Hth. simpl (0 =? 0). cbn iota. rewrite Hil.
  assert (NoDup added) as Hnd by apply (bd_nodup _ _ _ _ _ _ _ _ _ _ _ Hb1).
  assert (is_event (heap m2) (q_doneevent q2)) as Hdone2.
  { destruct (wf_done _ _ _ _ _ Hwf) as [ev Hev]. exists ev. rewrite Hde.
    apply (Hframe2 _ _ Hev); [ne_kind|done]. }
  destruct (decide (added = [])) as [->|Hne].
  - (* nothing was submitted *)
    assert (n = 0) as -> by (simpl in Hlen; lia).
    assert (q_items q2 = 0) as Hz.
    { rewrite Hitems2, (wf_items _ _ _ _ _ Hwf). done. }
    destruct (worker_thread_process_idle fuel queue (q_thread q2, 0) q2 m2 Hq2 Hz Hdone2)
      as (m3 & Hrun3 & (Hkeep3 & Hevs3 & Hnone3 & Hbrk3 & Hsup3) & Hq3 & Htr3 & Hclk3).
    rewrite (bind_ret_l _ _ _ _ _ Hrun3). unfold ret.
    exists m3, q2, []. split; [done|]. split; [done|]. split; [done|].
    split; [done|]. split; [done|]. split; [done|].
    split; [by intros i a Hia|]. split; [lia|].
    split.
    { intros b itb Hbit. destruct (Hev2 b itb Hbit) as (itb' & Hbit' & He).
      exists itb'. split; [|done]. apply Hkeep3; [apply not_elem_of_nil|done]. }
    split; [congruence|].
    rewrite Htr3, Htr2, Hw, Hde. simpl. by rewrite <- !app_assoc.
  - (* the items are run here *)
    destruct (enqueue_items_wf fuel queue q1 [] _ added loc cb base step flags n m1 Hb1 Hne)
      as (m2' & q2' & Hrun2' & Hwf2 & _); [lia|simpl; lia|].
    rewrite Hrun2 in Hrun2'. simplify_eq.
    pose proof (wf_queue _ _ _ _ _ Hwf2) as Hq2'. rewrite Hq2 in Hq2'. simplify_eq.
    rewrite app_nil_l in Hwf2.
    destruct (worker_thread_process_ok (S fuel) queue (q_thread q2', 0) m2' q2' added _ Hwf2)
      as (m3 & q3 & fl3 & Hrun3 & Hwf3 & Hcomp3 & (Hkeep3 & Hevs3 & Hnone3 & Hbrk3 & Hsup3)
          & Htr3 & Hclk3 & Hcfg3); [lia|].
    rewrite (bind_ret_l _ _ _ _ _ Hrun3). unfold ret.
    exists m3, q3, added. split; [done|]. split; [done|]. split; [done|].
    split; [apply (wf_queue _ _ _ _ _ Hwf3)|].
    split; [apply (wf_items _ _ _ _ _ Hwf3)|].
    split.
    { destruct Hcfg2 as (? & ? & ? & ? & ? & ? & ?), Hcfg3 as (? & ? & ? & ? & ? & ? & ?).
      unfold same_config. split_and!; congruence. }
    split.
    { intros i a Hia.
      destruct (Hsub2 i a Hia) as (it & Hit & Hf1 & Hf2 & Hf3 & Hf4 & Hf5 & Hf6 & Hf7).
      destruct (Hcomp3 a it) as (it' & Hit' & Hc1 & Hc2 & Hc3 & Hc4 & Hc5 & Hc6 & Hc7);
        [by eapply list_elem_of_lookup_2|done|].
      exists it'. split; [done|]. split_and!; congruence. }
    split; [intros _; by exists fl3|].
    split.
    { intros b itb Hbit. destruct (Hev2 b itb Hbit) as (itb' & Hbit' & He).
      destruct (decide (b ∈ added)) as [Hin|Hnin].
      - destruct (Hcomp3 b itb' Hin Hbit') as (it' & Hit' & Hc).
        exists it'. split; [done|]. destruct Hc as (_ & _ & _ & _ & _ & Hce & _). congruence.
      - exists itb'. split; [|done]. by apply Hkeep3. }
    split; [congruence|].
    rewrite (completions_completed queue m2' m3 added).
    { rewrite Htr3, Htr2, Hw, Hde, <- !app_assoc. done. }
    intros a Ha.
    destruct (seg_elem _ _ _ _ _ (wf_pending _ _ _ _ _ Hwf2) Ha) as [_ [it Hit]].
    destruct (Hcomp3 a it Ha Hit) as (it' & Hit' & Hc). by exists it, it'.
Qed.


End SubmitInline.

(** ** The claims about a submission *)

Section Claims.
Context {host : Platform}.

Lemma lock_ready_init : lock_ready scalable_lock_init.
Proof. by split. Qed.

Lemma osd_work_queue_alloc_wf (fuel : nat) (flags : Z) (m : machine) (rest : list bool) :
  heap_fresh m →
  supply m =
    replicate (3 + 2 * Z.to_nat (choose_threads effective_num_processors flags)) true ++ rest →
  ∃ m',
    osd_work_queue_alloc fuel flags m = Ret (brk m) m' ∧
    queue_wf m' (brk m) (new_queue (brk m) flags) [] [] ∧
    supply m' = rest ∧ trace m' = trace m ∧ clock m' = clock m.
Proof.
  intros [Hpos Hfr] Hsup.
  destruct (osd_work_queue_alloc_ok fuel flags m rest Hpos Hsup)
    as (m' & arr & Hrun & Hq & Hev & Harr & Hbrk & Hs & Hc & Htr & Hframe).
  pose proof (choose_threads_range effective_num_processors flags) as [Hn0 Hn16].
  exists m'. split; [done|]. split; [|done].
  split;
    first [ done
          | apply lock_ready_init
          | apply NoDup_nil_2
          | by intros a it Ha%elem_of_nil
          | by eexists
          | idtac ].
  split; [lia|]. intros a Ha. rewrite Hframe by lia. apply Hfr. lia.
Qed.

(** C1.  On a queue without workers the submission drains the work on
    the calling thread before it returns: given enough memory for the
    items, [osd_work_item_queue_multiple] returns, [queue->items] is 0, and
    each of the [n] items has [done] true, parameter [base + i * step] and
    as result the value of the callback at its parameter.  A queue
    allocated with [flags = 0] on one processor is such a queue, and stays
    one after a submission.  In scenario S1 the results are 1, 4, 9, 16,
    25 and [items] is 0. *)
Theorem submit_drains_inline :
  (∀ (fuel : nat) (queue : Z) (q : osd_work_queue) (fl : list Z) (cb : Z → Z)
     (n base step flags : Z) (m : machine) (rest : list bool),
     queue_wf m queue q [] fl → q_threads q = 0 → 0 ≤ n ≤ INT32_MAX →
     (Z.to_nat n < fuel)%nat →
     supply m = replicate (Z.to_nat n - length fl) true ++ rest →
     ∃ m' q' items,
       osd_work_item_queue_multiple fuel queue cb n base step flags m
         = Ret (if auto_release flags then NULL else hd NULL items) m' ∧
       queue_at m' queue = Some q' ∧ q_items q' = 0 ∧ q_threads q' = 0 ∧
       length items = Z.to_nat n ∧ NoDup items ∧
       (∀ i a, items !! i = Some a →
               ∃ it, item_at m' a = Some it ∧ it_done it = TRUE ∧
                     it_param it = base + Z.of_nat i * step ∧
                     it_result it = cb (it_param it)) ∧
       (0 < n → ∃ fl', queue_wf m' queue q' [] fl')) ∧
  (∀ (fuel : nat) (m : machine) (rest : list bool),
     effective_num_processors = 1 → heap_fresh m →
     supply m = replicate 3 true ++ rest →
     ∃ m' q,
       osd_work_queue_alloc fuel 0 m = Ret (brk m) m' ∧
       queue_wf m' (brk m) q [] [] ∧ q_threads q = 0 ∧ supply m' = rest) ∧
  (∃ m', s1_scenario (boot 8) = Ret (0, [1; 4; 9; 16; 25]) m').
Proof.
  split_and!.
  - intros fuel queue q fl cb n base step flags m rest Hwf Hth Hn Hfuel Hsup.
    destruct fuel as [|fuel]; [lia|].
    destruct (submit_inline_ok fuel queue q fl cb n base step flags m rest Hwf Hth Hn
                ltac:(lia) Hsup)
      as (m' & q' & items & Hrun & Hlen & Hnd & Hq' & Hz & Hcfg & Hitems & Hwf' & _).
    exists m', q', items. split; [done|].
    split; [by unfold queue_at; rewrite Hq'|]. split; [done|].
    split; [destruct Hcfg as (-> & _); done|]. split; [done|]. split; [done|].
    split; [|done].
    intros i a Hia. destruct (Hitems i a Hia) as (it & Hit & Hd & Hp & Hr & _).
    exists it. unfold item_at. rewrite Hit. done.
  - intros fuel m rest Hone Hfresh Hsup.
    assert (choose_threads effective_num_processors 0 = 0) as Hthreads.
    { rewrite Hone. unfold choose_threads. simpl (1 =? 1). cbn iota.
      rewrite Z.land_0_l. done. }
    destruct (osd_work_queue_alloc_wf fuel 0 m rest Hfresh) as (m' & Hrun & Hwf & Hs & _).
    { by rewrite Hthreads. }
    exists m', (new_queue (brk m) 0). split; [done|]. split; [done|].
    split; [exact Hthreads|done].
  - eexists. vm_compute. reflexivity.
Qed.

End Claims.

Lemma heap_fresh_boot (n : nat) : heap_fresh (boot n).
Proof. split; [done|]. intros a _. apply lookup_empty. Qed.

Lemma submit_drains_inline_witness :
  let host := example_host 1 None in
  let m := final_state (osd_work_queue_alloc 8 0 (boot 8)) in
  ∃ m' q' items,
    osd_work_item_queue_multiple 8 1 square 5 1 1 0 m = Ret (hd NULL items) m' ∧
    queue_at m' 1 = Some q' ∧ q_items q' = 0 ∧ q_threads q' = 0 ∧
    length items = 5%nat ∧ NoDup items ∧
    (∀ i a, items !! i = Some a →
            ∃ it, item_at m' a = Some it ∧ it_done it = TRUE ∧
                  it_param it = 1 + Z.of_nat i * 1 ∧
                  it_result it = square (it_param it)) ∧
    (0 < 5 → ∃ fl', queue_wf m' 1 q' [] fl').
Proof.
  intros host m.
  destruct (@submit_drains_inline host) as (Hsubmit & Halloc & _).
  destruct (Halloc 8%nat (boot 8) (replicate 5 true)) as (m1 & q & Hrun & Hwf & Hth & Hs);
    [reflexivity|apply heap_fresh_boot|reflexivity|].
  assert (m = m1) as -> by (unfold m; by rewrite Hrun).
  apply (Hsubmit 8%nat 1 q [] square 5 1 1 0 m1 []);
    [exact Hwf|exact Hth|done|simpl; lia|by rewrite Hs].
Defined.

Section Claims2.
Context {host : Platform}.

(** C5.  Given enough memory for the items, a submission of [n] items
    builds [n] distinct items, the [i]-th with the callback, parameter
    [base + i * step], a null result, [done] false and the flags of the
    call, and returns the first of them, or NULL when the flags have
    AUTO_RELEASE (or when [n] is 0).  On a queue with workers the pending
    list after the call is the pending list before it followed by the new
    items in submission order.  On a queue without workers the items are
    initialised and then completed in submission order. *)
Theorem submit_builds_chain (fuel : nat) (queue : Z) (q : osd_work_queue)
    (pl fl : list Z) (cb : Z → Z) (n base step flags : Z) (m : machine)
    (rest : list bool) :
  queue_wf m queue q pl fl → 0 ≤ n ≤ INT32_MAX → (Z.to_nat n < fuel)%nat →
  supply m = replicate (Z.to_nat n - length fl) true ++ rest →
  (q_threads q ≠ 0 → threads_wf m q →
   ∃ m' q' items,
     osd_work_item_queue_multiple fuel queue cb n base step flags m
       = Ret (if auto_release flags then NULL else hd NULL items) m' ∧
     length items = Z.to_nat n ∧ NoDup items ∧ (∀ a, a ∈ items → a ∉ pl) ∧
     queue_at m' queue = Some q' ∧
     chain (heap m') (q_list q') (pl ++ items) ∧
     (∀ i a, items !! i = Some a → submitted (heap m') queue cb base step flags i a)) ∧
  (q_threads q = 0 → pl = [] →
   ∃ m' items,
     osd_work_item_queue_multiple fuel queue cb n base step flags m
       = Ret (if auto_release flags then NULL else hd NULL items) m' ∧
     length items = Z.to_nat n ∧ NoDup items ∧
     (∀ i a, items !! i = Some a →
             ∃ it, item_at m' a = Some it ∧ it_callback it = cb ∧
                   it_param it = base + Z.of_nat i * step ∧ it_flags it = flags) ∧
     trace m' = trace m ++ map (λ a, EvDone a FALSE) items ++ [EvItems queue n] ++
                completions queue m' items ++
                (if q_waiting q =? 0 then [] else [EvEventSet (q_doneevent q)])).
Proof.
  intros Hwf Hn Hfuel Hsup. destruct fuel as [|fuel]; [lia|]. split.
  - intros Hth Hthreads.
    destruct (submit_threads_ok fuel queue q pl fl cb n base step flags m rest Hwf Hthreads
                Hth ltac:(lia) Hsup)
      as (m' & q' & items & Hrun & Hlen & Hnd & Hnew & Hq' & Hchain & _ & Hsub & _).
    exists m', q', items. split_and!; try done. unfold queue_at. by rewrite Hq'.
  - intros Hth ->.
    destruct (submit_inline_ok fuel queue q fl cb n base step flags m rest Hwf Hth Hn
                ltac:(lia) Hsup)
      as (m' & q' & items & Hrun & Hlen & Hnd & Hq' & Hz & Hcfg & Hitems & _ & _ & _ & Htr).
    exists m', items. split_and!; try done.
    intros i a Hia. destruct (Hitems i a Hia) as (it & Hit & _ & Hp & _ & Hc & Hf & _).
    exists it. unfold item_at. by rewrite Hit.
Qed.

End Claims2.

Lemma submit_builds_chain_witness :
  let host := example_host 4 None in
  let m := final_state (osd_work_queue_alloc 8 2 (boot 12)) in
  ∃ m' q' items,
    osd_work_item_queue_multiple 8 1 square 3 1 1 0 m = Ret (hd NULL items) m' ∧
    length items = 3%nat ∧ NoDup items ∧ (∀ a, a ∈ items → a ∉ []) ∧
    queue_at m' 1 = Some q' ∧
    chain (heap m') (q_list q') ([] ++ items) ∧
    (∀ i a, items !! i = Some a → submitted (heap m') 1 square 1 1 0 i a).
Proof.
  intros host m.
  destruct (@osd_work_queue_alloc_wf host 8 2 (boot 12) (replicate 3 true))
    as (m1 & Hrun & Hwf & Hs & _); [apply heap_fresh_boot|reflexivity|].
  assert (m = m1) as Hm by (unfold m; by rewrite Hrun).
  rewrite <- Hm in Hwf, Hs.
  destruct (@submit_builds_chain host 8 1 (new_queue 1 2) [] [] square 3 1 1 0 m [])
    as [Hworkers _]; [exact Hwf|unfold INT32_MAX; lia|simpl; lia|by rewrite Hs|].
  apply Hworkers; [done|].
  eexists. split; [vm_compute; reflexivity|]. split; [vm_compute; lia|].
  intros i th Hi Hlt. vm_compute in Hlt.
  destruct i as [|[|[|i]]]; [| | |lia]; simpl in Hi; injection Hi as <-;
    eexists; vm_compute; reflexivity.
Defined.
Section QueueWait.
Context {host : Platform}.

Lemma completion_effects_no_wait (queue item : Z) (it : osd_work_item) :
  Forall (λ e, is_wait e = false) (completion_effects queue item it).
Proof.
  unfold completion_effects. apply Forall_app. split.
  - repeat (apply Forall_cons_2; [done|]). apply Forall_nil_2.
  - repeat case_match; [apply Forall_nil_2|apply Forall_nil_2|].
    apply Forall_cons_2; [done|apply Forall_nil_2].
Qed.

Lemma worker_thread_process_no_wait (fuel : nat) (queue : Z) (thread : Z * Z)
    (m m' : machine) :
  worker_thread_process fuel queue thread m = Ret tt m' →
  ∃ added, trace m' = trace m ++ added ∧ Forall (λ e, is_wait e = false) added.
Proof.
  intros Hrun.
  apply worker_thread_process_trace in Hrun as (completed & final & Htr & Hfinal).
  eexists. split; [exact Htr|]. clear Htr. apply Forall_app. split.
  - induction completed as [|[a it] completed IH]; [apply Forall_nil_2|].
    change (flat_map _ ((a, it) :: completed))
      with (completion_effects queue a it ++
            flat_map (λ p, completion_effects queue p.1 p.2) completed).
    apply Forall_app. split; [apply completion_effects_no_wait|exact IH].
  - destruct Hfinal as [->|[e ->]]; [apply Forall_nil_2|].
    apply Forall_cons_2; [done|apply Forall_nil_2].
Qed.

Lemma osd_event_reset_ok (e : Z) (ev : osd_event) (m : machine) :
  heap m !! e = Some (OEvent ev) →
  osd_event_reset e m =
    Ret tt {| heap := <[e := OEvent (mkEvent (ev_manualreset ev) FALSE)]> (heap m);
              brk := brk m; supply := supply m; clock := clock m;
              trace := trace m ++ [EvEventReset e] |}.
Proof.
  intros He. unfold osd_event_reset.
  erewrite bind_ret_l; [|by eapply modify_event_ok]. done.
Qed.

(** A wait on an event that is not signalled, when the other threads
    leave the event allocated. *)
Lemma osd_event_wait_ok (e timeout : Z) (ev : osd_event) (m : machine) :
  heap m !! e = Some (OEvent ev) → ev_signalled ev = 0 →
  (∀ h ev0, h !! e = Some (OEvent ev0) → ∃ ev1, others h !! e = Some (OEvent ev1)) →
  ∃ r ev1 ev2,
    others (heap m) !! e = Some (OEvent ev1) ∧
    osd_event_wait e timeout m =
      Ret r {| heap := <[e := OEvent ev2]> (others (heap m));
               brk := brk m; supply := supply m; clock := clock m;
               trace := trace m ++ [EvEventWait e timeout] |}.
Proof.
  intros He Hsig Hoth. destruct (Hoth _ _ He) as [ev1 Hev1].
  unfold osd_event_wait.
  rewrite (bind_ret_l _ _ _ _ _ (load_event_ok _ _ _ He)).
  unfold emit at 1. unfold bind at 1. rewrite Hsig. simpl (0 =? 0). cbn iota.
  unfold interfere at 1. unfold bind at 1. norm.
  erewrite bind_ret_l; [|by eapply load_event_ok].
  destruct (ev_signalled ev1 =? 0).
  - exists FALSE, ev1, ev1. split; [done|]. unfold ret. by rewrite insert_id.
  - destruct (ev_manualreset ev1 =? 0).
    + erewrite bind_ret_l; [|by eapply modify_event_ok]. norm.
      eexists TRUE, ev1, _. split; [done|]. reflexivity.
    + exists TRUE, ev1, ev1. split; [done|]. unfold ret, bind. by rewrite insert_id.
Qed.

(** The wait for the done event when the items are still pending at the
    second read. *)
Lemma wait_for_done_blocks (queue timeout : Z) (m : machine) (q : osd_work_queue) :
  heap m !! queue = Some (OQueue q) → q_items q ≠ 0 →
  is_event (heap m) (q_doneevent q) →
  (∀ h q0, h !! queue = Some (OQueue q0) → ∃ q1, others h !! queue = Some (OQueue q1)) →
  (∀ h ev0, h !! q_doneevent q = Some (OEvent ev0) →
            ∃ ev1, others h !! q_doneevent q = Some (OEvent ev1)) →
  ∃ m' q',
    wait_for_done queue timeout m = Ret (b2z (q_items q' =? 0)) m' ∧
    queue_at m' queue = Some q' ∧ q_waiting q' = FALSE ∧
    trace m' = trace m ++ [EvEventReset (q_doneevent q); EvWaiting queue TRUE;
                           EvEventWait (q_doneevent q) timeout; EvWaiting queue FALSE].
Proof.
  intros Hq Hit [ev Hev] Hothq Hothe.
  assert (q_doneevent q ≠ queue) as Hne by ne_kind.
  unfold wait_for_done.
  rewrite (bind_ret_l _ _ _ _ _ (load_queue_ok _ _ _ Hq)).
  rewrite (bind_ret_l _ _ _ _ _ (osd_event_reset_ok _ _ _ Hev)).
  unfold store_waiting. rewrite !bind_bind.
  erewrite bind_ret_l; [|eapply modify_queue_ok; norm; by rewrite lookup_insert_ne].
  norm. unfold emit at 1. unfold bind at 1. norm.
  erewrite bind_ret_l; [|eapply load_queue_ok; norm; apply lookup_insert_eq].
  cbn [q_items set_q_waiting q_doneevent].
  destruct (Z.eqb_spec (q_items q) 0); [done|]. rewrite !bind_bind.
  match goal with |- context [bind (osd_event_wait _ _) _ ?m0] =>
    destruct (osd_event_wait_ok (q_doneevent q) timeout
                (mkEvent (ev_manualreset ev) FALSE) m0)
      as (r & ev1 & ev2 & Hev1 & Hwait)
  end; norm.
  { rewrite lookup_insert_ne by done. apply lookup_insert_eq. }
  { done. }
  { done. }
  rewrite (bind_ret_l _ _ _ _ _ Hwait). unfold ret at 1. unfold bind at 1.
  edestruct (Hothq (<[queue:=OQueue (set_q_waiting (to_u8 TRUE) q)]>
                      (<[q_doneevent q:=OEvent (mkEvent (ev_manualreset ev) FALSE)]>
                         (heap m)))) as [q1 Hq1]; [apply lookup_insert_eq|].
  rewrite !bind_bind.
  erewrite bind_ret_l; [|eapply modify_queue_ok; norm;
                         rewrite lookup_insert_ne by done; exact Hq1].
  norm. unfold emit at 1. unfold bind at 1. norm.
  erewrite bind_ret_l; [|eapply load_queue_ok; norm; apply lookup_insert_eq].
  unfold ret. eexists _, _. split; [reflexivity|].
  split; [unfold queue_at; norm; by rewrite lookup_insert_eq|].
  split; [done|]. norm. by rewrite <- !app_assoc.
Qed.

(** The wait for the done event when the second read of the items gives
    0: no wait. *)
Lemma wait_for_done_skips (queue timeout : Z) (m : machine) (q : osd_work_queue) :
  heap m !! queue = Some (OQueue q) → q_items q = 0 →
  is_event (heap m) (q_doneevent q) →
  ∃ m',
    wait_for_done queue timeout m = Ret TRUE m' ∧
    queue_at m' queue = Some (set_q_waiting FALSE q) ∧
    trace m' = trace m ++ [EvEventReset (q_doneevent q); EvWaiting queue TRUE;
                           EvWaiting queue FALSE] ∧
    clock m' = clock m.
Proof.
  intros Hq Hit [ev Hev].
  assert (q_doneevent q ≠ queue) as Hne by ne_kind.
  unfold wait_for_done.
  rewrite (bind_ret_l _ _ _ _ _ (load_queue_ok _ _ _ Hq)).
  rewrite (bind_ret_l _ _ _ _ _ (osd_event_reset_ok _ _ _ Hev)).
  unfold store_waiting. rewrite !bind_bind.
  erewrite bind_ret_l; [|eapply modify_queue_ok; norm; by rewrite lookup_insert_ne].
  norm. unfold emit at 1. unfold bind at 1. norm.
  erewrite bind_ret_l; [|eapply load_queue_ok; norm; apply lookup_insert_eq].
  cbn [q_items set_q_waiting q_doneevent]. rewrite Hit. cbn [Z.eqb].
  unfold ret at 1. unfold bind at 1. rewrite !bind_bind.
  erewrite bind_ret_l; [|eapply modify_queue_ok; norm; apply lookup_insert_eq].
  norm. unfold emit at 1. unfold bind at 1. norm.
  erewrite bind_ret_l; [|eapply load_queue_ok; norm; apply lookup_insert_eq].
  cbn [q_items set_q_waiting]. rewrite Hit. cbn [Z.eqb b2z].
  unfold ret. eexists. split; [reflexivity|]. norm.
  split; [unfold queue_at; norm; rewrite lookup_insert_eq; by destruct q|].
  split; [by rewrite <- !app_assoc|done].
Qed.

(** C6.  [osd_work_queue_wait] returns TRUE at once when the queue has no
    workers or no items.  On a MULTI queue with pending items it runs
    [worker_thread_process] on the calling thread and returns TRUE, without
    waiting on any event; on a well-formed queue it does return, with the
    queue drained.  Otherwise it goes on with [wait_for_done]: it resets
    the done event, sets [waiting], reads [items] again, waits on the done
    event for [timeout] if they are not 0, clears [waiting], and returns
    whether [items] is 0.  When the second read of [items] gives 0,
    [wait_for_done] does not wait. *)
Theorem queue_wait_behaviour (fuel : nat) (queue timeout : Z) (m : machine)
    (q : osd_work_queue) :
  heap m !! queue = Some (OQueue q) →
  (q_threads q = 0 ∨ q_items q = 0 →
   osd_work_queue_wait fuel queue timeout m = Ret TRUE m) ∧
  (q_threads q ≠ 0 → q_items q ≠ 0 → multi_queue (q_flags q) = true →
   osd_work_queue_wait fuel queue timeout m =
     (_ <- worker_thread_process fuel queue (q_thread q, q_threads q); ret TRUE) m ∧
   (∀ r m', osd_work_queue_wait fuel queue timeout m = Ret r m' →
            r = TRUE ∧
            ∃ added, trace m' = trace m ++ added ∧ Forall (λ e, is_wait e = false) added) ∧
   (∀ pl fl, queue_wf m queue q pl fl → (length pl < fuel)%nat →
             ∃ m' q', osd_work_queue_wait fuel queue timeout m = Ret TRUE m' ∧
                      queue_at m' queue = Some q' ∧ q_items q' = 0)) ∧
  (q_threads q ≠ 0 → q_items q ≠ 0 → multi_queue (q_flags q) = false →
   osd_work_queue_wait fuel queue timeout m = wait_for_done queue timeout m ∧
   (is_event (heap m) (q_doneevent q) →
    (∀ h q0, h !! queue = Some (OQueue q0) → ∃ q1, others h !! queue = Some (OQueue q1)) →
    (∀ h ev0, h !! q_doneevent q = Some (OEvent ev0) →
              ∃ ev1, others h !! q_doneevent q = Some (OEvent ev1)) →
    ∃ m' q',
      osd_work_queue_wait fuel queue timeout m = Ret (b2z (q_items q' =? 0)) m' ∧
      queue_at m' queue = Some q' ∧ q_waiting q' = FALSE ∧
      trace m' = trace m ++ [EvEventReset (q_doneevent q); EvWaiting queue TRUE;
                             EvEventWait (q_doneevent q) timeout; EvWaiting queue FALSE])) ∧
  (q_items q = 0 → is_event (heap m) (q_doneevent q) →
   ∃ m',
     wait_for_done queue timeout m = Ret TRUE m' ∧
     queue_at m' queue = Some (set_q_waiting FALSE q) ∧
     trace m' = trace m ++ [EvEventReset (q_doneevent q); EvWaiting queue TRUE;
                            EvWaiting queue FALSE] ∧
     clock m' = clock m).
Proof.
  intros Hq. split_and!.
  - intros Hz. unfold osd_work_queue_wait.
    rewrite (bind_ret_l _ _ _ _ _ (load_queue_ok _ _ _ Hq)).
    destruct (Z.eqb_spec (q_threads q) 0); [done|].
    destruct (Z.eqb_spec (q_items q) 0); [done|]. by destruct Hz.
  - intros Hth Hit Hmulti.
    assert (osd_work_queue_wait fuel queue timeout m =
            (_ <- worker_thread_process fuel queue (q_thread q, q_threads q); ret TRUE) m)
      as Heq.
    { unfold osd_work_queue_wait.
      rewrite (bind_ret_l _ _ _ _ _ (load_queue_ok _ _ _ Hq)).
      destruct (Z.eqb_spec (q_threads q) 0); [done|].
      destruct (Z.eqb_spec (q_items q) 0); [done|].
      unfold multi_queue in Hmulti. by rewrite Hmulti. }
    split; [done|]. split.
    + intros r m' Hrun. rewrite Heq in Hrun.
      apply bind_inv in Hrun as ([] & m1 & Hw & Hret).
      apply ret_inv in Hret as [-> ->]. split; [done|].
      by eapply worker_thread_process_no_wait.
    + intros pl fl Hwf Hfuel. rewrite Heq.
      destruct (worker_thread_process_ok fuel queue (q_thread q, q_threads q) m q pl fl
                  Hwf Hfuel)
        as (m' & q' & fl' & Hrun & Hwf' & _).
      exists m', q'. rewrite (bind_ret_l _ _ _ _ _ Hrun). split; [done|].
      unfold queue_at. rewrite (wf_queue _ _ _ _ _ Hwf'). split; [done|].
      apply (wf_items _ _ _ _ _ Hwf').
  - intros Hth Hit Hmulti.
    assert (osd_work_queue_wait fuel queue timeout m = wait_for_done queue timeout m)
      as Heq.
    { unfold osd_work_queue_wait.
      rewrite (bind_ret_l _ _ _ _ _ (load_queue_ok _ _ _ Hq)).
      destruct (Z.eqb_spec (q_threads q) 0); [done|].
      destruct (Z.eqb_spec (q_items q) 0); [done|].
      unfold multi_queue in Hmulti. by rewrite Hmulti. }
    split; [done|]. intros Hev Hothq Hothe. rewrite Heq.
    by apply wait_for_done_blocks.
  - intros Hit Hev. by apply (wait_for_done_skips queue timeout m q).
Qed.

End QueueWait.

Lemma queue_wait_behaviour_witness :
  let host := example_host 4 None in
  let m := final_state (pending_scenario 0 0 (boot 8)) in
  ∃ m' q',
    osd_work_queue_wait 8 1 50 m = Ret (b2z (q_items q' =? 0)) m' ∧
    queue_at m' 1 = Some q' ∧ q_waiting q' = FALSE ∧
    trace m' = trace m ++ [EvEventReset 2; EvWaiting 1 TRUE; EvEventWait 2 50;
                           EvWaiting 1 FALSE].
Proof.
  intros host m.
  destruct (queue_at m 1) as [q|] eqn:Hq; [|by vm_compute in Hq].
  assert (heap m !! 1 = Some (OQueue q)) as Hq'.
  { unfold queue_at in Hq. destruct (heap m !! 1) as [[]|]; try discriminate Hq.
    by injection Hq as <-. }
  vm_compute in Hq. injection Hq as <-.
  destruct (@queue_wait_behaviour host 8 1 50 m _ Hq') as (_ & _ & Hblock & _).
  destruct Hblock as [_ Hblock]; [done|done|reflexivity|].
  apply Hblock.
  - eexists. vm_compute. reflexivity.
  - intros h q0 Hh. by exists q0.
  - intros h ev0 Hh. by exists ev0.
Defined.

(** * The rest of the file *)

Section WorkerExit.
Context {host : Platform}.

(** X1.  A worker thread leaves [worker_thread_entry] only through the
    test of [exiting]: whenever it returns, it returns NULL and the queue
    of its thread record has [exiting] set.  A worker that finds [exiting]
    set when it starts returns at once and leaves everything as it is, the
    pending items included. *)
Theorem worker_thread_entry_exits (fuel : nat) (param : Z * Z) (m : machine)
    (th : mame_thread_info) :
  thread_at m param = Some th →
  (∀ r m', worker_thread_entry fuel param m = Ret r m' →
           r = NULL ∧ ∃ q, queue_at m' (th_queue th) = Some q ∧ q_exiting q ≠ 0) ∧
  (∀ q, queue_at m (th_queue th) = Some q → q_exiting q ≠ 0 → (0 < fuel)%nat →
        worker_thread_entry fuel param m = Ret NULL m).
Proof.
  intros Hth. destruct param as [t i]. unfold thread_at in Hth. cbn [fst snd] in Hth.
  destruct (heap m !! t) as [[| |arr| |]|] eqn:Harr; try done.
  destruct (Z.leb_spec 0 i) as [Hi|]; [|done].
  assert (load_thread (t, i) m = Ret th m) as Hload by by apply load_thread_ok with arr.
  split.
  - intros r m' Hrun. unfold worker_thread_entry in Hrun.
    rewrite (bind_ret_l _ _ _ _ _ Hload) in Hrun.
    apply loop_inv_last in Hrun as ([] & m1 & Hround).
    unfold worker_round in Hround.
    apply bind_inv in Hround as (q0 & m2 & _ & Hround).
    apply bind_inv in Hround as (u & m3 & _ & Hround).
    apply bind_inv in Hround as (q & m4 & Hq & Hround).
    apply load_queue_inv in Hq as [-> Hq].
    destruct (Z.eqb_spec (q_exiting q) 0) as [Hz|Hnz]; cbn [negb] in Hround.
    + do 5 (apply bind_inv in Hround as (? & ? & _ & Hround)). done.
    + apply ret_inv in Hround as [Hr ->]. split; [congruence|].
      exists q. unfold queue_at. by rewrite Hq.
  - intros q Hq Hex Hfuel. destruct fuel as [|fuel]; [lia|].
    unfold queue_at in Hq. destruct (heap m !! th_queue th) as [[q1| | | |]|] eqn:Hq1; try done.
    simplify_eq.
    unfold worker_thread_entry. rewrite (bind_ret_l _ _ _ _ _ Hload).
    cbn [loop]. unfold worker_round at 1. rewrite !bind_bind.
    rewrite (bind_ret_l _ _ _ _ _ (load_queue_ok _ _ _ Hq1)).
    destruct (Z.eqb_spec (q_exiting q) 0) as [|_]; [done|]. cbn [andb].
    rewrite !bind_bind. unfold ret at 1. unfold bind at 1. rewrite !bind_bind.
    rewrite (bind_ret_l _ _ _ _ _ (load_queue_ok _ _ _ Hq1)).
    destruct (Z.eqb_spec (q_exiting q) 0) as [|_]; [done|]. cbn [negb]. done.
Qed.

End WorkerExit.

Lemma worker_thread_entry_exits_witness :
  let host := example_host 2 None in
  let m := final_state (exiting_scenario (boot 8)) in
  (∃ q, queue_at m 1 = Some q ∧ q_items q = 2) ∧
  worker_thread_entry 4 (3, 0) m = Ret NULL m.
Proof.
  intros host m. split; [eexists; split; vm_compute; reflexivity|].
  assert (thread_at m (3, 0) = Some (mkThread 1 5 4 0)) as Hth by (vm_compute; reflexivity).
  destruct (@worker_thread_entry_exits host 4 (3, 0) m _ Hth) as [_ Hexit].
  eapply Hexit; [vm_compute; reflexivity|done|lia].
Defined.

Lemma keeps_threads_preorder (t : Z) : PreOrder (keeps_threads t).
Proof.
  split.
  - intros m. split; [lia|done].
  - intros m1 m2 m3 [Hb1 H1] [Hb2 H2]. split; [lia|].
    intros arr Ht Harr. apply H2; [lia|]. by apply H1.
Qed.

Global Existing Instance keeps_threads_preorder.

Lemma keeps_threads_load_queue (t p : Z) : preserves (keeps_threads t) (load_queue p).
Proof. intros m q m' Hr. apply load_queue_inv in Hr as [-> _]. reflexivity. Qed.

Lemma keeps_threads_load_item (t p : Z) : preserves (keeps_threads t) (load_item p).
Proof. intros m q m' Hr. apply load_item_inv in Hr as [-> _]. reflexivity. Qed.

Lemma keeps_threads_load_event (t p : Z) : preserves (keeps_threads t) (load_event p).
Proof. intros m q m' Hr. apply load_event_inv in Hr as [-> _]. reflexivity. Qed.

Lemma keeps_threads_modify_queue (t p : Z) (f : osd_work_queue → osd_work_queue) :
  preserves (keeps_threads t) (modify_queue p f).
Proof.
  intros m u m' Hr. apply modify_queue_inv in Hr as (q & Hq & ->).
  split; [done|]. intros arr _ Harr. norm. rewrite lookup_insert_ne; [done|].
  intros ->. congruence.
Qed.

Lemma keeps_threads_modify_item (t p : Z) (f : osd_work_item → osd_work_item) :
  preserves (keeps_threads t) (modify_item p f).
Proof.
  intros m u m' Hr. apply modify_item_inv in Hr as (q & Hq & ->).
  split; [done|]. intros arr _ Harr. norm. rewrite lookup_insert_ne; [done|].
  intros ->. congruence.
Qed.

Lemma keeps_threads_modify_event (t p : Z) (f : osd_event → osd_event) :
  preserves (keeps_threads t) (modify_event p f).
Proof.
  intros m u m' Hr. apply modify_event_inv in Hr as (q & Hq & ->).
  split; [done|]. intros arr _ Harr. norm. rewrite lookup_insert_ne; [done|].
  intros ->. congruence.
Qed.

Lemma keeps_threads_alloc (t : Z) (o : object) : preserves (keeps_threads t) (alloc o).
Proof.
  intros m a m' Hr. unfold alloc in Hr.
  destruct (supply m) as [|[] ?]; simplify_eq; [reflexivity| |by split].
  split; [cbn; lia|]. intros arr Ht Harr. cbn. rewrite lookup_insert_ne; [done|lia].
Qed.

Lemma keeps_threads_emit (t : Z) (e : effect) : preserves (keeps_threads t) (emit e).
Proof. intros m u m' Hr. apply emit_inv in Hr as ->. by split. Qed.

Lemma keeps_threads_osd_ticks {host : Platform} (t : Z) :
  preserves (keeps_threads t) osd_ticks.
Proof. intros m q m' Hr. unfold osd_ticks in Hr. simplify_eq. reflexivity. Qed.

Global Hint Resolve keeps_threads_load_queue keeps_threads_load_item keeps_threads_load_event
  keeps_threads_modify_queue keeps_threads_modify_item keeps_threads_modify_event
  keeps_threads_alloc keeps_threads_emit keeps_threads_osd_ticks : pres.

Section KeepsThreads.
Context {host : Platform}.
Variable t : Z.
Hypothesis others_keep : ∀ h, others h !! t = h !! t.

Lemma keeps_threads_interfere : preserves (keeps_threads t) interfere.
Proof.
  intros m u m' Hr. unfold interfere in Hr. simplify_eq. split; [done|].
  intros arr _ Harr. norm. by rewrite others_keep.
Qed.

Hint Resolve keeps_threads_interfere : pres.

Lemma keeps_threads_yield : preserves (keeps_threads t) osd_yield_processor.
Proof.
  unfold osd_yield_processor. apply preserves_bind; [typeclasses eauto|eauto with pres|].
  intros _ m q m' Hr. simplify_eq. by split.
Qed.

Hint Resolve keeps_threads_yield : pres.

Lemma keeps_threads_process (fuel : nat) (queue : Z) (thread : Z * Z) :
  preserves (keeps_threads t) (worker_thread_process fuel queue thread).
Proof.
  unfold worker_thread_process, drain_round, scalable_lock_acquire, pull_item,
    scalable_lock_release, complete_item, store_result, sync_add_items, store_done,
    osd_work_item_release, osd_work_item_wait, osd_event_alloc, osd_event_reset,
    osd_event_wait, osd_event_set, compare_exchange_free.
  pres.
Qed.

End KeepsThreads.

Lemma iter_others_keep {host : Platform} (a : Z) (n : nat) (h : gmap Z object) :
  (∀ h, others h !! a = h !! a) → Nat.iter n others h !! a = h !! a.
Proof.
  intros Hk. induction n as [|n IH]; [done|]. by rewrite Nat.iter_succ, Hk.
Qed.

Lemma wrap32_inc_dec (z : Z) : wrap32 (wrap32 (z + 1) + -1) = wrap32 z.
Proof.
  unfold wrap32. f_equal.
  replace (z + 1 + 2 ^ 31) with (z + 2 ^ 31 + 1) by lia.
  replace ((z + 2 ^ 31 + 1) mod 2 ^ 32 - 2 ^ 31 + -1 + 2 ^ 31)
    with ((z + 2 ^ 31 + 1) mod 2 ^ 32 - 1) by lia.
  rewrite <- Zminus_mod_idemp_l. rewrite Z.mod_mod by lia.
  rewrite Zminus_mod_idemp_l. f_equal. lia.
Qed.

Section WorkerRound.
Context {host : Platform}.

Lemma spin_loop_ok (queue : Z) (q : osd_work_queue) (stopspin : Z) (n : nat) :
  q_items q = 0 →
  (∀ h, others h !! queue = h !! queue) →
  ∀ (fuel : nat) (m : machine),
    heap m !! queue = Some (OQueue q) →
    n = Z.to_nat (stopspin - clock m) → (n < fuel)%nat →
    ∃ m',
      loop fuel (λ _ : unit,
        q <- load_queue queue;
        if q_items q =? 0
        then
          now <- osd_ticks;
          if now <? stopspin
          then _ <- osd_yield_processor; ret (inl tt)
          else ret (inr tt)
        else ret (inr tt)) tt m = Ret tt m' ∧
      heap m' = Nat.iter n others (heap m) ∧
      clock m' = clock m + Z.of_nat n ∧ trace m' = trace m ∧
      brk m' = brk m ∧ supply m' = supply m.
Proof.
  intros Hz Hk. induction n as [|n IH]; intros fuel m Hq Hn Hfuel;
    (destruct fuel as [|fuel]; [lia|]); cbn [loop]; rewrite ?bind_bind;
    rewrite (bind_ret_l _ _ _ _ _ (load_queue_ok _ _ _ Hq)); rewrite Hz; cbn [Z.eqb];
    rewrite ?bind_bind; unfold osd_ticks at 1; unfold bind at 1.
  - destruct (Z.ltb_spec (clock m) stopspin); [lia|].
    unfold ret, bind. exists m. split_and!; [done|done|lia|done|done|done].
  - destruct (Z.ltb_spec (clock m) stopspin); [|lia].
    rewrite ?bind_bind. unfold osd_yield_processor. rewrite ?bind_bind.
    unfold interfere at 1. unfold bind at 1. unfold bind at 1. unfold ret at 1.
    unfold bind at 1. norm.
    match goal with |- context [loop fuel _ tt ?m0] =>
      destruct (IH fuel m0) as (m' & Hrun & Hh & Hc & Ht & Hb & Hs)
    end; norm.
    { by rewrite Hk. }
    { lia. }
    { lia. }
    exists m'. split; [exact Hrun|]. norm in Hh. norm in Hc. norm in Ht.
    norm in Hb. norm in Hs.
    split; [by rewrite Hh, Nat.iter_succ_r|]. split_and!; [lia|done|done|done].
Qed.

Lemma spin_for_work_ok (fuel : nat) (queue : Z) (q : osd_work_queue) (m : machine) :
  q_items q = 0 →
  (∀ h, others h !! queue = h !! queue) →
  heap m !! queue = Some (OQueue q) →
  (Z.to_nat SPIN_LOOP_TIME < fuel)%nat →
  ∃ m',
    spin_for_work fuel queue m = Ret tt m' ∧
    heap m' = Nat.iter (Z.to_nat SPIN_LOOP_TIME) others (heap m) ∧
    clock m' = clock m + Z.max 0 SPIN_LOOP_TIME ∧ trace m' = trace m ∧
    brk m' = brk m ∧ supply m' = supply m.
Proof.
  intros Hz Hk Hq Hfuel. unfold spin_for_work. unfold osd_ticks at 1. unfold bind at 1.
  destruct (spin_loop_ok queue q (clock m + SPIN_LOOP_TIME) (Z.to_nat SPIN_LOOP_TIME)
              Hz Hk fuel m Hq) as (m' & Hrun & Hh & Hc & Ht & Hb & Hs);
    [f_equal; lia|done|].
  exists m'. split_and!; [done|done|lia|done|done|done].
Qed.

(** X2.  One round of a worker that finds pending items on a well-formed
    queue that is not exiting, while the other threads leave the queue and
    the thread array alone: it does not wait, completes every pending item
    in list order, spins for SPIN_LOOP_TIME ticks, and goes round again
    with the queue empty, [livethreads] as before and its [active] flag
    cleared. *)
Theorem worker_round_drains (fuel : nat) (queue t i : Z) (q : osd_work_queue)
    (pl fl : list Z) (arr : list mame_thread_info) (th : mame_thread_info) (m : machine) :
  queue_wf m queue q pl fl → pl ≠ [] → q_exiting q = 0 →
  - 2 ^ 31 ≤ q_livethreads q ≤ INT32_MAX →
  heap m !! t = Some (OThreads arr) → arr !! Z.to_nat i = Some th → 0 ≤ i →
  (∀ h, others h !! queue = h !! queue) → (∀ h, others h !! t = h !! t) →
  (length pl < fuel)%nat → (Z.to_nat SPIN_LOOP_TIME < fuel)%nat →
  ∃ m' q',
    worker_round fuel queue (t, i) tt m = Ret (inl tt) m' ∧
    queue_at m' queue = Some q' ∧
    q_items q' = 0 ∧ q_list q' = NULL ∧ q_livethreads q' = q_livethreads q ∧
    thread_at m' (t, i) = Some (set_th_active FALSE th) ∧
    trace m' = trace m ++ completions queue m pl ++
               (if q_waiting q =? 0 then [] else [EvEventSet (q_doneevent q)]) ∧
    clock m' = clock m + Z.max 0 SPIN_LOOP_TIME.
Proof.
  intros Hwf Hpl Hex Hlive Harr Hth Hi Hkq Hkt Hfuel Hspin.
  pose proof (wf_queue _ _ _ _ _ Hwf) as Hq.
  assert (q_items q ≠ 0) as Hitems.
  { rewrite (wf_items _ _ _ _ _ Hwf). destruct pl; [done|]. cbn [length]. lia. }
  assert (t ≠ queue) as Htq by ne_kind.
  assert (t < brk m) as Htb.
  { destruct (wf_fresh _ _ _ _ _ Hwf) as [_ Hfr].
    destruct (Z.lt_ge_cases t (brk m)) as [|Hge]; [done|].
    rewrite (Hfr t) in Harr by lia. done. }
  unfold worker_round. rewrite ?bind_bind.
  rewrite (bind_ret_l _ _ _ _ _ (load_queue_ok _ _ _ Hq)).
  rewrite Hex. destruct (Z.eqb_spec (q_items q) 0) as [|_]; [done|]. cbn [Z.eqb andb negb].
  rewrite ?bind_bind. unfold ret at 1. unfold bind at 1. rewrite ?bind_bind.
  rewrite (bind_ret_l _ _ _ _ _ (load_queue_ok _ _ _ Hq)).
  rewrite Hex. cbn [Z.eqb negb]. rewrite ?bind_bind.
  erewrite bind_ret_l; [|by eapply modify_thread_ok]. norm.
  unfold increment_livethreads, osd_interlocked_increment, osd_sync_add. rewrite ?bind_bind.
  erewrite bind_ret_l; [|eapply load_queue_ok; norm; by rewrite lookup_insert_ne].
  rewrite ?bind_bind.
  erewrite bind_ret_l; [|eapply modify_queue_ok; norm; by rewrite lookup_insert_ne].
  norm. unfold ret at 1. unfold bind at 1.
  set (arr1 := <[Z.to_nat i := set_th_active (to_u8 TRUE) th]> arr).
  set (q2 := set_q_livethreads (wrap32 (q_livethreads q + 1)) q).
  match goal with |- context [bind (process_until_idle _ _ _) _ ?m0] => set (m2 := m0) end.
  (* the queue is as well-formed as before *)
  assert (queue_wf m2 queue q2 pl fl) as Hwf2.
  { destruct Hwf as [_ Hlock Hpend Htail Hfree Hnd Hit Hbound Hown Hfresh Hdone].
    assert (∀ x, x ∈ pl ++ fl → heap m2 !! x = heap m !! x) as Hag.
    { intros x Hx. unfold m2. norm.
      assert (∃ it, heap m !! x = Some (OItem it)) as [it Hit'].
      { apply elem_of_app in Hx as [Hx|Hx].
        - destruct (seg_elem _ _ _ _ _ Hpend Hx) as [_ ?]. done.
        - destruct (seg_elem _ _ _ _ _ Hfree Hx) as [_ ?]. done. }
      rewrite !lookup_insert_ne; [done| |]; intros ->; congruence. }
    assert (∀ e, is_event (heap m) e → is_event (heap m2) e) as Hevs.
    { intros e [ev He]. exists ev. unfold m2. norm.
      rewrite !lookup_insert_ne; [done| |]; intros ->; congruence. }
    split; try done.
    - unfold m2. norm. apply lookup_insert_eq.
    - eapply seg_agree; [exact Hpend|]. intros b Hb. apply Hag, elem_of_app. by left.
    - eapply seg_agree; [exact Hfree|]. intros b Hb. apply Hag, elem_of_app. by right.
    - intros b itb Hb Hbit. rewrite Hag in Hbit by done.
      destruct (Hown b itb Hb Hbit) as [? [?|?]]; eauto.
    - destruct Hfresh as [Hpos Hfr]. split; [exact Hpos|]. intros b Hb. unfold m2. norm.
      unfold m2 in Hb. norm in Hb.
      assert (queue ≠ b) by (intros ->; rewrite Hfr in Hq by done; done).
      assert (t ≠ b) by lia.
      rewrite !lookup_insert_ne by done. by apply Hfr.
    - by apply Hevs. }
  destruct (worker_thread_process_ok fuel queue (t, i) m2 q2 pl fl Hwf2 Hfuel)
    as (m3 & q3 & fl3 & Hrun3 & Hwf3 & _ & Htouch & Htr3 & Hclk3 & Hcfg).
  assert (heap m3 !! t = Some (OThreads arr1)) as Harr3.
  { destruct (keeps_threads_process t Hkt fuel queue (t, i) m2 tt m3 Hrun3) as [_ Hkeep].
    apply Hkeep; [done|]. unfold m2. norm. rewrite lookup_insert_ne by done.
    apply lookup_insert_eq. }
  pose proof (wf_queue _ _ _ _ _ Hwf3) as Hq3.
  pose proof (wf_items _ _ _ _ _ Hwf3) as Hz3. change (Z.of_nat (length [])) with 0 in Hz3.
  destruct (spin_for_work_ok fuel queue q3 m3 Hz3 Hkq Hq3 Hspin)
    as (m4 & Hrun4 & Hh4 & Hclk4 & Htr4 & _ & _).
  assert (heap m4 !! queue = Some (OQueue q3)) as Hq4.
  { rewrite Hh4. by rewrite iter_others_keep. }
  assert (heap m4 !! t = Some (OThreads arr1)) as Harr4.
  { rewrite Hh4. by rewrite iter_others_keep. }
  unfold process_until_idle. destruct fuel as [|fuel']; [lia|]. cbn [loop].
  rewrite ?bind_bind. rewrite (bind_ret_l _ _ _ _ _ Hrun3). rewrite ?bind_bind.
  rewrite (bind_ret_l _ _ _ _ _ Hrun4). rewrite ?bind_bind.
  rewrite (bind_ret_l _ _ _ _ _ (load_queue_ok _ _ _ Hq4)).
  rewrite Hz3. cbn [Z.eqb]. unfold ret at 1. unfold bind at 1.
  unfold ret at 1. unfold bind at 1.
  assert (arr1 !! Z.to_nat i = Some (set_th_active (to_u8 TRUE) th)) as Hth1.
  { unfold arr1. apply list_lookup_insert_eq. by eapply lookup_lt_Some. }
  erewrite bind_ret_l; [|by eapply modify_thread_ok]. norm.
  unfold decrement_livethreads, osd_interlocked_decrement, osd_sync_add. rewrite ?bind_bind.
  erewrite bind_ret_l; [|eapply load_queue_ok; norm; by rewrite lookup_insert_ne].
  rewrite ?bind_bind.
  erewrite bind_ret_l; [|eapply modify_queue_ok; norm; by rewrite lookup_insert_ne].
  norm. unfold ret at 1. unfold bind at 1. unfold ret.
  destruct Hcfg as (_ & _ & _ & _ & _ & Hlt & _).
  eexists _, _. split; [reflexivity|]. norm.
  split; [unfold queue_at; norm; by rewrite lookup_insert_eq|].
  split; [done|]. split.
  { cbn. pose proof (wf_pending _ _ _ _ _ Hwf3) as Hp. exact Hp. }
  split.
  { cbn. rewrite Hlt. unfold q2. cbn. rewrite wrap32_inc_dec. by apply wrap32_id. }
  split.
  { unfold thread_at. norm. cbn [fst snd]. rewrite lookup_insert_ne by done.
    rewrite lookup_insert_eq. destruct (Z.leb_spec 0 i); [|lia].
    rewrite list_lookup_insert_eq.
    - by rewrite to_u8_FALSE.
    - unfold arr1. rewrite length_insert. by eapply lookup_lt_Some. }
  split; [|rewrite Hclk4, Hclk3; unfold m2; norm; done].
  rewrite Htr4, Htr3. unfold m2. norm. f_equal. f_equal.
  apply completions_agree. intros a Ha. unfold item_at, m2. norm.
  assert (∃ it, heap m !! a = Some (OItem it)) as [it Hit'].
  { destruct (seg_elem _ _ _ _ _ (wf_pending _ _ _ _ _ Hwf) Ha) as [_ ?]. done. }
  rewrite !lookup_insert_ne; [done| |]; intros ->; congruence.
Qed.

End WorkerRound.

Section SubmitWf.
Context {host : Platform}.

(** A submission of at least one item to a queue with workers keeps the
    queue well-formed. *)
Lemma submit_threads_wf (fuel : nat) (queue : Z) (q : osd_work_queue) (pl fl : list Z)
    (cb : Z → Z) (n base step flags : Z) (m : machine) (rest : list bool) :
  queue_wf m queue q pl fl → threads_wf m q → q_threads q ≠ 0 →
  0 < n → Z.of_nat (length pl) + n ≤ INT32_MAX →
  supply m = replicate (Z.to_nat n - length fl) true ++ rest →
  ∃ m' q' added woken,
    osd_work_item_queue_multiple (S fuel) queue cb n base step flags m
      = Ret (if auto_release flags then NULL else hd NULL added) m' ∧
    length added = Z.to_nat n ∧
    queue_wf m' queue q' (pl ++ added) (drop (Z.to_nat n) fl) ∧
    same_config q q' ∧ threads_wf m' q' ∧
    (∀ i a, added !! i = Some a → submitted (heap m') queue cb base step flags i a) ∧
    supply m' = rest ∧
    trace m' = trace m ++ map (λ a, EvDone a FALSE) added ++ [EvItems queue n] ++
               map EvEventSet woken ∧
    clock m' = clock m.
Proof.
  intros Hwf Hth Hnz Hn Hbound Hsup.
  destruct (build_items_ok fuel queue cb base step flags (Z.to_nat n) m q pl fl []
              _ rest (building_start m queue q pl fl cb base step flags Hwf) Hsup)
    as (m1 & q1 & added & loc & Hrun1 & Hlen & Hb1 & [f Hq1] & Hfr1 & Hev1 & Hpl1
        & Hs1 & Htr1 & Hclk1).
  rewrite app_nil_l in Hb1.
  assert (added ≠ []) as Hne by (intros ->; simpl in Hlen; lia).
  destruct (enqueue_items_wf fuel queue q1 pl _ added loc cb base step flags n m1 Hb1 Hne)
    as (m2 & q2 & Hrun2 & Hwf2 & Hcfg2 & Hsub2 & Hfr2 & Hit2 & Hs2 & Htr2 & Hclk2);
    [lia|done|].
  assert (same_config q q2) as Hcfg.
  { rewrite Hq1 in Hcfg2. by destruct q. }
  pose proof Hcfg as (Hthreads & _ & Hthread & _).
  pose proof (wf_queue _ _ _ _ _ Hwf) as Hq.
  pose proof (wf_queue _ _ _ _ _ Hwf2) as Hq2.
  pose proof (frame_trans _ _ _ _ Hfr1 Hfr2) as Hframe.
  destruct Hth as (arr & Harr & Hlen' & Hevs).
  assert (heap m2 !! q_thread q2 = Some (OThreads arr)) as Harr2.
  { rewrite Hthread. apply (Hframe _ _ Harr); [ne_kind|done]. }
  assert (∀ i th, arr !! i = Some th → (i < Z.to_nat (q_threads q2))%nat →
                  is_event (heap m2) (th_wakeevent th)) as Hevs2.
  { intros i th Hi Hlt. rewrite Hthreads in Hlt. destruct (Hevs i th Hi Hlt) as [ev Hev].
    exists ev. apply (Hframe _ _ Hev); [ne_kind|done]. }
  assert (∃ m3 woken,
            wake_idle_threads queue n m2 = Ret tt m3 ∧ touches [] m2 m3 ∧
            heap m3 !! queue = Some (OQueue q2) ∧
            heap m3 !! q_thread q2 = Some (OThreads arr) ∧
            trace m3 = trace m2 ++ map EvEventSet woken ∧ clock m3 = clock m2)
    as (m3 & woken & Hrun3 & Htouch & Hq3 & Harr3 & Htr3 & Hclk3).
  { unfold wake_idle_threads.
    rewrite (bind_ret_l _ _ _ _ _ (load_queue_ok _ _ _ Hq2)).
    destruct (Z.ltb_spec (to_u32 (q_livethreads q2)) (q_threads q2)) as [Hlt|Hge].
    - destruct (wake_threads_ok queue q2 arr (Z.to_nat (q_threads q2)) 0 n m2 Hq2 Harr2)
        as (m3 & woken & Hrun & Ht & Hq' & Harr' & Htr & Hclk); [done| |simpl; lia|].
      { intros i th Hi Hlt'. apply (Hevs2 i th Hi). simpl in Hlt'. lia. }
      by exists m3, woken.
    - exists m2, []. simpl. rewrite app_nil_r. split_and!; first [done|apply touches_refl]. }
  unfold osd_work_item_queue_multiple.
  rewrite (bind_ret_l _ _ _ _ _ Hrun1), (bind_ret_l _ _ _ _ _ Hrun2),
    (bind_ret_l _ _ _ _ _ Hrun3), (bind_ret_l _ _ _ _ _ (load_queue_ok _ _ _ Hq3)).
  destruct (Z.eqb_spec (q_threads q2) 0) as [|_]; [congruence|].
  unfold ret at 1. unfold bind at 1.
  rewrite (chain_hd (heap m1) _ _ (bd_chain _ _ _ _ _ _ _ _ _ _ _ Hb1)).
  pose proof Htouch as (Hkeep3 & Hevs3 & Hnone3 & Hbrk3 & Hsup3).
  exists m3, q2, added, woken. split; [done|]. split; [done|].
  split; [by eapply queue_wf_touches|]. split; [done|].
  split.
  { exists arr. split; [done|]. split; [by rewrite Hthreads|].
    intros i th Hi Hlt. by apply Hevs3, (Hevs2 i th). }
  split.
  { intros i a Hia.
    destruct (Hsub2 i a Hia) as (it & Hit & Hf1 & Hf2 & Hf3 & Hf4 & Hf5 & Hf6 & Hf7).
    exists it. split; [apply Hkeep3; [apply not_elem_of_nil|done]|].
    split_and!; try done. destruct Hf7 as [|Hf7]; [by left|right; by apply Hevs3]. }
  split; [congruence|]. split; [|congruence].
  rewrite Htr3, Htr2, Htr1, <- !app_assoc. done.
Qed.

End SubmitWf.

Lemma worker_round_drains_witness :
  let host := example_host 4 None in
  let m := final_state (pending_scenario 0 0 (boot 8)) in
  ∃ m' q',
    worker_round 8 1 (3, 0) tt m = Ret (inl tt) m' ∧
    queue_at m' 1 = Some q' ∧
    q_items q' = 0 ∧ q_list q' = NULL ∧ q_livethreads q' = 0 ∧
    thread_at m' (3, 0) = Some (mkThread 1 5 4 FALSE) ∧
    trace m' = trace m ++ completions 1 m [6; 7; 8] ++ [] ∧
    clock m' = clock m + Z.max 0 SPIN_LOOP_TIME.
Proof.
  intros host m.
  destruct (@osd_work_queue_alloc_wf host 8 0 (boot 8) (replicate 3 true))
    as (m1 & Hrun1 & Hwf1 & Hs1 & _); [apply heap_fresh_boot|reflexivity|].
  assert (threads_wf m1 (new_queue 1 0)) as Hth1.
  { assert (m1 = final_state (osd_work_queue_alloc 8 0 (boot 8))) as ->
      by by rewrite Hrun1.
    eexists. split; [vm_compute; reflexivity|]. split; [vm_compute; lia|].
    intros i th Hi Hlt. vm_compute in Hlt.
    destruct i as [|i]; [|lia]. simpl in Hi. injection Hi as <-.
    eexists. vm_compute. reflexivity. }
  destruct (@submit_threads_wf host 7 1 (new_queue 1 0) [] [] square 3 1 1 0 m1 []
              Hwf1 Hth1)
    as (m2 & q2 & added & woken & Hrun2 & Hlen & Hwf2 & Hcfg & _);
    [done|lia|unfold INT32_MAX; simpl; lia|by rewrite Hs1|].
  assert (m = m2) as Hm.
  { unfold m, pending_scenario. rewrite (bind_ret_l _ _ _ _ _ Hrun1).
    change (brk (boot 8)) with 1. rewrite (bind_ret_l _ _ _ _ _ Hrun2). reflexivity. }
  rewrite <- Hm in Hwf2. clear Hm Hrun2 Hrun1 Hwf1 Hth1 Hs1.
  assert (added = [6; 7; 8]) as ->.
  { pose proof (wf_pending _ _ _ _ _ Hwf2) as Hp. pose proof (wf_queue _ _ _ _ _ Hwf2) as Hq.
    vm_compute in Hq. injection Hq as <-. cbn [q_list app] in Hp.
    destruct added as [|a1 [|a2 [|a3 [|a4 added]]]]; try discriminate Hlen.
    destruct Hp as (<- & _ & it1 & Hit1 & Hp). vm_compute in Hit1. injection Hit1 as <-.
    destruct Hp as (<- & _ & it2 & Hit2 & Hp). vm_compute in Hit2. injection Hit2 as <-.
    destruct Hp as (<- & _ & it3 & Hit3 & Hp). reflexivity. }
  assert (q2 = {| q_lock := q_lock q2; q_list := q_list q2; q_tailptr := q_tailptr q2;
                  q_free := q_free q2; q_items := q_items q2; q_livethreads := 0;
                  q_waiting := 0; q_exiting := 0; q_threads := q_threads q2;
                  q_flags := q_flags q2; q_thread := q_thread q2;
                  q_doneevent := q_doneevent q2 |}) as Hq2.
  { destruct Hcfg as (_ & _ & _ & _ & Hw & Hl & He). destruct q2. cbn in *. congruence. }
  destruct (@worker_round_drains host 8 1 3 0 q2 ([] ++ [6; 7; 8]) (drop (Z.to_nat 3) [])
              [mkThread 1 5 4 0; mkThread 0 0 0 0] (mkThread 1 5 4 0) m Hwf2)
    as (m' & q' & Hrun & Hq' & Hi & Hl & Hlt & Hth & Htr & Hclk).
  - done.
  - by rewrite Hq2.
  - rewrite Hq2. cbn. unfold INT32_MAX. lia.
  - vm_compute. reflexivity.
  - reflexivity.
  - lia.
  - done.
  - done.
  - simpl. lia.
  - vm_compute. lia.
  - exists m', q'. split; [exact Hrun|]. split; [exact Hq'|]. split; [exact Hi|].
    split; [exact Hl|]. split; [rewrite Hlt; by rewrite Hq2|]. split; [exact Hth|].
    split; [|exact Hclk]. rewrite Htr. rewrite Hq2. reflexivity.
Defined.

Lemma elem_of_nonnull (x p : Z) : x ∈ nonnull p ↔ x = p ∧ p ≠ NULL.
Proof.
  unfold nonnull. destruct (Z.eqb_spec p NULL) as [->|Hne].
  - split; [by intros ?%elem_of_nil|intros [_ ?]; done].
  - rewrite list_elem_of_singleton. split; [by intros ->|by intros [-> _]].
Qed.

Lemma elem_of_item_events (h : gmap Z object) (l : list Z) (e : Z) :
  e ∈ item_events h l ↔
  ∃ a it, a ∈ l ∧ h !! a = Some (OItem it) ∧ it_event it = e ∧ e ≠ NULL.
Proof.
  induction l as [|a l IH].
  - split; [by intros ?%elem_of_nil|]. intros (a & it & Ha & _). by apply elem_of_nil in Ha.
  - unfold item_events. cbn [flat_map]. fold (item_events h l).
    rewrite elem_of_app, IH. split.
    + intros [He|(b & it & Hb & Hit & He)].
      * destruct (h !! a) as [[| it| | |]|] eqn:Ha; try by apply elem_of_nil in He.
        apply elem_of_nonnull in He as [-> Hnz]. exists a, it.
        split; [by left|done].
      * exists b, it. split; [by right|done].
    + intros (b & it & Hb & Hit & He & Hnz). apply elem_of_cons in Hb as [->|Hb].
      * left. rewrite Hit. apply elem_of_nonnull. by subst.
      * right. by exists b, it.
Qed.

Lemma item_events_agree (h h' : gmap Z object) (l : list Z) :
  (∀ a, a ∈ l → h' !! a = h !! a) → item_events h' l = item_events h l.
Proof.
  induction l as [|a l IH]; intros Hag; [done|].
  unfold item_events. cbn [flat_map]. fold (item_events h l) (item_events h' l).
  rewrite Hag by (by left). f_equal. apply IH. intros b Hb. apply Hag. by right.
Qed.

Section FreeItems.
Context {host : Platform}.

(** The loops of lines 410-427 free every item of the list and the event
    of every item that has one. *)
Lemma free_items_ok (queue : Z) (head : osd_work_queue → Z)
    (set_head : Z → osd_work_queue → osd_work_queue) (l : list Z) :
  (∀ v q, head (set_head v q) = v) →
  (∀ v w q, set_head v (set_head w q) = set_head v q) →
  (∀ q, set_head (head q) q = q) →
  ∀ (fuel : nat) (m : machine) (q : osd_work_queue),
    heap m !! queue = Some (OQueue q) →
    chain (heap m) (head q) l →
    NoDup (l ++ item_events (heap m) l) →
    (∀ e, e ∈ item_events (heap m) l → is_event (heap m) e) →
    (length l < fuel)%nat →
    ∃ m',
      free_items fuel queue head set_head m = Ret tt m' ∧
      heap m' !! queue = Some (OQueue (set_head NULL q)) ∧
      (∀ x, x ∈ l ++ item_events (heap m) l → heap m' !! x = None) ∧
      (∀ x, x ≠ queue → x ∉ l ++ item_events (heap m) l → heap m' !! x = heap m !! x) ∧
      brk m' = brk m ∧ supply m' = supply m ∧ clock m' = clock m ∧ trace m' = trace m.
Proof.
  intros Hget Hset Hgs. induction l as [|a l IH]; intros fuel m q Hq Hchain Hnd Hev Hfuel;
    (destruct fuel as [|fuel]; [simpl in Hfuel; lia|]);
    unfold free_items; cbn [loop]; rewrite ?bind_bind;
    rewrite (bind_ret_l _ _ _ _ _ (load_queue_ok _ _ _ Hq)).
  - unfold chain in Hchain. cbn [seg] in Hchain. rewrite Hchain. cbn [Z.eqb NULL].
    unfold ret, bind. exists m. split; [done|]. split.
    { rewrite <- Hchain, Hgs. done. }
    split; [|done]. intros x Hx. by apply elem_of_nil in Hx.
  - destruct Hchain as (Hhd & Hnz & it & Hit & Hseg).
    assert (item_events (heap m) (a :: l) = nonnull (it_event it) ++ item_events (heap m) l)
      as Hevs.
    { unfold item_events at 1. cbn [flat_map]. by rewrite Hit. }
    rewrite Hevs in Hnd, Hev.
    rewrite <- app_comm_cons in Hnd. apply NoDup_cons in Hnd as [Ha Hnd].
    assert (a ≠ queue) as Haq by ne_kind.
    assert (∀ b, b ∈ l → ∃ itb, heap m !! b = Some (OItem itb)) as Hitems.
    { intros b Hb. by destruct (seg_elem _ _ _ _ _ Hseg Hb) as [_ ?]. }
    rewrite Hhd. destruct (Z.eqb_spec a NULL) as [|_]; [done|].
    rewrite ?bind_bind. rewrite (bind_ret_l _ _ _ _ _ (load_item_ok _ _ _ Hit)).
    rewrite ?bind_bind.
    erewrite bind_ret_l; [|by eapply modify_queue_ok]. norm.
    set (q1 := set_head (it_next it) q). rewrite ?bind_bind.
    assert (∃ m3,
      (∀ B (k : unit + unit → M B),
         (_ <- (if negb (it_event it =? NULL) then osd_event_free (it_event it) else ret tt);
          r <- (_ <- dealloc a; ret (inl tt)); k r)
           {| heap := <[queue := OQueue q1]> (heap m); brk := brk m; supply := supply m;
              clock := clock m; trace := trace m |} = k (inl tt) m3) ∧
      heap m3 !! queue = Some (OQueue q1) ∧
      (∀ x, x ∈ a :: nonnull (it_event it) → heap m3 !! x = None) ∧
      (∀ x, x ≠ queue → x ∉ a :: nonnull (it_event it) → heap m3 !! x = heap m !! x) ∧
      brk m3 = brk m ∧ supply m3 = supply m ∧ clock m3 = clock m ∧ trace m3 = trace m)
      as (m3 & Hrun3 & Hq3 & Hgone3 & Hframe3 & Hb3 & Hs3 & Hc3 & Ht3).
    { unfold nonnull. destruct (Z.eqb_spec (it_event it) NULL) as [Hnull|Hnn]; cbn [negb].
      - eexists. split.
        { intros B k. unfold ret at 1. unfold bind at 1. rewrite bind_bind.
          unfold bind at 1.
          unfold dealloc. norm. rewrite lookup_insert_ne by done. rewrite Hit.
          reflexivity. }
        norm.
        split; [rewrite lookup_delete_ne by done; apply lookup_insert_eq|].
        split.
        { intros x Hx. apply list_elem_of_singleton in Hx as ->. apply lookup_delete_eq. }
        split; [|done]. intros x Hxq Hx. apply not_elem_of_cons in Hx as [Hxa _].
        rewrite lookup_delete_ne by done. by rewrite lookup_insert_ne.
      - destruct (Hev (it_event it)) as [ev Hevt].
        { apply elem_of_app. left. apply elem_of_nonnull. done. }
        assert (it_event it ≠ queue) as Heq by ne_kind.
        assert (it_event it ≠ a) as Hea by ne_kind.
        eexists. split.
        { intros B k. unfold osd_event_free. rewrite ?bind_bind.
          erewrite bind_ret_l; [|eapply load_event_ok; norm; by rewrite lookup_insert_ne].
          unfold dealloc at 1. unfold bind at 1. norm.
          rewrite lookup_insert_ne by done. rewrite Hevt. rewrite bind_bind.
          unfold bind at 1. unfold dealloc. norm. rewrite lookup_delete_ne by done.
          rewrite lookup_insert_ne by done. rewrite Hit. reflexivity. }
        norm.
        split; [rewrite !lookup_delete_ne by done; apply lookup_insert_eq|].
        split.
        { intros x Hx. apply elem_of_cons in Hx as [->|Hx].
          - apply lookup_delete_eq.
          - apply list_elem_of_singleton in Hx as ->.
            rewrite lookup_delete_ne by done. apply lookup_delete_eq. }
        split; [|done]. intros x Hxq Hx. apply not_elem_of_cons in Hx as [Hxa Hx].
        apply not_elem_of_cons in Hx as [Hxe _].
        rewrite !lookup_delete_ne by done. by rewrite lookup_insert_ne. }
    rewrite Hrun3.
    (* the rest of the list is untouched *)
    assert (∀ b, b ∈ l ++ item_events (heap m) l → heap m3 !! b = heap m !! b) as Hag.
    { intros b Hb. apply Hframe3.
      - intros ->. apply elem_of_app in Hb as [Hb|Hb].
        + destruct (Hitems _ Hb). congruence.
        + destruct (Hev queue) as [ev ?]; [apply elem_of_app; by right|]. congruence.
      - intros Hin. apply elem_of_cons in Hin as [->|Hin].
        + apply Ha. apply elem_of_app in Hb as [Hb|Hb]; apply elem_of_app; [by left|].
          right. apply elem_of_app. by right.
        + apply NoDup_app in Hnd as (_ & Hdisj & Hnd2).
          apply NoDup_app in Hnd2 as (_ & Hdisj2 & _).
          apply elem_of_app in Hb as [Hb|Hb].
          * apply (Hdisj b Hb). apply elem_of_app. by left.
          * by apply (Hdisj2 b Hin). }
    assert (item_events (heap m3) l = item_events (heap m) l) as Hevs3.
    { apply item_events_agree. intros b Hb. apply Hag, elem_of_app. by left. }
    destruct (IH fuel m3 q1 Hq3) as (m' & Hrun & Hq' & Hgone & Hframe & Hb' & Hs' & Hc' & Ht').
    { unfold q1. rewrite Hget. eapply seg_agree; [exact Hseg|].
      intros b Hb. apply Hag, elem_of_app. by left. }
    { rewrite Hevs3. apply NoDup_app in Hnd as (Hn1 & Hdisj & Hn2).
      apply NoDup_app in Hn2 as (_ & _ & Hn3). apply NoDup_app. split; [done|].
      split; [|done]. intros x Hx Hx2. apply (Hdisj x Hx). apply elem_of_app. by right. }
    { rewrite Hevs3. intros e He. destruct (Hev e) as [ev Hevt]; [apply elem_of_app; by right|].
      exists ev. rewrite Hag; [done|]. apply elem_of_app. by right. }
    { simpl in Hfuel. lia. }
    exists m'. split; [exact Hrun|]. rewrite Hevs3 in Hgone, Hframe.
    split; [by rewrite Hq'; unfold q1; rewrite Hset|].
    split.
    { intros x Hx. rewrite Hevs in Hx. rewrite <- app_comm_cons in Hx.
      destruct (decide (x ∈ l ++ item_events (heap m) l)) as [Hin|Hout]; [by apply Hgone|].
      assert (x ∈ a :: nonnull (it_event it)) as Hx3.
      { apply elem_of_cons in Hx as [->|Hx]; [by left|].
        apply elem_of_app in Hx as [Hx|Hx].
        - exfalso. apply Hout. apply elem_of_app. by left.
        - apply elem_of_app in Hx as [Hx|Hx]; [by right|].
          exfalso. apply Hout. apply elem_of_app. by right. }
      rewrite Hframe; [by apply Hgone3|idtac|done].
      intros ->. apply elem_of_cons in Hx3 as [?|Hx3]; [done|].
      apply elem_of_nonnull in Hx3 as [Hx3 Hnz3].
      destruct (Hev (it_event it)) as [ev ?]; [|congruence].
      apply elem_of_app. left. by apply elem_of_nonnull. }
    split.
    { intros x Hxq Hx. rewrite Hevs in Hx. rewrite <- app_comm_cons in Hx.
      apply not_elem_of_cons in Hx as [Hxa Hx].
      apply not_elem_of_app in Hx as [Hxl Hx]. apply not_elem_of_app in Hx as [Hxe Hxes].
      rewrite Hframe; [|done|by apply not_elem_of_app].
      apply Hframe3; [done|]. by apply not_elem_of_cons. }
    split_and!; congruence.
Qed.

End FreeItems.

Section FreeThreads.
Context {host : Platform}.

(** Lines 364-369: signal all the threads to exit. *)
Lemma signal_threads_ok (t : Z) (arr : list mame_thread_info)
    (ths : list mame_thread_info) :
  ∀ (from : Z) (m : machine),
    heap m !! t = Some (OThreads arr) → 0 ≤ from →
    (∀ k th, ths !! k = Some th → arr !! (Z.to_nat from + k)%nat = Some th) →
    (∀ e, e ∈ thread_events ths → is_event (heap m) e) →
    ∃ m',
      for_each (length ths) from (λ threadnum,
        th <- load_thread (t, threadnum);
        if negb (th_wakeevent th =? NULL)
        then osd_event_set (th_wakeevent th)
        else ret tt) m = Ret tt m' ∧
      (∀ a, a ∉ thread_events ths → heap m' !! a = heap m !! a) ∧
      (∀ e, is_event (heap m) e → is_event (heap m') e) ∧
      trace m' = trace m ++ map EvEventSet (thread_events ths) ∧
      brk m' = brk m ∧ supply m' = supply m ∧ clock m' = clock m.
Proof.
  induction ths as [|th ths IH]; intros from m Ht Hfrom Harr Hev.
  - exists m. cbn. rewrite app_nil_r. done.
  - cbn [length for_each]. rewrite ?bind_bind.
    assert (arr !! Z.to_nat from = Some th) as Hth.
    { specialize (Harr O th eq_refl). by rewrite Nat.add_0_r in Harr. }
    rewrite (bind_ret_l _ _ _ _ _ (load_thread_ok _ _ _ _ _ Ht Hth Hfrom)).
    assert (thread_events (th :: ths) = nonnull (th_wakeevent th) ++ thread_events ths)
      as Hevs by done.
    rewrite Hevs in *.
    assert (∃ m1,
      (∀ B (k : M B),
         (_ <- (if negb (th_wakeevent th =? NULL)
                then osd_event_set (th_wakeevent th) else ret tt); k) m = k m1) ∧
      (∀ a, a ∉ nonnull (th_wakeevent th) → heap m1 !! a = heap m !! a) ∧
      (∀ e, is_event (heap m) e → is_event (heap m1) e) ∧
      trace m1 = trace m ++ map EvEventSet (nonnull (th_wakeevent th)) ∧
      brk m1 = brk m ∧ supply m1 = supply m ∧ clock m1 = clock m)
      as (m1 & Hrun1 & Hkeep1 & Hev1 & Htr1 & Hb1 & Hs1 & Hc1).
    { unfold nonnull in *.
      destruct (Z.eqb_spec (th_wakeevent th) NULL) as [Hnull|Hnn]; cbn [negb].
      - exists m. cbn. rewrite app_nil_r. done.
      - destruct (Hev (th_wakeevent th)) as [ev Hevt]; [apply elem_of_app; left; by left|].
        eexists. split.
        { intros B k. rewrite (bind_ret_l _ _ _ _ _ (osd_event_set_ok _ _ _ Hevt)).
          reflexivity. }
        norm. split_and!; try done.
        + intros a Ha. apply not_elem_of_cons in Ha as [Ha _]. by rewrite lookup_insert_ne.
        + intros e [ev' He]. destruct (decide (e = th_wakeevent th)) as [->|Hne].
          * eexists. apply lookup_insert_eq.
          * exists ev'. by rewrite lookup_insert_ne.  }
    rewrite Hrun1.
    destruct (IH (from + 1) m1) as (m' & Hrun & Hkeep & Hev' & Htr & Hb & Hs & Hc).
    { rewrite Hkeep1; [done|]. intros Hin.
      destruct (Hev t) as [ev Hevt]; [apply elem_of_app; by left|]. congruence. }
    { lia. }
    { intros k th' Hk. replace (Z.to_nat (from + 1) + k)%nat with (Z.to_nat from + S k)%nat
        by lia. by apply Harr. }
    { intros e He. apply Hev1, Hev. apply elem_of_app. by right. }
    exists m'. split; [exact Hrun|]. split_and!; try congruence.
    + intros a Ha. apply not_elem_of_app in Ha as [Ha1 Ha2].
      rewrite Hkeep by done. by apply Hkeep1.
    + intros e He. by apply Hev', Hev1.
    + rewrite Htr, Htr1, map_app, <- app_assoc. done.
Qed.

Lemma event_step_trans (o1 o2 o3 : option object) :
  event_step o1 o2 → event_step o2 o3 → event_step o1 o3.
Proof.
  intros [->|(ev1 & ev2 & -> & ->)] [->|(ev3 & ev4 & Heq & ->)].
  - by left.
  - right. by exists ev3, ev4.
  - right. by exists ev1, ev2.
  - right. by exists ev1, ev4.
Qed.

Lemma event_step_event (h h' : gmap Z object) (e : Z) :
  event_step (h !! e) (h' !! e) → is_event h e → is_event h' e.
Proof.
  intros [Heq|(ev1 & ev2 & _ & Heq)] [ev Hev];
    [exists ev; by rewrite Heq|by exists ev2].
Qed.

Lemma event_step_none (o : option object) : event_step None o → o = None.
Proof. by intros [->|(ev1 & ev2 & ? & _)]. Qed.

(** Lines 372-385: wait for all the threads to go away, and free their
    handles and wake events, while the other threads leave the objects in
    [P] alone and do no more to the wake events than change their state. *)
Lemma join_threads_ok (t : Z) (arr : list mame_thread_info) (P : Z → Prop)
    (ths : list mame_thread_info) :
  P t →
  ∀ (from : Z) (m : machine),
    (thread_handles ths ≠ [] → ∀ h a, P a → others h !! a = h !! a) →
    (∀ h e, e ∈ thread_events ths → event_step (h !! e) (others h !! e)) →
    heap m !! t = Some (OThreads arr) → 0 ≤ from →
    (∀ k th, ths !! k = Some th → arr !! (Z.to_nat from + k)%nat = Some th) →
    NoDup (thread_events ths) → NoDup (thread_handles ths) →
    (∀ e, e ∈ thread_events ths → is_event (heap m) e) →
    (∀ x, x ∈ thread_handles ths → is_thread (heap m) x ∧ P x) →
    ∃ m',
      for_each (length ths) from (λ threadnum,
        th <- load_thread (t, threadnum);
        _ <- (if negb (th_handle th =? NULL)
              then osd_thread_wait_free (th_handle th)
              else ret tt);
        if negb (th_wakeevent th =? NULL)
        then osd_event_free (th_wakeevent th)
        else ret tt) m = Ret tt m' ∧
      (∀ x, x ∈ thread_events ths ++ thread_handles ths → heap m' !! x = None) ∧
      (∀ a, P a → a ∉ thread_events ths ++ thread_handles ths →
            heap m' !! a = heap m !! a) ∧
      (∀ a, (∀ h, event_step (h !! a) (others h !! a)) →
            a ∉ thread_events ths ++ thread_handles ths →
            event_step (heap m !! a) (heap m' !! a)) ∧
      trace m' = trace m ∧ brk m' = brk m ∧ supply m' = supply m ∧ clock m' = clock m.
Proof.
  intros Pt.
  induction ths as [|th ths IH]; intros from m Hq Hwake Ht Hfrom Harr Hnde Hndh Hev Hhd.
  - exists m. cbn. split; [done|].
    split; [intros x Hx; by apply elem_of_nil in Hx|].
    split; [done|]. split; [intros a _ _; by left|done].
  - cbn [length for_each]. rewrite ?bind_bind.
    assert (arr !! Z.to_nat from = Some th) as Hth.
    { specialize (Harr O th eq_refl). by rewrite Nat.add_0_r in Harr. }
    rewrite (bind_ret_l _ _ _ _ _ (load_thread_ok _ _ _ _ _ Ht Hth Hfrom)).
    rewrite ?bind_bind.
    assert (thread_events (th :: ths) = nonnull (th_wakeevent th) ++ thread_events ths)
      as Hevs by done.
    assert (thread_handles (th :: ths) = nonnull (th_handle th) ++ thread_handles ths)
      as Hhds by done.
    rewrite Hevs in *. rewrite Hhds in *.
    apply NoDup_app in Hnde as (_ & Hde & Hnde). apply NoDup_app in Hndh as (_ & Hdh & Hndh).
    assert (∀ e x, e ∈ nonnull (th_wakeevent th) ++ thread_events ths →
                   x ∈ nonnull (th_handle th) ++ thread_handles ths → e ≠ x) as Hsep.
    { intros e x He Hx ->. destruct (Hev x He) as [ev ?].
      destruct (Hhd x Hx) as [[p ?] _]. congruence. }
    (* the handle *)
    assert (∃ m1,
      (∀ B (k : M B),
         (_ <- (if negb (th_handle th =? NULL)
                then osd_thread_wait_free (th_handle th) else ret tt); k) m = k m1) ∧
      (∀ x, x ∈ nonnull (th_handle th) → heap m1 !! x = None) ∧
      (∀ a, P a → a ∉ nonnull (th_handle th) → heap m1 !! a = heap m !! a) ∧
      (∀ a, (∀ h, event_step (h !! a) (others h !! a)) → a ∉ nonnull (th_handle th) →
            event_step (heap m !! a) (heap m1 !! a)) ∧
      trace m1 = trace m ∧ brk m1 = brk m ∧ supply m1 = supply m ∧ clock m1 = clock m)
      as (m1 & Hrun1 & Hgone1 & Hframe1 & Hstep1 & Htr1 & Hb1 & Hs1 & Hc1).
    { unfold nonnull in *.
      destruct (Z.eqb_spec (th_handle th) NULL) as [Hnull|Hnn]; cbn [negb].
      - exists m. split; [done|].
        split; [intros x Hx; by apply elem_of_nil in Hx|].
        split; [done|]. split; [intros a _ _; by left|done].
      - destruct (Hhd (th_handle th)) as [[p Hp] HP]; [apply elem_of_app; left; by left|].
        assert (∀ h a, P a → others h !! a = h !! a) as Hquiet by (by apply Hq).
        eexists. split.
        { intros B k. unfold osd_thread_wait_free, interfere. rewrite ?bind_bind.
          unfold bind at 1. norm. unfold bind at 1. unfold dealloc. norm.
          rewrite (Hquiet _ _ HP), Hp. reflexivity. }
        norm. split.
        { intros x Hx. apply list_elem_of_singleton in Hx as ->. apply lookup_delete_eq. }
        split.
        { intros a Pa Ha. apply not_elem_of_cons in Ha as [Ha _].
          rewrite lookup_delete_ne by done. by apply Hquiet. }
        split; [|done]. intros a Hstep Ha. apply not_elem_of_cons in Ha as [Ha _].
        rewrite lookup_delete_ne by done. apply Hstep. }
    rewrite Hrun1.
    assert (∀ e, e ∈ nonnull (th_wakeevent th) ++ thread_events ths →
                 is_event (heap m1) e) as Hev1.
    { intros e He. apply (event_step_event (heap m)); [|by apply Hev].
      apply Hstep1; [intros h; by apply Hwake|].
      intros Hin. apply (Hsep e e He); [|done]. apply elem_of_app. by left. }
    (* the wake event *)
    assert (∃ m2,
      (∀ B (k : M B),
         (_ <- (if negb (th_wakeevent th =? NULL)
                then osd_event_free (th_wakeevent th) else ret tt); k) m1 = k m2) ∧
      (∀ x, x ∈ nonnull (th_wakeevent th) → heap m2 !! x = None) ∧
      (∀ a, a ∉ nonnull (th_wakeevent th) → heap m2 !! a = heap m1 !! a) ∧
      trace m2 = trace m1 ∧ brk m2 = brk m1 ∧ supply m2 = supply m1 ∧ clock m2 = clock m1)
      as (m2 & Hrun2 & Hgone2 & Hframe2 & Htr2 & Hb2 & Hs2 & Hc2).
    { unfold nonnull in Hev1 |- *.
      destruct (Z.eqb_spec (th_wakeevent th) NULL) as [Hnull|Hnn]; cbn [negb].
      - exists m1. split; [done|]. split; [|done]. intros x Hx. by apply elem_of_nil in Hx.
      - destruct (Hev1 (th_wakeevent th)) as [ev Hevt1].
        { apply elem_of_app; left.
          destruct (Z.eqb_spec (th_wakeevent th) NULL); [done|by left]. }
        eexists. split.
        { intros B k. unfold osd_event_free. rewrite ?bind_bind.
          rewrite (bind_ret_l _ _ _ _ _ (load_event_ok _ _ _ Hevt1)).
          unfold bind at 1. unfold dealloc. rewrite Hevt1. reflexivity. }
        norm. split.
        { intros x Hx. apply list_elem_of_singleton in Hx as ->. apply lookup_delete_eq. }
        split; [|done]. intros a Ha. apply not_elem_of_cons in Ha as [Ha _].
        by rewrite lookup_delete_ne. }
    rewrite Hrun2.
    assert (∀ a, P a → a ∉ nonnull (th_wakeevent th) ++ nonnull (th_handle th) →
                 heap m2 !! a = heap m !! a) as Hframe.
    { intros a Pa Ha. apply not_elem_of_app in Ha as [Ha1 Ha2].
      rewrite Hframe2 by done. by apply Hframe1. }
    assert (∀ e, e ∈ thread_events ths → is_event (heap m2) e) as Hev2.
    { intros e He. destruct (Hev1 e) as [ev Hevt]; [apply elem_of_app; by right|].
      exists ev. rewrite Hframe2; [done|]. intros Hin. by apply (Hde e Hin). }
    assert (∀ x, x ∈ thread_handles ths → is_thread (heap m2) x ∧ P x) as Hhd2.
    { intros x Hx. destruct (Hhd x) as [[p Hxp] Px]; [apply elem_of_app; by right|].
      split; [|done]. exists p. rewrite Hframe; [done|done|].
      intros [Hin|Hin]%elem_of_app; [|by apply (Hdh x Hin)].
      apply (Hsep x x); [apply elem_of_app; by left|apply elem_of_app; by right|done]. }
    destruct (IH (from + 1) m2)
      as (m' & Hrun & Hgone & Hframe' & Hstep' & Htr & Hb & Hs & Hc); try done.
    { intros Hne. apply Hq. intros Hnil. apply app_eq_nil in Hnil as [_ ?]. done. }
    { intros h e He. apply Hwake, elem_of_app. by right. }
    { rewrite Hframe; [done|done|].
      intros [Hin|Hin]%elem_of_app.
      - destruct (Hev t) as [ev ?]; [apply elem_of_app; by left|]. congruence.
      - destruct (Hhd t) as [[p ?] _]; [apply elem_of_app; by left|]. congruence. }
    { lia. }
    { intros k th' Hk. replace (Z.to_nat (from + 1) + k)%nat with (Z.to_nat from + S k)%nat
        by lia. by apply Harr. }
    exists m'. split; [exact Hrun|]. split.
    { intros x Hx.
      destruct (decide (x ∈ thread_events ths ++ thread_handles ths)) as [Hin|Hout];
        [by apply Hgone|].
      assert (x ∈ nonnull (th_wakeevent th) ∨ x ∈ nonnull (th_handle th)) as Hx'.
      { apply elem_of_app in Hx as [Hx|Hx]; apply elem_of_app in Hx as [Hx|Hx];
          first [by left | by right | exfalso; apply Hout; apply elem_of_app; by left
                | exfalso; apply Hout; apply elem_of_app; by right]. }
      destruct Hx' as [Hx'|Hx'].
      - apply event_step_none. rewrite <- (Hgone2 x Hx'). apply Hstep'; [|done].
        intros h. apply Hwake, elem_of_app. by left.
      - destruct (Hhd x) as [_ Px]; [apply elem_of_app; by left|].
        rewrite Hframe' by done.
        destruct (decide (x ∈ nonnull (th_wakeevent th))) as [Hin|Hnin]; [by apply Hgone2|].
        rewrite Hframe2 by done. by apply Hgone1. }
    split.
    { intros a Pa Ha. rewrite Hframe'; [apply Hframe; [done|]|done|].
      + intros [Hin|Hin]%elem_of_app; apply Ha; apply elem_of_app;
          [left|right]; apply elem_of_app; by left.
      + intros [Hin|Hin]%elem_of_app; apply Ha; apply elem_of_app;
          [left|right]; apply elem_of_app; by right. }
    split; [|split_and!; congruence].
    intros a Hstep Ha.
    assert ((a ∉ nonnull (th_wakeevent th)) ∧ (a ∉ nonnull (th_handle th)) ∧
            (a ∉ thread_events ths ++ thread_handles ths)) as (Ha1 & Ha2 & Ha3).
    { split_and!.
      - intros Hin. apply Ha, elem_of_app. left. apply elem_of_app. by left.
      - intros Hin. apply Ha, elem_of_app. right. apply elem_of_app. by left.
      - intros [Hin|Hin]%elem_of_app; apply Ha; apply elem_of_app;
          [left|right]; apply elem_of_app; by right. }
    eapply event_step_trans; [apply (Hstep1 a Hstep Ha2)|].
    rewrite <- (Hframe2 a Ha1). by apply Hstep'.
Qed.

End FreeThreads.

Lemma kind_at_lookup (h : gmap Z object) (p : Z) (o : object) :
  h !! p = Some o → kind_at h p = Some (obj_kind o).
Proof. unfold kind_at. by intros ->. Qed.

Lemma kind_at_event (h : gmap Z object) (p : Z) : is_event h p → kind_at h p = Some 3%nat.
Proof. intros [ev He]. by rewrite (kind_at_lookup _ _ _ He). Qed.

Lemma kind_at_thread (h : gmap Z object) (p : Z) : is_thread h p → kind_at h p = Some 4%nat.
Proof. intros [x He]. by rewrite (kind_at_lookup _ _ _ He). Qed.

Lemma kind_ne (h : gmap Z object) (p p' : Z) (k k' : nat) :
  kind_at h p = Some k → kind_at h p' = Some k' → k ≠ k' → p ≠ p'.
Proof. intros Hp Hp' Hne ->. congruence. Qed.

Lemma kind_not_elem_of (h : gmap Z object) (l : list Z) (p : Z) (k k' : nat) :
  (∀ x, x ∈ l → kind_at h x = Some k) → kind_at h p = Some k' → k ≠ k' → p ∉ l.
Proof. intros Hl Hp Hne Hin. rewrite (Hl p Hin) in Hp. congruence. Qed.

Lemma item_events_app (h : gmap Z object) (l1 l2 : list Z) :
  item_events h (l1 ++ l2) = item_events h l1 ++ item_events h l2.
Proof. unfold item_events. apply flat_map_app. Qed.

Lemma queue_wf_item_events (m : machine) (queue : Z) (q : osd_work_queue) (pl fl : list Z) :
  queue_wf m queue q pl fl →
  (∀ b, b ∈ pl ++ fl → kind_at (heap m) b = Some 1%nat) ∧
  (∀ e, e ∈ item_events (heap m) (pl ++ fl) → is_event (heap m) e).
Proof.
  intros Hwf. split.
  - intros b Hb.
    assert (∃ it, heap m !! b = Some (OItem it)) as [it Hit].
    { apply elem_of_app in Hb as [Hb|Hb].
      - by destruct (seg_elem _ _ _ _ _ (wf_pending _ _ _ _ _ Hwf) Hb) as [_ ?].
      - by destruct (seg_elem _ _ _ _ _ (wf_free _ _ _ _ _ Hwf) Hb) as [_ ?]. }
    by rewrite (kind_at_lookup _ _ _ Hit).
  - intros e He. apply elem_of_item_events in He as (a & it & Ha & Hit & <- & Hnz).
    destruct (wf_owner _ _ _ _ _ Hwf a it Ha Hit) as [_ [?|?]]; done.
Qed.

Section QueueFree.
Context {host : Platform}.

(** The thread part of [osd_work_queue_free] (lines 354-403). *)
Lemma free_threads_ok (queue : Z) (q : osd_work_queue) (pl fl : list Z)
    (ths : list mame_thread_info) (P : Z → Prop) (m : machine) :
  queue_owns m queue q pl fl ths →
  (thread_handles ths ≠ [] → ∀ h a, P a → others h !! a = h !! a) →
  (∀ h e, e ∈ thread_events ths → event_step (h !! e) (others h !! e)) →
  (∀ x, x ∈ freed_objects m queue q pl fl ths → x ∉ thread_events ths → P x) →
  let T := thread_events ths ++ thread_handles ths ++
           (if visits_threads q then [q_thread q] else []) in
  ∃ m4 q1,
    (∀ B (k : M B),
       (_ <- (if visits_threads q
              then
                _ <- modify_queue queue (set_q_exiting TRUE);
                _ <- for_each (Z.to_nat (q_threads q)) 0 (λ threadnum,
                       th <- load_thread (q_thread q, threadnum);
                       if negb (th_wakeevent th =? NULL)
                       then osd_event_set (th_wakeevent th)
                       else ret tt);
                _ <- for_each (Z.to_nat (q_threads q)) 0 (λ threadnum,
                       th <- load_thread (q_thread q, threadnum);
                       _ <- (if negb (th_handle th =? NULL)
                             then osd_thread_wait_free (th_handle th)
                             else ret tt);
                       if negb (th_wakeevent th =? NULL)
                       then osd_event_free (th_wakeevent th)
                       else ret tt);
                dealloc (q_thread q)
              else ret tt); k) m = k m4) ∧
    heap m4 !! queue = Some (OQueue q1) ∧
    q_free q1 = q_free q ∧ q_list q1 = q_list q ∧ q_doneevent q1 = q_doneevent q ∧
    (∀ x, x ∈ T → heap m4 !! x = None) ∧
    (∀ a, P a → a ≠ queue → a ∉ T → heap m4 !! a = heap m !! a) ∧
    trace m4 = trace m ++ map EvEventSet (thread_events ths) ∧
    brk m4 = brk m ∧ supply m4 = supply m ∧ clock m4 = clock m.
Proof.
  intros [Hwf Hdn Hths Hevs Hhds Hsepe Hseph] Hquiet Hwake HP T.
  pose proof (wf_queue _ _ _ _ _ Hwf) as Hq.
  pose proof (kind_at_lookup _ _ _ Hq) as Hkq. cbn [obj_kind] in Hkq.
  unfold T. destruct (visits_threads q) eqn:Hvis.
  - destruct Hths as (arr & Harr & -> & Hlen).
    set (t := q_thread q) in *. set (n := Z.to_nat (q_threads q)) in *.
    set (ths := take n arr) in *.
    pose proof (kind_at_lookup _ _ _ Harr) as Hkt. cbn [obj_kind] in Hkt.
    assert (length ths = n) as Hlths by (unfold ths; rewrite length_take; lia).
    assert (t ≠ queue) as Htq by (eapply kind_ne; [exact Hkt|exact Hkq|done]).
    assert (∀ e, e ∈ thread_events ths → kind_at (heap m) e = Some 3%nat) as Hke.
    { intros e He. by apply kind_at_event, Hevs. }
    assert (∀ x, x ∈ thread_handles ths → kind_at (heap m) x = Some 4%nat) as Hkh.
    { intros x Hx. by apply kind_at_thread, Hhds. }
    assert (∀ k th, ths !! k = Some th → arr !! (Z.to_nat 0 + k)%nat = Some th) as Hlook.
    { intros k th Hk. unfold ths in Hk. apply lookup_take_Some in Hk as [Hk _]. done. }
    assert (t ∉ thread_events ths) as Hte.
    { eapply kind_not_elem_of; [exact Hke|exact Hkt|done]. }
    assert (P t) as Pt.
    { apply HP; [|done]. unfold freed_objects. rewrite Hvis. do 2 right.
      rewrite !elem_of_app. do 4 right. by left. }
    assert (∀ x, x ∈ thread_handles ths → P x) as Ph.
    { intros x Hx. apply HP.
      - unfold freed_objects. do 2 right.
        rewrite !elem_of_app. right. right. right. by left.
      - eapply kind_not_elem_of; [exact Hke|by apply Hkh|done]. }
    (* exiting, and the wake events *)
    set (q1 := set_q_exiting TRUE q).
    set (m1 := set_heap (<[queue := OQueue q1]> (heap m)) m).
    destruct (signal_threads_ok t arr ths 0 m1)
      as (m2 & Hrun2 & Hkeep2 & Hev2 & Htr2 & Hb2 & Hs2 & Hc2); [|done|done| |].
    { unfold m1. norm. by rewrite lookup_insert_ne. }
    { intros e He. destruct (Hevs e He) as [ev Hev]. exists ev. unfold m1. norm.
      rewrite lookup_insert_ne; [done|]. eapply kind_ne; [exact Hkq|by apply Hke|done]. }
    assert (∀ a, a ≠ queue → a ∉ thread_events ths → heap m2 !! a = heap m !! a) as Hag2.
    { intros a Ha Hnin. rewrite Hkeep2 by done. unfold m1. norm. by rewrite lookup_insert_ne. }
    (* the threads *)
    destruct (join_threads_ok t arr P ths Pt 0 m2 Hquiet Hwake)
      as (m3 & Hrun3 & Hgone3 & Hframe3 & _ & Htr3 & Hb3 & Hs3 & Hc3);
      [|done|done| |done| | |].
    { by rewrite Hag2. }
    { apply NoDup_cons in Hsepe as [_ Hnd]. by apply NoDup_app in Hnd as (_ & _ & ?). }
    { intros e He. by apply Hev2; unfold m1; norm;
        destruct (Hevs e He) as [ev Hev]; exists ev; rewrite lookup_insert_ne;
        [|eapply kind_ne; [exact Hkq|by apply Hke|done]]. }
    { intros x Hx. split; [|by apply Ph]. destruct (Hhds x Hx) as [p Hp]. exists p.
      rewrite Hag2; [done| |].
      - eapply kind_ne; [by apply Hkh|exact Hkq|done].
      - eapply kind_not_elem_of; [exact Hke|by apply Hkh|done]. }
    assert (t ∉ thread_events ths ++ thread_handles ths) as Htn.
    { apply not_elem_of_app. split; [done|].
      eapply kind_not_elem_of; [exact Hkh|exact Hkt|done]. }
    assert (heap m3 !! t = Some (OThreads arr)) as Harr3.
    { rewrite Hframe3 by done. by rewrite Hag2. }
    eexists (set_heap (delete t (heap m3)) m3), q1. split.
    { intros B k. rewrite ?bind_bind.
      erewrite bind_ret_l; [|by eapply modify_queue_ok]. fold q1. fold m1.
      fold t n. rewrite <- Hlths. rewrite ?bind_bind.
      rewrite (bind_ret_l _ _ _ _ _ Hrun2). rewrite ?bind_bind.
      rewrite (bind_ret_l _ _ _ _ _ Hrun3). rewrite ?bind_bind.
      unfold bind at 1. unfold dealloc. rewrite Harr3. reflexivity. }
    assert (queue ∉ thread_events ths ++ thread_handles ths) as Hqn.
    { apply not_elem_of_app. split; eapply kind_not_elem_of; eauto. }
    assert (P queue) as Pq.
    { apply HP; [by left|]. by apply not_elem_of_app in Hqn as [? _]. }
    norm. split.
    { rewrite lookup_delete_ne by done. rewrite Hframe3 by done.
      rewrite Hkeep2 by (by apply not_elem_of_app in Hqn as [? _]).
      unfold m1. norm. apply lookup_insert_eq. }
    split; [done|]. split; [done|]. split; [done|]. split.
    { intros x Hx. rewrite app_assoc in Hx. apply elem_of_app in Hx as [Hx|Hx].
      - assert (x ≠ t) by (intros ->; done).
        rewrite lookup_delete_ne by done. by apply Hgone3.
      - apply list_elem_of_singleton in Hx as ->. apply lookup_delete_eq. }
    split.
    { intros a Pa Haq Ha. rewrite app_assoc in Ha. apply not_elem_of_app in Ha as [Ha Hat].
      apply not_elem_of_cons in Hat as [Hat _].
      rewrite lookup_delete_ne by done. rewrite Hframe3 by done.
      apply Hag2; [done|]. by apply not_elem_of_app in Ha as [? _]. }
    unfold m1 in Htr2, Hb2, Hs2, Hc2. norm in Htr2. norm in Hb2. norm in Hs2. norm in Hc2.
    split; [by rewrite Htr3, Htr2|]. split_and!; congruence.
  - subst ths. exists m, q. split; [done|]. cbn. rewrite app_nil_r.
    split_and!; try done. intros x Hx. by apply elem_of_nil in Hx.
Qed.

(** [osd_work_queue_free] on a queue that owns its objects, while the other
    threads leave the objects in [P] alone once a worker is joined, and do
    no more to the wake events than change their state. *)
Lemma osd_work_queue_free_ok (fuel : nat) (queue : Z) (q : osd_work_queue)
    (pl fl : list Z) (ths : list mame_thread_info) (P : Z → Prop) (m : machine) :
  queue_owns m queue q pl fl ths →
  (thread_handles ths ≠ [] → ∀ h a, P a → others h !! a = h !! a) →
  (∀ h e, e ∈ thread_events ths → event_step (h !! e) (others h !! e)) →
  (∀ x, x ∈ freed_objects m queue q pl fl ths → x ∉ thread_events ths → P x) →
  (length pl < fuel)%nat → (length fl < fuel)%nat →
  ∃ m',
    osd_work_queue_free fuel queue m = Ret tt m' ∧
    (∀ x, x ∈ freed_objects m queue q pl fl ths → heap m' !! x = None) ∧
    (∀ a, P a → a ∉ freed_objects m queue q pl fl ths → heap m' !! a = heap m !! a) ∧
    trace m' = trace m ++ map EvEventSet (thread_events ths) ∧
    brk m' = brk m ∧ supply m' = supply m ∧ clock m' = clock m.
Proof.
  intros Hown Hquiet Hwake HP Hfpl Hffl.
  destruct (free_threads_ok queue q pl fl ths P m Hown Hquiet Hwake HP)
    as (m4 & q1 & Hrun4 & Hq4 & Hfree1 & Hlist1 & Hdone1 & Hgone4 & Hframe4 & Htr4 & Hb4
        & Hs4 & Hc4).
  destruct Hown as [Hwf Hdn Hths Hevs Hhds Hsepe Hseph].
  pose proof (wf_queue _ _ _ _ _ Hwf) as Hq.
  pose proof (kind_at_lookup _ _ _ Hq) as Hkq. cbn [obj_kind] in Hkq.
  destruct (queue_wf_item_events _ _ _ _ _ Hwf) as [Hki Hiev].
  assert (∀ e, e ∈ item_events (heap m) (pl ++ fl) → kind_at (heap m) e = Some 3%nat) as Hkie.
  { intros e He. by apply kind_at_event, Hiev. }
  assert (∀ e, e ∈ thread_events ths → kind_at (heap m) e = Some 3%nat) as Hke.
  { intros e He. by apply kind_at_event, Hevs. }
  assert (∀ x, x ∈ thread_handles ths → kind_at (heap m) x = Some 4%nat) as Hkh.
  { intros x Hx. by apply kind_at_thread, Hhds. }
  pose proof (kind_at_event _ _ (wf_done _ _ _ _ _ Hwf)) as Hkd.
  set (d := q_doneevent q) in *.
  set (T := thread_events ths ++ thread_handles ths ++
            (if visits_threads q then [q_thread q] else [])) in *.
  assert (∀ x k, kind_at (heap m) x = Some k → k ≠ 2%nat → k ≠ 4%nat →
                 x ∉ thread_events ths → x ∉ T) as HnT.
  { intros x k Hk H2 H4 Hx. unfold T. apply not_elem_of_app. split; [done|].
    apply not_elem_of_app. split; [eapply kind_not_elem_of; [exact Hkh|exact Hk|done]|].
    destruct (visits_threads q) eqn:Hvis; [|apply not_elem_of_nil].
    destruct Hths as (arr & Harr & _). apply not_elem_of_cons. split; [|apply not_elem_of_nil].
    eapply kind_ne; [exact Hk|by apply (kind_at_lookup _ _ _ Harr)|done]. }
  apply NoDup_cons in Hsepe as [Hdnin Hsepe].
  apply NoDup_app in Hsepe as (Hndie & Hdisj & Hndte).
  assert (P d) as Pd.
  { apply HP; [right; by left|]. intros Hin. apply Hdnin, elem_of_app. by right. }
  assert (∀ b, b ∈ pl ++ fl → P b) as Pi.
  { intros b Hb. apply HP; [do 2 right; apply elem_of_app; by left|].
    eapply kind_not_elem_of; [exact Hke|by apply Hki|done]. }
  assert (∀ e, e ∈ item_events (heap m) (pl ++ fl) → P e) as Pie.
  { intros e He. apply HP; [do 2 right; rewrite !elem_of_app; right; by left|].
    by apply Hdisj. }
  (* what the thread part left alone *)
  assert (heap m4 !! d = heap m !! d) as Hd4.
  { apply Hframe4; [done|eapply kind_ne; [exact Hkd|exact Hkq|done]|].
    eapply HnT; [exact Hkd|done|done|]. intros Hin. apply Hdnin, elem_of_app. by right. }
  assert (∀ b, b ∈ pl ++ fl → heap m4 !! b = heap m !! b) as Hi4.
  { intros b Hb. apply Hframe4; [by apply Pi|eapply kind_ne; [by apply Hki|exact Hkq|done]|].
    eapply HnT; [by apply Hki|done|done|].
    eapply kind_not_elem_of; [exact Hke|by apply Hki|done]. }
  assert (∀ e, e ∈ item_events (heap m) (pl ++ fl) → heap m4 !! e = heap m !! e) as Hie4.
  { intros e He. apply Hframe4; [by apply Pie|eapply kind_ne; [by apply Hkie|exact Hkq|done]|].
    eapply HnT; [by apply Hkie|done|done|]. by apply Hdisj. }
  (* the done event *)
  destruct (wf_done _ _ _ _ _ Hwf) as [evd Hevd]. fold d in Hevd.
  set (m5 := set_heap (delete d (heap m4)) m4).
  assert (d ≠ queue) as Hdq by (eapply kind_ne; [exact Hkd|exact Hkq|done]).
  assert (heap m5 !! queue = Some (OQueue q1)) as Hq5.
  { unfold m5. norm. by rewrite lookup_delete_ne. }
  assert (∀ b, b ∈ pl ++ fl → heap m5 !! b = heap m !! b) as Hi5.
  { intros b Hb. unfold m5. norm. rewrite lookup_delete_ne; [by apply Hi4|].
    eapply kind_ne; [exact Hkd|by apply Hki|done]. }
  assert (∀ e, e ∈ item_events (heap m) (pl ++ fl) → heap m5 !! e = heap m !! e) as Hie5.
  { intros e He. unfold m5. norm. rewrite lookup_delete_ne; [by apply Hie4|].
    intros ->. apply Hdnin, elem_of_app. by left. }
  rewrite item_events_app in *.
  pose proof (wf_nodup _ _ _ _ _ Hwf) as Hndi.
  apply NoDup_app in Hndi as (Hndp & Hdpf & Hndf).
  apply NoDup_app in Hndie as (Hndpe & Hdpfe & Hndfe).
  (* the free list *)
  assert (item_events (heap m5) fl = item_events (heap m) fl) as Hevf5.
  { apply item_events_agree. intros b Hb. apply Hi5, elem_of_app. by right. }
  destruct (free_items_ok queue q_free set_q_free fl) with (fuel := fuel) (m := m5) (q := q1)
    as (m6 & Hrun6 & Hq6 & Hgone6 & Hframe6 & Hb6 & Hs6 & Hc6 & Htr6);
    [done|done|by intros []|done| | | |done|].
  { rewrite Hfree1. eapply seg_agree; [exact (wf_free _ _ _ _ _ Hwf)|].
    intros b Hb. apply Hi5, elem_of_app. by right. }
  { rewrite Hevf5. apply NoDup_app. split; [done|]. split; [|done].
    intros b Hb. eapply (kind_not_elem_of (heap m) _ _ 3%nat 1%nat);
      [|apply Hki, elem_of_app; by right|done].
    intros e He. apply Hkie, elem_of_app. by right. }
  { rewrite Hevf5. intros e He. destruct (Hiev e) as [ev Hev]; [apply elem_of_app; by right|].
    exists ev. rewrite Hie5; [done|]. apply elem_of_app. by right. }
  rewrite Hevf5 in Hgone6, Hframe6.
  (* the pending list *)
  assert (∀ b, b ∈ pl ++ item_events (heap m) pl → heap m6 !! b = heap m !! b) as Hp6.
  { intros b Hb.
    assert (b ∈ pl ++ fl ∨ b ∈ item_events (heap m) pl ++ item_events (heap m) fl) as Hb'.
    { apply elem_of_app in Hb as [Hb|Hb]; [left|right]; apply elem_of_app; by left. }
    assert (b ≠ queue).
    { destruct Hb' as [Hb'|Hb']; (eapply kind_ne; [|exact Hkq|]);
        [by apply Hki|done|by apply Hkie|done]. }
    rewrite Hframe6; [destruct Hb' as [Hb'|Hb']; [by apply Hi5|by apply Hie5]|done|].
    apply not_elem_of_app. apply elem_of_app in Hb as [Hb|Hb].
    - split; [by apply Hdpf|].
      eapply (kind_not_elem_of (heap m) _ _ 3%nat 1%nat);
        [|apply Hki, elem_of_app; by left|done].
      intros e He. apply Hkie, elem_of_app. by right.
    - split; [|by apply Hdpfe].
      eapply (kind_not_elem_of (heap m) _ _ 1%nat 3%nat);
        [|apply Hkie, elem_of_app; by left|done].
      intros x Hx. apply Hki, elem_of_app. by right. }
  assert (item_events (heap m6) pl = item_events (heap m) pl) as Hevp6.
  { apply item_events_agree. intros b Hb. apply Hp6, elem_of_app. by left. }
  destruct (free_items_ok queue q_list set_q_list pl) with (fuel := fuel) (m := m6)
      (q := set_q_free NULL q1)
    as (m7 & Hrun7 & Hq7 & Hgone7 & Hframe7 & Hb7 & Hs7 & Hc7 & Htr7);
    [done|done|by intros []|done| | | |done|].
  { cbn [q_list set_q_free]. rewrite Hlist1.
    eapply seg_agree; [exact (wf_pending _ _ _ _ _ Hwf)|].
    intros b Hb. apply Hp6, elem_of_app. by left. }
  { rewrite Hevp6. apply NoDup_app. split; [done|]. split; [|done].
    intros b Hb. eapply (kind_not_elem_of (heap m) _ _ 3%nat 1%nat);
      [|apply Hki, elem_of_app; by left|done].
    intros e He. apply Hkie, elem_of_app. by left. }
  { rewrite Hevp6. intros e He. destruct (Hiev e) as [ev Hev]; [apply elem_of_app; by left|].
    exists ev. rewrite Hp6; [done|]. apply elem_of_app. by right. }
  rewrite Hevp6 in Hgone7, Hframe7.
  (* the run *)
  exists (set_heap (delete queue (heap m7)) m7). split.
  { unfold osd_work_queue_free.
    rewrite (bind_ret_l _ _ _ _ _ (load_queue_ok _ _ _ Hq)).
    change ((0 <? q_threads q) && negb (q_thread q =? NULL)) with (visits_threads q).
    rewrite Hrun4.
    rewrite (bind_ret_l _ _ _ _ _ (load_queue_ok _ _ _ Hq4)).
    rewrite Hdone1. fold d. destruct (Z.eqb_spec d NULL) as [|_]; [done|]. cbn [negb].
    unfold osd_event_free. rewrite ?bind_bind.
    erewrite bind_ret_l; [|eapply load_event_ok; by rewrite Hd4].
    unfold dealloc at 1. unfold bind at 1. rewrite Hd4, Hevd. fold m5.
    rewrite (bind_ret_l _ _ _ _ _ Hrun6). rewrite (bind_ret_l _ _ _ _ _ Hrun7).
    unfold dealloc. by rewrite Hq7. }
  (* what is gone and what is left *)
  assert (∀ x, x ≠ queue → heap m4 !! x = None → heap m7 !! x = None) as Hnone.
  { intros x Hxq Hx.
    assert (heap m5 !! x = None) as Hx5.
    { unfold m5. norm. destruct (decide (x = d)) as [->|]; [apply lookup_delete_eq|].
      by rewrite lookup_delete_ne. }
    assert (heap m6 !! x = None) as Hx6.
    { destruct (decide (x ∈ fl ++ item_events (heap m) fl)); [by apply Hgone6|].
      by rewrite Hframe6. }
    destruct (decide (x ∈ pl ++ item_events (heap m) pl)); [by apply Hgone7|].
    by rewrite Hframe7. }
  norm. split.
  { intros x Hx. destruct (decide (x = queue)) as [->|Hxq]; [apply lookup_delete_eq|].
    rewrite lookup_delete_ne by done.
    unfold freed_objects in Hx. fold d T in Hx. rewrite item_events_app in Hx.
    apply elem_of_cons in Hx as [?|Hx]; [done|].
    apply elem_of_cons in Hx as [->|Hx].
    { destruct (decide (d ∈ pl ++ item_events (heap m) pl)); [by apply Hgone7|].
      rewrite Hframe7 by done.
      destruct (decide (d ∈ fl ++ item_events (heap m) fl)); [by apply Hgone6|].
      rewrite Hframe6 by done. unfold m5. norm. apply lookup_delete_eq. }
    rewrite !elem_of_app in Hx.
    destruct Hx as [[Hx|Hx]|[[Hx|Hx]|Hx]].
    - apply Hgone7, elem_of_app. by left.
    - destruct (decide (x ∈ pl ++ item_events (heap m) pl)); [by apply Hgone7|].
      rewrite Hframe7 by done. apply Hgone6, elem_of_app. by left.
    - apply Hgone7, elem_of_app. by right.
    - destruct (decide (x ∈ pl ++ item_events (heap m) pl)); [by apply Hgone7|].
      rewrite Hframe7 by done. apply Hgone6, elem_of_app. by right.
    - apply Hnone; [done|]. apply Hgone4.
      first [done | unfold T; rewrite !elem_of_app; tauto]. }
  split.
  { intros a Pa Ha. unfold freed_objects in Ha. fold d T in Ha. rewrite item_events_app in Ha.
    apply not_elem_of_cons in Ha as [Haq Ha]. apply not_elem_of_cons in Ha as [Had Ha].
    apply not_elem_of_app in Ha as [Hai Ha]. apply not_elem_of_app in Hai as [Hap Haf].
    apply not_elem_of_app in Ha as [Hae HaT].
    apply not_elem_of_app in Hae as [Hape Hafe].
    rewrite lookup_delete_ne by done.
    rewrite Hframe7; [|done|by apply not_elem_of_app].
    rewrite Hframe6; [|done|by apply not_elem_of_app].
    unfold m5. norm. rewrite lookup_delete_ne by done. by apply Hframe4. }
  unfold m5 in *. norm in Hb6. norm in Hs6. norm in Hc6. norm in Htr6.
  split_and!; congruence.
Qed.

End QueueFree.

Lemma alloc_fail (o : object) (m : machine) :
  hd false (supply m) = false →
  alloc o m = Ret NULL {| heap := heap m; brk := brk m; supply := tail (supply m);
                          clock := clock m; trace := trace m |}.
Proof.
  intros Hs. unfold alloc. destruct m as [h b s c tr]. cbn in *.
  destruct s as [|[] s]; done.
Qed.

Section StartThread.
Context {host : Platform}.

(** One round of the thread loop of [osd_work_queue_alloc] on a zeroed
    record: both allocations succeed. *)
Lemma start_thread_started (queue flags t : Z) (i : nat) (arr : list mame_thread_info)
    (m : machine) (rest : list bool) :
  heap m !! t = Some (OThreads arr) → arr !! i = Some thread_zero →
  supply m = true :: true :: rest → t < brk m → 0 < brk m →
  ∃ m',
    start_thread queue flags (t, Z.of_nat i) m = Ret true m' ∧
    heap m' !! t =
      Some (OThreads (<[i := mkThread queue (brk m + 1) (brk m) 0]> arr)) ∧
    heap m' !! brk m = Some (OEvent (mkEvent FALSE FALSE)) ∧
    heap m' !! (brk m + 1) = Some (OThread (t, Z.of_nat i)) ∧
    (∀ a, a ≠ t → a ≠ brk m → a ≠ brk m + 1 → heap m' !! a = heap m !! a) ∧
    brk m' = brk m + 2 ∧ supply m' = rest ∧ clock m' = clock m ∧ trace m' = trace m.
Proof.
  intros Ht Hi Hs Hlt Hbrk. destruct m as [h b s c tr]; simpl in *. subst s.
  assert (Z.to_nat (Z.of_nat i) = i) as Hii by lia.
  assert (i < length arr)%nat as Hlen by by eapply lookup_lt_Some.
  unfold start_thread.
  erewrite bind_ret_l; [|eapply modify_thread_ok; [done|by rewrite Hii|lia]].
  unfold osd_event_alloc.
  erewrite bind_ret_l; [|by eapply alloc_ok]. simpl.
  erewrite bind_ret_l; [|eapply modify_thread_ok; simpl;
    [rewrite lookup_insert_ne by lia; apply lookup_insert_eq
    |rewrite Hii; by apply list_lookup_insert_eq|lia]].
  destruct (Z.eqb_spec b NULL) as [Hb|_]; [unfold NULL in Hb; lia|].
  unfold osd_thread_create.
  erewrite bind_ret_l; [|by eapply alloc_ok]. simpl.
  erewrite bind_ret_l; [|eapply modify_thread_ok; simpl;
    [rewrite lookup_insert_ne by lia; apply lookup_insert_eq
    |rewrite Hii; apply list_lookup_insert_eq; by rewrite length_insert|lia]].
  destruct (Z.eqb_spec (b + 1) NULL) as [Hb|_]; [unfold NULL in Hb; lia|].
  unfold osd_thread_adjust_priority. simpl.
  eexists. split; [reflexivity|]. simpl. rewrite Hii.
  split.
  { rewrite lookup_insert_eq. rewrite !list_insert_insert_eq. done. }
  split; [by rewrite !lookup_insert_ne by lia; rewrite lookup_insert_eq|].
  split; [by rewrite !lookup_insert_ne by lia; rewrite lookup_insert_eq|].
  split; [|split_and!; first [done|lia]].
  intros a Hat Hab Hab1. by rewrite !lookup_insert_ne by done.
Qed.

(** The allocation of the wake event fails. *)
Lemma start_thread_no_event (queue flags t : Z) (i : nat) (arr : list mame_thread_info)
    (m : machine) :
  heap m !! t = Some (OThreads arr) → arr !! i = Some thread_zero →
  hd false (supply m) = false →
  ∃ m',
    start_thread queue flags (t, Z.of_nat i) m = Ret false m' ∧
    heap m' !! t = Some (OThreads (<[i := mkThread queue NULL NULL 0]> arr)) ∧
    (∀ a, a ≠ t → heap m' !! a = heap m !! a) ∧
    brk m' = brk m ∧ supply m' = tail (supply m) ∧ clock m' = clock m ∧
    trace m' = trace m.
Proof.
  intros Ht Hi Hs.
  assert (Z.to_nat (Z.of_nat i) = i) as Hii by lia.
  assert (i < length arr)%nat as Hlen by by eapply lookup_lt_Some.
  unfold start_thread.
  erewrite bind_ret_l; [|eapply modify_thread_ok; [done|by rewrite Hii|lia]].
  unfold osd_event_alloc.
  erewrite bind_ret_l; [|by eapply alloc_fail]. norm.
  erewrite bind_ret_l; [|eapply modify_thread_ok; norm;
    [apply lookup_insert_eq|rewrite Hii; by apply list_lookup_insert_eq|lia]].
  norm. rewrite Z.eqb_refl. unfold ret.
  eexists. split; [reflexivity|]. norm. rewrite Hii.
  split; [rewrite lookup_insert_eq, !list_insert_insert_eq; done|].
  split; [|done]. intros a Ha. by rewrite !lookup_insert_ne.
Qed.

(** The wake event is allocated and the creation of the thread fails. *)
Lemma start_thread_no_handle (queue flags t : Z) (i : nat) (arr : list mame_thread_info)
    (m : machine) (tl : list bool) :
  heap m !! t = Some (OThreads arr) → arr !! i = Some thread_zero →
  supply m = true :: tl → hd false tl = false → t < brk m → 0 < brk m →
  ∃ m',
    start_thread queue flags (t, Z.of_nat i) m = Ret false m' ∧
    heap m' !! t = Some (OThreads (<[i := mkThread queue NULL (brk m) 0]> arr)) ∧
    heap m' !! brk m = Some (OEvent (mkEvent FALSE FALSE)) ∧
    (∀ a, a ≠ t → a ≠ brk m → heap m' !! a = heap m !! a) ∧
    brk m' = brk m + 1 ∧ supply m' = tail tl ∧ clock m' = clock m ∧ trace m' = trace m.
Proof.
  intros Ht Hi Hs Htl Hlt Hbrk. destruct m as [h b s c tr]; simpl in *. subst s.
  assert (Z.to_nat (Z.of_nat i) = i) as Hii by lia.
  assert (i < length arr)%nat as Hlen by by eapply lookup_lt_Some.
  unfold start_thread.
  erewrite bind_ret_l; [|eapply modify_thread_ok; [done|by rewrite Hii|lia]].
  unfold osd_event_alloc.
  erewrite bind_ret_l; [|by eapply alloc_ok]. simpl.
  erewrite bind_ret_l; [|eapply modify_thread_ok; simpl;
    [rewrite lookup_insert_ne by lia; apply lookup_insert_eq
    |rewrite Hii; by apply list_lookup_insert_eq|lia]].
  destruct (Z.eqb_spec b NULL) as [Hb|_]; [unfold NULL in Hb; lia|].
  unfold osd_thread_create.
  erewrite bind_ret_l; [|by eapply alloc_fail]. norm.
  erewrite bind_ret_l; [|eapply modify_thread_ok; norm;
    [apply lookup_insert_eq
    |rewrite Hii; apply list_lookup_insert_eq; by rewrite length_insert|lia]].
  norm. rewrite Z.eqb_refl. unfold ret.
  eexists. split; [reflexivity|]. norm. rewrite Hii.
  split; [rewrite lookup_insert_eq, !list_insert_insert_eq; done|].
  split; [by rewrite !lookup_insert_ne by lia; rewrite lookup_insert_eq|].
  split; [|done]. intros a Hat Hab. by rewrite !lookup_insert_ne by done.
Qed.

End StartThread.

Lemma started_threads_length (queue b : Z) (k : nat) :
  length (started_threads queue b k) = k.
Proof. unfold started_threads. by rewrite length_map, length_seq. Qed.

Lemma started_threads_S (queue b : Z) (k : nat) :
  started_threads queue b (S k) = started_threads queue b k ++ [started_thread queue b k].
Proof. unfold started_threads. by rewrite seq_S, map_app. Qed.

Lemma started_threads_lookup (queue b : Z) (k i : nat) :
  (i < k)%nat → started_threads queue b k !! i = Some (started_thread queue b i).
Proof.
  intros Hi. unfold started_threads. rewrite list_lookup_fmap.
  rewrite lookup_seq_lt by done. done.
Qed.

Lemma for_loop_app {A} (a b : nat) (body : Z → M (option A)) :
  ∀ (from : Z) (m m1 : machine),
    for_loop a from body m = Ret None m1 →
    for_loop (a + b) from body m = for_loop b (from + Z.of_nat a) body m1.
Proof.
  induction a as [|a IH]; intros from m m1 Hrun.
  - apply ret_inv in Hrun as [_ ->]. cbn [Nat.add].
    by replace (from + Z.of_nat 0) with from by lia.
  - cbn [for_loop Nat.add] in *. apply bind_inv in Hrun as ([x|] & m2 & Hbody & Hrun).
    + by apply ret_inv in Hrun as [? _].
    + rewrite (bind_ret_l _ _ _ _ _ Hbody). rewrite (IH _ _ _ Hrun). f_equal. lia.
Qed.

Section StartThreads.
Context {host : Platform}.

(** The thread loop when every allocation succeeds. *)
Lemma start_threads_shape (queue flags t b : Z) (count : nat) :
  ∀ (k r : nat) (m : machine) (rest : list bool),
    heap m !! t =
      Some (OThreads (started_threads queue b k ++ replicate (count + r) thread_zero)) →
    brk m = b + 2 * Z.of_nat k →
    supply m = replicate (2 * count) true ++ rest → t < b → 0 < b →
    ∃ m',
      for_loop count (Z.of_nat k) (λ threadnum,
        ok <- start_thread queue flags (t, threadnum);
        ret (if ok : bool then None else Some tt)) m = Ret None m' ∧
      heap m' !! t =
        Some (OThreads (started_threads queue b (k + count) ++ replicate r thread_zero)) ∧
      (∀ i, (k ≤ i < k + count)%nat →
            heap m' !! (b + 2 * Z.of_nat i) = Some (OEvent (mkEvent FALSE FALSE)) ∧
            heap m' !! (b + 2 * Z.of_nat i + 1) = Some (OThread (t, Z.of_nat i))) ∧
      (∀ a, a ≠ t → a < brk m ∨ brk m' ≤ a → heap m' !! a = heap m !! a) ∧
      brk m' = b + 2 * Z.of_nat (k + count) ∧ supply m' = rest ∧
      clock m' = clock m ∧ trace m' = trace m.
Proof.
  induction count as [|count IH]; intros k r m rest Ht Hb Hs Hlt Hpos.
  - cbn in *. exists m. rewrite Nat.add_0_r. split_and!; first [done|lia|intros; lia].
  - replace (2 * S count)%nat with (S (S (2 * count))) in Hs by lia. cbn [replicate app] in Hs.
    destruct (start_thread_started queue flags t k _ m (replicate (2 * count) true ++ rest) Ht)
      as (m1 & Hrun1 & Ht1 & He1 & Hh1 & Hframe1 & Hb1 & Hs1 & Hc1 & Htr1);
      [|done|lia|lia|].
    { rewrite lookup_app_r by (rewrite started_threads_length; lia).
      rewrite started_threads_length, Nat.sub_diag. done. }
    assert (<[k := mkThread queue (brk m + 1) (brk m) 0]>
              (started_threads queue b k ++ replicate (S count + r) thread_zero) =
            started_threads queue b (S k) ++ replicate (count + r) thread_zero) as Harr.
    { rewrite started_threads_S, <- app_assoc.
      rewrite insert_app_r_alt by (rewrite started_threads_length; lia).
      rewrite started_threads_length, Nat.sub_diag. unfold started_thread.
      rewrite Hb. reflexivity. }
    rewrite Harr in Ht1.
    destruct (IH (S k) r m1 rest Ht1) as (m' & Hrun & Ht' & Hobj & Hframe & Hb' & Hs' & Hc' & Htr');
      [lia|done|done|done|].
    exists m'. split.
    { cbn [for_loop]. rewrite ?bind_bind. rewrite (bind_ret_l _ _ _ _ _ Hrun1).
      unfold ret at 1. unfold bind at 1.
      replace (Z.of_nat k + 1) with (Z.of_nat (S k)) by lia. exact Hrun. }
    split; [by replace (k + S count)%nat with (S k + count)%nat by lia|].
    split.
    { intros i Hi. destruct (decide (i = k)) as [->|Hne].
      - rewrite !Hframe by lia. by rewrite <- Hb.
      - apply Hobj. lia. }
    split.
    { intros a Ha Hr. rewrite Hframe by lia. apply Hframe1; lia. }
    split_and!; try congruence. lia.
Qed.

End StartThreads.

Lemma thread_events_app (l1 l2 : list mame_thread_info) :
  thread_events (l1 ++ l2) = thread_events l1 ++ thread_events l2.
Proof. unfold thread_events. apply flat_map_app. Qed.

Lemma thread_handles_app (l1 l2 : list mame_thread_info) :
  thread_handles (l1 ++ l2) = thread_handles l1 ++ thread_handles l2.
Proof. unfold thread_handles. apply flat_map_app. Qed.

Lemma thread_events_zero (r : nat) : thread_events (replicate r thread_zero) = [].
Proof. induction r as [|r IH]; [done|]. cbn. exact IH. Qed.

Lemma thread_handles_zero (r : nat) : thread_handles (replicate r thread_zero) = [].
Proof. induction r as [|r IH]; [done|]. cbn. exact IH. Qed.

Lemma nonnull_pos (p : Z) : 0 < p → nonnull p = [p].
Proof. intros Hp. unfold nonnull. destruct (Z.eqb_spec p NULL) as [Hz|]; [|done].
  unfold NULL in Hz. lia. Qed.

Lemma elem_of_thread_events_started (queue b e : Z) (i : nat) :
  0 < b →
  e ∈ thread_events (started_threads queue b i) ↔
  ∃ k, (k < i)%nat ∧ e = b + 2 * Z.of_nat k.
Proof.
  intros Hb. induction i as [|i IH].
  - split; [by intros ?%elem_of_nil|]. intros (k & Hk & _). lia.
  - rewrite started_threads_S, thread_events_app, elem_of_app, IH.
    cbn. rewrite app_nil_r, nonnull_pos by lia. rewrite list_elem_of_singleton. split.
    + intros [(k & Hk & ->)| ->]; [exists k; split; [lia|done]|exists i; split; [lia|done]].
    + intros (k & Hk & ->). destruct (decide (k = i)) as [->|]; [by right|].
      left. exists k. split; [lia|done].
Qed.

Lemma elem_of_thread_handles_started (queue b x : Z) (i : nat) :
  0 < b →
  x ∈ thread_handles (started_threads queue b i) ↔
  ∃ k, (k < i)%nat ∧ x = b + 2 * Z.of_nat k + 1.
Proof.
  intros Hb. induction i as [|i IH].
  - split; [by intros ?%elem_of_nil|]. intros (k & Hk & _). lia.
  - rewrite started_threads_S, thread_handles_app, elem_of_app, IH.
    cbn. rewrite app_nil_r, nonnull_pos by lia. rewrite list_elem_of_singleton. split.
    + intros [(k & Hk & ->)| ->]; [exists k; split; [lia|done]|exists i; split; [lia|done]].
    + intros (k & Hk & ->). destruct (decide (k = i)) as [->|]; [by right|].
      left. exists k. split; [lia|done].
Qed.

Lemma NoDup_thread_events_started (queue b : Z) (i : nat) :
  0 < b → NoDup (thread_events (started_threads queue b i)).
Proof.
  intros Hb. induction i as [|i IH]; [apply NoDup_nil_2|].
  rewrite started_threads_S, thread_events_app. cbn.
  rewrite app_nil_r, nonnull_pos by lia. apply NoDup_app. split; [done|].
  split; [|apply NoDup_singleton].
  intros e He ->%list_elem_of_singleton.
  apply elem_of_thread_events_started in He as (k & Hk & Heq); [lia|done].
Qed.

Lemma NoDup_thread_handles_started (queue b : Z) (i : nat) :
  0 < b → NoDup (thread_handles (started_threads queue b i)).
Proof.
  intros Hb. induction i as [|i IH]; [apply NoDup_nil_2|].
  rewrite started_threads_S, thread_handles_app. cbn.
  rewrite app_nil_r, nonnull_pos by lia. apply NoDup_app. split; [done|].
  split; [|apply NoDup_singleton].
  intros e He ->%list_elem_of_singleton.
  apply elem_of_thread_handles_started in He as (k & Hk & Heq); [lia|done].
Qed.

Section AllocPrefix.
Context {host : Platform}.

(** [osd_work_queue_alloc] up to the thread loop, when the queue, the done
    event and the thread array are allocated. *)
Lemma alloc_prefix (fuel : nat) (flags : Z) (m : machine) (rest : list bool) :
  0 < brk m → supply m = true :: true :: true :: rest →
  let n := choose_threads effective_num_processors flags in
  ∃ m3,
    osd_work_queue_alloc fuel flags m =
      (r <- for_loop (Z.to_nat n) 0 (λ threadnum,
              ok <- start_thread (brk m) flags (brk m + 2, threadnum);
              ret (if ok : bool then None else Some tt));
       match r with
       | Some _ => _ <- osd_work_queue_free fuel (brk m); ret NULL
       | None => ret (brk m)
       end) m3 ∧
    heap m3 !! brk m = Some (OQueue (new_queue (brk m) flags)) ∧
    heap m3 !! (brk m + 1) = Some (OEvent (mkEvent TRUE TRUE)) ∧
    heap m3 !! (brk m + 2) = Some (OThreads (replicate (Z.to_nat (n + 1)) thread_zero)) ∧
    (∀ a, a < brk m ∨ brk m + 3 ≤ a → heap m3 !! a = heap m !! a) ∧
    brk m3 = brk m + 3 ∧ supply m3 = rest ∧ clock m3 = clock m ∧ trace m3 = trace m.
Proof.
  intros Hbrk Hs n. destruct m as [h b s c tr]; simpl in *. subst s.
  unfold osd_work_queue_alloc. fold n.
  erewrite bind_ret_l; [|by eapply alloc_ok]. norm.
  destruct (Z.eqb_spec b NULL) as [Hb|_]; [unfold NULL in Hb; lia|].
  unfold store at 1. unfold bind at 1. norm. rewrite insert_insert_eq.
  erewrite bind_ret_l; [|eapply modify_queue_ok; norm; apply lookup_insert_eq].
  norm. rewrite insert_insert_eq.
  erewrite bind_ret_l; [|eapply modify_queue_ok; norm; apply lookup_insert_eq].
  norm. rewrite insert_insert_eq.
  unfold osd_event_alloc.
  erewrite bind_ret_l; [|by eapply alloc_ok]. norm.
  erewrite bind_ret_l; [|eapply modify_queue_ok; norm;
    rewrite lookup_insert_ne by lia; apply lookup_insert_eq]. norm.
  destruct (Z.eqb_spec (b + 1) NULL) as [Hb|_]; [unfold NULL in Hb; lia|].
  erewrite bind_ret_l; [|eapply modify_queue_ok; norm; apply lookup_insert_eq].
  norm. rewrite insert_insert_eq.
  erewrite bind_ret_l; [|eapply modify_queue_ok; norm; apply lookup_insert_eq].
  norm. rewrite insert_insert_eq.
  erewrite bind_ret_l; [|eapply load_queue_ok; norm; apply lookup_insert_eq].
  cbn [q_threads set_q_threads]. fold n.
  erewrite bind_ret_l; [|by eapply alloc_ok]. norm.
  erewrite bind_ret_l; [|eapply modify_queue_ok; norm;
    rewrite lookup_insert_ne by lia; apply lookup_insert_eq]. norm.
  destruct (Z.eqb_spec (b + 1 + 1) NULL) as [Hb|_]; [unfold NULL in Hb; lia|].
  unfold store at 1. unfold bind at 1. norm.
  replace (b + 1 + 1) with (b + 2) by lia.
  eexists. split; [reflexivity|]. norm.
  split.
  { rewrite lookup_insert_ne by lia. rewrite lookup_insert_eq.
    unfold new_queue. fold n. reflexivity. }
  split; [by heap_lookup|]. split; [by heap_lookup|].
  split; [intros a Ha; by heap_lookup|]. split_and!; first [done|lia].
Qed.

End AllocPrefix.

(** The two readings of "the other threads do nothing to the objects in
    [b, b + j) but change the state of wake events". *)
Lemma wake_only_quiet {host : Platform} (b j : Z) :
  (∀ h a, b ≤ a < b + j →
          others h !! a = h !! a ∨
          ∃ (k : nat) ev ev', a = b + 3 + 2 * Z.of_nat k ∧
            h !! a = Some (OEvent ev) ∧ others h !! a = Some (OEvent ev')) →
  (∀ h a, b ≤ a < b + j → (∀ k : nat, a ≠ b + 3 + 2 * Z.of_nat k) →
          others h !! a = h !! a) ∧
  (∀ h a, b ≤ a < b + j → event_step (h !! a) (others h !! a)).
Proof.
  intros Hoth. split.
  - intros h a Ha Hk. destruct (Hoth h a Ha) as [Heq|(k & ev & ev' & -> & _)]; [done|].
    by destruct (Hk k).
  - intros h a Ha. destruct (Hoth h a Ha) as [Heq|(k & ev & ev' & _ & H1 & H2)].
    + by left.
    + right. by exists ev, ev'.
Qed.

(** The workers of [waking_host] touch the wake events only, and only
    their state. *)
Lemma waking_host_step (numprocs : Z) (es : list Z) (h : gmap Z object) (a : Z) :
  let host := waking_host numprocs es in
  others h !! a = h !! a ∨
  (a ∈ es ∧ ∃ ev ev', h !! a = Some (OEvent ev) ∧ others h !! a = Some (OEvent ev')).
Proof.
  cbn [others waking_host]. induction es as [|e es IH]; [by left|].
  cbn [foldr]. destruct (decide (a = e)) as [->|Hne].
  - rewrite lookup_alter_eq.
    destruct IH as [Heq|(_ & ev & ev' & H1 & H2)].
    + rewrite Heq. destruct (h !! e) as [[| | |ev|]|] eqn:He; try (by left).
      cbn [fmap option_fmap option_map consume_signal].
      destruct (ev_manualreset ev =? 0); [|by left].
      right. split; [by left|]. by eexists _, _.
    + rewrite H2. cbn [fmap option_fmap option_map consume_signal].
      right. split; [by left|]. exists ev.
      destruct (ev_manualreset ev' =? 0); by eexists.
  - rewrite lookup_alter_ne by done.
    destruct IH as [Heq|(Hin & Hrest)]; [by left|]. right. split; [by right|done].
Qed.

Section AllocOwns.
Context {host : Platform}.

(** The queue that [osd_work_queue_alloc] returns owns its objects. *)
Lemma osd_work_queue_alloc_owns (fuel : nat) (flags : Z) (m : machine) (rest : list bool) :
  let n := choose_threads effective_num_processors flags in
  heap_fresh m →
  supply m = replicate (3 + 2 * Z.to_nat n) true ++ rest →
  ∃ m',
    osd_work_queue_alloc fuel flags m = Ret (brk m) m' ∧
    queue_owns m' (brk m) (new_queue (brk m) flags) [] []
      (started_threads (brk m) (brk m + 3) (Z.to_nat n)) ∧
    heap m' !! (brk m + 2) =
      Some (OThreads (started_threads (brk m) (brk m + 3) (Z.to_nat n) ++ [thread_zero])) ∧
    (∀ a, a < brk m ∨ brk m + 3 + 2 * n ≤ a → heap m' !! a = heap m !! a) ∧
    brk m' = brk m + 3 + 2 * n ∧ supply m' = rest ∧
    clock m' = clock m ∧ trace m' = trace m.
Proof.
  intros n Hfresh Hs.
  pose proof (choose_threads_range effective_num_processors flags) as [Hn0 Hn16]. fold n in Hn0.
  assert (0 ≤ n) as Hn by lia.
  pose proof Hfresh as [Hbrk Hfr].
  destruct (osd_work_queue_alloc_wf fuel flags m rest Hfresh Hs) as (m0 & Hrun0 & Hwf & _).
  cbn [replicate Nat.add app] in Hs.
  destruct (alloc_prefix fuel flags m _ Hbrk Hs)
    as (m3 & Hrun3 & Hq3 & Hd3 & Ht3 & Hframe3 & Hb3 & Hs3 & Hc3 & Htr3). fold n in Hrun3, Ht3.
  set (b := brk m) in *.
  destruct (start_threads_shape b flags (b + 2) (b + 3) (Z.to_nat n) 0 1 m3 rest)
    as (m' & Hrun & Ht' & Hobj & Hframe & Hb' & Hs' & Hc' & Htr'); [|lia|done|lia|lia|].
  { rewrite Ht3. cbn [started_threads seq map app]. do 3 f_equal. lia. }
  cbn [Nat.add] in Ht', Hobj, Hb'.
  assert (osd_work_queue_alloc fuel flags m = Ret b m') as Hrun'.
  { rewrite Hrun3. by rewrite (bind_ret_l _ _ _ _ _ Hrun). }
  assert (m0 = m') as -> by congruence.
  exists m'. split; [done|].
  assert (∀ e, e ∈ thread_events (started_threads b (b + 3) (Z.to_nat n)) →
               is_event (heap m') e) as Hevs.
  { intros e He. apply elem_of_thread_events_started in He as (k & Hk & ->); [|lia].
    destruct (Hobj k) as [He _]; [lia|]. by eexists. }
  assert (∀ x, x ∈ thread_handles (started_threads b (b + 3) (Z.to_nat n)) →
               is_thread (heap m') x) as Hhds.
  { intros e He. apply elem_of_thread_handles_started in He as (k & Hk & ->); [|lia].
    destruct (Hobj k) as [_ He]; [lia|]. by eexists. }
  split; [|split; [done|]].
  - split; try done.
    + cbn. unfold NULL. lia.
    + unfold visits_threads. cbn [q_threads q_thread new_queue]. fold n.
      destruct (Z.ltb_spec 0 n) as [Hpos|Hz]; cbn [andb].
      * destruct (Z.eqb_spec (b + 2) NULL) as [Hnull|_]; [unfold NULL in Hnull; lia|].
        cbn [negb]. eexists. split; [exact Ht'|]. split.
        { rewrite take_app_length'; [done|]. by rewrite started_threads_length. }
        rewrite length_app, started_threads_length. cbn. lia.
      * replace (Z.to_nat n) with O by lia. done.
    + cbn [app item_events flat_map q_doneevent new_queue]. apply NoDup_cons. split.
      * intros He. apply elem_of_thread_events_started in He as (k & Hk & Heq); lia.
      * apply NoDup_thread_events_started. lia.
    + apply NoDup_thread_handles_started. lia.
  - split.
    { intros a Ha. rewrite Hframe by lia. apply Hframe3. lia. }
    split_and!; try congruence. lia.
Qed.

(** X3.  [osd_work_queue_alloc] followed by [osd_work_queue_free] on a
    queue with workers, while the other threads do nothing to the objects
    of the queue but change the state of its wake events (the allocations
    [brk m + 3 + 2 k]), as the workers do that wake up, consume the signal,
    find [exiting] set and leave: the second call sets [exiting], signals
    the wake event of every worker in thread order, joins the workers, and
    frees every object that the first call allocated. *)
Theorem queue_alloc_free_round_trip (fuel : nat) (flags : Z) (m : machine)
    (rest : list bool) :
  let n := choose_threads effective_num_processors flags in
  heap_fresh m → 0 < n → (0 < fuel)%nat →
  supply m = replicate (3 + 2 * Z.to_nat n) true ++ rest →
  (∀ h a, brk m ≤ a < brk m + (3 + 2 * n) →
          others h !! a = h !! a ∨
          ∃ (k : nat) ev ev', a = brk m + 3 + 2 * Z.of_nat k ∧
            h !! a = Some (OEvent ev) ∧ others h !! a = Some (OEvent ev')) →
  ∃ m1 m2,
    osd_work_queue_alloc fuel flags m = Ret (brk m) m1 ∧
    osd_work_queue_free fuel (brk m) m1 = Ret tt m2 ∧
    (∀ a, brk m ≤ a < brk m + 3 + 2 * n → is_Some (heap m1 !! a) ∧ heap m2 !! a = None) ∧
    trace m2 = trace m ++
      map (λ k, EvEventSet (brk m + 3 + 2 * Z.of_nat k)) (seq 0 (Z.to_nat n)) ∧
    supply m2 = rest.
Proof.
  intros n Hfresh Hn Hfuel Hs Hquiet.
  destruct (osd_work_queue_alloc_owns fuel flags m rest Hfresh Hs)
    as (m1 & Hrun1 & Hown & Ht1 & Hframe1 & Hb1 & Hs1 & Hc1 & Htr1). fold n in Hown, Ht1.
  pose proof Hfresh as [Hbrk _]. set (b := brk m) in *.
  set (ths := started_threads b (b + 3) (Z.to_nat n)) in *.
  assert (visits_threads (new_queue b flags) = true) as Hvis.
  { unfold visits_threads. cbn [q_threads q_thread new_queue]. fold n.
    destruct (Z.ltb_spec 0 n); [|lia].
    destruct (Z.eqb_spec (b + 2) NULL) as [Hnull|_]; [unfold NULL in Hnull; lia|]. done. }
  assert (∀ a, b ≤ a < b + 3 + 2 * n ↔ a ∈ freed_objects m1 b (new_queue b flags) [] [] ths)
    as Hfreed.
  { intros a. unfold freed_objects. rewrite Hvis.
    cbn [app item_events flat_map q_doneevent q_thread new_queue].
    rewrite !elem_of_cons, !elem_of_app, list_elem_of_singleton.
    unfold ths. rewrite elem_of_thread_events_started, elem_of_thread_handles_started by lia.
    split.
    - intros Ha. destruct (decide (a = b)) as [|Hab]; [by left|]. right.
      destruct (decide (a = b + 1)) as [|Hab1]; [by left|]. right.
      destruct (decide (a = b + 2)) as [|Hab2]; [by do 2 right|].
      destruct (Z.even (a - (b + 3))) eqn:Hev.
      + left. exists (Z.to_nat ((a - (b + 3)) / 2)).
        apply Z.even_spec in Hev as [k Hk]. rewrite Hk.
        rewrite Z.mul_comm, Z.div_mul by lia. lia.
      + right. left. exists (Z.to_nat ((a - (b + 3)) / 2)).
        rewrite <- Z.negb_odd in Hev. apply negb_false_iff, Z.odd_spec in Hev as [k Hk].
        rewrite Hk. rewrite Z.mul_comm, Z.div_add_l by lia.
        change (1 / 2) with 0. lia.
    - intros [->|[->|[(k & Hk & ->)|[(k & Hk & ->)| ->]]]]; lia. }
  destruct (wake_only_quiet b (3 + 2 * n) Hquiet) as [Hrest Hwake].
  destruct (osd_work_queue_free_ok fuel b (new_queue b flags) [] [] ths
              (λ a, b ≤ a < b + (3 + 2 * n) ∧ ∀ k : nat, a ≠ b + 3 + 2 * Z.of_nat k)
              m1 Hown)
    as (m2 & Hrun2 & Hgone & _ & Htr2 & _ & Hs2 & _).
  { intros _ h a [Ha Hk]. by apply Hrest. }
  { intros h e He. apply Hwake.
    apply elem_of_thread_events_started in He as (k & Hk & ->); lia. }
  { intros x Hx Hnin. apply Hfreed in Hx. split; [lia|]. intros k ->.
    apply Hnin, elem_of_thread_events_started; [lia|]. exists k. split; [lia|done]. }
  { simpl. lia. }
  { simpl. lia. }
  exists m1, m2. split; [done|]. split; [done|]. split.
  { intros a Ha. split; [|by apply Hgone, Hfreed].
    destruct (decide (a = b)) as [->|Hab]; [by rewrite (wf_queue _ _ _ _ _ (own_wf _ _ _ _ _ _ Hown))|].
    destruct (decide (a = b + 1)) as [->|Hab1].
    { destruct (wf_done _ _ _ _ _ (own_wf _ _ _ _ _ _ Hown)) as [ev Hev].
      cbn in Hev. by rewrite Hev. }
    destruct (decide (a = b + 2)) as [->|Hab2]; [by rewrite Ht1|].
    apply Hfreed in Ha. unfold freed_objects in Ha. rewrite Hvis in Ha.
    cbn [app item_events flat_map q_doneevent q_thread new_queue] in Ha.
    rewrite !elem_of_cons, !elem_of_app, list_elem_of_singleton in Ha.
    destruct Ha as [?|[?|[Ha|[Ha|?]]]]; try done.
    - destruct (own_events _ _ _ _ _ _ Hown a Ha) as [ev Hev]. by rewrite Hev.
    - destruct (own_handles _ _ _ _ _ _ Hown a Ha) as [p Hp]. by rewrite Hp. }
  split; [|congruence].
  rewrite Htr2, Htr1. f_equal. unfold ths, started_threads, thread_events.
  clear -Hbrk. induction (seq 0 (Z.to_nat n)) as [|k l IH]; [done|].
  cbn [map flat_map]. rewrite map_app, IH. cbn [th_wakeevent started_thread].
  by rewrite nonnull_pos by lia.
Qed.

(** X4.  On a queue without workers [osd_work_queue_free] frees the queue
    and the done event, but not the thread array that
    [osd_work_queue_alloc] allocated for the calling thread (line 253): the
    array is freed inside the test [queue->threads > 0] of line 354 only.
    Everything else is left as it is. *)
Theorem queue_free_keeps_thread_array (fuel : nat) (flags : Z) (m : machine)
    (rest : list bool) :
  choose_threads effective_num_processors flags = 0 →
  heap_fresh m → (0 < fuel)%nat → supply m = true :: true :: true :: rest →
  ∃ m1 m2,
    osd_work_queue_alloc fuel flags m = Ret (brk m) m1 ∧
    osd_work_queue_free fuel (brk m) m1 = Ret tt m2 ∧
    heap m2 !! brk m = None ∧ heap m2 !! (brk m + 1) = None ∧
    heap m2 !! (brk m + 2) = Some (OThreads [thread_zero]) ∧
    (∀ a, a ≠ brk m + 2 → heap m2 !! a = heap m !! a) ∧
    trace m2 = trace m ∧ supply m2 = rest.
Proof.
  intros Hn Hfresh Hfuel Hs.
  destruct (osd_work_queue_alloc_owns fuel flags m rest Hfresh)
    as (m1 & Hrun1 & Hown & Ht1 & Hframe1 & Hb1 & Hs1 & Hc1 & Htr1);
    [by rewrite Hn|].
  rewrite Hn in *. cbn [Z.to_nat started_threads seq map app] in *.
  pose proof Hfresh as [Hbrk Hfr]. set (b := brk m) in *.
  assert (visits_threads (new_queue b flags) = false) as Hvis.
  { unfold visits_threads. cbn [q_threads new_queue]. by rewrite Hn. }
  assert (freed_objects m1 b (new_queue b flags) [] [] [] = [b; b + 1]) as Hfreed.
  { unfold freed_objects. by rewrite Hvis. }
  destruct (osd_work_queue_free_ok fuel b (new_queue b flags) [] [] [] (λ _, True) m1 Hown)
    as (m2 & Hrun2 & Hgone & Hframe2 & Htr2 & _ & Hs2 & _);
    [done|by intros ? ? ?%elem_of_nil|done|simpl; lia|simpl; lia|].
  rewrite Hfreed in Hgone, Hframe2.
  exists m1, m2. split; [done|]. split; [done|].
  split; [apply Hgone; by left|]. split; [apply Hgone; right; by left|].
  split.
  { rewrite Hframe2; [done|done|].
    intros [?|[?|?%elem_of_nil]%elem_of_cons]%elem_of_cons; [lia|lia|done]. }
  split.
  { intros a Ha. destruct (decide (a = b)) as [->|Hab].
    { rewrite Hfr by lia. apply Hgone. by left. }
    destruct (decide (a = b + 1)) as [->|Hab1].
    { rewrite Hfr by lia. apply Hgone. right. by left. }
    rewrite Hframe2; [|done|].
    - destruct (Z.lt_ge_cases a b); [apply Hframe1; lia|].
      apply Hframe1. lia.
    - intros [?|[?|?%elem_of_nil]%elem_of_cons]%elem_of_cons; done. }
  cbn in Htr2. rewrite app_nil_r in Htr2. split; congruence.
Qed.

End AllocOwns.

Lemma queue_alloc_free_round_trip_witness :
  let host := waking_host 4 [4; 6; 8] in
  ∃ m1 m2,
    osd_work_queue_alloc 1 2 (boot 9) = Ret 1 m1 ∧
    osd_work_queue_free 1 1 m1 = Ret tt m2 ∧
    (∀ a, 1 ≤ a < 1 + 3 + 2 * 3 → is_Some (heap m1 !! a) ∧ heap m2 !! a = None) ∧
    trace m2 = [] ++ map (λ k, EvEventSet (1 + 3 + 2 * Z.of_nat k)) (seq 0 (Z.to_nat 3)) ∧
    supply m2 = [].
Proof.
  intros host.
  apply (@queue_alloc_free_round_trip host 1%nat 2 (boot 9) []);
    [apply heap_fresh_boot|reflexivity|lia|reflexivity|].
  intros h a Ha.
  destruct (waking_host_step 4 [4; 6; 8] h a) as [Heq|[Hin (ev & ev' & Hev)]]; [by left|].
  right. change (brk (boot 9)) with 1.
  apply elem_of_cons in Hin as [->|Hin]; [by exists 0%nat, ev, ev'|].
  apply elem_of_cons in Hin as [->|Hin]; [by exists 1%nat, ev, ev'|].
  apply list_elem_of_singleton in Hin as ->. by exists 2%nat, ev, ev'.
Defined.

Lemma queue_free_keeps_thread_array_witness :
  let host := example_host 1 None in
  ∃ m1 m2,
    osd_work_queue_alloc 1 0 (boot 3) = Ret 1 m1 ∧
    osd_work_queue_free 1 1 m1 = Ret tt m2 ∧
    heap m2 !! 1 = None ∧ heap m2 !! (1 + 1) = None ∧
    heap m2 !! (1 + 2) = Some (OThreads [thread_zero]) ∧
    (∀ a, a ≠ 1 + 2 → heap m2 !! a = heap (boot 3) !! a) ∧
    trace m2 = [] ∧ supply m2 = [].
Proof.
  intros host.
  apply (@queue_free_keeps_thread_array host 1%nat 0 (boot 3) []);
    [reflexivity|apply heap_fresh_boot|lia|reflexivity].
Defined.

Lemma queue_wf_empty (m : machine) (queue : Z) (q : osd_work_queue) :
  heap m !! queue = Some (OQueue q) →
  q_lock q = scalable_lock_init → q_list q = NULL → q_tailptr q = LocList queue →
  q_free q = NULL → q_items q = 0 →
  is_event (heap m) (q_doneevent q) → heap_fresh m →
  queue_wf m queue q [] [].
Proof.
  intros Hq Hlock Hlist Htail Hfree Hitems Hdone Hfresh.
  split; try done.
  - rewrite Hlock. apply lock_ready_init.
  - apply NoDup_nil_2.
  - by intros a it Ha%elem_of_nil.
Qed.

Section AllocFails.
Context {host : Platform}.

(** The thread loop when the allocation of worker [i] fails: of the wake
    event, or ([with_event]) of the thread. *)
Lemma start_threads_fail (queue flags t b : Z) (n i : nat) (with_event : bool)
    (m : machine) (tl : list bool) :
  heap m !! t = Some (OThreads (replicate (S n) thread_zero)) → brk m = b → (i < n)%nat →
  supply m = replicate (2 * i) true ++ (if with_event then true :: tl else tl) →
  hd false tl = false → t < b → 0 < b →
  ∃ m',
    for_loop n 0 (λ threadnum,
      ok <- start_thread queue flags (t, threadnum);
      ret (if ok : bool then None else Some tt)) m = Ret (Some tt) m' ∧
    heap m' !! t =
      Some (OThreads (started_threads queue b i ++
                      mkThread queue NULL (if with_event then b + 2 * Z.of_nat i else NULL) 0
                      :: replicate (n - i) thread_zero)) ∧
    (∀ k, (k < i)%nat →
          heap m' !! (b + 2 * Z.of_nat k) = Some (OEvent (mkEvent FALSE FALSE)) ∧
          heap m' !! (b + 2 * Z.of_nat k + 1) = Some (OThread (t, Z.of_nat k))) ∧
    (with_event = true →
     heap m' !! (b + 2 * Z.of_nat i) = Some (OEvent (mkEvent FALSE FALSE))) ∧
    (∀ a, a ≠ t → a < b ∨ brk m' ≤ a → heap m' !! a = heap m !! a) ∧
    brk m' = b + 2 * Z.of_nat i + (if with_event then 1 else 0) ∧
    supply m' = tail tl ∧ clock m' = clock m ∧ trace m' = trace m.
Proof.
  intros Ht Hb Hi Hs Htl Hlt Hpos.
  destruct (start_threads_shape queue flags t b i 0 (S n - i) m
              (if with_event then true :: tl else tl))
    as (m1 & Hrun1 & Ht1 & Hobj1 & Hframe1 & Hb1 & Hs1 & Hc1 & Htr1); [|lia|done|done|done|].
  { rewrite Ht. cbn [started_threads seq map app]. do 3 f_equal. lia. }
  cbn [Nat.add] in Ht1, Hobj1, Hb1. change (Z.of_nat 0) with 0 in Hrun1.
  pose proof (for_loop_app i (S (n - i - 1)) _ _ _ _ Hrun1) as Happ.
  replace (i + S (n - i - 1))%nat with n in Happ by lia.
  rewrite Happ. clear Happ. cbn [for_loop]. rewrite Z.add_0_l.
  assert ((started_threads queue b i ++ replicate (S n - i) thread_zero) !! i
          = Some thread_zero) as Hzero.
  { rewrite lookup_app_r by (rewrite started_threads_length; lia).
    rewrite started_threads_length, Nat.sub_diag.
    replace (S n - i)%nat with (S (n - i)) by lia. done. }
  assert (∀ p, <[i := p]> (started_threads queue b i ++ replicate (S n - i) thread_zero)
               = started_threads queue b i ++ p :: replicate (n - i) thread_zero) as Hins.
  { intros p. rewrite insert_app_r_alt by (rewrite started_threads_length; lia).
    rewrite started_threads_length, Nat.sub_diag.
    replace (S n - i)%nat with (S (n - i)) by lia. done. }
  destruct with_event.
  - destruct (start_thread_no_handle queue flags t i _ m1 tl Ht1 Hzero Hs1 Htl)
      as (m' & Hrun & Ht' & He' & Hframe & Hb' & Hs' & Hc' & Htr'); [lia|lia|].
    exists m'. rewrite ?bind_bind. rewrite (bind_ret_l _ _ _ _ _ Hrun).
    split; [done|]. rewrite Hins in Ht'. rewrite Hb1 in Ht', He', Hb'.
    split; [done|]. split.
    { intros k Hk. rewrite !Hframe by lia. apply Hobj1. lia. }
    split; [done|]. split.
    { intros a Ha Hr. rewrite Hframe by lia. apply Hframe1; lia. }
    split_and!; first [congruence|lia].
  - destruct (start_thread_no_event queue flags t i _ m1 Ht1 Hzero)
      as (m' & Hrun & Ht' & Hframe & Hb' & Hs' & Hc' & Htr'); [by rewrite Hs1|].
    exists m'. rewrite ?bind_bind. rewrite (bind_ret_l _ _ _ _ _ Hrun).
    split; [done|]. rewrite Hins in Ht'.
    split; [done|]. split.
    { intros k Hk. rewrite !Hframe by lia. apply Hobj1. lia. }
    split; [done|]. split.
    { intros a Ha Hr. rewrite Hframe by lia. apply Hframe1; lia. }
    split_and!; first [congruence|lia].
Qed.

(** The allocation of the done event fails. *)
Lemma alloc_fail_done_event (fuel : nat) (flags : Z) (m : machine) (tl : list bool) :
  heap_fresh m → supply m = true :: tl → hd false tl = false →
  ∃ m',
    osd_work_queue_alloc (S fuel) flags m = Ret NULL m' ∧
    heap m' !! brk m = None ∧ (∀ a, a ≠ brk m → heap m' !! a = heap m !! a) ∧
    supply m' = tail tl ∧ trace m' = trace m.
Proof.
  intros [Hbrk Hfr] Hs Htl. destruct m as [h b s c tr]; simpl in *. subst s.
  unfold osd_work_queue_alloc.
  erewrite bind_ret_l; [|by eapply alloc_ok]. norm.
  destruct (Z.eqb_spec b NULL) as [Hb|_]; [unfold NULL in Hb; lia|].
  unfold store at 1. unfold bind at 1. norm. rewrite insert_insert_eq.
  erewrite bind_ret_l; [|eapply modify_queue_ok; norm; apply lookup_insert_eq].
  norm. rewrite insert_insert_eq.
  erewrite bind_ret_l; [|eapply modify_queue_ok; norm; apply lookup_insert_eq].
  norm. rewrite insert_insert_eq.
  unfold osd_event_alloc.
  erewrite bind_ret_l; [|by eapply alloc_fail]. norm.
  erewrite bind_ret_l; [|eapply modify_queue_ok; norm; apply lookup_insert_eq].
  norm. rewrite insert_insert_eq. rewrite Z.eqb_refl.
  set (q0 := set_q_doneevent NULL _).
  match goal with |- context [bind _ _ ?m0] => set (m1 := m0) end.
  assert (heap m1 !! b = Some (OQueue q0)) as Hq1 by apply lookup_insert_eq.
  destruct (free_items_ok b q_free set_q_free []) with (fuel := S fuel) (m := m1) (q := q0)
    as (m2 & Hrun2 & Hq2 & _ & Hframe2 & _ & Hs2 & _ & Htr2);
    [done|done|by intros []|done|done|apply NoDup_nil_2|by intros e ?%elem_of_nil
    |simpl; lia|].
  destruct (free_items_ok b q_list set_q_list []) with (fuel := S fuel) (m := m2)
      (q := set_q_free NULL q0)
    as (m3 & Hrun3 & Hq3 & _ & Hframe3 & _ & Hs3 & _ & Htr3);
    [done|done|by intros []|done|done|apply NoDup_nil_2|by intros e ?%elem_of_nil
    |simpl; lia|].
  exists (set_heap (delete b (heap m3)) m3). split.
  { unfold osd_work_queue_free. rewrite ?bind_bind.
    rewrite (bind_ret_l _ _ _ _ _ (load_queue_ok _ _ _ Hq1)).
    assert (q_threads q0 = 0) as -> by done. cbn [Z.ltb Z.compare andb].
    rewrite ?bind_bind. unfold ret at 1. unfold bind at 1. rewrite ?bind_bind.
    rewrite (bind_ret_l _ _ _ _ _ (load_queue_ok _ _ _ Hq1)).
    assert (q_doneevent q0 = NULL) as -> by done. rewrite Z.eqb_refl. cbn [negb].
    rewrite ?bind_bind. unfold ret at 1. unfold bind at 1. rewrite ?bind_bind.
    rewrite (bind_ret_l _ _ _ _ _ Hrun2). rewrite ?bind_bind.
    rewrite (bind_ret_l _ _ _ _ _ Hrun3).
    unfold dealloc at 1. unfold bind at 1. by rewrite Hq3. }
  norm. split; [apply lookup_delete_eq|]. split.
  { intros a Ha. rewrite lookup_delete_ne by done.
    rewrite Hframe3, Hframe2 by (first [done|apply not_elem_of_nil]).
    unfold m1. norm. by rewrite lookup_insert_ne. }
  unfold m1 in *. norm in Hs2. norm in Htr2. split; congruence.
Qed.

(** The allocation of the thread array fails. *)
Lemma alloc_fail_thread_array (fuel : nat) (flags : Z) (m : machine) (tl : list bool) :
  heap_fresh m → supply m = true :: true :: tl → hd false tl = false →
  ∃ m',
    osd_work_queue_alloc (S fuel) flags m = Ret NULL m' ∧
    heap m' !! brk m = None ∧ heap m' !! (brk m + 1) = None ∧
    (∀ a, a ≠ brk m → a ≠ brk m + 1 → heap m' !! a = heap m !! a) ∧
    supply m' = tail tl ∧ trace m' = trace m.
Proof.
  intros [Hbrk Hfr] Hs Htl. destruct m as [h b s c tr]; simpl in *. subst s.
  set (n := choose_threads effective_num_processors flags).
  unfold osd_work_queue_alloc. fold n.
  erewrite bind_ret_l; [|by eapply alloc_ok]. norm.
  destruct (Z.eqb_spec b NULL) as [Hb|_]; [unfold NULL in Hb; lia|].
  unfold store at 1. unfold bind at 1. norm. rewrite insert_insert_eq.
  erewrite bind_ret_l; [|eapply modify_queue_ok; norm; apply lookup_insert_eq].
  norm. rewrite insert_insert_eq.
  erewrite bind_ret_l; [|eapply modify_queue_ok; norm; apply lookup_insert_eq].
  norm. rewrite insert_insert_eq.
  unfold osd_event_alloc.
  erewrite bind_ret_l; [|by eapply alloc_ok]. norm.
  erewrite bind_ret_l; [|eapply modify_queue_ok; norm;
    rewrite lookup_insert_ne by lia; apply lookup_insert_eq]. norm.
  destruct (Z.eqb_spec (b + 1) NULL) as [Hb|_]; [unfold NULL in Hb; lia|].
  erewrite bind_ret_l; [|eapply modify_queue_ok; norm; apply lookup_insert_eq].
  norm. rewrite insert_insert_eq.
  erewrite bind_ret_l; [|eapply modify_queue_ok; norm; apply lookup_insert_eq].
  norm. rewrite insert_insert_eq.
  erewrite bind_ret_l; [|eapply load_queue_ok; norm; apply lookup_insert_eq].
  cbn [q_threads set_q_threads]. fold n.
  erewrite bind_ret_l; [|by eapply alloc_fail]. norm.
  erewrite bind_ret_l; [|eapply modify_queue_ok; norm; apply lookup_insert_eq].
  norm. rewrite insert_insert_eq. rewrite Z.eqb_refl.
  set (q2 := set_q_thread NULL _).
  match goal with |- context [bind _ _ ?m0] => set (m2 := m0) end.
  assert (heap m2 !! b = Some (OQueue q2)) as Hq2 by apply lookup_insert_eq.
  assert (queue_owns m2 b q2 [] [] []) as Hown.
  { split.
    - apply queue_wf_empty; try done.
      + eexists. unfold m2. norm. cbn. rewrite lookup_insert_ne by lia. apply lookup_insert_eq.
      + split; [unfold m2; norm; lia|]. intros a Ha. unfold m2 in *. norm. norm in Ha.
        rewrite !lookup_insert_ne by lia. apply Hfr. lia.
    - cbn. unfold NULL. lia.
    - unfold visits_threads. cbn [q_thread q2 set_q_thread]. rewrite Z.eqb_refl.
      by rewrite andb_false_r.
    - by intros e ?%elem_of_nil.
    - by intros e ?%elem_of_nil.
    - cbn. apply NoDup_singleton.
    - apply NoDup_nil_2. }
  assert (freed_objects m2 b q2 [] [] [] = [b; b + 1]) as Hfreed.
  { unfold freed_objects, visits_threads. cbn [q_thread q2 set_q_thread].
    rewrite Z.eqb_refl, andb_false_r. done. }
  destruct (osd_work_queue_free_ok (S fuel) b q2 [] [] [] (λ _, True) m2 Hown)
    as (m' & Hrun & Hgone & Hframe & Htr & _ & Hs' & _);
    [done|by intros ? ? ?%elem_of_nil|done|simpl; lia|simpl; lia|].
  rewrite Hfreed in Hgone, Hframe.
  exists m'. rewrite (bind_ret_l _ _ _ _ _ Hrun). split; [done|].
  split; [apply Hgone; by left|]. split; [apply Hgone; right; by left|].
  split.
  { intros a Ha Ha1. rewrite Hframe; [|done|].
    - unfold m2. norm. by rewrite !lookup_insert_ne.
    - intros [?|[?|?%elem_of_nil]%elem_of_cons]%elem_of_cons; done. }
  unfold m2 in *. norm in Hs'. norm in Htr. cbn in Htr. rewrite app_nil_r in Htr. done.
Qed.

(** The allocation of the wake event or of the thread of worker [i] fails. *)
Lemma alloc_fail_thread (fuel : nat) (flags : Z) (m : machine) (i : nat)
    (with_event : bool) (tl : list bool) :
  let n := choose_threads effective_num_processors flags in
  let j := 3 + 2 * Z.of_nat i + (if with_event then 1 else 0) in
  heap_fresh m → (i < Z.to_nat n)%nat →
  supply m = true :: true :: true ::
             replicate (2 * i) true ++ (if with_event then true :: tl else tl) →
  hd false tl = false →
  (∀ h a, brk m ≤ a < brk m + j →
          others h !! a = h !! a ∨
          ∃ (k : nat) ev ev', a = brk m + 3 + 2 * Z.of_nat k ∧
            h !! a = Some (OEvent ev) ∧ others h !! a = Some (OEvent ev')) →
  ∃ m',
    osd_work_queue_alloc (S fuel) flags m = Ret NULL m' ∧
    (∀ a, brk m ≤ a < brk m + j → heap m' !! a = None) ∧
    (∀ a, (∀ h, others h !! a = h !! a) → a < brk m ∨ brk m + j ≤ a →
          heap m' !! a = heap m !! a) ∧
    supply m' = tail tl.
Proof.
  intros n j Hfresh Hi Hs Htl Hquiet. pose proof Hfresh as [Hbrk Hfr].
  destruct (alloc_prefix (S fuel) flags m _ Hbrk Hs)
    as (m3 & Hrun3 & Hq3 & Hd3 & Ht3 & Hframe3 & Hb3 & Hs3 & Hc3 & Htr3).
  fold n in Hrun3, Ht3. set (b := brk m) in *.
  set (nn := Z.to_nat n) in *.
  replace (Z.to_nat (n + 1)) with (S nn) in Ht3 by lia.
  destruct (start_threads_fail b flags (b + 2) (b + 3) nn i with_event m3 tl Ht3)
    as (m4 & Hrun4 & Ht4 & Hobj4 & Hev4 & Hframe4 & Hb4 & Hs4 & Hc4 & Htr4);
    [lia|done|done|done|lia|lia|].
  set (e := if with_event then b + 3 + 2 * Z.of_nat i else NULL) in *.
  set (p := mkThread b NULL e 0) in *.
  set (ths := started_threads b (b + 3) i ++ p :: replicate (nn - i - 1) thread_zero).
  assert (brk m4 = b + j) as Hb4' by (unfold j; lia).
  assert (3 + 2 * Z.of_nat i ≤ j ≤ 3 + 2 * Z.of_nat i + 1) as Hj3
    by (unfold j; destruct with_event; lia).
  assert (with_event = true → j = 3 + 2 * Z.of_nat i + 1) as Hjt
    by (intros Hwe; unfold j; by rewrite Hwe).
  assert (with_event = false → j = 3 + 2 * Z.of_nat i) as Hjf
    by (intros Hwe; unfold j; rewrite Hwe; lia).
  rewrite Hb4' in Hframe4.
  assert (heap m4 !! b = Some (OQueue (new_queue b flags))) as Hq4.
  { rewrite Hframe4 by lia. done. }
  assert (heap m4 !! (b + 1) = Some (OEvent (mkEvent TRUE TRUE))) as Hd4.
  { rewrite Hframe4 by lia. done. }
  assert (thread_events ths = thread_events (started_threads b (b + 3) i) ++ nonnull e)
    as Hevs.
  { unfold ths. rewrite thread_events_app. f_equal.
    change (thread_events (p :: ?l)) with (nonnull e ++ thread_events l).
    by rewrite thread_events_zero, app_nil_r. }
  assert (thread_handles ths = thread_handles (started_threads b (b + 3) i)) as Hhds.
  { unfold ths. rewrite thread_handles_app.
    change (thread_handles (p :: ?l)) with (thread_handles l).
    by rewrite thread_handles_zero, app_nil_r. }
  assert (∀ x, x ∈ nonnull e → with_event = true ∧ x = b + 3 + 2 * Z.of_nat i) as Hne.
  { intros x Hx. apply elem_of_nonnull in Hx as [-> Hnz]. unfold e in *.
    by destruct with_event. }
  assert (visits_threads (new_queue b flags) = true) as Hvis.
  { unfold visits_threads. cbn [q_threads q_thread new_queue]. fold n.
    destruct (Z.ltb_spec 0 n); [|lia].
    destruct (Z.eqb_spec (b + 2) NULL) as [Hnull|_]; [unfold NULL in Hnull; lia|]. done. }
  assert (queue_owns m4 b (new_queue b flags) [] [] ths) as Hown.
  { split.
    - apply queue_wf_empty; try done.
      + by eexists.
      + split; [lia|]. intros a Ha. rewrite Hb4' in Ha.
        rewrite Hframe4 by lia. rewrite Hframe3 by lia. apply Hfr. lia.
    - cbn. unfold NULL. lia.
    - rewrite Hvis. cbn [q_thread q_threads new_queue]. fold n nn.
      eexists. split; [exact Ht4|]. split.
      + rewrite take_app_ge by (rewrite started_threads_length; lia).
        rewrite started_threads_length. unfold ths. f_equal.
        replace (nn - i)%nat with (S (nn - i - 1)) by lia. cbn [take]. f_equal.
        rewrite take_replicate. f_equal. lia.
      + rewrite length_app, started_threads_length. cbn [length].
        rewrite length_replicate. lia.
    - rewrite Hevs. intros x [Hx|Hx]%elem_of_app.
      + apply elem_of_thread_events_started in Hx as (k & Hk & ->); [|lia].
        destruct (Hobj4 k Hk) as [He _]. by eexists.
      + apply Hne in Hx as [Hwe ->]. eexists.
        replace (b + 3 + 2 * Z.of_nat i) with (b + 3 + 2 * Z.of_nat i) by lia.
        by apply Hev4.
    - rewrite Hhds. intros x Hx.
      apply elem_of_thread_handles_started in Hx as (k & Hk & ->); [|lia].
      destruct (Hobj4 k Hk) as [_ He]. by eexists.
    - cbn [app item_events flat_map q_doneevent new_queue]. rewrite Hevs.
      apply NoDup_cons. split.
      + intros [Hx|Hx]%elem_of_app.
        * apply elem_of_thread_events_started in Hx as (k & Hk & Heq); lia.
        * apply Hne in Hx as [_ Heq]. lia.
      + apply NoDup_app. split; [apply NoDup_thread_events_started; lia|]. split.
        * intros x Hx Hx'. apply Hne in Hx' as [_ ->].
          apply elem_of_thread_events_started in Hx as (k & Hk & Heq); lia.
        * unfold nonnull. destruct (e =? NULL); [apply NoDup_nil_2|apply NoDup_singleton].
    - rewrite Hhds. apply NoDup_thread_handles_started. lia. }
  assert (∀ a, b ≤ a < b + j ↔ a ∈ freed_objects m4 b (new_queue b flags) [] [] ths)
    as Hfreed.
  { intros a. unfold freed_objects. rewrite Hvis, Hevs, Hhds.
    cbn [app item_events flat_map q_doneevent q_thread new_queue].
    rewrite !elem_of_cons, !elem_of_app, list_elem_of_singleton.
    rewrite elem_of_thread_events_started, elem_of_thread_handles_started by lia.
    split.
    - intros Ha. destruct (decide (a = b)) as [|Hab]; [by left|]. right.
      destruct (decide (a = b + 1)) as [|Hab1]; [by left|]. right.
      destruct (decide (a = b + 2)) as [|Hab2]; [by do 2 right|].
      destruct (decide (a = b + 3 + 2 * Z.of_nat i)) as [Hai|Hai].
      { left. right. apply elem_of_nonnull. unfold e.
        destruct with_event; [|specialize (Hjf eq_refl); lia].
        split; [done|]. unfold NULL. lia. }
      assert (a < b + 3 + 2 * Z.of_nat i) by lia.
      destruct (Z.even (a - (b + 3))) eqn:Hev.
      + left. left. exists (Z.to_nat ((a - (b + 3)) / 2)).
        apply Z.even_spec in Hev as [k Hk]. rewrite Hk.
        rewrite Z.mul_comm, Z.div_mul by lia. lia.
      + right. left. exists (Z.to_nat ((a - (b + 3)) / 2)).
        rewrite <- Z.negb_odd in Hev. apply negb_false_iff, Z.odd_spec in Hev as [k Hk].
        rewrite Hk. rewrite Z.mul_comm, Z.div_add_l by lia.
        change (1 / 2) with 0. lia.
    - intros [->|[->|[[(k & Hk & ->)|Hx]|[(k & Hk & ->)| ->]]]]; try lia.
      apply Hne in Hx as [Hwe ->]. specialize (Hjt Hwe). lia. }
  destruct (wake_only_quiet b j Hquiet) as [Hrest Hwake].
  destruct (osd_work_queue_free_ok (S fuel) b (new_queue b flags) [] [] ths
              (λ a, ∀ h, others h !! a = h !! a) m4 Hown)
    as (m' & Hrun & Hgone & Hframe & _ & _ & Hs' & _).
  { intros _ h a Ha. apply Ha. }
  { intros h x Hx. apply Hwake, Hfreed. unfold freed_objects. do 2 right.
    rewrite !elem_of_app. right. right. by left. }
  { intros x Hx Hnin h. apply Hfreed in Hx. apply Hrest; [done|]. intros k ->.
    apply Hnin. rewrite Hevs. apply elem_of_app.
    destruct (decide (k < i)%nat) as [Hlt|Hge].
    - left. apply elem_of_thread_events_started; [lia|]. by exists k.
    - right. assert (k = i) as -> by lia. apply elem_of_nonnull. unfold e.
      destruct with_event; [|specialize (Hjf eq_refl); lia].
      split; [done|]. unfold NULL. lia. }
  { simpl. lia. }
  { simpl. lia. }
  exists m'. split.
  { rewrite Hrun3. rewrite (bind_ret_l _ _ _ _ _ Hrun4).
    by rewrite (bind_ret_l _ _ _ _ _ Hrun). }
  split; [intros a Ha; by apply Hgone, Hfreed|]. split; [|congruence].
  intros a Hqa Ha. rewrite Hframe; [|done|by rewrite <- Hfreed; lia].
  rewrite Hframe4 by lia. apply Hframe3. lia.
Qed.

(** X5.  When the queue structure is allocated and a later allocation of
    [osd_work_queue_alloc] fails (the done event, the thread array, a wake
    event or a thread), the call returns NULL after [osd_work_queue_free]
    has freed every object that the call had allocated, while the other
    threads do nothing to these objects but change the state of the wake
    events (the allocations [brk m + 3 + 2 k]), as the workers do that were
    started before the failure and wake up to leave. *)
Theorem queue_alloc_failure_cleans_up (fuel : nat) (flags : Z) (m : machine) (j : nat)
    (tl : list bool) :
  let n := choose_threads effective_num_processors flags in
  heap_fresh m → (0 < fuel)%nat → (1 ≤ j ≤ 2 + 2 * Z.to_nat n)%nat →
  supply m = replicate j true ++ tl → hd false tl = false →
  (∀ h a, brk m ≤ a < brk m + Z.of_nat j →
          others h !! a = h !! a ∨
          ∃ (k : nat) ev ev', a = brk m + 3 + 2 * Z.of_nat k ∧
            h !! a = Some (OEvent ev) ∧ others h !! a = Some (OEvent ev')) →
  ∃ m',
    osd_work_queue_alloc fuel flags m = Ret NULL m' ∧
    (∀ a, brk m ≤ a < brk m + Z.of_nat j → heap m' !! a = None) ∧
    (∀ a, (∀ h, others h !! a = h !! a) → a < brk m ∨ brk m + Z.of_nat j ≤ a →
          heap m' !! a = heap m !! a) ∧
    supply m' = tail tl.
Proof.
  intros n Hfresh Hfuel Hj Hs Htl Hquiet. destruct fuel as [|fuel]; [lia|].
  pose proof Hfresh as [Hbrk Hfr].
  destruct j as [|[|[|j]]]; [lia| | |].
  - destruct (alloc_fail_done_event fuel flags m tl Hfresh Hs Htl)
      as (m' & Hrun & Hgone & Hframe & Hs' & _).
    exists m'. split; [done|]. split.
    { intros a Ha. by replace a with (brk m) by lia. }
    split; [|done]. intros a _ Ha. apply Hframe. lia.
  - destruct (alloc_fail_thread_array fuel flags m tl Hfresh Hs Htl)
      as (m' & Hrun & Hgone & Hgone1 & Hframe & Hs' & _).
    exists m'. split; [done|]. split.
    { intros a Ha. destruct (decide (a = brk m)) as [->|]; [done|].
      by replace a with (brk m + 1) by lia. }
    split; [|done]. intros a _ Ha. apply Hframe; lia.
  - set (i := Nat.div2 j). set (we := Nat.odd j).
    assert (j = (2 * i + (if we then 1 else 0))%nat) as Hji.
    { unfold i, we. rewrite (Nat.div2_odd j) at 1. unfold Nat.b2n. lia. }
    destruct (alloc_fail_thread fuel flags m i we tl Hfresh) as (m' & Hrun & Hgone & Hframe & Hs').
    { fold n. destruct we; lia. }
    { rewrite Hs. cbn [replicate app]. do 3 f_equal. rewrite Hji at 1.
      rewrite replicate_add, <- app_assoc. f_equal. by destruct we. }
    { done. }
    { intros h a Ha. apply Hquiet. destruct we; lia. }
    exists m'. split; [done|].
    assert (3 + 2 * Z.of_nat i + (if we then 1 else 0) = Z.of_nat (S (S (S j)))) as Heq
      by (destruct we; lia).
    rewrite Heq in Hgone, Hframe. done.
Qed.

End AllocFails.

Lemma queue_alloc_failure_cleans_up_witness :
  let host := waking_host 4 [4; 6] in
  ∃ m',
    osd_work_queue_alloc 1 2 (boot 6) = Ret NULL m' ∧
    (∀ a, 1 ≤ a < 1 + Z.of_nat 6 → heap m' !! a = None) ∧
    (∀ a, (∀ h, others h !! a = h !! a) → a < 1 ∨ 1 + Z.of_nat 6 ≤ a →
          heap m' !! a = heap (boot 6) !! a) ∧
    supply m' = tail [].
Proof.
  intros host.
  apply (@queue_alloc_failure_cleans_up host 1%nat 2 (boot 6) 6%nat []);
    [apply heap_fresh_boot|lia|vm_compute; lia|reflexivity|reflexivity|].
  intros h a Ha.
  destruct (waking_host_step 4 [4; 6] h a) as [Heq|[Hin (ev & ev' & Hev)]]; [by left|].
  right. change (brk (boot 6)) with 1.
  apply elem_of_cons in Hin as [->|Hin]; [by exists 0%nat, ev, ev'|].
  apply list_elem_of_singleton in Hin as ->. by exists 1%nat, ev, ev'.
Defined.

Section Release.
Context {host : Platform}.

(** The release of a completed item that is on neither list puts it at the
    head of the free list. *)
Lemma item_release_wf (fuel : nat) (queue a : Z) (q : osd_work_queue) (pl fl : list Z)
    (it : osd_work_item) (m : machine) :
  queue_wf m queue q pl fl →
  heap m !! a = Some (OItem it) → it_done it ≠ 0 → it_queue it = queue →
  a ∉ pl ++ fl → a ≠ NULL →
  (it_event it = NULL ∨ is_event (heap m) (it_event it)) →
  ∃ m',
    osd_work_item_release (S fuel) a m = Ret tt m' ∧
    queue_wf m' queue (set_q_free a q) pl (a :: fl) ∧
    heap m' !! a = Some (OItem (set_it_next (q_free q) it)) ∧
    (∀ b, b ≠ a → b ≠ queue → heap m' !! b = heap m !! b) ∧
    brk m' = brk m ∧ supply m' = supply m ∧ clock m' = clock m ∧ trace m' = trace m.
Proof.
  intros Hwf Hit Hdone Hown Hnin Hnz Hev.
  pose proof (wf_queue _ _ _ _ _ Hwf) as Hq.
  assert (a ≠ queue) as Haq by ne_kind.
  eexists. split; [by apply (item_release_ok fuel queue a q it m)|]. norm.
  destruct Hwf as [_ Hlock Hpend Htail Hfree Hnd Hitems Hbound Howner Hfresh Hdn].
  assert (∀ b, b ∈ pl ++ fl →
            (<[queue := OQueue (set_q_free a q)]>
               (<[a := OItem (set_it_next (q_free q) it)]> (heap m))) !! b = heap m !! b)
    as Hag.
  { intros b Hb.
    assert (∃ itb, heap m !! b = Some (OItem itb)) as [itb Hitb].
    { apply elem_of_app in Hb as [Hb|Hb].
      - by destruct (seg_elem _ _ _ _ _ Hpend Hb) as [_ ?].
      - by destruct (seg_elem _ _ _ _ _ Hfree Hb) as [_ ?]. }
    rewrite lookup_insert_ne by ne_kind. rewrite lookup_insert_ne; [done|].
    intros ->. done. }
  assert (∀ e, is_event (heap m) e →
            is_event (<[queue := OQueue (set_q_free a q)]>
                        (<[a := OItem (set_it_next (q_free q) it)]> (heap m))) e) as Hevs.
  { intros e [ev He]. exists ev. rewrite !lookup_insert_ne; [done|ne_kind|ne_kind]. }
  split; [|split; [|split; [|done]]].
  - split; norm; try done.
    + apply lookup_insert_eq.
    + eapply seg_agree; [exact Hpend|]. intros b Hb. apply Hag, elem_of_app. by left.
    + cbn [q_free set_q_free]. split; [done|]. split; [done|]. eexists. split.
      * rewrite lookup_insert_ne by done. apply lookup_insert_eq.
      * cbn [it_next set_it_next]. eapply seg_agree; [exact Hfree|].
        intros b Hb. apply Hag, elem_of_app. by right.
    + apply NoDup_app in Hnd as (Hn1 & Hd & Hn2). apply NoDup_app. split; [done|].
      split.
      * intros x Hx [->|Hx']%elem_of_cons; [apply Hnin, elem_of_app; by left|by apply (Hd x)].
      * apply NoDup_cons. split; [|done]. intros Hin. apply Hnin, elem_of_app. by right.
    + intros b itb Hb Hbit.
      assert (b = a ∨ b ∈ pl ++ fl) as [->|Hb'].
      { apply elem_of_app in Hb as [Hb|[->|Hb]%elem_of_cons]; [right|by left|right];
          apply elem_of_app; [by left|by right]. }
      * rewrite lookup_insert_ne in Hbit by done. rewrite lookup_insert_eq in Hbit.
        injection Hbit as <-. split; [done|]. cbn [it_event set_it_next].
        destruct Hev as [?|?]; [by left|right; by apply Hevs].
      * rewrite Hag in Hbit by done. destruct (Howner b itb Hb' Hbit) as [? [?|?]].
        { split; [done|by left]. }
        split; [done|right; by apply Hevs].
    + destruct Hfresh as [Hpos Hfr]. split; [done|]. intros b Hb. norm. norm in Hb.
      assert (queue ≠ b) by (intros ->; rewrite Hfr in Hq by done; done).
      assert (a ≠ b) by (intros ->; rewrite Hfr in Hit by done; done).
      rewrite !lookup_insert_ne by done. by apply Hfr.
    + by apply Hevs.
  - rewrite lookup_insert_ne by done. apply lookup_insert_eq.
  - intros b Hba Hbq. by rewrite !lookup_insert_ne.
Qed.

(** The first item that a submission builds is the head of the free list. *)
Lemma build_item_head (fuel : nat) (queue a : Z) (q : osd_work_queue)
    (pl fl : list Z) (cb : Z → Z) (step flags : Z) (loc : submit_locals) (m : machine)
    (r : option submit_locals) (m' : machine) :
  queue_wf m queue q pl (a :: fl) → item_tailptr loc = LocItemlist →
  build_item (S fuel) queue cb step flags loc m = Ret r m' →
  ∃ loc', r = Some loc' ∧ itemlist loc' = a.
Proof.
  intros Hwf Htl Hrun.
  pose proof (wf_queue _ _ _ _ _ Hwf) as Hq.
  destruct (wf_free _ _ _ _ _ Hwf) as (Hfr & Hnz & it & Hit & _).
  unfold build_item in Hrun. apply bind_inv in Hrun as (item & m0 & Hob & Hrun).
  unfold obtain_item in Hob.
  rewrite (bind_ret_l _ _ _ _ _ (pop_free_cons _ _ _ _ _ _ Hq Hfr Hnz Hit)) in Hob.
  destruct (Z.eqb_spec a NULL) as [|_]; [done|]. apply ret_inv in Hob as [-> ->].
  destruct (Z.eqb_spec a NULL) as [|_]; [done|].
  do 6 (apply bind_inv in Hrun as (? & ? & _ & Hrun)).
  apply bind_inv in Hrun as (il & m1 & Hsl & Hrun).
  rewrite Htl in Hsl. cbn [store_link_local] in Hsl. apply ret_inv in Hsl as [-> ->].
  apply ret_inv in Hrun as [-> _]. by eexists.
Qed.

(** A submission of one item returns the head of the free list. *)
Lemma submit_one_returns_head (fuel : nat) (queue a : Z) (q : osd_work_queue)
    (pl fl : list Z) (cb : Z → Z) (base step flags : Z) (m : machine) (r : Z)
    (m' : machine) :
  queue_wf m queue q pl (a :: fl) → auto_release flags = false →
  osd_work_item_queue_multiple (S fuel) queue cb 1 base step flags m = Ret r m' →
  r = a.
Proof.
  intros Hwf Hauto Hrun.
  unfold osd_work_item_queue_multiple in Hrun.
  apply bind_inv in Hrun as (r0 & m1 & Hb & Hrun).
  change (Z.to_nat 1) with 1%nat in Hb. cbn [build_items] in Hb.
  apply bind_inv in Hb as (r1 & m2 & Hbi & Hb).
  eapply build_item_head in Hbi as (loc' & -> & Hil); [|exact Hwf|reflexivity].
  apply ret_inv in Hb as [-> ->].
  do 4 (apply bind_inv in Hrun as (? & ? & _ & Hrun)).
  apply ret_inv in Hrun as [-> _].
  unfold auto_release in Hauto. by rewrite Hauto.
Qed.

(** X6.  Recycling: when a completed item is released, it becomes the head
    of the free list of its queue, and the next submission of one item
    (without AUTO_RELEASE) returns this very item with the new callback,
    parameter and flags, allocates nothing, and leaves the event of the item
    as it was.  This holds on a queue without workers, where the item is
    also completed again before the submission returns, and on a queue with
    workers, where it is appended to the pending list. *)
Theorem release_then_submit_recycles (fuel : nat) (queue a : Z) (q : osd_work_queue)
    (pl fl : list Z) (it : osd_work_item) (cb : Z → Z) (base step flags : Z)
    (m : machine) :
  queue_wf m queue q pl fl →
  heap m !! a = Some (OItem it) → it_done it ≠ 0 → it_queue it = queue →
  a ∉ pl ++ fl → a ≠ NULL →
  (it_event it = NULL ∨ is_event (heap m) (it_event it)) →
  auto_release flags = false → (1 < fuel)%nat →
  (q_threads q = 0 ∧ pl = []) ∨
  (q_threads q ≠ 0 ∧ threads_wf m q ∧ Z.of_nat (length pl) < INT32_MAX) →
  ∃ m1 m2 it2,
    osd_work_item_release fuel a m = Ret tt m1 ∧
    osd_work_item_queue_multiple fuel queue cb 1 base step flags m1 = Ret a m2 ∧
    supply m2 = supply m ∧
    item_at m2 a = Some it2 ∧ it_event it2 = it_event it ∧
    it_callback it2 = cb ∧ it_param it2 = base ∧ it_flags it2 = flags ∧
    it_done it2 = (if q_threads q =? 0 then TRUE else FALSE).
Proof.
  intros Hwf Hit Hdone Hown Hnin Hnz Hev Hauto Hfuel Hcase.
  pose proof (wf_queue _ _ _ _ _ Hwf) as Hq.
  destruct fuel as [|[|fuel]]; [lia|lia|].
  destruct (item_release_wf (S fuel) queue a q pl fl it m Hwf Hit Hdone Hown Hnin Hnz Hev)
    as (m1 & Hrun1 & Hwf1 & Hit1 & Hframe1 & Hb1 & Hs1 & Hc1 & Htr1).
  assert (supply m1 = replicate (Z.to_nat 1 - length (a :: fl)) true ++ supply m) as Hsup.
  { rewrite Hs1. done. }
  exists m1.
  destruct Hcase as [[Hth ->]|(Hth & Hthwf & Hlen)].
  - destruct (submit_inline_ok (S fuel) queue (set_q_free a q) (a :: fl) cb 1 base step flags
                m1 (supply m) Hwf1)
      as (m2 & q2 & added & Hrun2 & Hlen2 & _ & _ & _ & _ & Hitems & _ & Hevs & Hs2 & _);
      [done|unfold INT32_MAX; lia|simpl; lia|done|].
    rewrite Hauto in Hrun2.
    pose proof (submit_one_returns_head _ _ _ _ _ _ _ _ _ _ _ _ _ Hwf1 Hauto Hrun2) as Hhd.
    destruct added as [|a' [|? ?]]; try done. cbn in Hhd. subst a'.
    destruct (Hitems O a eq_refl) as (it2 & Hit2 & Hd2 & Hp2 & _ & Hcb2 & Hfl2 & _).
    destruct (Hevs a _ Hit1) as (it2' & Hit2' & He2). rewrite Hit2 in Hit2'.
    injection Hit2' as <-.
    exists m2, it2. split; [done|]. split; [done|]. split; [done|].
    split; [unfold item_at; by rewrite Hit2|]. split; [done|].
    split; [done|]. split; [rewrite Hp2; cbn; lia|]. split; [done|].
    by rewrite Hth.
  - assert (threads_wf m1 (set_q_free a q)) as Hthwf1.
    { destruct Hthwf as (arr & Harr & Hlen' & Hevs). exists arr. cbn [q_thread set_q_free].
      split; [|split; [done|]].
      - rewrite Hframe1; [done|ne_kind|ne_kind].
      - intros i th Hi Hlt. destruct (Hevs i th Hi Hlt) as [ev Hev']. exists ev.
        rewrite Hframe1; [done|ne_kind|ne_kind]. }
    destruct (submit_threads_ok (S fuel) queue (set_q_free a q) pl (a :: fl) cb 1 base step
                flags m1 (supply m) Hwf1 Hthwf1)
      as (m2 & q2 & added & Hrun2 & Hlen2 & _ & _ & _ & _ & _ & Hitems & Hevs & Hs2);
      [done|lia|done|].
    rewrite Hauto in Hrun2.
    pose proof (submit_one_returns_head _ _ _ _ _ _ _ _ _ _ _ _ _ Hwf1 Hauto Hrun2) as Hhd.
    destruct added as [|a' [|? ?]]; try done. cbn in Hhd. subst a'.
    destruct (Hitems O a eq_refl) as (it2 & Hit2 & _ & Hcb2 & Hp2 & _ & Hfl2 & Hd2 & _).
    destruct (Hevs a _ Hit1) as (it2' & Hit2' & He2). rewrite Hit2 in Hit2'.
    injection Hit2' as <-.
    exists m2, it2. split; [done|]. split; [done|]. split; [done|].
    split; [unfold item_at; by rewrite Hit2|]. split; [done|].
    split; [done|]. split; [rewrite Hp2; cbn; lia|]. split; [done|].
    destruct (Z.eqb_spec (q_threads q) 0); done.
Qed.

End Release.

Lemma chain_null (h : gmap Z object) (l : list Z) : chain h NULL l → l = [].
Proof. destruct l as [|a l]; [done|]. intros (<- & Hnz & _). done. Qed.

(** The state of [completed_item_scenario]: the queue is well-formed with
    both lists empty, and item 4 is complete. *)
Lemma completed_item_scenario_wf :
  let host := example_host 1 None in
  let m := final_state (completed_item_scenario (boot 4)) in
  ∃ q, queue_wf m 1 q [] [] ∧ q_threads q = 0 ∧
       heap m !! 4 = Some (OItem (mkItem NULL 1 square 7 49 NULL 0 TRUE)).
Proof.
  intros host m.
  destruct (@osd_work_queue_alloc_wf host 8 0 (boot 4) [true])
    as (m1 & Hrun1 & Hwf1 & Hs1 & _); [apply heap_fresh_boot|reflexivity|].
  destruct (@submit_inline_ok host 7 1 (new_queue 1 0) [] square 1 7 0 0 m1 [] Hwf1)
    as (m2 & q2 & added & Hrun2 & _ & _ & Hq2 & _ & Hcfg & _ & Hwf2 & _);
    [reflexivity|unfold INT32_MAX; lia|simpl; lia|by rewrite Hs1|].
  destruct Hwf2 as [fl' Hwf2]; [lia|].
  assert (m = m2) as Hm.
  { unfold m, completed_item_scenario. rewrite (bind_ret_l _ _ _ _ _ Hrun1).
    change (final_state (osd_work_item_queue_multiple 8 1 square 1 7 0 0 m1) = m2).
    by rewrite Hrun2. }
  rewrite <- Hm in Hwf2, Hq2. clear Hm Hrun2 Hrun1 Hwf1 Hs1.
  assert (q_free q2 = NULL) as Hfree.
  { vm_compute in Hq2. by injection Hq2 as <-. }
  pose proof (wf_free _ _ _ _ _ Hwf2) as Hch. rewrite Hfree in Hch.
  apply chain_null in Hch as ->.
  exists q2. split; [done|]. split.
  - destruct Hcfg as (-> & _). reflexivity.
  - vm_compute. reflexivity.
Qed.

Lemma release_then_submit_recycles_witness :
  let host := example_host 1 None in
  let m := final_state (completed_item_scenario (boot 4)) in
  ∃ m1 m2 it2,
    osd_work_item_release 3 4 m = Ret tt m1 ∧
    osd_work_item_queue_multiple 3 1 Z.succ 1 10 0 0 m1 = Ret 4 m2 ∧
    supply m2 = supply m ∧
    item_at m2 4 = Some it2 ∧ it_event it2 = NULL ∧
    it_callback it2 = Z.succ ∧ it_param it2 = 10 ∧ it_flags it2 = 0 ∧
    it_done it2 = TRUE.
Proof.
  intros host m.
  destruct completed_item_scenario_wf as (q & Hwf & Hth & Hit).
  fold host in Hwf, Hit. fold m in Hwf, Hit.
  destruct (@release_then_submit_recycles host 3 1 4 q [] [] _ Z.succ 10 0 0 m Hwf Hit)
    as (m1 & m2 & it2 & Hrun1 & Hrun2 & Hs & Hit2 & He & Hcb & Hp & Hf & Hd).
  - cbn [it_done]. unfold TRUE. lia.
  - reflexivity.
  - intros Hin. simpl in Hin. by apply elem_of_nil in Hin.
  - unfold NULL. lia.
  - left. reflexivity.
  - reflexivity.
  - lia.
  - left. split; [exact Hth|reflexivity].
  - rewrite Hth in Hd. exists m1, m2, it2.
    split; [exact Hrun1|]. split; [exact Hrun2|]. split; [exact Hs|].
    split; [exact Hit2|]. split; [exact He|]. split; [exact Hcb|].
    split; [exact Hp|]. split; [exact Hf|exact Hd].
Defined.

Section ItemWait.
Context {host : Platform}.

(** The spin of lines 550-552 while the other threads leave the item
    alone: it yields until the clock reaches [stopspin]. *)
Lemma item_spin_ok (item : Z) (it : osd_work_item) (stopspin : Z) (n : nat) :
  it_done it = 0 →
  (∀ h, others h !! item = h !! item) →
  ∀ (fuel : nat) (m : machine),
    heap m !! item = Some (OItem it) →
    n = Z.to_nat (stopspin - clock m) → (n < fuel)%nat →
    ∃ m',
      loop fuel (λ _ : unit,
        it <- load_item item;
        now <- osd_ticks;
        if (it_done it =? 0) && (now <? stopspin)
        then _ <- osd_yield_processor; ret (inl tt)
        else ret (inr tt)) tt m = Ret tt m' ∧
      heap m' = Nat.iter n others (heap m) ∧
      clock m' = clock m + Z.of_nat n ∧ trace m' = trace m ∧
      brk m' = brk m ∧ supply m' = supply m.
Proof.
  intros Hz Hk. induction n as [|n IH]; intros fuel m Hit Hn Hfuel;
    (destruct fuel as [|fuel]; [lia|]); cbn [loop]; rewrite ?bind_bind;
    rewrite (bind_ret_l _ _ _ _ _ (load_item_ok _ _ _ Hit)); rewrite Hz; cbn [Z.eqb andb];
    rewrite ?bind_bind; unfold osd_ticks at 1; unfold bind at 1.
  - destruct (Z.ltb_spec (clock m) stopspin); [lia|].
    unfold ret, bind. exists m. split_and!; [done|done|lia|done|done|done].
  - destruct (Z.ltb_spec (clock m) stopspin); [|lia].
    rewrite ?bind_bind. unfold osd_yield_processor. rewrite ?bind_bind.
    unfold interfere at 1. unfold bind at 1. unfold bind at 1. unfold ret at 1.
    unfold bind at 1. norm.
    match goal with |- context [loop fuel _ tt ?m0] =>
      destruct (IH fuel m0) as (m' & Hrun & Hh & Hc & Ht & Hb & Hs)
    end; norm.
    { by rewrite Hk. }
    { lia. }
    { lia. }
    exists m'. split; [exact Hrun|]. norm in Hh. norm in Hc. norm in Ht.
    norm in Hb. norm in Hs.
    split; [by rewrite Hh, Nat.iter_succ_r|]. split_and!; [lia|done|done|done].
Qed.

(** The item has an event: it is reset and waited for. *)
Lemma item_wait_event_ok (fuel : nat) (item timeout : Z) (it : osd_work_item)
    (ev : osd_event) (m : machine) :
  heap m !! item = Some (OItem it) → it_done it = 0 → heap_fresh m →
  (∀ h it0, h !! item = Some (OItem it0) →
            ∃ it1, others h !! item = Some (OItem it1) ∧ it_event it1 = it_event it0) →
  (∀ h e ev, h !! e = Some (OEvent ev) → ∃ ev', others h !! e = Some (OEvent ev')) →
  it_event it ≠ NULL → heap m !! it_event it = Some (OEvent ev) →
  ∃ m' it',
    osd_work_item_wait fuel item timeout m = Ret (it_done it') m' ∧
    item_at m' item = Some it' ∧ it_event it' = it_event it ∧
    (∀ b, b ≠ it_event it →
          heap m' !! b = others (<[it_event it := OEvent (mkEvent (ev_manualreset ev) FALSE)]>
                                   (heap m)) !! b) ∧
    brk m' = brk m ∧ supply m' = supply m ∧
    trace m' = trace m ++ [EvEventReset (it_event it); EvEventWait (it_event it) timeout].
Proof.
  intros Hit Hdone [Hbrk Hfr] Hkeep Hkev Hnn Hev.
  assert (it_event it ≠ item) as Hne by ne_kind.
  unfold osd_work_item_wait.
  rewrite (bind_ret_l _ _ _ _ _ (load_item_ok _ _ _ Hit)).
  rewrite Hdone. cbn [Z.eqb negb].
  destruct (Z.eqb_spec (it_event it) NULL) as [|_]; [done|].
  rewrite (bind_ret_l _ _ _ _ _ (osd_event_reset_ok _ _ _ Hev)).
  erewrite bind_ret_l; [|eapply load_item_ok; norm; by rewrite lookup_insert_ne].
  destruct (Z.eqb_spec (it_event it) NULL) as [|_]; [done|].
  rewrite Hdone. cbn [Z.eqb]. rewrite ?bind_bind.
  match goal with |- context [bind (osd_event_wait _ _) _ ?m0] =>
    destruct (osd_event_wait_ok (it_event it) timeout
                (mkEvent (ev_manualreset ev) FALSE) m0)
      as (r & ev1 & ev2 & Hev1 & Hwait)
  end; norm.
  { apply lookup_insert_eq. }
  { done. }
  { intros h ev0 Hh. by eapply Hkev. }
  rewrite (bind_ret_l _ _ _ _ _ Hwait). unfold ret at 1. unfold bind at 1.
  destruct (Hkeep (<[it_event it := OEvent (mkEvent (ev_manualreset ev) FALSE)]> (heap m)) it)
    as (it1 & Hit1 & He1); [by rewrite lookup_insert_ne|].
  erewrite bind_ret_l; [|eapply load_item_ok; norm; rewrite lookup_insert_ne by congruence;
                         exact Hit1].
  unfold ret. eexists _, it1. split; [reflexivity|]. norm.
  split; [unfold item_at; norm; rewrite lookup_insert_ne by congruence; by rewrite Hit1|].
  split; [done|]. split; [intros b Hb; by rewrite lookup_insert_ne|].
  split; [done|]. split; [done|]. by rewrite <- app_assoc.
Qed.

(** A wait on an event that is not signalled leaves the reset mode that
    the other threads left, and the event itself when they did not signal
    it. *)
Lemma osd_event_wait_mode (e timeout : Z) (ev : osd_event) (m : machine) :
  heap m !! e = Some (OEvent ev) → ev_signalled ev = 0 →
  (∀ h ev0, h !! e = Some (OEvent ev0) → ∃ ev1, others h !! e = Some (OEvent ev1)) →
  ∃ r ev1 ev2,
    others (heap m) !! e = Some (OEvent ev1) ∧
    osd_event_wait e timeout m =
      Ret r {| heap := <[e := OEvent ev2]> (others (heap m));
               brk := brk m; supply := supply m; clock := clock m;
               trace := trace m ++ [EvEventWait e timeout] |} ∧
    ev_manualreset ev2 = ev_manualreset ev1 ∧
    (ev_signalled ev1 = 0 → ev2 = ev1).
Proof.
  intros He Hsig Hoth. destruct (Hoth _ _ He) as [ev1 Hev1].
  unfold osd_event_wait.
  rewrite (bind_ret_l _ _ _ _ _ (load_event_ok _ _ _ He)).
  unfold emit at 1. unfold bind at 1. rewrite Hsig. simpl (0 =? 0). cbn iota.
  unfold interfere at 1. unfold bind at 1. norm.
  erewrite bind_ret_l; [|by eapply load_event_ok].
  destruct (Z.eqb_spec (ev_signalled ev1) 0) as [Hz|Hnz].
  - exists FALSE, ev1, ev1. split; [done|]. unfold ret. by rewrite insert_id.
  - destruct (ev_manualreset ev1 =? 0).
    + erewrite bind_ret_l; [|by eapply modify_event_ok]. norm.
      eexists TRUE, ev1, _. split; [done|]. split; [reflexivity|]. done.
    + exists TRUE, ev1, ev1. split; [done|]. unfold ret, bind. by rewrite insert_id.
Qed.

(** The item has no event and the allocation succeeds: the new event is
    stored in the item and waited for. *)
Lemma item_wait_alloc_ok (fuel : nat) (item timeout : Z) (it : osd_work_item)
    (m : machine) (rest : list bool) :
  heap m !! item = Some (OItem it) → it_done it = 0 → heap_fresh m →
  (∀ h it0, h !! item = Some (OItem it0) →
            ∃ it1, others h !! item = Some (OItem it1) ∧ it_event it1 = it_event it0) →
  (∀ h e ev, h !! e = Some (OEvent ev) → ∃ ev', others h !! e = Some (OEvent ev')) →
  it_event it = NULL → supply m = true :: rest →
  ∃ m' it',
    osd_work_item_wait fuel item timeout m = Ret (it_done it') m' ∧
    item_at m' item = Some it' ∧ it_event it' = brk m ∧
    is_event (heap m') (brk m) ∧
    (∀ b, b ≠ brk m →
          heap m' !! b = others (<[item := OItem (set_it_event (brk m) it)]>
                                   (<[brk m := OEvent (mkEvent TRUE FALSE)]> (heap m))) !! b) ∧
    brk m' = brk m + 1 ∧ supply m' = rest ∧
    trace m' = trace m ++ [EvEventWait (brk m) timeout] ∧
    ∃ ev1 ev2,
      others (<[item := OItem (set_it_event (brk m) it)]>
                (<[brk m := OEvent (mkEvent TRUE FALSE)]> (heap m))) !! brk m
        = Some (OEvent ev1) ∧
      heap m' !! brk m = Some (OEvent ev2) ∧
      ev_manualreset ev2 = ev_manualreset ev1 ∧
      ((∀ h, others h !! brk m = h !! brk m) → ev2 = mkEvent TRUE FALSE).
Proof.
  intros Hit Hdone [Hbrk Hfr] Hkeep Hkev Hnull Hsup.
  assert (item ≠ brk m) as Hne.
  { intros ->. rewrite Hfr in Hit by lia. done. }
  unfold osd_work_item_wait.
  rewrite (bind_ret_l _ _ _ _ _ (load_item_ok _ _ _ Hit)).
  rewrite Hdone. cbn [Z.eqb negb]. rewrite Hnull. rewrite Z.eqb_refl.
  unfold osd_event_alloc. rewrite ?bind_bind.
  erewrite bind_ret_l; [|by eapply alloc_ok].
  erewrite bind_ret_l; [|eapply modify_item_ok; norm; by rewrite lookup_insert_ne].
  norm.
  erewrite bind_ret_l; [|eapply load_item_ok; norm; apply lookup_insert_eq].
  cbn [it_event set_it_event it_done].
  destruct (Z.eqb_spec (brk m) NULL) as [Hz|_]; [unfold NULL in Hz; lia|].
  rewrite Hdone. cbn [Z.eqb]. rewrite ?bind_bind.
  match goal with |- context [bind (osd_event_wait _ _) _ ?m0] =>
    destruct (osd_event_wait_mode (brk m) timeout (mkEvent TRUE FALSE) m0)
      as (r & ev1 & ev2 & Hev1 & Hwait & Hmode & Hsame)
  end; norm.
  { rewrite lookup_insert_ne by done. apply lookup_insert_eq. }
  { done. }
  { intros h ev0 Hh. by eapply Hkev. }
  rewrite (bind_ret_l _ _ _ _ _ Hwait). unfold ret at 1. unfold bind at 1.
  edestruct (Hkeep (<[item := OItem (set_it_event (brk m) it)]>
                      (<[brk m := OEvent (mkEvent TRUE FALSE)]> (heap m))))
    as (it1 & Hit1 & He1); [apply lookup_insert_eq|].
  cbn [it_event set_it_event] in He1.
  erewrite bind_ret_l; [|eapply load_item_ok; norm; rewrite lookup_insert_ne by done;
                         exact Hit1].
  unfold ret. eexists _, it1. split; [reflexivity|]. norm.
  split; [unfold item_at; norm; rewrite lookup_insert_ne by done; by rewrite Hit1|].
  split; [done|]. split; [eexists; apply lookup_insert_eq|].
  split; [intros b Hb; by rewrite lookup_insert_ne|].
  split; [done|]. split; [done|]. split; [done|].
  norm in Hev1. exists ev1, ev2. split; [exact Hev1|].
  split; [apply lookup_insert_eq|]. split; [exact Hmode|].
  intros Hquiet. rewrite Hquiet in Hev1. rewrite lookup_insert_ne in Hev1 by done.
  rewrite lookup_insert_eq in Hev1. injection Hev1 as <-. by apply Hsame.
Qed.

(** The item has no event and the allocation fails: the caller spins. *)
Lemma item_wait_spin_ok (fuel : nat) (item timeout : Z) (it : osd_work_item)
    (m : machine) :
  heap m !! item = Some (OItem it) → it_done it = 0 →
  it_event it = NULL → hd false (supply m) = false →
  (∀ h, others h !! item = h !! item) → (Z.to_nat timeout < fuel)%nat →
  ∃ m',
    osd_work_item_wait fuel item timeout m = Ret FALSE m' ∧
    item_at m' item = Some it ∧
    clock m' = clock m + Z.max 0 timeout ∧ trace m' = trace m.
Proof.
  intros Hit Hdone Hnull Hsup Hquiet Hfuel.
  unfold osd_work_item_wait.
  rewrite (bind_ret_l _ _ _ _ _ (load_item_ok _ _ _ Hit)).
  rewrite Hdone. cbn [Z.eqb negb]. rewrite Hnull. rewrite Z.eqb_refl.
  unfold osd_event_alloc. rewrite ?bind_bind.
  erewrite bind_ret_l; [|by eapply alloc_fail].
  erewrite bind_ret_l; [|eapply modify_item_ok; norm; exact Hit].
  norm.
  erewrite bind_ret_l; [|eapply load_item_ok; norm; apply lookup_insert_eq].
  cbn [it_event set_it_event]. rewrite Z.eqb_refl. rewrite ?bind_bind.
  unfold osd_ticks at 1. unfold bind at 1. norm.
  assert (set_it_event NULL it = it) as Hsame by (rewrite <- Hnull; by destruct it).
  rewrite Hsame. rewrite insert_id by done.
  match goal with |- context [bind (loop _ _ _) _ ?m0] =>
    destruct (item_spin_ok item it (clock m + timeout) (Z.to_nat timeout) Hdone Hquiet
                fuel m0)
      as (m' & Hrun & Hh & Hc & Ht & Hb & Hs)
  end; norm; [done|f_equal; lia|done|].
  rewrite (bind_ret_l _ _ _ _ _ Hrun). norm in Hh. norm in Hc. norm in Ht.
  assert (heap m' !! item = Some (OItem it)) as Hit'.
  { rewrite Hh. by rewrite iter_others_keep. }
  rewrite (bind_ret_l _ _ _ _ _ (load_item_ok _ _ _ Hit')). rewrite Hdone.
  exists m'. split; [done|]. split; [unfold item_at; by rewrite Hit'|].
  split; [lia|done].
Qed.

(** X7.  [osd_work_item_wait] on an item that is not done.  With an
    event, it resets the event and blocks on it once.  Without an event it
    allocates one, manual reset and not signalled, stores it in the item
    and blocks on it: this is the event that the other threads find at the
    new address while the caller blocks, the event there after the wait has
    the reset mode they left, and it is that very event when they did not
    touch it.  When the allocation fails, the call spins, yielding the
    processor, until [timeout] ticks have passed.  In each case it returns
    the [done] flag of the item as it is after the wait; the other threads
    are taken to leave the event field of the item and the kind of the
    event alone, and, for the spin, the whole item. *)
Theorem item_wait_not_done (fuel : nat) (item timeout : Z) (it : osd_work_item)
    (m : machine) :
  heap m !! item = Some (OItem it) → it_done it = 0 → heap_fresh m →
  (∀ h it0, h !! item = Some (OItem it0) →
            ∃ it1, others h !! item = Some (OItem it1) ∧ it_event it1 = it_event it0) →
  (∀ h e ev, h !! e = Some (OEvent ev) → ∃ ev', others h !! e = Some (OEvent ev')) →
  (it_event it ≠ NULL → is_event (heap m) (it_event it) →
   ∃ m' it',
     osd_work_item_wait fuel item timeout m = Ret (it_done it') m' ∧
     item_at m' item = Some it' ∧ it_event it' = it_event it ∧
     brk m' = brk m ∧ supply m' = supply m ∧
     trace m' = trace m ++ [EvEventReset (it_event it); EvEventWait (it_event it) timeout]) ∧
  (∀ rest, it_event it = NULL → supply m = true :: rest →
   ∃ m' it' ev1 ev2,
     osd_work_item_wait fuel item timeout m = Ret (it_done it') m' ∧
     item_at m' item = Some it' ∧ it_event it' = brk m ∧
     is_event (heap m') (brk m) ∧ brk m' = brk m + 1 ∧ supply m' = rest ∧
     trace m' = trace m ++ [EvEventWait (brk m) timeout] ∧
     others (<[item := OItem (set_it_event (brk m) it)]>
               (<[brk m := OEvent (mkEvent TRUE FALSE)]> (heap m))) !! brk m
       = Some (OEvent ev1) ∧
     heap m' !! brk m = Some (OEvent ev2) ∧
     ev_manualreset ev2 = ev_manualreset ev1 ∧
     ((∀ h, others h !! brk m = h !! brk m) → ev2 = mkEvent TRUE FALSE)) ∧
  (it_event it = NULL → hd false (supply m) = false →
   (∀ h, others h !! item = h !! item) → (Z.to_nat timeout < fuel)%nat →
   ∃ m',
     osd_work_item_wait fuel item timeout m = Ret FALSE m' ∧
     item_at m' item = Some it ∧
     clock m' = clock m + Z.max 0 timeout ∧ trace m' = trace m).
Proof.
  intros Hit Hdone Hfresh Hkeep Hkev. split_and!.
  - intros Hnn [ev Hev].
    destruct (item_wait_event_ok fuel item timeout it ev m Hit Hdone Hfresh Hkeep Hkev
                Hnn Hev)
      as (m' & it' & Hrun & Hit' & He & _ & Hb & Hs & Htr).
    by exists m', it'.
  - intros rest Hnull Hsup.
    destruct (item_wait_alloc_ok fuel item timeout it m rest Hit Hdone Hfresh Hkeep Hkev
                Hnull Hsup)
      as (m' & it' & Hrun & Hit' & He & Hev & _ & Hb & Hs & Htr & ev1 & ev2 & Hmode).
    by exists m', it', ev1, ev2.
  - intros Hnull Hsup Hquiet Hfuel.
    by apply item_wait_spin_ok.
Qed.

End ItemWait.

(** The state of [pending_scenario] on a queue with one worker: three
    pending items, no worker awake yet. *)
Lemma pending_scenario_wf (flags : Z) :
  let host := example_host 4 None in
  let m := final_state (pending_scenario 0 flags (boot 9)) in
  ∃ q, queue_wf m 1 q [6; 7; 8] [] ∧ q_threads q = 1 ∧ q_thread q = 3 ∧
       q_livethreads q = 0 ∧ q_waiting q = 0 ∧ q_exiting q = 0.
Proof.
  intros host m.
  destruct (@osd_work_queue_alloc_wf host 8 0 (boot 9) (replicate 4 true))
    as (m1 & Hrun1 & Hwf1 & Hs1 & _); [apply heap_fresh_boot|reflexivity|].
  assert (threads_wf m1 (new_queue 1 0)) as Hth1.
  { assert (m1 = final_state (osd_work_queue_alloc 8 0 (boot 9))) as ->
      by by rewrite Hrun1.
    eexists. split; [vm_compute; reflexivity|]. split; [vm_compute; lia|].
    intros i th Hi Hlt. vm_compute in Hlt.
    destruct i as [|i]; [|lia]. simpl in Hi. injection Hi as <-.
    eexists. vm_compute. reflexivity. }
  destruct (@submit_threads_wf host 7 1 (new_queue 1 0) [] [] square 3 1 1 flags m1 [true]
              Hwf1 Hth1)
    as (m2 & q2 & added & woken & Hrun2 & Hlen & Hwf2 & Hcfg & _);
    [done|lia|unfold INT32_MAX; simpl; lia|by rewrite Hs1|].
  assert (m = m2) as Hm.
  { unfold m, pending_scenario. rewrite (bind_ret_l _ _ _ _ _ Hrun1).
    change (brk (boot 9)) with 1. rewrite (bind_ret_l _ _ _ _ _ Hrun2). reflexivity. }
  rewrite <- Hm in Hwf2. clear Hm Hrun2 Hrun1 Hwf1 Hth1 Hs1.
  assert (added = [6; 7; 8]) as ->.
  { pose proof (wf_pending _ _ _ _ _ Hwf2) as Hp. pose proof (wf_queue _ _ _ _ _ Hwf2) as Hq.
    vm_compute in Hq. injection Hq as <-. cbn [q_list app] in Hp.
    destruct added as [|a1 [|a2 [|a3 [|a4 added]]]]; try discriminate Hlen.
    destruct Hp as (<- & _ & it1 & Hit1 & Hp). vm_compute in Hit1. injection Hit1 as <-.
    destruct Hp as (<- & _ & it2 & Hit2 & Hp). vm_compute in Hit2. injection Hit2 as <-.
    destruct Hp as (<- & _ & it3 & Hit3 & Hp). reflexivity. }
  exists q2. split; [exact Hwf2|].
  destruct Hcfg as (Ht & _ & Hta & _ & Hw & Hl & He).
  rewrite Ht, Hta, Hw, Hl, He. vm_compute. done.
Qed.

Lemma item_wait_not_done_witness :
  let host := example_host 4 None in
  let m := final_state (pending_scenario 0 0 (boot 9)) in
  ∃ m' it',
    osd_work_item_wait 8 6 5 m = Ret (it_done it') m' ∧
    item_at m' 6 = Some it' ∧ it_event it' = 9 ∧
    heap m' !! 9 = Some (OEvent (mkEvent TRUE FALSE)) ∧
    supply m' = [] ∧ trace m' = trace m ++ [EvEventWait 9 5].
Proof.
  intros host m.
  destruct (pending_scenario_wf 0) as (q & Hwf & _).
  fold host in Hwf. fold m in Hwf.
  assert (∃ it, heap m !! 6 = Some (OItem it) ∧ it_done it = 0 ∧ it_event it = NULL)
    as (it & Hit & Hd & He).
  { eexists. split; [vm_compute; reflexivity|]. split; reflexivity. }
  destruct (@item_wait_not_done host 8 6 5 it m Hit Hd (wf_fresh _ _ _ _ _ Hwf))
    as (_ & H2 & _).
  - intros h it0 Hh. exists it0. split; [exact Hh|reflexivity].
  - intros h e ev Hh. exists ev. exact Hh.
  - destruct (H2 [] He)
      as (m' & it' & ev1 & ev2 & Hrun & Hit' & He' & _ & _ & Hs & Htr & _ & Hev2 & _ & Hsame).
    + vm_compute. reflexivity.
    + exists m', it'. split; [exact Hrun|]. split; [exact Hit'|]. split; [exact He'|].
      split; [|split; [exact Hs|exact Htr]].
      rewrite <- (Hsame (λ h, eq_refl)). exact Hev2.
Defined.

Section ReleasePending.
Context {host : Platform}.

(** Lines 586-590 with the free list unchanged between the read and the
    exchange: the item is pushed at the first attempt. *)
Lemma release_push_ok (fuel : nat) (item : Z) (it : osd_work_item) (q : osd_work_queue)
    (m : machine) :
  heap m !! item = Some (OItem it) → heap m !! it_queue it = Some (OQueue q) →
  loop (S fuel) (λ _ : unit,
    it <- load_item item;
    q <- load_queue (it_queue it);
    let next := q_free q in
    _ <- modify_item item (set_it_next next);
    old <- compare_exchange_free (it_queue it) next item;
    if old =? next then ret (inr tt) else ret (inl tt)) tt m =
  Ret tt (set_heap (<[it_queue it := OQueue (set_q_free item q)]>
                      (<[item := OItem (set_it_next (q_free q) it)]> (heap m))) m).
Proof.
  intros Hit Hq.
  assert (it_queue it ≠ item) as Hne by (intros Heq; rewrite Heq in Hq; congruence).
  cbn [loop]. rewrite ?bind_bind.
  rewrite (bind_ret_l _ _ _ _ _ (load_item_ok _ _ _ Hit)). rewrite ?bind_bind.
  rewrite (bind_ret_l _ _ _ _ _ (load_queue_ok _ _ _ Hq)). rewrite ?bind_bind.
  erewrite bind_ret_l; [|by eapply modify_item_ok]. norm.
  unfold compare_exchange_free, osd_compare_exchange32. rewrite ?bind_bind.
  erewrite bind_ret_l; [|eapply load_queue_ok; norm; by rewrite lookup_insert_ne].
  rewrite Z.eqb_refl. rewrite ?bind_bind.
  erewrite bind_ret_l; [|eapply modify_queue_ok; norm; by rewrite lookup_insert_ne].
  norm. unfold ret at 1. unfold bind at 1. rewrite Z.eqb_refl.
  reflexivity.
Qed.

(** X8.  [osd_work_item_release] does not look at what its wait returned:
    when the wait of 100 seconds comes back, also with FALSE because the
    item is still not done, the item is pushed on the free list of its
    queue with the content it has then. *)
Theorem item_release_ignores_wait (fuel : nat) (item r : Z) (it1 : osd_work_item)
    (q1 : osd_work_queue) (m m1 : machine) :
  osd_work_item_wait (S fuel) item (100 * osd_ticks_per_second) m = Ret r m1 →
  heap m1 !! item = Some (OItem it1) → heap m1 !! it_queue it1 = Some (OQueue q1) →
  ∃ m',
    osd_work_item_release (S fuel) item m = Ret tt m' ∧
    queue_at m' (it_queue it1) = Some (set_q_free item q1) ∧
    item_at m' item = Some (set_it_next (q_free q1) it1) ∧
    (∀ b, b ≠ item → b ≠ it_queue it1 → heap m' !! b = heap m1 !! b) ∧
    brk m' = brk m1 ∧ supply m' = supply m1 ∧ clock m' = clock m1 ∧ trace m' = trace m1.
Proof.
  intros Hwait Hit Hq.
  assert (it_queue it1 ≠ item) as Hne by (intros Heq; rewrite Heq in Hq; congruence).
  unfold osd_work_item_release.
  rewrite (bind_ret_l _ _ _ _ _ Hwait).
  eexists. split; [exact (release_push_ok fuel item it1 q1 m1 Hit Hq)|]. norm. unfold queue_at, item_at. norm.
  split; [by rewrite lookup_insert_eq|].
  split; [rewrite lookup_insert_ne by done; by rewrite lookup_insert_eq|].
  split; [|done]. intros b Hb1 Hb2. by rewrite !lookup_insert_ne.
Qed.

End ReleasePending.

Lemma item_release_ignores_wait_witness :
  let host := example_host 4 None in
  let m := final_state (pending_scenario 0 0 (boot 9)) in
  ∃ m' q' it',
    osd_work_item_release 8 6 m = Ret tt m' ∧
    queue_at m' 1 = Some q' ∧ q_list q' = 6 ∧ q_free q' = 6 ∧ q_items q' = 3 ∧
    item_at m' 6 = Some it' ∧ it_done it' = FALSE ∧ it_next it' = NULL.
Proof.
  intros host m.
  destruct (pending_scenario_wf 0) as (q & Hwf & _).
  fold host in Hwf. fold m in Hwf.
  assert (∃ it, heap m !! 6 = Some (OItem it) ∧ it_done it = 0 ∧ it_event it = NULL ∧
                it_queue it = 1)
    as (it & Hit & Hd & He & Hown).
  { eexists. split; [vm_compute; reflexivity|]. split; [reflexivity|].
    split; reflexivity. }
  assert (∃ q0, heap m !! 1 = Some (OQueue q0) ∧ q_list q0 = 6 ∧ q_free q0 = NULL ∧
                q_items q0 = 3)
    as (q0 & Hq0 & Hl0 & Hf0 & Hi0).
  { eexists. split; [vm_compute; reflexivity|]. split; [reflexivity|].
    split; reflexivity. }
  assert (brk m = 9) as Hbrk by (vm_compute; reflexivity).
  destruct (@item_wait_alloc_ok host 8 6 (100 * osd_ticks_per_second) it m [] Hit Hd
              (wf_fresh _ _ _ _ _ Hwf))
    as (m1 & it1 & Hrun & Hit1 & He1 & Hev1 & Hfr1 & _).
  - intros h it0 Hh. exists it0. split; [exact Hh|reflexivity].
  - intros h e ev Hh. exists ev. exact Hh.
  - exact He.
  - vm_compute. reflexivity.
  - assert (heap m1 !! 6 = Some (OItem (set_it_event 9 it))) as Hit1'.
    { rewrite Hfr1 by (rewrite Hbrk; lia). rewrite Hbrk.
      change (others ?h) with h. apply lookup_insert_eq. }
    assert (heap m1 !! it_queue (set_it_event 9 it) = Some (OQueue q0)) as Hq1.
    { cbn [it_queue set_it_event]. rewrite Hown.
      rewrite Hfr1 by (rewrite Hbrk; lia). rewrite Hbrk.
      change (others ?h) with h.
      rewrite lookup_insert_ne by lia. rewrite lookup_insert_ne by lia. exact Hq0. }
    destruct (@item_release_ignores_wait host 7 6 _ _ q0 m m1 Hrun Hit1' Hq1)
      as (m' & Hrel & Hq' & Hit' & _).
    cbn [it_queue set_it_event] in Hq'. rewrite Hown in Hq'.
    exists m', (set_q_free 6 q0), (set_it_next (q_free q0) (set_it_event 9 it)).
    split; [exact Hrel|]. split; [exact Hq'|].
    split; [exact Hl0|]. split; [reflexivity|]. split; [exact Hi0|].
    split; [exact Hit'|]. split; [exact Hd|]. exact Hf0.
Defined.

Lemma idle_events_cons (th : mame_thread_info) (ths : list mame_thread_info) :
  idle_events (th :: ths) =
    if th_active th =? 0 then th_wakeevent th :: idle_events ths else idle_events ths.
Proof.
  unfold idle_events. rewrite filter_cons.
  destruct (Z.eqb_spec (th_active th) 0); destruct (decide (th_active th = 0)); done.
Qed.

Section WakeIdle.
Context {host : Platform}.

(** Lines 504-518 from thread [from] on, with the events they signal. *)
Lemma wake_threads_spec (queue : Z) (q : osd_work_queue) (arr : list mame_thread_info)
    (count : nat) :
  ∀ (from numitems : Z) (m : machine),
    heap m !! queue = Some (OQueue q) →
    heap m !! q_thread q = Some (OThreads arr) →
    0 ≤ from →
    (∀ i th, arr !! i = Some th → (i < Z.to_nat from + count)%nat →
             is_event (heap m) (th_wakeevent th)) →
    (Z.to_nat from + count ≤ length arr)%nat →
    - 2 ^ 31 + Z.of_nat count ≤ numitems ≤ INT32_MAX →
    let idle := idle_events (take count (drop (Z.to_nat from) arr)) in
    let woken := if 0 <? numitems then take (Z.to_nat numitems) idle else idle in
    ∃ m',
      wake_threads count from queue numitems m = Ret tt m' ∧
      trace m' = trace m ++ map EvEventSet woken ∧
      (∀ e, e ∈ woken → ∃ ev, heap m' !! e = Some (OEvent ev) ∧ ev_signalled ev = TRUE) ∧
      (∀ b, b ∉ woken → heap m' !! b = heap m !! b) ∧
      brk m' = brk m ∧ supply m' = supply m ∧ clock m' = clock m.
Proof.
  induction count as [|count IH]; intros from numitems m Hq Harr Hfrom Hevs Hlen Hrange.
  - cbn zeta. rewrite take_0. change (idle_events []) with (@nil Z).
    rewrite take_nil. exists m. cbn [wake_threads].
    destruct (0 <? numitems); cbn [map]; rewrite app_nil_r;
      (split_and!; [done|done|by intros e ?%elem_of_nil|done|done|done|done]).
  - cbn zeta. cbn [wake_threads].
    rewrite (bind_ret_l _ _ _ _ _ (load_queue_ok _ _ _ Hq)).
    destruct (lookup_lt_is_Some_2 arr (Z.to_nat from)) as [th Hth]; [lia|].
    rewrite (bind_ret_l _ _ _ _ _ (load_thread_ok _ _ _ _ _ Harr Hth Hfrom)).
    rewrite (drop_S _ _ _ Hth). rewrite firstn_cons. rewrite idle_events_cons.
    replace (S (Z.to_nat from)) with (Z.to_nat (from + 1)) by lia.
    destruct (Z.eqb_spec (th_active th) 0) as [Hidle|Hact].
    + destruct (Hevs _ _ Hth) as [ev Hev]; [lia|].
      rewrite (bind_ret_l _ _ _ _ _ (osd_event_set_ok _ _ _ Hev)).
      lazymatch goal with |- context [mkMachine ?h ?b ?s ?c ?t] =>
        set (m1 := mkMachine h b s c t) end.
      assert (heap m1 !! queue = Some (OQueue q)) as Hq1.
      { unfold m1. norm. rewrite lookup_insert_ne; [done|ne_kind]. }
      assert (heap m1 !! q_thread q = Some (OThreads arr)) as Harr1.
      { unfold m1. norm. rewrite lookup_insert_ne; [done|ne_kind]. }
      assert (∀ e, is_event (heap m) e → is_event (heap m1) e) as Hkeep.
      { intros e [ev' He]. unfold m1. norm.
        destruct (decide (e = th_wakeevent th)) as [->|Hne].
        - eexists. apply lookup_insert_eq.
        - exists ev'. by rewrite lookup_insert_ne. }
      unfold wrap32, INT32_MAX in *.
      destruct (Z.eqb_spec ((numitems - 1 + 2 ^ 31) mod 2 ^ 32 - 2 ^ 31) 0) as [Hz|Hnz].
      * assert (numitems = 1) as ->.
        { assert ((numitems - 1 + 2 ^ 31) mod 2 ^ 32 = numitems - 1 + 2 ^ 31) as Hmod
            by (apply Z.mod_small; lia).
          lia. }
        cbn [Z.ltb Z.compare Z.to_nat Pos.to_nat Pos.iter_op Nat.add take map].
        exists m1. split; [done|]. split; [done|]. split.
        { intros e ->%list_elem_of_singleton. eexists. unfold m1. norm.
          split; [apply lookup_insert_eq|done]. }
        split; [|done].
        intros b Hb%not_elem_of_cons. unfold m1. norm. rewrite lookup_insert_ne; [done|].
        intros Heq. by destruct Hb.
      * assert ((numitems - 1 + 2 ^ 31) mod 2 ^ 32 - 2 ^ 31 = numitems - 1) as Hw.
        { rewrite Z.mod_small by lia. lia. }
        rewrite Hw in *.
        destruct (IH (from + 1) (numitems - 1) m1 Hq1 Harr1) as
          (m' & Hrun & Htr & Hsig & Hfr & Hb & Hs & Hc); [lia| |lia|lia|].
        { intros i th' Hi Hlt. apply Hkeep. apply (Hevs i th' Hi). lia. }
        cbn zeta in Hrun, Htr, Hsig, Hfr.
        set (idle := idle_events (take count (drop (Z.to_nat (from + 1)) arr))) in *.
        assert ((if 0 <? numitems
                 then take (Z.to_nat numitems) (th_wakeevent th :: idle)
                 else th_wakeevent th :: idle) =
                th_wakeevent th ::
                  (if 0 <? numitems - 1 then take (Z.to_nat (numitems - 1)) idle else idle))
          as ->.
        { destruct (Z.ltb_spec 0 numitems), (Z.ltb_spec 0 (numitems - 1)); try lia; [|done].
          replace (Z.to_nat numitems) with (S (Z.to_nat (numitems - 1))) by lia. done. }
        exists m'. split; [exact Hrun|].
        split; [rewrite Htr; unfold m1; norm; by rewrite <- app_assoc|].
        split.
        { intros e [->|He]%elem_of_cons; [|by apply Hsig].
          match goal with |- context [heap m' !! ?x] =>
            destruct (decide (x ∈ (if 0 <? numitems - 1
                                   then take (Z.to_nat (numitems - 1)) idle else idle)))
              as [Hin|Hnin]
          end; [by apply Hsig|].
          rewrite Hfr by done. unfold m1. norm. eexists.
          split; [apply lookup_insert_eq|done]. }
        split; [|done].
        intros b [Hb1 Hb2]%not_elem_of_cons. rewrite Hfr by done.
        unfold m1. norm. by rewrite lookup_insert_ne.
    + destruct (IH (from + 1) numitems m Hq Harr) as
        (m' & Hrun & Htr & Hsig & Hfr & Hb & Hs & Hc); [lia| |lia|lia|].
      { intros i th' Hi Hlt. apply (Hevs i th' Hi). lia. }
      exists m'. done.
Qed.

(** X9.  Waking the workers after a submission (lines 498-519).  When fewer
    threads are live than the queue has, the wake events of the workers that
    are not active are signalled in index order: the first [numitems] of
    them, and all of them when [numitems] is zero or negative, because the
    countdown then never meets zero.  When all threads are live, no event
    is signalled.  Nothing but these events changes. *)
Theorem wake_idle_threads_wakes (queue numitems : Z) (q : osd_work_queue)
    (arr : list mame_thread_info) (m : machine) :
  heap m !! queue = Some (OQueue q) →
  heap m !! q_thread q = Some (OThreads arr) →
  (Z.to_nat (q_threads q) ≤ length arr)%nat →
  (∀ i th, arr !! i = Some th → (i < Z.to_nat (q_threads q))%nat →
           is_event (heap m) (th_wakeevent th)) →
  - 2 ^ 31 + q_threads q ≤ numitems ≤ INT32_MAX →
  let idle := idle_events (take (Z.to_nat (q_threads q)) arr) in
  let woken :=
    if to_u32 (q_livethreads q) <? q_threads q
    then if 0 <? numitems then take (Z.to_nat numitems) idle else idle
    else [] in
  ∃ m',
    wake_idle_threads queue numitems m = Ret tt m' ∧
    trace m' = trace m ++ map EvEventSet woken ∧
    (∀ e, e ∈ woken → ∃ ev, heap m' !! e = Some (OEvent ev) ∧ ev_signalled ev = TRUE) ∧
    (∀ b, b ∉ woken → heap m' !! b = heap m !! b) ∧
    brk m' = brk m ∧ supply m' = supply m ∧ clock m' = clock m.
Proof.
  intros Hq Harr Hlen Hevs Hrange. cbn zeta. unfold wake_idle_threads.
  rewrite (bind_ret_l _ _ _ _ _ (load_queue_ok _ _ _ Hq)).
  destruct (Z.ltb_spec (to_u32 (q_livethreads q)) (q_threads q)) as [Hlt|Hge].
  - destruct (wake_threads_spec queue q arr (Z.to_nat (q_threads q)) 0 numitems m Hq Harr)
      as (m' & Hrun & Hrest); [done| |simpl; lia| |].
    { intros i th Hi Hlt'. apply (Hevs i th Hi). simpl in Hlt'. lia. }
    { unfold to_u32 in Hlt.
      pose proof (Z.mod_pos_bound (q_livethreads q) (2 ^ 32) ltac:(lia)). lia. }
    cbn zeta in Hrun, Hrest. change (Z.to_nat 0) with 0%nat in Hrest. rewrite drop_0 in Hrest.
    exists m'. split; [exact Hrun|exact Hrest].
  - exists m. cbn [map]. rewrite app_nil_r.
    split_and!; [done|done|by intros e ?%elem_of_nil|done|done|done|done].
Qed.

End WakeIdle.

Lemma wake_idle_threads_wakes_witness :
  let host := example_host 4 None in
  let m := final_state (pending_scenario 0 0 (boot 9)) in
  ∃ m', wake_idle_threads 1 0 m = Ret tt m' ∧ trace m' = trace m ++ [EvEventSet 4].
Proof.
  intros host m.
  destruct (pending_scenario_wf 0) as (q & Hwf & Ht & Hta & Hl & _).
  fold host in Hwf. fold m in Hwf.
  assert (heap m !! q_thread q = Some (OThreads [mkThread 1 5 4 0; mkThread 0 0 0 0]))
    as Harr.
  { rewrite Hta. vm_compute. reflexivity. }
  destruct (wake_idle_threads_wakes 1 0 q _ m (wf_queue _ _ _ _ _ Hwf) Harr)
    as (m' & Hrun & Htr & _).
  - rewrite Ht. simpl. lia.
  - rewrite Ht. intros i th Hi Hlt.
    destruct i as [|i]; [|simpl in Hlt; lia]. simpl in Hi. injection Hi as <-.
    eexists. vm_compute. reflexivity.
  - rewrite Ht. unfold INT32_MAX. lia.
  - rewrite Hl, Ht in Htr. exists m'. split; [exact Hrun|exact Htr].
Defined.

Section FreeOwned.
Context {host : Platform}.

(** X10.  [osd_work_queue_free] on a queue that owns its objects, when
    during the joins the other threads leave the objects of the queue
    alone (they are in [P]) but for the state of the wake events: the
    workers are idle or wake up, find [exiting] set and leave, and none of
    them is draining the queue.  Then the call signals the wake event of
    every worker in thread order and frees the queue, the done event, the
    thread array with the wake events and the handles, and every item of
    the pending list and of the free list with its event.  The pending
    items are freed without being run: the wake-ups are the only effects.
    The addresses of [P] that are not freed keep their content. *)
Theorem queue_free_frees_owned (fuel : nat) (queue : Z) (q : osd_work_queue)
    (pl fl : list Z) (ths : list mame_thread_info) (P : Z → Prop) (m : machine) :
  queue_owns m queue q pl fl ths →
  (thread_handles ths ≠ [] → ∀ h a, P a → others h !! a = h !! a) →
  (∀ h e, e ∈ thread_events ths → event_step (h !! e) (others h !! e)) →
  (∀ x, x ∈ freed_objects m queue q pl fl ths → x ∉ thread_events ths → P x) →
  (length pl < fuel)%nat → (length fl < fuel)%nat →
  ∃ m',
    osd_work_queue_free fuel queue m = Ret tt m' ∧
    (∀ x, x ∈ freed_objects m queue q pl fl ths → heap m' !! x = None) ∧
    (∀ a, P a → a ∉ freed_objects m queue q pl fl ths → heap m' !! a = heap m !! a) ∧
    trace m' = trace m ++ map EvEventSet (thread_events ths) ∧
    brk m' = brk m ∧ supply m' = supply m ∧ clock m' = clock m.
Proof. apply osd_work_queue_free_ok. Qed.

End FreeOwned.

Lemma queue_free_frees_owned_witness :
  let host := waking_host 4 [4] in
  let m := final_state (pending_scenario 0 0 (boot 9)) in
  ∃ m',
    osd_work_queue_free 8 1 m = Ret tt m' ∧
    (∀ x, x ∈ [1; 2; 6; 7; 8; 4; 5; 3] → heap m' !! x = None) ∧
    trace m' = trace m ++ [EvEventSet 4].
Proof.
  intros host m.
  destruct (pending_scenario_wf 0) as (q & Hwf & Ht & Hta & _).
  fold m in Hwf.
  assert (heap m !! 3 = Some (OThreads [mkThread 1 5 4 0; mkThread 0 0 0 0])) as Harr
    by (vm_compute; reflexivity).
  assert (q_doneevent q = 2) as Hde.
  { pose proof (wf_queue _ _ _ _ _ Hwf) as Hq. vm_compute in Hq. by injection Hq as <-. }
  assert (item_events (heap m) ([6; 7; 8] ++ []) = []) as Hie
    by (vm_compute; reflexivity).
  assert (visits_threads q = true) as Hvis.
  { unfold visits_threads. rewrite Ht, Hta. reflexivity. }
  assert (queue_owns m 1 q [6; 7; 8] [] [mkThread 1 5 4 0]) as Hown.
  { split.
    - exact Hwf.
    - rewrite Hde. unfold NULL. lia.
    - rewrite Hvis. eexists. rewrite Hta. split; [exact Harr|]. rewrite Ht.
      split; [reflexivity|simpl; lia].
    - intros e He. apply list_elem_of_singleton in He as ->.
      eexists. vm_compute. reflexivity.
    - intros x Hx. apply list_elem_of_singleton in Hx as ->.
      eexists. vm_compute. reflexivity.
    - rewrite Hde, Hie. apply (bool_decide_unpack _). vm_compute. reflexivity.
    - apply (bool_decide_unpack _). vm_compute. reflexivity. }
  destruct (@queue_free_frees_owned host 8 1 q [6; 7; 8] [] [mkThread 1 5 4 0]
              (λ a, a ≠ 4) m Hown)
    as (m' & Hrun & Hfreed & _ & Htr & _).
  - intros _ h a Ha.
    destruct (waking_host_step 4 [4] h a) as [Heq|[Hin _]]; [exact Heq|].
    apply list_elem_of_singleton in Hin. by destruct Ha.
  - intros h e _.
    destruct (waking_host_step 4 [4] h e) as [Heq|[_ Hev]]; [by left|by right].
  - intros x _ Hx ->. apply Hx. by left.
  - simpl. lia.
  - simpl. lia.
  - exists m'. split; [exact Hrun|]. split; [|exact Htr].
    assert (freed_objects m 1 q [6; 7; 8] [] [mkThread 1 5 4 0] = [1; 2; 6; 7; 8; 4; 5; 3])
      as Hfo.
    { unfold freed_objects. rewrite Hde, Hie, Hvis, Hta. reflexivity. }
    rewrite Hfo in Hfreed. exact Hfreed.
Defined.

Section LockHeld.
Context {host : Platform}.

(** The back-off of lines 198-200 leaves alone what the other threads
    leave alone. *)
Lemma yields_keep (a : Z) :
  (∀ h, others h !! a = h !! a) →
  ∀ (n : nat) (from : Z) (m : machine),
    ∃ m', for_each n from (λ _, osd_yield_processor) m = Ret tt m' ∧
          heap m' !! a = heap m !! a.
Proof.
  intros Hk. induction n as [|n IH]; intros from m.
  - by exists m.
  - cbn [for_each]. unfold osd_yield_processor at 1. rewrite ?bind_bind.
    unfold interfere at 1. unfold bind at 1. unfold bind at 1.
    match goal with |- context [for_each n _ _ ?m0] =>
      destruct (IH (from + 1) m0) as (m' & Hrun & Hh)
    end.
    norm in Hh. rewrite Hk in Hh. by exists m'.
Qed.

(** X11.  The scalable lock is not reentrant: when the slot of the next
    ticket does not hold the baton, which is the state between an acquire
    and its release, and no other thread touches the lock, a call of
    [scalable_lock_acquire] does not return, however long it runs. *)
Theorem lock_acquire_spins_while_held (fuel : nat) (lock : Z) (q : osd_work_queue)
    (m : machine) :
  heap m !! lock = Some (OQueue q) →
  slot_get (q_lock q) (nextindex (q_lock q) mod 16) = FALSE →
  (∀ h, others h !! lock = h !! lock) →
  scalable_lock_acquire fuel lock m = OutOfFuel.
Proof.
  intros Hq Hslot Hk. unfold scalable_lock_acquire.
  rewrite (bind_ret_l _ _ _ _ _ (load_queue_ok _ _ _ Hq)).
  rewrite acquire_ticket_eq.
  erewrite bind_ret_l; [|by eapply modify_queue_ok]. norm.
  set (l := {| slot := slot (q_lock q); nextindex := wrap32 (nextindex (q_lock q) + 1) |}).
  set (myslot := nextindex (q_lock q) mod 16).
  assert (slot_get l myslot = FALSE) as Hl by exact Hslot.
  match goal with |- loop ?f ?body 1 ?m0 = _ =>
    assert (heap m0 !! lock = Some (OQueue (set_q_lock l q))) as Hq0
      by (norm; apply lookup_insert_eq);
    cut (∀ backoff m1, heap m1 !! lock = Some (OQueue (set_q_lock l q)) →
                       loop f body backoff m1 = OutOfFuel);
      [intros Hgen; by apply Hgen|]
  end.
  clear Hq Hq0.
  induction fuel as [|fuel IH]; intros backoff m0 Hq0; [done|].
  cbn [loop]. rewrite ?bind_bind.
  rewrite (bind_ret_l _ _ _ _ _ (load_queue_ok _ _ _ Hq0)).
  unfold acquire_try, osd_compare_exchange32. cbn [q_lock set_q_lock].
  rewrite Hl. cbn [Z.eqb FALSE TRUE]. change (0 =? TRUE) with false. cbn iota.
  rewrite ?bind_bind.
  erewrite bind_ret_l; [|by eapply modify_queue_ok]. norm.
  pose proof (slot_set_get l myslot) as Hid. rewrite Hl in Hid.
  first [rewrite Hid | unfold FALSE in Hid; rewrite Hid].
  change (set_q_lock l (set_q_lock l q)) with (set_q_lock l q).
  rewrite insert_id by done.
  change (FALSE =? 0) with true. cbn iota. rewrite ?bind_bind.
  match goal with |- bind (for_each ?n ?f _) _ ?m1 = _ =>
    destruct (yields_keep lock Hk n f m1) as (m2 & Hrun & Hh)
  end.
  rewrite (bind_ret_l _ _ _ _ _ Hrun). unfold ret at 1. unfold bind at 1.
  apply IH. rewrite Hh. norm. exact Hq0.
Qed.

End LockHeld.

Lemma lock_acquire_spins_while_held_witness :
  let host := example_host 1 None in
  let m := final_state (held_lock_scenario (boot 3)) in
  scalable_lock_acquire 100 1 m = OutOfFuel.
Proof.
  intros host m.
  assert (∃ q, heap m !! 1 = Some (OQueue q) ∧
               slot_get (q_lock q) (nextindex (q_lock q) mod 16) = FALSE)
    as (q & Hq & Hslot).
  { eexists. split; [vm_compute; reflexivity|]. reflexivity. }
  apply (@lock_acquire_spins_while_held host 100 1 q m Hq Hslot).
  intros h. reflexivity.
Defined.

Section NoProcessors.
Context {host : Platform}.

Lemma choose_threads_nonpositive (numprocs flags : Z) :
  - 2 ^ 31 ≤ numprocs ≤ 0 →
  choose_threads numprocs flags = if multi_queue flags then 16 else 1.
Proof.
  intros Hn. unfold choose_threads, multi_queue, MAX_THREADS.
  destruct (Z.eqb_spec numprocs 1); [lia|].
  destruct (negb (Z.land flags WORK_QUEUE_FLAG_MULTI =? 0)); [|done].
  apply Z.min_r. unfold to_u32, wrap32.
  destruct (decide (numprocs = - 2 ^ 31)) as [->|Hne]; [done|].
  rewrite (Z.mod_small (numprocs - 1 + 2 ^ 31)) by lia.
  replace (numprocs - 1 + 2 ^ 31 - 2 ^ 31) with (numprocs - 1) by lia.
  rewrite <- (Z_mod_plus_full (numprocs - 1) 1 (2 ^ 32)).
  rewrite Z.mod_small by lia. lia.
Qed.

(** X12.  When the processor count that [osd_work_queue_alloc] works with
    is zero or negative (the probe of the platform says so and
    [OSDPROCESSORS] does not override it), the branch for several
    processors is taken: a MULTI queue gets 16 workers, because
    [numprocs - 1] is stored in the unsigned [threads] before it is clamped,
    and any other queue gets 1. *)
Theorem queue_alloc_nonpositive_processors (fuel : nat) (flags : Z) (m : machine)
    (rest : list bool) :
  let n := if multi_queue flags then 16 else 1 in
  - 2 ^ 31 ≤ effective_num_processors ≤ 0 → 0 < brk m →
  supply m = replicate (3 + 2 * Z.to_nat n) true ++ rest →
  ∃ m' q,
    osd_work_queue_alloc fuel flags m = Ret (brk m) m' ∧
    queue_at m' (brk m) = Some q ∧ q_threads q = n ∧
    brk m' = brk m + 3 + 2 * n ∧ supply m' = rest.
Proof.
  intros n HN Hbrk Hsup.
  pose proof (choose_threads_nonpositive _ flags HN) as Hct. fold n in Hct.
  rewrite <- Hct in Hsup.
  destruct (osd_work_queue_alloc_ok fuel flags m rest Hbrk Hsup)
    as (m' & arr & Hrun & Hq & _ & _ & Hb & Hs & _).
  exists m', (new_queue (brk m) flags). split; [done|].
  unfold queue_at. rewrite Hq. split; [done|].
  cbn [q_threads new_queue]. rewrite <- Hct. done.
Qed.

End NoProcessors.

Lemma queue_alloc_nonpositive_processors_witness :
  let host := example_host 0 None in
  ∃ m' q,
    osd_work_queue_alloc 0 2 (boot 35) = Ret 1 m' ∧
    queue_at m' 1 = Some q ∧ q_threads q = 16 ∧ brk m' = 1 + 3 + 2 * 16 ∧ supply m' = [].
Proof.
  intros host.
  apply (@queue_alloc_nonpositive_processors host 0 2 (boot 35) []).
  - vm_compute. split; discriminate.
  - reflexivity.
  - reflexivity.
Defined.

Section DrainRecycles.
Context {host : Platform}.

Lemma recycled_agree (h h' : gmap Z object) (l : list Z) :
  (∀ a, a ∈ l → auto_item h' a = auto_item h a) → recycled h' l = recycled h l.
Proof.
  intros Hag. unfold recycled. f_equal. induction l as [|a l IH]; [done|].
  rewrite !filter_cons. rewrite (Hag a) by (by left).
  rewrite IH; [done|]. intros b Hb. apply Hag. by right.
Qed.

Lemma recycled_cons (h : gmap Z object) (a : Z) (l : list Z) :
  recycled h (a :: l) = recycled h l ++ (if auto_item h a then [a] else []).
Proof.
  unfold recycled. rewrite filter_cons.
  destruct (auto_item h a); cbn [decide_rel]; [|by rewrite app_nil_r].
  destruct (decide (true = true)); [|done]. done.
Qed.

(** The drain loop with the free list it leaves. *)
Lemma drain_loop_recycles (fuel' : nat) (queue : Z) (pl : list Z) :
  ∀ (fuel : nat) (m : machine) (q : osd_work_queue) (fl : list Z),
    queue_wf m queue q pl fl → (length pl < fuel)%nat →
    ∃ m' q',
      loop fuel (drain_round (S fuel') queue) tt m = Ret tt m' ∧
      queue_wf m' queue q' [] (recycled (heap m) pl ++ fl) ∧
      touches pl m m' ∧ same_config q q'.
Proof.
  induction pl as [|a pl IH]; intros fuel m q fl Hwf Hfuel.
  - destruct fuel as [|fuel]; [simpl in Hfuel; lia|].
    exists m, q. split.
    + cbn [loop]. unfold drain_round at 1. rewrite bind_bind.
      rewrite (bind_ret_l _ _ _ _ _ (load_queue_ok _ _ _ (wf_queue _ _ _ _ _ Hwf))).
      rewrite (wf_items _ _ _ _ _ Hwf). done.
    + split; [done|]. split; [apply touches_refl|done].
  - destruct fuel as [|fuel]; [simpl in Hfuel; lia|]. simpl in Hfuel.
    pose proof (wf_nodup _ _ _ _ _ Hwf) as Hnd.
    rewrite <- app_comm_cons in Hnd. apply NoDup_cons in Hnd as [Ha _].
    apply not_elem_of_app in Ha as [Hapl _].
    destruct (drain_round_ok fuel' queue a q pl fl m Hwf)
      as (m1 & q1 & it & it1 & Hit & Hrun1 & Hwf1 & Hit1 & Hcomp & Htouch1 & Htr1 & Hclk1
          & Hcfg1).
    destruct (IH fuel m1 q1 _ Hwf1) as (m' & q' & Hrun & Hwf' & Htouch & Hcfg); [lia|].
    exists m', q'. split.
    { cbn [loop]. by rewrite (bind_ret_l _ _ _ _ _ Hrun1). }
    pose proof Htouch1 as (Hkeep1 & _).
    split; [|split].
    + assert (recycled (heap m1) pl = recycled (heap m) pl) as Hrec.
      { apply recycled_agree. intros b Hb. unfold auto_item.
        destruct (seg_elem _ _ _ _ b (wf_pending _ _ _ _ _ Hwf)) as [_ [itb Hitb]];
          [by right|].
        rewrite Hitb. rewrite (Hkeep1 b itb); [done| |done].
        rewrite list_elem_of_singleton. by intros ->. }
      rewrite Hrec in Hwf'. rewrite recycled_cons. unfold auto_item. rewrite Hit.
      rewrite <- app_assoc. by destruct (auto_release (it_flags it)).
    + by apply (touches_trans [a] pl m m1 m').
    + destruct Hcfg1 as (? & ? & ? & ? & ? & ? & ?), Hcfg as (? & ? & ? & ? & ? & ? & ?).
      unfold same_config. split_and!; congruence.
Qed.

(** X13.  What the drain does with the items: [worker_thread_process]
    empties the pending list of a well-formed queue, and the free list
    afterwards is the old one with the AUTO_RELEASE items of the pending
    list pushed in front of it, the last one completed first.  The items
    without the flag are on no list any more, and nothing is allocated. *)
Theorem drain_recycles_auto_release (fuel : nat) (queue : Z) (thread : Z * Z)
    (m : machine) (q : osd_work_queue) (pl fl : list Z) :
  queue_wf m queue q pl fl → (length pl < fuel)%nat →
  ∃ m' q',
    worker_thread_process fuel queue thread m = Ret tt m' ∧
    queue_wf m' queue q' [] (recycled (heap m) pl ++ fl) ∧
    q_free q' = hd NULL (recycled (heap m) pl ++ fl) ∧
    brk m' = brk m ∧ supply m' = supply m.
Proof.
  intros Hwf Hfuel. destruct fuel as [|fuel]; [lia|].
  destruct (drain_loop_recycles fuel queue pl (S fuel) m q fl Hwf Hfuel)
    as (m1 & q1 & Hrun & Hwf1 & (_ & _ & _ & Hb1 & Hs1) & Hcfg).
  unfold worker_thread_process.
  rewrite (bind_ret_l _ _ _ _ _ Hrun).
  rewrite (bind_ret_l _ _ _ _ _ (load_queue_ok _ _ _ (wf_queue _ _ _ _ _ Hwf1))).
  pose proof (chain_hd _ _ _ (wf_free _ _ _ _ _ Hwf1)) as Hhd.
  destruct (q_waiting q1 =? 0); cbn [negb].
  - exists m1, q1. done.
  - destruct (wf_done _ _ _ _ _ Hwf1) as [ev Hev].
    rewrite (osd_event_set_ok _ _ _ Hev).
    eexists _, q1. split; [reflexivity|]. split; [|done].
    eapply queue_wf_touches; [exact Hwf1|by eapply touches_event_update|]. norm.
    rewrite lookup_insert_ne; [apply (wf_queue _ _ _ _ _ Hwf1)|].
    intros Heq. pose proof (wf_queue _ _ _ _ _ Hwf1) as Hq1. rewrite <- Heq in Hq1.
    congruence.
Qed.

End DrainRecycles.

Lemma drain_recycles_auto_release_witness :
  let host := example_host 4 None in
  let m := final_state (pending_scenario 0 1 (boot 9)) in
  ∃ m' q',
    worker_thread_process 8 1 (3, 0) m = Ret tt m' ∧
    queue_wf m' 1 q' [] [8; 7; 6] ∧ q_free q' = 8 ∧ supply m' = supply m.
Proof.
  intros host m.
  destruct (pending_scenario_wf 1) as (q & Hwf & _).
  fold host in Hwf. fold m in Hwf.
  destruct (@drain_recycles_auto_release host 8 1 (3, 0) m q [6; 7; 8] [] Hwf)
    as (m' & q' & Hrun & Hwf' & Hfree & _ & Hs).
  - simpl. lia.
  - assert (recycled (heap m) [6; 7; 8] ++ [] = [8; 7; 6]) as Hrec
      by (vm_compute; reflexivity).
    rewrite Hrec in Hwf', Hfree.
    exists m', q'. split; [exact Hrun|]. split; [exact Hwf'|].
    split; [exact Hfree|exact Hs].
Defined.

Section SubmitInvariant.
Context {host : Platform}.

(** X14.  A submission of at least one item to a queue with workers keeps
    the queue well-formed, so that submissions can follow each other: the
    new items are appended to the pending list, [tailptr] points to the
    [next] field of the last of them, [items] counts the list, and the
    items come from the free list as far as it reaches: only
    [n - length fl] allocations are made, and the free list loses its first
    [n] items. *)
Theorem submit_keeps_queue_wf (fuel : nat) (queue : Z) (q : osd_work_queue)
    (pl fl : list Z) (cb : Z → Z) (n base step flags : Z) (m : machine)
    (rest : list bool) :
  queue_wf m queue q pl fl → threads_wf m q → q_threads q ≠ 0 →
  0 < n → Z.of_nat (length pl) + n ≤ INT32_MAX →
  supply m = replicate (Z.to_nat n - length fl) true ++ rest →
  ∃ m' q' added,
    osd_work_item_queue_multiple (S fuel) queue cb n base step flags m
      = Ret (if auto_release flags then NULL else hd NULL added) m' ∧
    length added = Z.to_nat n ∧
    queue_wf m' queue q' (pl ++ added) (drop (Z.to_nat n) fl) ∧
    q_tailptr q' = tail_of queue (pl ++ added) ∧
    q_items q' = Z.of_nat (length pl) + n ∧
    threads_wf m' q' ∧ same_config q q' ∧
    supply m' = rest.
Proof.
  intros Hwf Hth Hnz Hn Hbound Hsup.
  destruct (submit_threads_wf fuel queue q pl fl cb n base step flags m rest
              Hwf Hth Hnz Hn Hbound Hsup)
    as (m' & q' & added & woken & Hrun & Hlen & Hwf' & Hcfg & Hth' & _ & Hs & _).
  exists m', q', added. split; [exact Hrun|]. split; [exact Hlen|].
  split; [exact Hwf'|]. split; [exact (wf_tail _ _ _ _ _ Hwf')|].
  split; [|done].
  rewrite (wf_items _ _ _ _ _ Hwf'), length_app, Hlen. lia.
Qed.

End SubmitInvariant.

Lemma submit_keeps_queue_wf_witness :
  let host := example_host 4 None in
  let m := final_state (osd_work_queue_alloc 8 0 (boot 9)) in
  ∃ m' q' added,
    osd_work_item_queue_multiple 8 1 square 3 1 1 0 m = Ret (hd NULL added) m' ∧
    queue_wf m' 1 q' added [] ∧ q_items q' = 3 ∧ supply m' = [true].
Proof.
  intros host m.
  destruct (@osd_work_queue_alloc_wf host 8 0 (boot 9) (replicate 4 true))
    as (m1 & Hrun1 & Hwf1 & Hs1 & _); [apply heap_fresh_boot|reflexivity|].
  assert (m1 = m) as Hm by (unfold m; by rewrite Hrun1).
  rewrite Hm in Hwf1, Hs1. clear Hrun1 Hm m1.
  assert (threads_wf m (new_queue 1 0)) as Hth1.
  { eexists. split; [vm_compute; reflexivity|]. split; [vm_compute; lia|].
    intros i th Hi Hlt. vm_compute in Hlt.
    destruct i as [|i]; [|lia]. simpl in Hi. injection Hi as <-.
    eexists. vm_compute. reflexivity. }
  destruct (@submit_keeps_queue_wf host 7 1 (new_queue 1 0) [] [] square 3 1 1 0 m [true]
              Hwf1 Hth1)
    as (m' & q' & added & Hrun & _ & Hwf' & _ & Hi & _ & _ & Hs).
  - vm_compute. discriminate.
  - lia.
  - unfold INT32_MAX. simpl. lia.
  - rewrite Hs1. reflexivity.
  - exists m', q', added. split; [exact Hrun|]. split; [exact Hwf'|].
    split; [exact Hi|exact Hs].
Defined.

(** ** The event of an item *)

Lemma item_at_Some (m : machine) (a : Z) (it : osd_work_item) :
  item_at m a = Some it ↔ heap m !! a = Some (OItem it).
Proof.
  unfold item_at. destruct (heap m !! a) as [[]|]; split; intros H; by simplify_eq.
Qed.

Lemma events_retained_refl (m : machine) : events_retained m m.
Proof. intros a it Hit. by exists it. Qed.

Lemma events_retained_trans (m1 m2 m3 : machine) :
  events_retained m1 m2 → events_retained m2 m3 → events_retained m1 m3.
Proof.
  intros H12 H23 a it1 Hit1.
  destruct (H12 a it1 Hit1) as (it2 & Hit2 & He2).
  destruct (H23 a it2 Hit2) as (it3 & Hit3 & He3).
  exists it3. split; [done|]. intros Hnn.
  rewrite He3; [by apply He2|]. by rewrite He2.
Qed.

(** The items keep their events when every item of [m] is an item of [m']
    with the same event. *)
Lemma events_retained_same (m m' : machine) :
  (∀ b itb, heap m !! b = Some (OItem itb) →
            ∃ itb', heap m' !! b = Some (OItem itb') ∧ it_event itb' = it_event itb) →
  events_retained m m'.
Proof.
  intros Hsame a it Hit. apply item_at_Some in Hit.
  destruct (Hsame a it Hit) as (it' & Hit' & He).
  exists it'. split; [by apply item_at_Some|done].
Qed.

Section ItemEvent.
Context {host : Platform}.

(** Lines 457-461 on a free list that is not empty: its head is taken as
    it is. *)
Lemma obtain_item_recycled (fuel : nat) (queue a : Z) (q : osd_work_queue)
    (pl fl : list Z) (m : machine) :
  queue_wf m queue q pl (a :: fl) →
  ∃ it, heap m !! a = Some (OItem it) ∧ a ≠ queue ∧
        obtain_item (S fuel) queue m =
          Ret a (set_heap (<[queue := OQueue (set_q_free (it_next it) q)]> (heap m)) m).
Proof.
  intros Hwf. pose proof (wf_queue _ _ _ _ _ Hwf) as Hq.
  destruct (wf_free _ _ _ _ _ Hwf) as (Hf & Hnz & it & Hit & _).
  exists it. split; [done|]. split; [ne_kind|].
  unfold obtain_item.
  rewrite (bind_ret_l _ _ _ _ _ (pop_free_cons _ _ _ _ _ _ Hq Hf Hnz Hit)).
  destruct (Z.eqb_spec a NULL) as [|_]; done.
Qed.

(** Lines 464-472 on an empty free list: a new item, with no event. *)
Lemma obtain_item_new (fuel : nat) (queue : Z) (q : osd_work_queue) (m : machine)
    (rest : list bool) :
  heap m !! queue = Some (OQueue q) → q_free q = NULL → 0 < brk m →
  supply m = true :: rest →
  obtain_item (S fuel) queue m =
    Ret (brk m)
        {| heap := <[brk m := OItem (set_it_queue queue (set_it_event NULL item_fresh))]>
                     (heap m);
           brk := brk m + 1; supply := rest; clock := clock m; trace := trace m |}.
Proof.
  intros Hq Hfree Hpos Hsup. unfold obtain_item.
  rewrite (bind_ret_l _ _ _ _ _ (pop_free_nil _ _ _ _ Hq Hfree)).
  rewrite Z.eqb_refl.
  erewrite bind_ret_l; [|by eapply alloc_ok].
  destruct (Z.eqb_spec (brk m) NULL) as [Hb|Hnz]; [unfold NULL in Hb; lia|].
  erewrite bind_ret_l; [|eapply modify_item_ok; norm; apply lookup_insert_eq]. norm.
  erewrite bind_ret_l; [|eapply modify_item_ok; norm; apply lookup_insert_eq]. norm.
  rewrite !insert_insert_eq. reflexivity.
Qed.

(** C10.  The event of an item over its life.  In a submission an item
    taken from the free list is taken as it is, with its event and its
    queue, and nothing is allocated; only a new item gets [event = NULL]
    and the queue (lines 457-472).  A whole submission, the release of a
    completed item and the drain keep the event of every item.  A wait on
    an item that is not done and has an event resets this event and
    allocates nothing; a wait on an item without event allocates one; a
    wait on a completed item does nothing.  So the event of an item changes
    only once, from NULL to the event that the first blocking wait
    allocates, whatever sequence of these calls follows
    ([events_retained] is reflexive and transitive).  The other threads are
    taken to leave the event fields of the items and the kind of the events
    alone. *)
Theorem item_event_retained :
  (∀ (fuel : nat) (queue a : Z) (q : osd_work_queue) (pl fl : list Z) (m : machine),
     queue_wf m queue q pl (a :: fl) →
     ∃ m' it,
       obtain_item (S fuel) queue m = Ret a m' ∧
       item_at m a = Some it ∧ item_at m' a = Some it ∧ it_queue it = queue ∧
       brk m' = brk m ∧ supply m' = supply m) ∧
  (∀ (fuel : nat) (queue : Z) (q : osd_work_queue) (pl : list Z) (m : machine)
     (rest : list bool),
     queue_wf m queue q pl [] → supply m = true :: rest →
     ∃ m' it,
       obtain_item (S fuel) queue m = Ret (brk m) m' ∧
       heap m !! brk m = None ∧ item_at m' (brk m) = Some it ∧
       it_event it = NULL ∧ it_queue it = queue ∧
       brk m' = brk m + 1 ∧ supply m' = rest) ∧
  (∀ (fuel : nat) (queue : Z) (q : osd_work_queue) (pl fl : list Z) (cb : Z → Z)
     (n base step flags : Z) (m : machine) (rest : list bool),
     queue_wf m queue q pl fl →
     (q_threads q ≠ 0 ∧ threads_wf m q) ∨ (q_threads q = 0 ∧ pl = []) →
     0 ≤ n ≤ INT32_MAX → (Z.to_nat n ≤ fuel)%nat →
     supply m = replicate (Z.to_nat n - length fl) true ++ rest →
     ∃ r m',
       osd_work_item_queue_multiple (S fuel) queue cb n base step flags m = Ret r m' ∧
       events_retained m m' ∧ supply m' = rest) ∧
  (∀ (fuel : nat) (item : Z) (it : osd_work_item) (q : osd_work_queue) (m : machine),
     heap m !! item = Some (OItem it) → it_done it ≠ 0 →
     heap m !! it_queue it = Some (OQueue q) →
     ∃ m',
       osd_work_item_release (S fuel) item m = Ret tt m' ∧
       events_retained m m' ∧ brk m' = brk m ∧ supply m' = supply m) ∧
  (∀ (fuel : nat) (queue : Z) (thread : Z * Z) (q : osd_work_queue) (pl fl : list Z)
     (m : machine),
     queue_wf m queue q pl fl → (length pl < fuel)%nat →
     ∃ m',
       worker_thread_process fuel queue thread m = Ret tt m' ∧
       events_retained m m' ∧ brk m' = brk m ∧ supply m' = supply m) ∧
  (∀ (fuel : nat) (item timeout : Z) (it : osd_work_item) (m : machine),
     heap m !! item = Some (OItem it) → it_done it ≠ 0 →
     osd_work_item_wait fuel item timeout m = Ret TRUE m) ∧
  (∀ (fuel : nat) (item timeout : Z) (it : osd_work_item) (m : machine),
     heap m !! item = Some (OItem it) → it_done it = 0 → heap_fresh m →
     (∀ h b itb, h !! b = Some (OItem itb) →
                 ∃ itb', others h !! b = Some (OItem itb') ∧ it_event itb' = it_event itb) →
     (∀ h e ev, h !! e = Some (OEvent ev) → ∃ ev', others h !! e = Some (OEvent ev')) →
     (it_event it ≠ NULL → is_event (heap m) (it_event it) →
      ∃ r m',
        osd_work_item_wait fuel item timeout m = Ret r m' ∧
        events_retained m m' ∧ brk m' = brk m ∧ supply m' = supply m ∧
        trace m' = trace m ++
          [EvEventReset (it_event it); EvEventWait (it_event it) timeout]) ∧
     (∀ rest, it_event it = NULL → supply m = true :: rest →
      ∃ r m' it',
        osd_work_item_wait fuel item timeout m = Ret r m' ∧
        events_retained m m' ∧
        item_at m' item = Some it' ∧ it_event it' = brk m ∧ is_event (heap m') (brk m) ∧
        brk m' = brk m + 1 ∧ supply m' = rest)) ∧
  (∀ m, events_retained m m) ∧
  (∀ m1 m2 m3, events_retained m1 m2 → events_retained m2 m3 → events_retained m1 m3).
Proof.
  split_and!.
  - intros fuel queue a q pl fl m Hwf.
    destruct (obtain_item_recycled fuel queue a q pl fl m Hwf) as (it & Hit & Hne & Hrun).
    destruct (wf_owner _ _ _ _ _ Hwf a it) as [Hown _]; [apply elem_of_app; right; by left|done|].
    eexists _, it. split; [exact Hrun|]. norm.
    split; [by apply item_at_Some|].
    split; [apply item_at_Some; norm; by rewrite lookup_insert_ne|]. done.
  - intros fuel queue q pl m rest Hwf Hsup.
    pose proof (wf_queue _ _ _ _ _ Hwf) as Hq.
    destruct (wf_fresh _ _ _ _ _ Hwf) as [Hpos Hfr].
    assert (q_free q = NULL) as Hfree by exact (wf_free _ _ _ _ _ Hwf).
    eexists _, _. split; [exact (obtain_item_new fuel queue q m rest Hq Hfree Hpos Hsup)|].
    norm. split; [apply Hfr; lia|].
    split; [apply item_at_Some; norm; apply lookup_insert_eq|]. done.
  - intros fuel queue q pl fl cb n base step flags m rest Hwf Hcase Hn Hfuel Hsup.
    destruct Hcase as [[Hnz Hth]|[Hz ->]].
    + destruct (submit_threads_ok fuel queue q pl fl cb n base step flags m rest Hwf Hth Hnz)
        as (m' & q' & added & Hrun & _ & _ & _ & _ & _ & _ & _ & Hev & Hs); [lia|done|].
      eexists _, m'. split; [exact Hrun|]. split; [by apply events_retained_same|done].
    + destruct (submit_inline_ok fuel queue q fl cb n base step flags m rest Hwf Hz Hn Hfuel
                  Hsup)
        as (m' & q' & added & Hrun & _ & _ & _ & _ & _ & _ & _ & Hev & Hs & _).
      eexists _, m'. split; [exact Hrun|]. split; [by apply events_retained_same|done].
  - intros fuel item it q m Hit Hdone Hq.
    eexists. split; [exact (item_release_ok fuel (it_queue it) item q it m Hq Hit Hdone eq_refl)|].
    norm. split; [|done].
    assert (it_queue it ≠ item) as Hne by (intros Heq; rewrite Heq in Hq; congruence).
    apply events_retained_same. norm. intros b itb Hb.
    assert (b ≠ it_queue it) as Hbq by (intros ->; congruence).
    rewrite lookup_insert_ne by done.
    destruct (decide (b = item)) as [->|Hbi].
    + rewrite lookup_insert_eq. eexists. split; [done|]. by simplify_eq.
    + rewrite lookup_insert_ne by done. by exists itb.
  - intros fuel queue thread q pl fl m Hwf Hfuel.
    destruct (worker_thread_process_ok fuel queue thread m q pl fl Hwf Hfuel)
      as (m' & q' & fl' & Hrun & _ & Hdone & (Hkeep & _ & _ & Hb & Hs) & _).
    exists m'. split; [exact Hrun|]. split; [|done].
    apply events_retained_same. intros b itb Hb'.
    destruct (decide (b ∈ pl)) as [Hin|Hnin].
    + destruct (Hdone b itb Hin Hb') as (it' & Hit' & Hc). exists it'. split; [done|].
      by destruct Hc as (_ & _ & _ & _ & _ & ? & _).
    + exists itb. split; [by apply Hkeep|done].
  - intros fuel item timeout it m Hit Hdone. unfold osd_work_item_wait.
    rewrite (bind_ret_l _ _ _ _ _ (load_item_ok _ _ _ Hit)).
    destruct (Z.eqb_spec (it_done it) 0); done.
  - intros fuel item timeout it m Hit Hdone Hfresh Hkeep Hkev.
    assert (∀ h it0, h !! item = Some (OItem it0) →
              ∃ it1, others h !! item = Some (OItem it1) ∧ it_event it1 = it_event it0)
      as Hkeep1 by (intros h it0; apply Hkeep).
    split.
    + intros Hnn [ev Hev].
      destruct (item_wait_event_ok fuel item timeout it ev m Hit Hdone Hfresh Hkeep1 Hkev
                  Hnn Hev)
        as (m' & it' & Hrun & Hit' & He & Hframe & Hb & Hs & Htr).
      eexists _, m'. split; [exact Hrun|]. split; [|done].
      apply events_retained_same. intros b itb Hb'.
      assert (b ≠ it_event it) as Hne by (intros ->; congruence).
      rewrite Hframe by done. apply Hkeep. by rewrite lookup_insert_ne.
    + intros rest Hnull Hsup.
      destruct (item_wait_alloc_ok fuel item timeout it m rest Hit Hdone Hfresh Hkeep1 Hkev
                  Hnull Hsup)
        as (m' & it' & Hrun & Hit' & He & Hev & Hframe & Hb & Hs & _).
      eexists _, m', it'. split; [exact Hrun|]. split; [|done].
      destruct Hfresh as [Hpos Hfr].
      intros b itb Hb'. apply item_at_Some in Hb'.
      assert (b ≠ brk m) as Hne by (intros ->; rewrite Hfr in Hb' by lia; done).
      destruct (decide (b = item)) as [->|Hbi].
      * exists it'. split; [done|]. intros Hnn. rewrite Hit in Hb'. by simplify_eq.
      * edestruct (Hkeep (<[item := OItem (set_it_event (brk m) it)]>
                            (<[brk m := OEvent (mkEvent TRUE FALSE)]> (heap m))) b itb)
          as (itb' & Hitb' & Heb).
        { by rewrite !lookup_insert_ne. }
        exists itb'. split; [apply item_at_Some; by rewrite Hframe|done].
  - apply events_retained_refl.
  - apply events_retained_trans.
Qed.

End ItemEvent.

Lemma item_event_retained_witness :
  let host := example_host 4 None in
  let m := final_state (pending_scenario 0 0 (boot 9)) in
  ∃ r m1 it1 r' m2,
    osd_work_item_wait 8 6 5 m = Ret r m1 ∧
    item_at m1 6 = Some it1 ∧ it_event it1 = 9 ∧ supply m1 = [] ∧
    osd_work_item_wait 8 6 5 m1 = Ret r' m2 ∧
    events_retained m1 m2 ∧ brk m2 = brk m1 ∧
    trace m2 = trace m1 ++ [EvEventReset 9; EvEventWait 9 5].
Proof.
  intros host m.
  destruct (pending_scenario_wf 0) as (q & Hwf & _). fold m in Hwf.
  assert (∃ it, heap m !! 6 = Some (OItem it) ∧ it_done it = 0 ∧ it_event it = NULL)
    as (it & Hit & Hd & He).
  { eexists. split; [vm_compute; reflexivity|]. split; reflexivity. }
  assert (∀ (h : gmap Z object) b itb, h !! b = Some (OItem itb) →
            ∃ itb', others h !! b = Some (OItem itb') ∧ it_event itb' = it_event itb)
    as Hkeep.
  { intros h b itb Hb. exists itb. split; [exact Hb|reflexivity]. }
  assert (∀ (h : gmap Z object) e ev, h !! e = Some (OEvent ev) →
            ∃ ev', others h !! e = Some (OEvent ev')) as Hkev.
  { intros h e ev Hh. exists ev. exact Hh. }
  destruct (@item_event_retained host) as (_ & _ & _ & _ & _ & _ & Hwait & _).
  destruct (Hwait 8%nat 6 5 it m Hit Hd (wf_fresh _ _ _ _ _ Hwf) Hkeep Hkev) as [_ Halloc].
  destruct (Halloc [] He) as (r & m1 & it1 & Hrun1 & Hret1 & Hit1 & He1 & Hev1 & Hb1 & Hs1).
  { vm_compute. reflexivity. }
  assert (heap m1 !! 6 = Some (OItem it1)) as Hit1' by (by apply item_at_Some).
  assert (brk m = 9) as Hbrk by (vm_compute; reflexivity).
  assert (it_done it1 = 0) as Hd1.
  { destruct (item_wait_alloc_ok 8 6 5 it m [] Hit Hd (wf_fresh _ _ _ _ _ Hwf))
      as (m1' & it1' & Hrun1' & Hit1'' & _ & _ & Hframe & _).
    - intros h it0 Hh. exists it0. split; [exact Hh|reflexivity].
    - exact Hkev.
    - exact He.
    - vm_compute. reflexivity.
    - rewrite Hrun1' in Hrun1.
      injection Hrun1 as _ <-.
      rewrite Hframe in Hit1' by (rewrite Hbrk; lia).
      change (others ?h) with h in Hit1'. rewrite lookup_insert_eq in Hit1'.
      injection Hit1' as <-. exact Hd. }
  assert (heap_fresh m1) as Hfresh1.
  { destruct (wf_fresh _ _ _ _ _ Hwf) as [Hpos Hfr]. split; [lia|].
    intros a Ha.
    destruct (item_wait_alloc_ok 8 6 5 it m [] Hit Hd (wf_fresh _ _ _ _ _ Hwf))
      as (m1' & it1' & Hrun1' & _ & _ & _ & Hframe & _).
    - intros h it0 Hh. exists it0. split; [exact Hh|reflexivity].
    - exact Hkev.
    - exact He.
    - vm_compute. reflexivity.
    - rewrite Hrun1' in Hrun1. injection Hrun1 as _ <-.
      rewrite Hframe by lia. change (others ?h) with h.
      rewrite !lookup_insert_ne by lia. apply Hfr. lia. }
  destruct (Hwait 8%nat 6 5 it1 m1 Hit1' Hd1 Hfresh1 Hkeep Hkev) as [Hreset _].
  destruct Hreset as (r' & m2 & Hrun2 & Hret2 & Hb2 & _ & Htr2).
  { rewrite He1, Hbrk. discriminate. }
  { rewrite He1. exact Hev1. }
  exists r, m1, it1, r', m2.
  rewrite He1, Hbrk in Htr2.
  split; [exact Hrun1|]. split; [exact Hit1|]. split; [rewrite He1; exact Hbrk|].
  split; [exact Hs1|]. split; [exact Hrun2|]. split; [exact Hret2|].
  split; [exact Hb2|exact Htr2].
Defined.
